(* ===== verification/_CoqProject ===== *)
-Q . S2P
Prelude.v
NumberFacts.v
Text.v
Media.v
Ffmpeg.v
Scene.v
Resolver.v
Verifier.v
Concat.v
Normalizer.v
Renderer.v
Orchestrator.v
Wizard.v
Stock.v
Pixabay.v
Pexels.v
Pipeline.v
Editor.v
App.v
FilterGraph.v
VideoGenerate.v
VideoAssemble.v
LegacyRenderer.v
Scenarios.v
