(* ===== verification/Prelude.v ===== *)
(** * A verification development of the ai-video-generator repository

    The repository builds short videos from a prompt.  The front end
    ([src/frontend]) sends a form to [POST /api/prompt/generate-script-with-media]
    ([script.controller.js]); the script wizard ([scriptWizard.controller.js])
    asks a language model for a script and cuts it into scenes; a stock
    media controller ([pixabay.controller.js], [pexels.controller.js])
    finds and downloads a picture or a clip per scene; gTTS speaks each
    scene; the renderer [VideoGeneratorController]
    ([video.generator.controller.js]) turns every scene into one clip of a
    resolved duration with fluent-ffmpeg and publishes the clips; the page
    then plays them in [VideoEditor].  A second renderer (the "copy" of
    the controller) and a self-contained script-driven generator
    ([video-generate.controller.js]) sit beside the live one.  This
    development models these programs as written, with the parts of the
    environment they drive, and proves what they do.

    ** Files (in dependency order)

    - [Prelude]: JavaScript values and numbers ([jsnum]: a finite value
      as an exact rational, [NaN], the infinities; [parseFloat], ToNumber,
      [Number.prototype.toString], [Array.prototype.join]); the
      state-and-exception monad [St] for [async] code ([Ok], [Throw], and
      [Hang] for a promise that never settles) with its notations in
      [js_scope]; the predicates [settles_with] (with its hint database
      and the tactic [settle]) and [never_ok] (a run that never resolves);
      shared lemmas on strings and lists.
    - [NumberFacts]: [parseFloat] of [toString] of a number with at most
      20 decimals is that number.
    - [Text]: the regular expressions of the controllers as matchers
      driven by one global-regex scanner; [trim], case mapping, splitting.
    - [Media]: the world of files (kind and ffprobe duration), [uuidv4()],
      the warnings; [fs] and [ffprobe] calls; [path.join].
    - [Ffmpeg]: the encoding engine (not code of the repository): the
      fluent-ffmpeg builder, the concat-manifest reader and [ff_semantics],
      a reference semantics of a command; the class [Encoder] the
      controllers are written against and [EncoderSound], what a real
      encoder promises.
    - [Scene]: the scene, media, narration and result objects.
    - [Resolver], [Verifier], [Concat], [Normalizer], [Renderer],
      [Orchestrator]: [VideoGeneratorController] method by method
      ([verifyFile], [getVideoDuration], [verifyVideoDuration],
      [combineSceneVideos], [normalizeAudio], [stripAudioFromVideo],
      [generateSceneVideo], [processScenes], [generateVideo]).
    - [Wizard] (Module [ScriptWizard]): every method of the script wizard;
      the language model and the sentence tokenizer are parameters.
    - [Stock], [Pixabay], [Pexels]: the two stock controllers over a world
      with a millisecond clock ([Date.now]) and network answers indexed by
      URL ([sworld], the monad [SM]); their shared [downloadMedia],
      [processScenes] and [cleanup] in [Stock].
    - [Pipeline] (Module [ScriptController]): the route handlers of
      [script.controller.js], composing the wizard, a stock controller,
      the narrations and the renderer.
    - [Editor] (Module [VideoEditor]): [videoEditor.component.jsx] as a
      step relation [reachable]: the state hooks, each handler, React's
      commit that runs the effect when [currentClip] or [isPlaying]
      changed (Object.is on the dependencies), and the HTML media element
      (assigning [src] runs the load algorithm: position 0, duration NaN).
    - [App] (Module [PromptApp]): [prompt.component.jsx] and the service
      [video-generate.service.js]; [handleSubmit] is split at its [await]
      into a submit event and an answer event.
    - [FilterGraph]: the part of ffmpeg that [createVideo] drives
      ([complexFilter], [map]) with a reference semantics [fg_semantics],
      the class [FgEncoder] and [FgEncoderSound]; lemmas that printed
      stream indices are read back.
    - [VideoGenerate] (Module [VideoGenerate]): [parseScriptSections]
      with its shared section objects kept in a store of references,
      [estimateDuration] in binary64 (SpecFloat), the Pexels search,
      downloads, the narration and the output-path checks, over the state
      [vgstate] (world, clock, number of [Math.random()] draws).
    - [VideoAssemble]: [createVideo], its ffmpeg filter graph and its
      cleanup.
    - [LegacyRenderer]: the earlier controller ([... copy.js]).
    - [Scenarios]: concrete worlds, scenes, clips, forms and scripts, and
      the witnesses that apply each theorem to them.

    Each operation that changes state is a function [state -> state * res A]
    built with the monad in the order of the source's [await]s; each
    fluent-ffmpeg chain is a command built with the builders in the order
    of the source's calls, then run by the encoder.

    ** What is proved (claim ids of the manifest)

    - Renderer: a clip it reports lasts exactly the duration it reports
      (C1); a video shorter than its narration is never loop-extended,
      because [inputOptions(['-stream_loop -1'])] is called before the
      clip is an input and throws (C2); the duration rule (C3); a missing
      media file gives [null] (C12); a video without narration keeps its
      own audio (C13).
    - Orchestration: [processScenes] always resolves under a sound
      encoder (C4); the published URLs (C14); the verifier's tolerance
      (C15); the timeline lasts the sum of its clips (C16); the legacy
      renderer's clips and job (C17-C20).
    - Script wizard and stock search: timings as ffmpeg reads them (C21),
      the queries (C22), the parsed scenes (C23, C24), the best-match
      search as a refinement of an abstract selection (C25), the merge of
      scenes with media by position, right exactly when the scenes left
      without media are the last ones (C26), one file per scene when
      requests take time (C27), the video search's timeout (C28) and the
      image search's stall when the service never answers (C29), cleanup
      (C30), the Pexels video choice by largest area when no HD file
      exists (C31), errors (C32), the 'M:SS' duration read by parseFloat
      (C33).
    - Front end: the editor never crashes and keeps its invariant, the
      only throwing event being a timeline click before the duration is
      known or on a timeline of width 0 (C5), Play/Pause restarts the
      clip (C34), the end of a clip (C35), Next then Previous (C36); the
      page composed with the back end shows the editor on the published
      clips (C9).
    - Script-driven generator: what its ffmpeg command writes, the
      shorter of media and narration (C6); its parse equals a parse by
      value when every header matches (C7) and every section is trimmed
      and timed (C11), while in any script an unclosed header after a
      header puts the same section at two consecutive positions (C37);
      the binary64 estimate overshoots at 14 word counts (C8); one
      section without media makes the whole video fail (C10).

    ** Bounds and modelling choices

    - Finite numbers are exact rationals where the code only adds,
      subtracts and compares decimal durations; [estimateDuration] is the
      one computation that depends on binary rounding and is computed
      with SpecFloat's binary64 ([prec] 53, [emax] 1024).  Its theorem is
      checked for every word count up to 3000 (a script of that many words
      is far beyond the lengths the wizard asks for); the wizard's timing
      theorem covers fewer than 9000 words.
    - [Promise.all] runs its tasks one after the other in array order, one
      of the interleavings the event loop allows.
    - Requests take [latency url] milliseconds (at least 1 where a theorem
      needs distinct [Date.now()] values); [searchVideo]'s timeout is
      5000 ms.  Nothing is fuel-bounded except the label reader of the
      filter graph, whose fuel is the length of the text.
    - Paths are strings joined with '/'; [path.resolve] (VideoGenerate.v's
      [path_resolve]) prefixes the working directory to a relative path
      and does not collapse '.' or '..' segments, which [createVideo]'s
      own paths never contain; an output file named with them is resolved
      to a different string than Node gives.

    ** Not modelled

    Logging; the HTTP server, routes, authentication and the database
    ([index.js] and its copies, loaders, middleware, models); the clients
    of OpenAI and Gemini (parameters of the wizard); the transfer of bytes
    (downloads are oracles indexed by URL); the JSX markup of the two
    components; [video.js] and [video copy.js], standalone scripts with
    hard-coded paths that no module loads. *)

From stdpp Require Export base strings gmap list pretty.
From Stdlib Require Export QArith Qminmax Qabs Qround Lqa ZArith.
From Stdlib Require Import Ascii String.

Declare Scope js_scope.
Delimit Scope js_scope with js.
Local Open Scope string_scope.

Create HintDb pipeline.

(** ** JavaScript numbers

    A JavaScript number is a finite value, [NaN] or an infinity.  Finite
    values are modelled by exact rationals: the durations are sums,
    differences and comparisons of decimal values that ffprobe prints
    with six decimals.  The one computation that depends on binary
    rounding, [estimateDuration] of the script-driven generator, is
    modelled in binary64 in VideoGenerate.v. *)

Inductive jsnum : Type :=
| JNum (q : Q)
| JNaN
| JInf (neg : bool).

Definition js_zero : jsnum := JNum 0.

(** Strict order on rationals as a boolean test. *)
Definition Qlt_bool (x y : Q) : bool := negb (Qle_bool y x).

(** [isNaN(x)] *)
Definition js_isNaN (x : jsnum) : bool :=
  match x with JNaN => true | _ => false end.

(** [isFinite(x)] *)
Definition js_isFinite (x : jsnum) : bool :=
  match x with JNum _ => true | _ => false end.

(** ToBoolean on numbers: [0] and [NaN] are falsy. *)
Definition js_truthy (x : jsnum) : bool :=
  match x with
  | JNum q => negb (Qeq_bool q 0)
  | JNaN => false
  | JInf _ => true
  end.

(** [a < b]; every comparison with [NaN] is false. *)
Definition js_lt (a b : jsnum) : bool :=
  match a, b with
  | JNum x, JNum y => Qlt_bool x y
  | JNum _, JInf neg => negb neg
  | JInf neg, JNum _ => neg
  | JInf n1, JInf n2 => n1 && negb n2
  | _, _ => false
  end.

(** [a <= b] *)
Definition js_le (a b : jsnum) : bool :=
  match a, b with
  | JNum x, JNum y => Qle_bool x y
  | JNum _, JInf neg => negb neg
  | JInf neg, JNum _ => neg
  | JInf n1, JInf n2 => n1 || negb n2
  | _, _ => false
  end.

Definition js_gt (a b : jsnum) : bool := js_lt b a.

(** [a + b] *)
Definition js_add (a b : jsnum) : jsnum :=
  match a, b with
  | JNum x, JNum y => JNum (x + y)
  | JNum _, JInf n | JInf n, JNum _ => JInf n
  | JInf n1, JInf n2 => if Bool.eqb n1 n2 then JInf n1 else JNaN
  | _, _ => JNaN
  end.

(** [-a] and [a - b] *)
Definition js_neg (a : jsnum) : jsnum :=
  match a with JNum x => JNum (- x) | JNaN => JNaN | JInf n => JInf (negb n) end.

Definition js_sub (a b : jsnum) : jsnum := js_add a (js_neg b).

(** [Math.abs(a)] *)
Definition js_abs (a : jsnum) : jsnum :=
  match a with JNum x => JNum (Qabs x) | JNaN => JNaN | JInf _ => JInf false end.

(** The sign of a non-zero finite number, for the infinities of [*] and [/]
    (JavaScript's [-0] is not distinguished from [0]). *)
Definition Qneg_bool (x : Q) : bool := Qlt_bool x 0.

(** [a * b] *)
Definition js_mul (a b : jsnum) : jsnum :=
  match a, b with
  | JNum x, JNum y => JNum (x * y)
  | JNum x, JInf n | JInf n, JNum x =>
      if Qeq_bool x 0 then JNaN else JInf (xorb n (Qneg_bool x))
  | JInf n1, JInf n2 => JInf (xorb n1 n2)
  | _, _ => JNaN
  end.

(** [a / b] *)
Definition js_div (a b : jsnum) : jsnum :=
  match a, b with
  | JNum x, JNum y =>
      if Qeq_bool y 0 then (if Qeq_bool x 0 then JNaN else JInf (Qneg_bool x)) else JNum (x / y)
  | JInf n, JNum y => JInf (xorb n (Qneg_bool y))
  | JNum _, JInf _ => JNum 0
  | _, _ => JNaN
  end.

(** [Math.min(a, b)] and [Math.max(a, b)]: [NaN] if either is. *)
Definition js_min (a b : jsnum) : jsnum :=
  match a, b with
  | JNaN, _ | _, JNaN => JNaN
  | _, _ => if js_lt b a then b else a
  end.

Definition js_max (a b : jsnum) : jsnum :=
  match a, b with
  | JNaN, _ | _, JNaN => JNaN
  | _, _ => if js_lt a b then b else a
  end.

(** [Math.round(a)]: the nearest integer, halves upwards. *)
Definition round_half_up (x : Q) : Z := Qfloor (x + (1 # 2)).

Definition js_math_round (a : jsnum) : jsnum :=
  match a with JNum x => JNum (inject_Z (round_half_up x)) | _ => a end.

(** Numeric equality of finite values ([===] on numbers, up to the
    representation of rationals). *)
Definition jsnum_equiv (a b : jsnum) : Prop :=
  match a, b with
  | JNum x, JNum y => x == y
  | JNaN, JNaN => True
  | JInf n1, JInf n2 => n1 = n2
  | _, _ => False
  end.

#[export] Instance jsnum_Equiv : Equiv jsnum := jsnum_equiv.

#[export] Instance jsnum_equiv_Equivalence : Equivalence (≡@{jsnum}).
Proof.
  split.
  - intros []; cbn; reflexivity.
  - intros [] []; cbn; try done; intros H; symmetry; exact H.
  - intros [] [] []; cbn; try done; intros H1 H2; etransitivity; eauto.
Qed.

#[export] Instance Q_eq_dec : EqDecision Q.
Proof. intros [n1 d1] [n2 d2]. unfold Decision. decide equality; apply decide; apply _. Defined.

#[export] Instance jsnum_eq_dec : EqDecision jsnum.
Proof. solve_decision. Defined.

(** ** JavaScript values reaching the code

    Fields of the scene objects are untyped in the source; a field read
    yields one of these. *)

Inductive jsval : Type :=
| VUndefined
| VNull
| VBool (b : bool)
| VNum (n : jsnum)
| VStr (s : string).

(** [a === b]: numbers compare by value ([NaN] is equal to nothing),
    strings by their characters. *)
Definition js_strict_eq (a b : jsval) : bool :=
  match a, b with
  | VUndefined, VUndefined | VNull, VNull => true
  | VBool x, VBool y => Bool.eqb x y
  | VNum (JNum x), VNum (JNum y) => Qeq_bool x y
  | VNum (JInf x), VNum (JInf y) => Bool.eqb x y
  | VStr x, VStr y => String.eqb x y
  | _, _ => false
  end.

(** *** [parseFloat]

    [parseFloat(s)] skips leading white space and reads the longest prefix
    of [s] that is a StrDecimalLiteral: a sign, ["Infinity"], or digits
    with an optional fraction and exponent.  Nothing readable gives
    [NaN]. *)

(** JavaScript's white space and line terminators ([\s], [trim]) among
    the code units of a string: tab, line feed, vertical tab, form feed,
    carriage return, space and no-break space (U+00A0).  Strings are
    sequences of 8-bit code units, the Latin-1 range of UTF-16. *)
Definition js_is_space (c : ascii) : bool :=
  existsb (N.eqb (N_of_ascii c)) [9; 10; 11; 12; 13; 32; 160]%N.

Definition digit_of (c : ascii) : option N :=
  let n := N_of_ascii c in
  if (48 <=? n)%N && (n <=? 57)%N then Some (n - 48)%N else None.

Fixpoint skip_ws (s : string) : string :=
  match s with
  | String c r => if js_is_space c then skip_ws r else s
  | EmptyString => EmptyString
  end.

Fixpoint take_digits (s : string) : list N * string :=
  match s with
  | String c r =>
      match digit_of c with
      | Some d => let '(ds, r') := take_digits r in (d :: ds, r')
      | None => ([], s)
      end
  | EmptyString => ([], EmptyString)
  end.

Definition digits_value (ds : list N) : N :=
  fold_left (fun acc d => acc * 10 + d)%N ds 0%N.

Definition is_char (c : ascii) (x : ascii) : bool := bool_decide (c = x).

Definition parse_sign (s : string) : bool * string :=
  match s with
  | String c r =>
      if is_char c "-" then (true, r) else if is_char c "+" then (false, r) else (false, s)
  | EmptyString => (false, s)
  end.

(** The exponent part: [e] or [E], a sign, at least one digit; otherwise
    nothing is consumed and the exponent is 0.  Also returns what follows. *)
Definition parse_exponent_rest (s : string) : Z * string :=
  match s with
  | String c r =>
      if is_char c "e" || is_char c "E" then
        let '(neg, r') := parse_sign r in
        match take_digits r' with
        | ([], _) => (0%Z, s)
        | (ds, r'') => ((if neg then - Z.of_N (digits_value ds) else Z.of_N (digits_value ds))%Z, r'')
        end
      else (0%Z, s)
  | EmptyString => (0%Z, s)
  end.

Definition parse_exponent (s : string) : Z := (parse_exponent_rest s).1.

Definition parse_fraction (r1 : string) : list N * string :=
  match r1 with
  | String c r => if is_char c "." then take_digits r else ([], r1)
  | EmptyString => ([], r1)
  end.

Definition parse_float_string (s : string) : jsnum :=
  let '(neg, s1) := parse_sign (skip_ws s) in
  if String.prefix "Infinity" s1 then JInf neg else
  let '(d1, r1) := take_digits s1 in
  let '(d2, r2) := parse_fraction r1 in
  match app d1 d2 with
  | [] => JNaN
  | ds =>
      let e := (parse_exponent r2 - Z.of_nat (List.length d2))%Z in
      let m := inject_Z (Z.of_N (digits_value ds)) in
      JNum ((if neg then - m else m) * Qpower (inject_Z 10) e)
  end.

(** *** ToNumber of a string ([Number(s)], [s - x])

    The whole string, white space trimmed, must be a numeric literal: empty
    is 0, [Infinity] with a sign, a decimal literal, or a [0x], [0o], [0b]
    integer; anything else is [NaN]. *)

Definition radix_digit (base : N) (c : ascii) : option N :=
  let n := N_of_ascii c in
  let d := if (48 <=? n)%N && (n <=? 57)%N then Some (n - 48)%N
           else if (97 <=? n)%N && (n <=? 102)%N then Some (n - 87)%N
           else if (65 <=? n)%N && (n <=? 70)%N then Some (n - 55)%N
           else None in
  match d with Some v => if (v <? base)%N then Some v else None | None => None end.

(** All of [s] read as digits in [base] (at least one). *)
Fixpoint radix_value_aux (base acc : N) (s : string) : option N :=
  match s with
  | EmptyString => Some acc
  | String c r =>
      match radix_digit base c with
      | Some d => radix_value_aux base (acc * base + d)%N r
      | None => None
      end
  end.

Definition radix_value (base : N) (s : string) : option N :=
  match s with EmptyString => None | _ => radix_value_aux base 0%N s end.

Definition radix_literal (s : string) : option N :=
  match s with
  | String z (String x r) =>
      if is_char z "0" then
        if is_char x "x" || is_char x "X" then radix_value 16 r
        else if is_char x "o" || is_char x "O" then radix_value 8 r
        else if is_char x "b" || is_char x "B" then radix_value 2 r
        else None
      else None
  | _ => None
  end.

(** An unsigned decimal literal at the start of [s], and what follows. *)
Definition decimal_prefix (s1 : string) : option (Q * string) :=
  let '(d1, r1) := take_digits s1 in
  let '(d2, r2) := parse_fraction r1 in
  match app d1 d2 with
  | [] => None
  | ds =>
      let '(e, r3) := parse_exponent_rest r2 in
      Some (inject_Z (Z.of_N (digits_value ds)) * Qpower (inject_Z 10) (e - Z.of_nat (List.length d2)), r3)
  end.

Fixpoint string_rev_app (s acc : string) : string :=
  match s with EmptyString => acc | String c r => string_rev_app r (String c acc) end.

Definition string_rev (s : string) : string := string_rev_app s EmptyString.

(** [s.trim()]: white space removed at both ends. *)
Definition trim (s : string) : string := string_rev (skip_ws (string_rev (skip_ws s))).

Definition string_to_number (s : string) : jsnum :=
  let t := trim s in
  match t with
  | EmptyString => JNum 0
  | _ =>
      match radix_literal t with
      | Some n => JNum (inject_Z (Z.of_N n))
      | None =>
          let '(neg, s1) := parse_sign t in
          if String.eqb s1 "Infinity" then JInf neg else
          match decimal_prefix s1 with
          | Some (q, EmptyString) => JNum (if neg then - q else q)
          | _ => JNaN
          end
      end
  end.

(** ToNumber of a value. *)
Definition js_to_number (v : jsval) : jsnum :=
  match v with
  | VUndefined => JNaN
  | VNull => JNum 0
  | VBool b => JNum (if b then 1 else 0)
  | VNum n => n
  | VStr s => string_to_number s
  end.

(** [parseFloat(v)] converts [v] to a string first.  A number converts to
    the shortest string that reads back as the same number, so
    [parseFloat] is the identity on numbers. *)
Definition parseFloat (v : jsval) : jsnum :=
  match v with
  | VNum n => n
  | VStr s => parse_float_string s
  | VUndefined | VNull | VBool _ => JNaN
  end.

(** ToBoolean of a value. *)
Definition js_val_truthy (v : jsval) : bool :=
  match v with
  | VUndefined | VNull => false
  | VBool b => b
  | VNum n => js_truthy n
  | VStr s => negb (String.eqb s "")
  end.

(** *** [Number.prototype.toString] (template literals, [String(n)])

    Finite numbers print in plain decimal notation: the sign, the integer
    part, and the fraction without trailing zeros.  The model prints up to
    [frac_digits] fractional digits, enough for every decimal the back end
    handles (ffprobe durations have six); JavaScript's exponent notation
    for magnitudes below 1e-6 or from 1e21 on is not modelled. *)

Definition frac_digits : nat := 20.

Definition digit_char (d : N) : ascii := ascii_of_N (48 + d).

Fixpoint N_digits_aux (fuel : nat) (n : N) (acc : list N) : list N :=
  match fuel with
  | O => n :: acc
  | S f => if (n <? 10)%N then n :: acc else N_digits_aux f (n / 10)%N ((n mod 10)%N :: acc)
  end.

(** Decimal digits of [n], most significant first; [N.size n] bounds the
    number of digits. *)
Definition N_digits (n : N) : list N := N_digits_aux (N.to_nat (N.size n)) n [].

Definition string_of_digits (ds : list N) : string :=
  fold_right (fun d s => String (digit_char d) s) EmptyString ds.

Definition pad_left (k : nat) (ds : list N) : list N :=
  replicate (k - List.length ds) 0%N ++ ds.

Fixpoint drop_zeros (ds : list N) : list N :=
  match ds with
  | 0%N :: r => drop_zeros r
  | _ => ds
  end.

Definition strip_trailing_zeros (ds : list N) : list N := rev (drop_zeros (rev ds)).

Definition Q_to_decimal (q : Q) : string :=
  let a := Qabs q in
  let ip := Qfloor a in
  let fp := Qfloor ((a - inject_Z ip) * inject_Z (10 ^ Z.of_nat frac_digits)) in
  let fds := strip_trailing_zeros (pad_left frac_digits (N_digits (Z.to_N fp))) in
  (if Qlt_bool q 0 then "-" else "") ++ string_of_digits (N_digits (Z.to_N ip)) ++
  match fds with [] => "" | _ => "." ++ string_of_digits fds end.

Definition js_number_to_string (n : jsnum) : string :=
  match n with
  | JNum q => Q_to_decimal q
  | JNaN => "NaN"
  | JInf false => "Infinity"
  | JInf true => "-Infinity"
  end.

(** ** Exceptions

    What a rejected promise or a [throw] carries in the modelled code. *)

Inductive js_error : Type :=
| ErrMessage (msg : string)      (** [throw new Error(msg)] in the code *)
| ErrTypeError (msg : string)    (** a property read on [null]/[undefined] *)
| ErrENOENT (path : string)      (** [fs]: no such file *)
| ErrFfprobe (path : string)     (** [ffprobe] reported an error *)
| ErrFfmpeg (msg : string)       (** the ['error'] event of an ffmpeg run *)
| ErrFluent (msg : string).      (** an exception of the fluent-ffmpeg builder *)

(** [error.message] *)
Definition error_message (e : js_error) : string :=
  match e with
  | ErrMessage m | ErrTypeError m | ErrFfmpeg m | ErrFluent m => m
  | ErrENOENT p => "ENOENT: no such file or directory, open '" ++ p ++ "'"
  | ErrFfprobe p => p ++ ": Invalid data found when processing input"
  end%string.

(** ** The monad of [async] code

    An [async] function of the controller is a state transformer on the
    world that may throw; the world changes it made before a throw stay
    (files written by ffmpeg are not rolled back). *)

Inductive res (A : Type) : Type :=
| Ok (a : A)
| Throw (e : js_error)
| Hang.   (** a promise that never settles (an ffmpeg run that never ends) *)
Arguments Ok {A} a.
Arguments Throw {A} e.
Arguments Hang {A}.

Definition St (S A : Type) : Type := S -> S * res A.

Section Monad.
Context {S : Type}.

Definition mret {A} (a : A) : St S A := fun s => (s, Ok a).

Definition mbind {A B} (m : St S A) (k : A -> St S B) : St S B :=
  fun s => match m s with
           | (s', Ok a) => k a s'
           | (s', Throw e) => (s', Throw e)
           | (s', Hang) => (s', Hang)
           end.

Definition mthrow {A} (e : js_error) : St S A := fun s => (s, Throw e).

(** [try { m } catch (e) { h(e) }] *)
Definition mcatch {A} (m : St S A) (h : js_error -> St S A) : St S A :=
  fun s => match m s with
           | (s', Ok a) => (s', Ok a)
           | (s', Throw e) => h e s'
           | (s', Hang) => (s', Hang)
           end.

Definition mget : St S S := fun s => (s, Ok s).
Definition mput (s : S) : St S unit := fun _ => (s, Ok tt).
Definition mmodify (f : S -> S) : St S unit := fun s => (f s, Ok tt).

(** [Promise.all(xs.map(f))] run one task after the other (see the
    header for the interleaving of the real run). *)
Fixpoint mmap {A B} (f : A -> St S B) (xs : list A) : St S (list B) :=
  match xs with
  | [] => mret []
  | x :: r => mbind (f x) (fun y => mbind (mmap f r) (fun ys => mret (y :: ys)))
  end.
End Monad.

Notation "x <- m ;; k" := (mbind m (fun x => k))
  (at level 60, m at next level, right associativity) : js_scope.
Notation "m ;;; k" := (mbind m (fun _ => k))
  (at level 60, right associativity) : js_scope.

(** [xs.join(sep)] *)
Fixpoint js_join (sep : string) (xs : list string) : string :=
  match xs with
  | [] => ""
  | [x] => x
  | x :: r => x ++ sep ++ js_join sep r
  end.

Lemma js_join_cons sep x xs : xs <> [] -> js_join sep (x :: xs) = (x ++ sep ++ js_join sep xs)%string.
Proof. by destruct xs. Qed.

(** ToString of a value, as template literals print it. *)
Definition jsval_to_string (v : jsval) : string :=
  match v with
  | VUndefined => "undefined"
  | VNull => "null"
  | VBool true => "true"
  | VBool false => "false"
  | VNum n => js_number_to_string n
  | VStr s => s
  end.

(** Sequencing of plain results (synchronous code that may throw). *)
Definition res_bind {A B} (r : res A) (k : A -> res B) : res B :=
  match r with Ok a => k a | Throw e => Throw e | Hang => Hang end.

Notation "x <-? r ;; k" := (res_bind r (fun x => k))
  (at level 60, r at next level, right associativity) : js_scope.

(** A synchronous result inside an [async] function. *)
Definition lift_res {S A} (r : res A) : St S A := fun s => (s, r).

(** ** Runs that settle

    [settles_with P m]: from every state, [m] resolves with a value that
    satisfies [P] or rejects; it never hangs.  A promise chain settles
    when each of its steps does. *)
Definition settles_with {S A} (P : A -> Prop) (m : St S A) : Prop :=
  forall s, match (m s).2 with Ok a => P a | Throw _ => True | Hang => False end.

Abbreviation settles m := (settles_with (fun _ => True) m).

Create HintDb settles.

Section Settles.
Context {S : Type}.

Lemma settles_not_hang {A} (P : A -> Prop) (m : St S A) s : settles_with P m -> (m s).2 <> Hang.
Proof. intros Hm Heq. specialize (Hm s). by rewrite Heq in Hm. Qed.

Lemma settles_ret {A} (P : A -> Prop) (a : A) : P a -> settles_with (S := S) P (mret a).
Proof. intros Ha s. exact Ha. Qed.

Lemma settles_throw {A} (P : A -> Prop) e : settles_with (S := S) P (mthrow (A := A) e).
Proof. intros s. exact I. Qed.

Lemma settles_modify (P : unit -> Prop) (f : S -> S) : P tt -> settles_with P (mmodify f).
Proof. intros Ht s. exact Ht. Qed.

Lemma settles_lift {A} (P : A -> Prop) (r : res A) :
  match r with Ok a => P a | Throw _ => True | Hang => False end -> settles_with (S := S) P (lift_res r).
Proof. intros Hr s. exact Hr. Qed.

Lemma settles_bind {A B} (P : A -> Prop) (Q : B -> Prop) (m : St S A) (k : A -> St S B) :
  settles_with P m -> (forall a, P a -> settles_with Q (k a)) -> settles_with Q (mbind m k).
Proof.
  intros Hm Hk s. specialize (Hm s). unfold mbind.
  destruct (m s) as [s' [a|e|]]; cbn in *; [by apply Hk | done | done].
Qed.

Lemma settles_catch {A} (P : A -> Prop) (m : St S A) (h : js_error -> St S A) :
  settles_with P m -> (forall e, settles_with P (h e)) -> settles_with P (mcatch m h).
Proof.
  intros Hm Hh s. specialize (Hm s). unfold mcatch.
  destruct (m s) as [s' [a|e|]]; cbn in *; [done | apply Hh | done].
Qed.

Lemma settles_weaken {A} (P Q : A -> Prop) (m : St S A) :
  settles_with P m -> (forall a, P a -> Q a) -> settles_with Q m.
Proof. intros Hm HPQ s. specialize (Hm s). destruct (m s).2; auto. Qed.

Lemma settles_mmap {A B} (f : A -> St S B) (xs : list A) :
  (forall x, settles (f x)) -> settles (mmap f xs).
Proof.
  intros Hf. induction xs as [|x xs IH]; cbn.
  - by apply settles_ret.
  - eapply settles_bind; [apply Hf|]. intros y _.
    eapply settles_bind; [apply IH|]. intros ys _. by apply settles_ret.
Qed.
End Settles.

(** A resolved [mmap]: each result came from a resolved step. *)
Lemma mmap_ok_inv {S A B} (f : A -> St S B) (xs : list A) (ys : list B) (s s' : S) :
  mmap f xs s = (s', Ok ys) -> Forall2 (fun x y => exists s1 s2, f x s1 = (s2, Ok y)) xs ys.
Proof.
  revert s ys. induction xs as [|x xs IH]; intros s ys H; cbn in H; unfold mbind, mret in H.
  - by simplify_eq.
  - destruct (f x s) as [s1 [y| |]] eqn:Hf; try done.
    destruct (mmap f xs s1) as [s2 [ys'| |]] eqn:Hm; simplify_eq. constructor; [eauto | by eapply IH].
Qed.

(** [mmap] of a step that reads the state without changing it. *)
Lemma mmap_read {S A B} (f : A -> St S B) (g : A -> B) (xs : list A) (s : S) :
  (forall x, x ∈ xs -> f x s = (s, Ok (g x))) -> mmap f xs s = (s, Ok (map g xs)).
Proof.
  induction xs as [|x xs IH]; intros Hf; cbn; [done|]. unfold mbind.
  rewrite Hf by set_solver. rewrite IH by set_solver. done.
Qed.

(** A resolved [mmap] of steps that leave the state alone: each result is
    what its step gives in that state. *)
Lemma mmap_read_inv {S A B} (f : A -> St S B) (xs : list A) (ys : list B) (s s' : S) :
  (forall x s1 s2 r, f x s1 = (s2, r) -> s2 = s1) ->
  mmap f xs s = (s', Ok ys) -> s' = s /\ Forall2 (fun x y => f x s = (s, Ok y)) xs ys.
Proof.
  intros Hf. revert ys s'. induction xs as [|x xs IH]; intros ys s' H; cbn in H; unfold mbind, mret in H.
  - by simplify_eq.
  - destruct (f x s) as [s1 [y| |]] eqn:Hx; try done. pose proof (Hf _ _ _ _ Hx) as ->.
    destruct (mmap f xs s) as [s2 [ys'| |]] eqn:Hm; try done.
    destruct (IH ys' s2 eq_refl) as [-> Hall]. injection H as <- <-. split; [done|]. by constructor.
Qed.

Lemma Forall2_fun_map {A B} (g : A -> B) xs ys : Forall2 (fun x y => y = g x) xs ys -> ys = map g xs.
Proof. induction 1; cbn; congruence. Qed.

Lemma Forall2_impl_l {A B} (Q : A -> Prop) (P R : A -> B -> Prop) xs ys :
  Forall Q xs -> Forall2 P xs ys -> (forall x y, Q x -> P x y -> R x y) -> Forall2 R xs ys.
Proof. intros HQ HP HR. induction HP; inversion HQ; constructor; auto. Qed.

(** [mmap] of a step that always resolves resolves, with results related
    pointwise to the inputs. *)
Lemma mmap_ok {S A B} (f : A -> St S B) (P : A -> B -> Prop) (xs : list A) (s : S) :
  (forall x s, exists s' y, f x s = (s', Ok y) /\ P x y) ->
  exists s' ys, mmap f xs s = (s', Ok ys) /\ Forall2 P xs ys.
Proof.
  intros Hf. revert s. induction xs as [|x xs IH]; intros s; cbn; [by eexists _, []|].
  destruct (Hf x s) as (s1 & y & Hy & HP). unfold mbind. rewrite Hy.
  destruct (IH s1) as (s2 & ys & Hys & HPs). rewrite Hys. eexists _, (y :: ys). by split; [|constructor].
Qed.

#[export] Hint Resolve settles_ret settles_throw settles_modify settles_catch settles_mmap : settles.
#[export] Hint Extern 2 (settles_with _ (mbind _ _)) => eapply (settles_bind (fun _ => True)) : settles.
#[export] Hint Extern 1 (True) => exact I : settles.
#[export] Hint Extern 3 (settles_with _ (match ?x with _ => _ end)) => destruct x : settles.

(** ** Runs that never resolve

    [never_ok m]: from no state does [m] resolve; it rejects or hangs. *)
Definition never_ok {S A} (m : St S A) : Prop := forall s s' a, m s <> (s', Ok a).

Lemma never_ok_throw {S A} e : never_ok (S := S) (A := A) (mthrow e).
Proof. done. Qed.

Lemma never_ok_bind_l {S A B} (m : St S A) (k : A -> St S B) : never_ok m -> never_ok (mbind m k).
Proof.
  intros Hm s s' b. unfold mbind. destruct (m s) as [s1 [a| |]] eqn:E; [|done|done]. by apply Hm in E.
Qed.

(** A chain never resolves when its continuation does not, for every
    value the first step can resolve with. *)
Lemma never_ok_bind {S A B} (P : A -> Prop) (m : St S A) (k : A -> St S B) :
  (forall s s1 a, m s = (s1, Ok a) -> P a) -> (forall a, P a -> never_ok (k a)) -> never_ok (mbind m k).
Proof.
  intros HP Hk s s' b. unfold mbind. destruct (m s) as [s1 [a| |]] eqn:E; [|done|done].
  by apply (Hk a (HP _ _ _ E)).
Qed.

Lemma never_ok_bind_r {S A B} (m : St S A) (k : A -> St S B) : (forall a, never_ok (k a)) -> never_ok (mbind m k).
Proof. intros Hk. apply (never_ok_bind (fun _ => True)); auto. Qed.

(** Take a promise chain apart step by step until each step is a lemma of
    the [settles] database. *)
Ltac settle :=
  repeat first
    [ solve [auto with settles]
    | progress intros
    | eapply (settles_bind (fun _ => True))
    | case_match ].

(** ** Tactics *)

(** Unfold the monad so that a run can be taken apart by [case_match]. *)
Ltac munfold := unfold mbind, mret, mthrow, mcatch, mget, mput, mmodify, lift_res, res_bind in *.

(** Split boolean connectives in the hypotheses. *)
Ltac bool_hyps :=
  repeat match goal with
  | H : (_ || _) = false |- _ => apply orb_false_iff in H as [? ?]
  | H : (_ && _) = true |- _ => apply andb_true_iff in H as [? ?]
  | H : negb _ = true |- _ => apply negb_true_iff in H
  | H : negb _ = false |- _ => apply negb_false_iff in H
  end.

(** Symbolic execution of a run given as a hypothesis. *)
Ltac mrun := munfold; simplify_eq/=; repeat (case_match; simplify_eq/=); bool_hyps.

(** ** Strings *)

Fixpoint last_char (s : string) : option ascii :=
  match s with
  | EmptyString => None
  | String c EmptyString => Some c
  | String _ r => last_char r
  end.

(** stdpp makes [String.append] opaque to [simpl]; this unfolds one step. *)
Lemma string_app_cons c (x y : string) : (String c x ++ y)%string = String c (x ++ y).
Proof. reflexivity. Qed.

Lemma string_app_nil_l (s : string) : ("" ++ s)%string = s.
Proof. reflexivity. Qed.

Lemma string_app_nil_r (s : string) : (s ++ "")%string = s.
Proof. induction s as [|c s IH]; [done|]. by rewrite string_app_cons, IH. Qed.

Lemma string_app_assoc (x y z : string) : (x ++ (y ++ z))%string = ((x ++ y) ++ z)%string.
Proof. induction x as [|c x IH]; [done|]. by rewrite !string_app_cons, IH. Qed.

Lemma string_app_nonempty (x y : string) : y <> EmptyString -> (x ++ y)%string <> EmptyString.
Proof. destruct x; cbn; [done | discriminate]. Qed.

Lemma string_length_app (x y : string) : String.length (x ++ y) = (String.length x + String.length y)%nat.
Proof. induction x as [|c x IH]; [done|]. rewrite string_app_cons. cbn. by rewrite IH. Qed.

(** Two strings with the same end are equal when their beginnings are. *)
Lemma string_app_inv_r (x y z : string) : (x ++ z)%string = (y ++ z)%string -> x = y.
Proof.
  intros H. assert (Hl : String.length x = String.length y).
  { apply (f_equal String.length) in H. rewrite !string_length_app in H. lia. }
  revert y H Hl. induction x as [|c x IH]; intros [|c' y] H Hl; cbn in Hl; try done.
  rewrite !string_app_cons in H. injection H as -> H. f_equal. apply IH; [done | lia].
Qed.

Lemma last_char_app (x y : string) : y <> EmptyString -> last_char (x ++ y) = last_char y.
Proof.
  intros Hy. induction x as [|c x IH]; [done|].
  change (String c x ++ y)%string with (String c (x ++ y)).
  destruct (x ++ y)%string eqn:E; [by apply string_app_nonempty in E|]. exact IH.
Qed.

(** Two strings that end in different characters differ. *)
Lemma last_char_neq (s1 s2 : string) : last_char s1 <> last_char s2 -> s1 <> s2.
Proof. intros H ->. done. Qed.

(** The character [x] does not occur in [s]. *)
Fixpoint no_char (x : ascii) (s : string) : bool :=
  match s with
  | EmptyString => true
  | String c r => negb (is_char c x) && no_char x r
  end.

Lemma no_char_app x s1 s2 : no_char x (s1 ++ s2) = no_char x s1 && no_char x s2.
Proof.
  induction s1 as [|c s1 IH]; [done|]. rewrite string_app_cons. cbn [no_char].
  rewrite IH. by destruct (negb _), (no_char x s1).
Qed.

(** ** Comparisons of finite numbers *)

Lemma js_gt_num_false (q l : Q) : js_gt (JNum q) (JNum l) = false -> (q <= l)%Q.
Proof.
  unfold js_gt, js_lt, Qlt_bool. intros H. apply negb_false_iff in H. by apply Qle_bool_imp_le.
Qed.

Lemma js_le_zero_false (q : Q) : js_le (JNum q) js_zero = false -> (0 < q)%Q.
Proof.
  unfold js_le, js_zero. intros H. apply Qnot_le_lt. intros Hle.
  apply Qle_bool_iff in Hle. congruence.
Qed.

Lemma Qlt_bool_iff x y : Qlt_bool x y = true <-> x < y.
Proof.
  unfold Qlt_bool. rewrite negb_true_iff. split; intros H.
  - apply Qnot_le_lt. intros Hle. apply Qle_bool_iff in Hle. congruence.
  - destruct (Qle_bool y x) eqn:E; [|done]. apply Qle_bool_iff in E. lra.
Qed.

Lemma Qlt_bool_false x y : Qlt_bool x y = false <-> y <= x.
Proof. unfold Qlt_bool. rewrite negb_false_iff. apply Qle_bool_iff. Qed.

Ltac js_order_cases :=
  unfold js_gt, js_lt; intros; repeat match goal with x : jsnum |- _ => destruct x as [?| |[]] end;
  cbn in *; rewrite ?Qlt_bool_iff, ?Qlt_bool_false in *;
  first [done | lra | by left | by right | left; lra | right; lra].

(** [>] on numbers is transitive, [NaN] and the infinities included. *)
Lemma js_gt_trans x y z : js_gt x y = true -> js_gt y z = true -> js_gt x z = true.
Proof. js_order_cases. Qed.

(** A value that is not above [y], where [h < y < x], is either not above
    [h] or below [x]: a running maximum is an upper bound of the values it
    passed. *)
Lemma js_gt_not_above x y z h :
  js_gt x y = true -> js_gt y h = true -> js_gt z y = false -> js_gt z h = false \/ js_gt x z = true.
Proof. js_order_cases. Qed.

#[export] Hint Resolve js_gt_num_false js_le_zero_false : pipeline.
