(* ===== verification/NumberFacts.v ===== *)
(** * Printing and reading numbers back

    [Number.prototype.toString] followed by [parseFloat] gives the number
    back, for every number with at most [frac_digits] decimals (ffprobe
    prints six).  This is what lets the concat manifest written by
    [combineSceneVideos] carry the probed durations to ffmpeg unchanged. *)

From S2P Require Import Prelude.
From Stdlib Require Import Ascii Qpower.


(** ** Decimal digits *)

Definition is_digit (d : N) : Prop := (d < 10)%N.

Lemma digits_value_acc ds acc :
  fold_left (fun acc d => acc * 10 + d)%N ds acc = (acc * 10 ^ N.of_nat (List.length ds) + digits_value ds)%N.
Proof.
  unfold digits_value. revert acc. induction ds as [|d ds IH]; intros acc; cbn [fold_left List.length].
  - cbn. lia.
  - rewrite IH, (IH (0 * 10 + d)%N). rewrite Nat2N.inj_succ, N.pow_succ_r'. lia.
Qed.

Lemma digits_value_app xs ys :
  digits_value (xs ++ ys) = (digits_value xs * 10 ^ N.of_nat (List.length ys) + digits_value ys)%N.
Proof. unfold digits_value at 1. by rewrite fold_left_app, digits_value_acc. Qed.

Lemma digits_value_cons d ds :
  digits_value (d :: ds) = (d * 10 ^ N.of_nat (List.length ds) + digits_value ds)%N.
Proof.
  change (d :: ds) with ([d] ++ ds). rewrite digits_value_app.
  assert (digits_value [d] = d) as -> by (unfold digits_value; cbn; lia). done.
Qed.

Lemma digits_value_zeros k : digits_value (replicate k 0%N) = 0%N.
Proof. induction k as [|k IH]; [done|]. cbn [replicate]. rewrite digits_value_cons, IH. lia. Qed.

(** The digits of [n] when [n < 10 ^ (S fuel)]. *)
Lemma N_digits_aux_spec fuel n acc :
  (n < 10 ^ N.of_nat (S fuel))%N ->
  exists ds, N_digits_aux fuel n acc = ds ++ acc /\ ds <> [] /\ Forall is_digit ds /\
    digits_value ds = n /\ forall k, (0 < k)%N -> (n < 10 ^ k)%N -> (N.of_nat (List.length ds) <= k)%N.
Proof.
  revert n acc. induction fuel as [|fuel IH]; intros n acc Hn; cbn [N_digits_aux].
  - exists [n]. cbn in Hn. split_and!; [done | done | constructor; [unfold is_digit; lia | done] | done |].
    intros k Hk _. cbn. lia.
  - destruct (N.ltb_spec n 10) as [Hlt|Hge].
    + exists [n]. split_and!; [done | done | constructor; [unfold is_digit; lia | done] | done |].
      intros k Hk _. cbn. lia.
    + destruct (IH (n / 10)%N ((n mod 10)%N :: acc)) as (ds & Hds & Hne & Hall & Hv & Hlen).
      { rewrite Nat2N.inj_succ, N.pow_succ_r' in Hn. apply N.Div0.div_lt_upper_bound. lia. }
      exists (ds ++ [(n mod 10)%N]). rewrite Hds, <- app_assoc. split_and!; [done | by destruct ds | | |].
      * apply Forall_app; split; [done|]. constructor; [unfold is_digit; apply N.mod_lt; lia | done].
      * rewrite digits_value_app, Hv. cbn. pose proof (N.div_mod n 10). lia.
      * intros k Hk Hnk. rewrite length_app, Nat2N.inj_add. cbn [List.length].
        assert (1 < k)%N.
        { destruct (N.ltb_spec 1 k); [done|]. assert (k = 1)%N by lia. subst k. cbn in Hnk. lia. }
        assert (n / 10 < 10 ^ (k - 1))%N.
        { apply N.Div0.div_lt_upper_bound. rewrite <- N.pow_succ_r'. by replace (N.succ (k - 1)) with k by lia. }
        specialize (Hlen (k - 1)%N ltac:(lia) H0). lia.
Qed.

Lemma N_lt_pow10_size n : (n < 10 ^ N.of_nat (S (N.to_nat (N.size n))))%N.
Proof.
  pose proof (N.size_gt n) as H. rewrite Nat2N.inj_succ, N2Nat.id.
  assert (2 ^ N.size n <= 10 ^ N.size n)%N by (apply N.pow_le_mono_l; lia).
  rewrite N.pow_succ_r'. lia.
Qed.

Lemma N_digits_spec n :
  N_digits n <> [] /\ Forall is_digit (N_digits n) /\ digits_value (N_digits n) = n /\
  forall k, (0 < k)%N -> (n < 10 ^ k)%N -> (N.of_nat (List.length (N_digits n)) <= k)%N.
Proof.
  unfold N_digits. destruct (N_digits_aux_spec (N.to_nat (N.size n)) n [] (N_lt_pow10_size n))
    as (ds & -> & ?). by rewrite app_nil_r.
Qed.

(** ** Digits as characters *)

Lemma digit_of_char d : is_digit d -> digit_of (digit_char d) = Some d.
Proof.
  intros Hd. unfold digit_of, digit_char, is_digit in *.
  rewrite N_ascii_embedding by lia.
  destruct (N.leb_spec 48 (48 + d)), (N.leb_spec (48 + d) 57); cbn; try lia. f_equal. lia.
Qed.

(** What follows a run of digits does not start with a digit. *)
Definition digit_free_start (s : string) : Prop :=
  match s with String c _ => digit_of c = None | EmptyString => True end.

Lemma take_digits_app ds rest :
  Forall is_digit ds -> digit_free_start rest ->
  take_digits (string_of_digits ds ++ rest) = (ds, rest).
Proof.
  intros Hds Hr. induction Hds as [|d ds Hd _ IH]; cbn [string_of_digits fold_right].
  - change (EmptyString ++ rest)%string with rest.
    destruct rest as [|c r]; cbn [take_digits digit_free_start] in *; [done|]. by rewrite Hr.
  - rewrite string_app_cons. cbn [take_digits]. rewrite digit_of_char by done.
    fold (string_of_digits ds). by rewrite IH.
Qed.

(** ** Leading and trailing zeros *)

Lemma pad_left_spec k ds :
  (List.length ds <= k)%nat ->
  List.length (pad_left k ds) = k /\ digits_value (pad_left k ds) = digits_value ds.
Proof.
  intros Hk. unfold pad_left. split.
  - rewrite length_app, length_replicate. lia.
  - by rewrite digits_value_app, digits_value_zeros.
Qed.

Lemma drop_zeros_spec ds : exists k, ds = replicate k 0%N ++ drop_zeros ds.
Proof.
  induction ds as [|d ds [k IH]]; [by exists 0%nat|]. cbn [drop_zeros].
  destruct d as [|p]; [|by exists 0%nat]. exists (S k). cbn. by rewrite <- IH.
Qed.

Lemma rev_replicate {A} k (x : A) : rev (replicate k x) = replicate k x.
Proof.
  induction k as [|k IH]; [done|]. cbn [replicate rev]. rewrite IH.
  change [x] with (replicate 1 x). by rewrite <- replicate_add, Nat.add_1_r.
Qed.

(** Stripping trailing zeros divides the value by a power of ten. *)
Lemma strip_trailing_zeros_spec ds :
  exists k, ds = strip_trailing_zeros ds ++ replicate k 0%N.
Proof.
  unfold strip_trailing_zeros. destruct (drop_zeros_spec (rev ds)) as [k Hk]. exists k.
  rewrite <- (rev_involutive ds) at 1. rewrite Hk at 1. by rewrite rev_app_distr, rev_replicate.
Qed.

Lemma Forall_strip_trailing_zeros (P : N -> Prop) ds :
  Forall P ds -> Forall P (strip_trailing_zeros ds).
Proof.
  intros H. destruct (strip_trailing_zeros_spec ds) as [k Hk]. rewrite Hk in H.
  by apply Forall_app in H as [? _].
Qed.

(** ** Characters of a printed number *)

Lemma digit_cases d : is_digit d -> d = 0%N \/ d = 1%N \/ d = 2%N \/ d = 3%N \/ d = 4%N \/ d = 5%N \/ d = 6%N \/ d = 7%N \/ d = 8%N \/ d = 9%N.
Proof. unfold is_digit. lia. Qed.

Lemma digit_char_not_space d : is_digit d -> js_is_space (digit_char d) = false.
Proof. intros Hd. apply digit_cases in Hd. by repeat destruct Hd as [->|Hd]; [..|subst]. Qed.

Lemma digit_char_not_sign d : is_digit d -> is_char (digit_char d) "-" = false /\ is_char (digit_char d) "+" = false /\ is_char (digit_char d) "I" = false.
Proof. intros Hd. apply digit_cases in Hd. by repeat destruct Hd as [->|Hd]; [..|subst]. Qed.

(** The fraction as [Q_to_decimal] prints it. *)
Definition frac_part (fds : list N) : string :=
  match fds with [] => EmptyString | _ => String "." (string_of_digits fds) end.

(** [parseFloat] of a printed decimal. *)
Lemma parse_decimal_string (neg : bool) I fds :
  I <> [] -> Forall is_digit I -> Forall is_digit fds ->
  parse_float_string ((if neg then String "-" EmptyString else EmptyString) ++ string_of_digits I ++ frac_part fds) =
  JNum ((if neg then - inject_Z (Z.of_N (digits_value (I ++ fds))) else inject_Z (Z.of_N (digits_value (I ++ fds))))
        * Qpower (inject_Z 10) (0 - Z.of_nat (List.length fds))).
Proof.
  intros HI HdI Hdf. destruct I as [|d I']; [done|]. inversion HdI as [|? ? Hd HdI']; subst.
  destruct (digit_char_not_sign d Hd) as (Hm & Hp & HInf).
  assert (Hpre : String.prefix "Infinity" (string_of_digits (d :: I') ++ frac_part fds) = false).
  { cbn [string_of_digits fold_right]. rewrite string_app_cons. cbn [String.prefix].
    unfold is_char in HInf. destruct (ascii_dec "I" (digit_char d)) as [He|]; [|done].
    rewrite <- He in HInf. by rewrite bool_decide_eq_true_2 in HInf. }
  assert (Htake : take_digits (string_of_digits (d :: I') ++ frac_part fds) = (d :: I', frac_part fds)).
  { apply take_digits_app; [by constructor|]. by destruct fds. }
  assert (Hfrac : parse_fraction (frac_part fds) = (fds, EmptyString)).
  { destruct fds as [|x fds']; [done|]. cbn [frac_part parse_fraction]. unfold is_char.
    rewrite bool_decide_eq_true_2 by done.
    rewrite <- (string_app_nil_r (string_of_digits (x :: fds'))). by apply take_digits_app. }
  unfold parse_float_string.
  assert (Hsign : parse_sign (skip_ws ((if neg then String "-" EmptyString else EmptyString) ++
                   string_of_digits (d :: I') ++ frac_part fds)%string) = (neg, string_of_digits (d :: I') ++ frac_part fds)%string).
  { destruct neg.
    - rewrite string_app_cons. cbn [skip_ws]. change (js_is_space "-") with false. cbn iota.
      unfold parse_sign. change (is_char "-" "-") with true. done.
    - change (EmptyString ++ ?x)%string with x. cbn [string_of_digits fold_right]. rewrite string_app_cons.
      cbn [skip_ws]. rewrite digit_char_not_space by done. unfold parse_sign. rewrite Hm, Hp. done. }
  rewrite Hsign, Hpre, Htake, Hfrac. cbn [app]. done.
Qed.

(** ** The round trip

    A number with at most [frac_digits] decimals. *)
Definition decimal20 (q : Q) : bool :=
  Z.eqb (Z.modulo (Qnum q * 10 ^ Z.of_nat frac_digits) (Zpos (Qden q))) 0.

Lemma decimal20_int q : decimal20 q = true -> exists k, q * inject_Z (10 ^ Z.of_nat frac_digits) == inject_Z k.
Proof.
  unfold decimal20. intros H. apply Z.eqb_eq in H.
  exists ((Qnum q * 10 ^ Z.of_nat frac_digits) / Zpos (Qden q))%Z.
  apply Z.div_exact in H; [|lia].
  unfold Qeq, Qmult, inject_Z. cbn. rewrite Z.mul_1_r, Pos.mul_1_r. rewrite H at 1. lia.
Qed.

Lemma Qfloor_inject_Z z : Qfloor (inject_Z z) = z.
Proof. unfold Qfloor, inject_Z. cbn. apply Z.div_1_r. Qed.

Lemma Qfloor_bounds (a : Q) : inject_Z (Qfloor a) <= a /\ a < inject_Z (Qfloor a) + 1.
Proof.
  split; [apply Qfloor_le|]. pose proof (Qlt_floor a) as H. rewrite inject_Z_plus in H. exact H.
Qed.

Lemma Qfloor_unique (z : Z) (q : Q) : inject_Z z <= q -> q < inject_Z z + 1 -> Qfloor q = z.
Proof.
  intros H1 H2. pose proof (Qfloor_resp_le _ _ H1) as Hle. rewrite Qfloor_inject_Z in Hle.
  pose proof (Qfloor_le q) as H3.
  assert (Hlt : inject_Z (Qfloor q) < inject_Z (z + 1)) by (rewrite inject_Z_plus; eapply Qle_lt_trans; eauto).
  rewrite <- Zlt_Qlt in Hlt. lia.
Qed.

Lemma frac_exact q :
  decimal20 q = true ->
  let a := Qabs q in let ip := Qfloor a in let T := (10 ^ Z.of_nat frac_digits)%Z in
  (a - inject_Z ip) * inject_Z T == inject_Z (Qfloor ((a - inject_Z ip) * inject_Z T)) /\
  (0 <= Qfloor ((a - inject_Z ip) * inject_Z T) < T)%Z /\ (0 <= ip)%Z.
Proof.
  intros Hd a ip T. destruct (decimal20_int q Hd) as [k Hk].
  assert (HT : 0 < inject_Z T) by (unfold T; reflexivity).
  assert (Ha : a * inject_Z T == inject_Z (Z.abs k)).
  { transitivity (Qabs (q * inject_Z T)).
    - unfold a. rewrite Qabs_Qmult, (Qabs_pos (inject_Z T)); [reflexivity | lra].
    - transitivity (Qabs (inject_Z k)); [by apply Qabs_wd|]. unfold Qabs, inject_Z. reflexivity. }
  assert (Hx : (a - inject_Z ip) * inject_Z T == inject_Z (Z.abs k - ip * T)).
  { rewrite <- Z.add_opp_r, inject_Z_plus, inject_Z_opp, inject_Z_mult, <- Ha. ring. }
  destruct (Qfloor_bounds a) as [Hlo Hhi]. change (Qfloor a) with ip in Hlo, Hhi.
  assert (Hip : (0 <= ip)%Z) by (unfold ip, a; change 0%Z with (Qfloor 0); apply Qfloor_resp_le, Qabs_nonneg).
  rewrite Hx, Qfloor_inject_Z. split; [reflexivity|]. split; [|exact Hip].
  assert (H1 : 0 <= (a - inject_Z ip) * inject_Z T) by (apply Qmult_le_0_compat; lra).
  assert (H2 : (a - inject_Z ip) * inject_Z T < inject_Z T).
  { rewrite <- (Qmult_1_l (inject_Z T)) at 2. apply Qmult_lt_r; [exact HT | lra]. }
  rewrite Hx in H1, H2. change 0 with (inject_Z 0) in H1. rewrite <- Zle_Qle in H1. rewrite <- Zlt_Qlt in H2. lia.
Qed.

Lemma Forall_pad_left k ds : Forall is_digit ds -> Forall is_digit (pad_left k ds).
Proof.
  intros H. unfold pad_left. apply Forall_app; split; [|done].
  apply Forall_replicate. unfold is_digit. lia.
Qed.

Lemma Qpower_10_neg (L : nat) : Qpower (inject_Z 10) (0 - Z.of_nat L) == / inject_Z (10 ^ Z.of_nat L).
Proof.
  rewrite Z.sub_0_l, Qpower_opp. apply Qinv_comp. symmetry. apply Zpower_Qpower. lia.
Qed.

(** The value read back, before the sign. *)
Lemma decimal_value_eq (a : Q) (ip fp v : Z) (L k : nat) :
  (a - inject_Z ip) * inject_Z (10 ^ Z.of_nat (L + k)) == inject_Z fp ->
  fp = (v * 10 ^ Z.of_nat k)%Z ->
  inject_Z (ip * 10 ^ Z.of_nat L + v) * / inject_Z (10 ^ Z.of_nat L) == a.
Proof.
  intros H3 ->. rewrite Nat2Z.inj_add, Z.pow_add_r in H3 by lia.
  rewrite !inject_Z_mult in H3. rewrite inject_Z_plus, inject_Z_mult.
  assert (HL : ~ inject_Z (10 ^ Z.of_nat L) == 0).
  { intros He. unfold Qeq in He. cbn in He. pose proof (Z.pow_pos_nonneg 10 (Z.of_nat L) ltac:(lia) ltac:(lia)). lia. }
  assert (Hk : ~ inject_Z (10 ^ Z.of_nat k) == 0).
  { intros He. unfold Qeq in He. cbn in He. pose proof (Z.pow_pos_nonneg 10 (Z.of_nat k) ltac:(lia) ltac:(lia)). lia. }
  assert (Hv : inject_Z v == (a - inject_Z ip) * inject_Z (10 ^ Z.of_nat L)).
  { apply (Qmult_inj_r _ _ (inject_Z (10 ^ Z.of_nat k))); [exact Hk|]. rewrite <- H3. ring. }
  rewrite Hv. field. exact HL.
Qed.

(** Printing a number with at most [frac_digits] decimals and reading it
    back with [parseFloat] gives the number. *)
Lemma number_roundtrip q :
  decimal20 q = true -> jsnum_equiv (parse_float_string (js_number_to_string (JNum q))) (JNum q).
Proof.
  intros Hd. destruct (frac_exact q Hd) as (Hx & Hfp & Hip).
  set (a := Qabs q) in *. set (ip := Qfloor a) in *. set (T := (10 ^ Z.of_nat frac_digits)%Z) in *.
  set (fp := Qfloor ((a - inject_Z ip) * inject_Z T)) in *.
  destruct (N_digits_spec (Z.to_N ip)) as (HIne & HIdig & HIval & _).
  destruct (N_digits_spec (Z.to_N fp)) as (_ & HFdig & HFval & HFlen).
  assert (Hlen : (List.length (N_digits (Z.to_N fp)) <= frac_digits)%nat).
  { enough (N.of_nat (List.length (N_digits (Z.to_N fp))) <= N.of_nat frac_digits)%N by lia.
    apply HFlen; unfold T, frac_digits in *; change (N.of_nat 20) with 20%N;
      change (Z.of_nat 20) with 20%Z in Hfp; lia. }
  destruct (pad_left_spec frac_digits _ Hlen) as [HPlen HPval].
  set (P := pad_left frac_digits (N_digits (Z.to_N fp))) in *.
  set (fds := strip_trailing_zeros P).
  destruct (strip_trailing_zeros_spec P) as [k Hk]. fold fds in Hk.
  assert (Hfds : Forall is_digit fds) by (apply Forall_strip_trailing_zeros, Forall_pad_left, HFdig).
  change (js_number_to_string (JNum q)) with
    ((if Qlt_bool q 0 then String "-" EmptyString else EmptyString) ++
     string_of_digits (N_digits (Z.to_N ip)) ++ frac_part fds)%string.
  rewrite parse_decimal_string by done. cbn [jsnum_equiv].
  rewrite Qpower_10_neg.
  assert (HLk : (List.length fds + k)%nat = frac_digits).
  { rewrite <- HPlen, Hk, length_app, length_replicate. done. }
  assert (Hv : fp = (Z.of_N (digits_value fds) * 10 ^ Z.of_nat k)%Z).
  { rewrite <- (Z2N.id fp) by lia. rewrite <- HFval, <- HPval, Hk, digits_value_app, digits_value_zeros.
    rewrite N.add_0_r, N2Z.inj_mul, N2Z.inj_pow, nat_N_Z, length_replicate. done. }
  assert (Hm : Z.of_N (digits_value (N_digits (Z.to_N ip) ++ fds)) =
               (ip * 10 ^ Z.of_nat (List.length fds) + Z.of_N (digits_value fds))%Z).
  { rewrite digits_value_app, HIval, N2Z.inj_add, N2Z.inj_mul, N2Z.inj_pow, nat_N_Z, Z2N.id by lia. done. }
  rewrite Hm.
  assert (Ha : inject_Z (ip * 10 ^ Z.of_nat (List.length fds) + Z.of_N (digits_value fds)) *
               / inject_Z (10 ^ Z.of_nat (List.length fds)) == a).
  { apply (decimal_value_eq a ip fp _ _ k); [|exact Hv]. rewrite HLk. exact Hx. }
  unfold a in Ha. destruct (Qlt_bool q 0) eqn:Hneg; unfold Qlt_bool in Hneg.
  - apply negb_true_iff in Hneg.
    assert (Hq : q < 0) by (apply Qnot_le_lt; intros Hle; apply Qle_bool_iff in Hle; congruence).
    rewrite Qabs_neg in Ha by lra. lra.
  - apply negb_false_iff, Qle_bool_iff in Hneg.
    rewrite Qabs_pos in Ha by lra. lra.
Qed.

(** ** What a printed number is made of *)

Lemma Q_to_decimal_shape q :
  exists (neg : bool) I fds,
    Q_to_decimal q = ((if neg then String "-" EmptyString else EmptyString) ++
                      string_of_digits I ++ frac_part fds)%string /\
    I <> [] /\ Forall is_digit I /\ Forall is_digit fds.
Proof.
  destruct (N_digits_spec (Z.to_N (Qfloor (Qabs q)))) as (HIne & HIdig & _).
  set (fp := Qfloor ((Qabs q - inject_Z (Qfloor (Qabs q))) * inject_Z (10 ^ Z.of_nat frac_digits))).
  destruct (N_digits_spec (Z.to_N fp)) as (_ & HFdig & _).
  eexists (Qlt_bool q 0), _, (strip_trailing_zeros (pad_left frac_digits (N_digits (Z.to_N fp)))).
  split_and!; [reflexivity | exact HIne | exact HIdig |].
  by apply Forall_strip_trailing_zeros, Forall_pad_left.
Qed.

Lemma string_of_digits_no_char x ds :
  digit_of x = None -> Forall is_digit ds -> no_char x (string_of_digits ds) = true.
Proof.
  intros Hx. induction 1 as [|d ds Hd _ IH]; [done|]. cbn [string_of_digits fold_right no_char].
  fold (string_of_digits ds). rewrite IH, andb_true_r. unfold is_char.
  rewrite bool_decide_eq_false_2; [done|]. intros He. rewrite <- He, digit_of_char in Hx by done. done.
Qed.

(** A printed number has no line break and no quote: it is one line of
    the concat manifest. *)
Lemma js_number_to_string_no_char x n :
  x = "010"%char \/ x = "'"%char -> no_char x (js_number_to_string n) = true.
Proof.
  intros Hx. assert (Hd : digit_of x = None) by (by destruct Hx as [-> | ->]).
  destruct n as [q| |[]]; [|by destruct Hx as [-> | ->]..].
  cbn [js_number_to_string]. destruct (Q_to_decimal_shape q) as (neg & I & fds & -> & _ & HI & Hf).
  rewrite !no_char_app, !string_of_digits_no_char by done.
  destruct neg, fds as [|f fds']; cbn [frac_part no_char]; rewrite ?string_of_digits_no_char by done;
    destruct Hx as [-> | ->]; reflexivity.
Qed.

Lemma number_roundtrip_num q :
  decimal20 q = true -> exists x, parse_float_string (js_number_to_string (JNum q)) = JNum x /\ x == q.
Proof.
  intros Hd. pose proof (number_roundtrip q Hd) as H.
  destruct (parse_float_string _) as [x| |]; cbn in H; [eauto | done | done].
Qed.
