(* ===== verification/Text.v ===== *)
(** * Strings as the script and media controllers handle them

    Character classes of JavaScript regular expressions ([\w], [\s], [.]),
    [toLowerCase], [split] on a character class or on runs of it,
    [padStart], and one scanner for the global regular expressions of the
    code ([/.../g] with [replace] or [exec]): at each position the pattern
    is tried; a match (never empty for the patterns of the code) is
    consumed whole and the scan resumes after it.  Also the word tokenizer
    of the [natural] library ([WordTokenizer]: the maximal runs of
    [[A-Za-z0-9_]]). *)

From S2P Require Import Prelude.
From Stdlib Require Import Ascii.
Local Open Scope string_scope.

(** ** Character classes *)

Definition in_range (lo hi : N) (c : ascii) : bool := (lo <=? N_of_ascii c)%N && (N_of_ascii c <=? hi)%N.

(** [\w]: [[A-Za-z0-9_]]. *)
Definition is_word_char (c : ascii) : bool :=
  in_range 65 90 c || in_range 97 122 c || in_range 48 57 c || is_char c "_".

(** What [.] does not match: the line terminators [\n] and [\r]. *)
Definition is_line_terminator (c : ascii) : bool := is_char c "010" || is_char c "013".

(** [toLowerCase] on a code unit: [A-Z] and the Latin-1 capitals
    (U+00C0 to U+00DE but the multiplication sign U+00D7). *)
Definition js_lower_char (c : ascii) : ascii :=
  if in_range 65 90 c || (in_range 192 222 c && negb (N.eqb (N_of_ascii c) 215))
  then ascii_of_N (N_of_ascii c + 32) else c.

Fixpoint js_to_lower (s : string) : string :=
  match s with EmptyString => EmptyString | String c r => String (js_lower_char c) (js_to_lower r) end.

(** ** [split] *)

Definition cons_head (c : ascii) (l : list string) : list string :=
  match l with x :: xs => String c x :: xs | [] => [String c EmptyString] end.

(** [s.split(/[...]/)] for a class of single characters: every separator
    ends a piece. *)
Fixpoint split_chars (p : ascii -> bool) (s : string) : list string :=
  match s with
  | EmptyString => [EmptyString]
  | String c r => if p c then EmptyString :: split_chars p r else cons_head c (split_chars p r)
  end.

(** [s.split(/[...]+/)]: a run of separators ends a piece; [sep] says
    whether the previous character was a separator. *)
Fixpoint split_runs_from (p : ascii -> bool) (sep : bool) (s : string) : list string :=
  match s with
  | EmptyString => [EmptyString]
  | String c r =>
      if p c then (if sep then split_runs_from p true r else EmptyString :: split_runs_from p true r)
      else cons_head c (split_runs_from p false r)
  end.

Definition split_runs (p : ascii -> bool) (s : string) : list string := split_runs_from p false s.

(** [s.split(/\s+/)] *)
Definition split_ws (s : string) : list string := split_runs js_is_space s.

Fixpoint repeat_char (n : nat) (c : ascii) : string :=
  match n with O => EmptyString | S n' => String c (repeat_char n' c) end.

(** [s.padStart(k, fill)] with a one-character [fill]. *)
Definition padStart (k : nat) (fill : ascii) (s : string) : string :=
  repeat_char (k - String.length s) fill ++ s.

(** The characters of [s] that satisfy [p]: [s.replace(/[^...]/g, '')]. *)
Fixpoint filter_chars (p : ascii -> bool) (s : string) : string :=
  match s with
  | EmptyString => EmptyString
  | String c r => if p c then String c (filter_chars p r) else filter_chars p r
  end.

(** How many characters at the head of [s] satisfy [p] (a greedy
    [[...]*]). *)
Fixpoint count_while (p : ascii -> bool) (s : string) : nat :=
  match s with
  | EmptyString => O
  | String c r => if p c then S (count_while p r) else O
  end.

(** [s] without its first [n] characters. *)
Fixpoint str_drop (n : nat) (s : string) : string :=
  match n, s with
  | S n', String _ r => str_drop n' r
  | _, _ => s
  end.

(** [s.includes(x)] *)
Fixpoint includes (s x : string) : bool :=
  String.prefix x s || match s with EmptyString => false | String _ r => includes r x end.

(** ** Global regular expressions *)

(** The output of a scan: a character no match covered, or a match. *)
Inductive piece (A : Type) : Type := PChar (c : ascii) | PMatch (a : A).
Arguments PChar {A} c.
Arguments PMatch {A} a.

Section Scan.
Context {A : Type}.

(** A pattern tried at the head of a string, knowing the character
    before it ([None] at the start of the input: what [^] and look-behind
    need); it gives what it captured and how many characters it covers. *)
Definition matcher : Type := option ascii -> string -> option (A * nat).

Variable m : matcher.

(** The scan of [/.../g]: [skip] characters of the current match remain
    to be passed over. *)
Fixpoint scan (skip : nat) (prev : option ascii) (s : string) : list (piece A) :=
  match s with
  | EmptyString => []
  | String c r =>
      match skip with
      | S k => scan k (Some c) r
      | O =>
          match m prev s with
          | Some (a, n) => PMatch a :: scan (n - 1) (Some c) r
          | None => PChar c :: scan 0 (Some c) r
          end
      end
  end.

(** [s.replace(/.../g, f)] *)
Definition replace_all (rep : A -> string) (s : string) : string :=
  fold_right (fun p acc => match p with PChar c => String c acc | PMatch a => rep a ++ acc end)
    EmptyString (scan 0 None s).

(** The successive matches of [re.exec(s)] with [/g]. *)
Definition match_all (s : string) : list A :=
  fold_right (fun p acc => match p with PChar _ => acc | PMatch a => a :: acc end) [] (scan 0 None s).
End Scan.

(** ** Literal patterns and the word tokenizer *)

(** A literal at the head of a string; it covers its length. *)
Definition lit_matcher (x : string) : matcher (A := unit) :=
  fun _ s => if String.prefix x s then Some (tt, String.length x) else None.

(** [s.replace(/x/g, '')] for a literal [x]. *)
Definition remove_all (x : string) (s : string) : string := replace_all (lit_matcher x) (fun _ => "") s.

(** [new natural.WordTokenizer().tokenize(s)]: the pieces between runs of
    non-word characters, without the empty ones. *)
Definition word_tokens (s : string) : list string :=
  filter (fun x => x <> EmptyString) (split_runs (fun c => negb (is_word_char c)) s).


(** [s.substring(0, n)] *)
Fixpoint str_take (n : nat) (s : string) : string :=
  match n, s with
  | S n', String c r => String c (str_take n' r)
  | _, _ => EmptyString
  end.

(** ** [encodeURIComponent] *)

(** The characters it leaves alone: [A-Z a-z 0-9 - _ . ! ~ * ' ( )]. *)
Definition uri_unreserved (c : ascii) : bool :=
  in_range 65 90 c || in_range 97 122 c || in_range 48 57 c ||
  existsb (fun x => is_char c x) ["-"; "_"; "."; "!"; "~"; "*"; "'"; "("; ")"]%char.

Definition hex_digit (n : N) : ascii := if (n <? 10)%N then ascii_of_N (48 + n) else ascii_of_N (55 + n).

(** [%XX] for one byte, upper-case hexadecimal. *)
Definition percent_byte (b : N) : string :=
  String "%" (String (hex_digit (b / 16)) (String (hex_digit (b mod 16)) EmptyString)).

(** A code unit is escaped as the bytes of its UTF-8 form: one byte below
    U+0080, two ([110xxxxx 10xxxxxx]) for the rest of Latin-1. *)
Definition encode_char (c : ascii) : string :=
  if uri_unreserved c then String c EmptyString
  else let n := N_of_ascii c in
       if (n <? 128)%N then percent_byte n
       else percent_byte (192 + n / 64) ++ percent_byte (128 + n mod 64).

Fixpoint encodeURIComponent (s : string) : string :=
  match s with EmptyString => EmptyString | String c r => encode_char c ++ encodeURIComponent r end.

(** ** Laws *)

(** Every character of [s] satisfies [q]. *)
Fixpoint str_forall (q : ascii -> bool) (s : string) : bool :=
  match s with EmptyString => true | String c r => q c && str_forall q r end.

Lemma filter_chars_forall p q s :
  str_forall q s = true -> str_forall (fun c => p c && q c) (filter_chars p s) = true.
Proof.
  induction s as [|c r IH]; cbn; [done|]. intros [Hq Hr]%andb_true_iff.
  destruct (p c) eqn:Hp; cbn; rewrite ?Hp, ?Hq; cbn; by apply IH.
Qed.

Lemma cons_head_forall q c l :
  q c = true -> Forall (fun x => str_forall q x = true) l -> Forall (fun x => str_forall q x = true) (cons_head c l).
Proof.
  intros Hc Hl. destruct Hl as [|x xs Hx Hxs]; cbn; constructor; cbn; rewrite ?Hc, ?Hx; auto.
Qed.

(** The pieces of a split hold no separator. *)
Lemma split_runs_from_forall p q sep s :
  str_forall q s = true -> Forall (fun x => str_forall (fun c => q c && negb (p c)) x = true) (split_runs_from p sep s).
Proof.
  revert sep. induction s as [|c r IH]; intros sep; cbn; [by repeat constructor|].
  intros [Hq Hr]%andb_true_iff. destruct (p c) eqn:Hp.
  - destruct sep; [by apply IH|]. constructor; [done | by apply IH].
  - apply cons_head_forall; [by rewrite Hq, Hp | by apply IH].
Qed.

Lemma js_lower_char_not_upper c : in_range 65 90 (js_lower_char c) = false.
Proof. destruct c as [[] [] [] [] [] [] [] []]; reflexivity. Qed.

(** [toLowerCase] leaves no capital [A-Z]. *)
Lemma js_to_lower_forall s : str_forall (fun c => negb (in_range 65 90 c)) (js_to_lower s) = true.
Proof. induction s as [|c r IH]; cbn; [done|]. by rewrite js_lower_char_not_upper, IH. Qed.

Lemma str_forall_impl q1 q2 s : (forall c, q1 c = true -> q2 c = true) -> str_forall q1 s = true -> str_forall q2 s = true.
Proof.
  intros Himp. induction s as [|c r IH]; cbn; [done|]. intros [H1 H2]%andb_true_iff. by rewrite Himp, IH.
Qed.

Section ScanLaws.
Context {A : Type} (m : matcher (A := A)).

(** What a scan reports as a match is what the pattern gave somewhere. *)
Lemma scan_match_sound k prev s a :
  PMatch a ∈ scan m k prev s -> exists prev' s' n, m prev' s' = Some (a, n).
Proof.
  revert k prev. induction s as [|c r IH]; intros k prev; cbn; [by intros ?%elem_of_nil|].
  destruct k as [|k]; [|apply IH].
  destruct (m prev (String c r)) as [[a' n]|] eqn:Hm; intros [He|Hin]%elem_of_cons;
    first [injection He as ->; eauto | discriminate | eapply IH; exact Hin].
Qed.

Lemma match_all_sound s a : a ∈ match_all m s -> exists prev' s' n, m prev' s' = Some (a, n).
Proof.
  unfold match_all. intros Ha. apply (scan_match_sound 0 None s).
  induction (scan m 0 None s) as [|p ps IH]; cbn in Ha; [by apply elem_of_nil in Ha|].
  destruct p as [c|a']; [apply elem_of_cons; right; by apply IH|].
  apply elem_of_cons in Ha as [->|Ha]; apply elem_of_cons; [by left | right; by apply IH].
Qed.
End ScanLaws.

(** ** Reversal, [trim] and white space *)

Definition head_char (s : string) : option ascii :=
  match s with String c _ => Some c | EmptyString => None end.

Lemma string_rev_app_eq s acc : string_rev_app s acc = (string_rev s ++ acc)%string.
Proof.
  unfold string_rev. revert acc. induction s as [|c r IH]; intros acc; [done|]. cbn [string_rev_app].
  rewrite (IH (String c acc)), (IH (String c EmptyString)), <- string_app_assoc. done.
Qed.

Lemma string_rev_app_distr x y : string_rev (x ++ y) = (string_rev y ++ string_rev x)%string.
Proof.
  induction x as [|c x IH]; [cbn; by rewrite string_app_nil_r|].
  rewrite string_app_cons. change (string_rev (String c ?z)) with (string_rev_app z (String c EmptyString)).
  rewrite !string_rev_app_eq, IH. by rewrite string_app_assoc.
Qed.

Lemma string_rev_involutive s : string_rev (string_rev s) = s.
Proof.
  induction s as [|c r IH]; [done|]. unfold string_rev at 2. cbn [string_rev_app].
  rewrite string_rev_app_eq, string_rev_app_distr, IH. reflexivity.
Qed.

Lemma last_char_rev s : last_char (string_rev s) = head_char s.
Proof.
  destruct s as [|c r]; [done|]. unfold string_rev. cbn [string_rev_app]. rewrite string_rev_app_eq.
  by apply last_char_app.
Qed.

Lemma head_char_rev s : head_char (string_rev s) = last_char s.
Proof. rewrite <- (string_rev_involutive s) at 2. by rewrite last_char_rev. Qed.

(** [skip_ws] drops a prefix of white space and stops at a character
    that is not. *)
Lemma skip_ws_suffix s : exists p, s = (p ++ skip_ws s)%string.
Proof.
  induction s as [|c r [p Hp]]; [by exists EmptyString|]. cbn [skip_ws].
  destruct (js_is_space c); [exists (String c p); by rewrite string_app_cons, <- Hp | by exists EmptyString].
Qed.

Definition not_ws_head (o : option ascii) : bool := match o with Some c => negb (js_is_space c) | None => true end.

Lemma skip_ws_head s : not_ws_head (head_char (skip_ws s)) = true.
Proof. induction s as [|c r IH]; [done|]. cbn [skip_ws]. destruct (js_is_space c) eqn:Hc; [done|]. cbn [head_char not_ws_head]. by rewrite Hc. Qed.

(** [trim(s)] is a piece of [s] whose ends are not white space. *)
Lemma trim_infix s : exists p q, s = (p ++ trim s ++ q)%string.
Proof.
  unfold trim. destruct (skip_ws_suffix s) as [p1 Hp1].
  destruct (skip_ws_suffix (string_rev (skip_ws s))) as [p2 Hp2].
  exists p1, (string_rev p2). rewrite Hp1 at 1. f_equal.
  rewrite <- string_rev_app_distr, <- Hp2. by rewrite string_rev_involutive.
Qed.

Lemma trim_ends s : not_ws_head (head_char (trim s)) = true /\ not_ws_head (last_char (trim s)) = true.
Proof.
  unfold trim. rewrite head_char_rev, last_char_rev. split; [|apply skip_ws_head].
  destruct (skip_ws_suffix (string_rev (skip_ws s))) as [p Hp].
  destruct (skip_ws (string_rev (skip_ws s))) as [|c r] eqn:Hw; [done|].
  rewrite <- (last_char_app p) by done. rewrite <- Hp, last_char_rev. apply skip_ws_head.
Qed.

Lemma str_forall_app q x y : str_forall q (x ++ y) = str_forall q x && str_forall q y.
Proof. induction x as [|c x IH]; [done|]. rewrite string_app_cons. cbn. by rewrite IH, andb_assoc. Qed.

Lemma str_forall_rev q s : str_forall q (string_rev s) = str_forall q s.
Proof.
  induction s as [|c r IH]; [done|]. unfold string_rev. cbn [string_rev_app].
  rewrite string_rev_app_eq, str_forall_app. fold (string_rev r). rewrite IH. cbn. by rewrite andb_true_r, andb_comm.
Qed.

(** No two white-space characters in a row. *)
Fixpoint no_ws_pair (s : string) : bool :=
  match s with
  | String a ((String b _) as t) => negb (js_is_space a && js_is_space b) && no_ws_pair t
  | _ => true
  end.

Definition ws_opt (o : option ascii) : bool := match o with Some c => js_is_space c | None => false end.

Lemma no_ws_pair_cons2 a b r : no_ws_pair (String a (String b r)) = negb (js_is_space a && js_is_space b) && no_ws_pair (String b r).
Proof. reflexivity. Qed.

Lemma no_ws_pair_app x y :
  no_ws_pair (x ++ y) = no_ws_pair x && no_ws_pair y && negb (ws_opt (last_char x) && ws_opt (head_char y)).
Proof.
  induction x as [|a x IH].
  - change (EmptyString ++ y)%string with y. cbn [no_ws_pair last_char ws_opt andb negb]. by destruct (no_ws_pair y).
  - rewrite string_app_cons. destruct x as [|b x'].
    + change (EmptyString ++ y)%string with y. destruct y as [|c y'].
      * cbn [no_ws_pair last_char head_char ws_opt]. by destruct (js_is_space a).
      * rewrite no_ws_pair_cons2. generalize (no_ws_pair (String c y')). intros t.
        cbn [no_ws_pair last_char head_char ws_opt]. destruct (js_is_space a), (js_is_space c), t; reflexivity.
    + rewrite string_app_cons, no_ws_pair_cons2, <- string_app_cons, IH, no_ws_pair_cons2.
      change (last_char (String a (String b x'))) with (last_char (String b x')).
      generalize (no_ws_pair (String b x')) (no_ws_pair y) (negb (js_is_space a && js_is_space b)).
      intros t1 t2 t3. destruct t1, t2, t3; reflexivity.
Qed.

Lemma no_ws_pair_rev s : no_ws_pair s = true -> no_ws_pair (string_rev s) = true.
Proof.
  induction s as [|c r IH]; [done|]. intros H. unfold string_rev. cbn [string_rev_app].
  rewrite string_rev_app_eq. fold (string_rev r). rewrite no_ws_pair_app, last_char_rev.
  assert (Hc : String c r = (String c EmptyString ++ r)%string) by reflexivity.
  rewrite Hc, no_ws_pair_app in H. apply andb_true_iff in H as [[_ Hr]%andb_true_iff Hb].
  rewrite IH by done. cbn [last_char ws_opt no_ws_pair] in Hb |- *.
  cbn [head_char]. destruct (head_char r); cbn [ws_opt andb] in *; [by rewrite andb_comm | done].
Qed.

Lemma trim_forall q s : str_forall q s = true -> str_forall q (trim s) = true.
Proof.
  destruct (trim_infix s) as (p & r & Hs). intros H. rewrite Hs, !str_forall_app in H. bool_hyps. done.
Qed.

Lemma trim_no_ws_pair s : no_ws_pair s = true -> no_ws_pair (trim s) = true.
Proof.
  destruct (trim_infix s) as (p & r & Hs). intros H. rewrite Hs, !no_ws_pair_app in H. bool_hyps. done.
Qed.

(** A scan that still has [k] characters of a match to pass over
    resumes after them. *)
Fixpoint prev_after (k : nat) (prev : option ascii) (s : string) : option ascii :=
  match k, s with
  | S k', String c r => prev_after k' (Some c) r
  | _, _ => prev
  end.

Lemma scan_skip {A} (m : matcher (A := A)) k prev s :
  scan m k prev s = scan m 0 (prev_after k prev s) (str_drop k s).
Proof.
  revert k prev. induction s as [|c r IH]; intros k prev; [by destruct k|].
  destruct k as [|k]; [done|]. cbn [scan prev_after str_drop]. apply IH.
Qed.

Lemma str_drop_length k s : (String.length (str_drop k s) <= String.length s)%nat.
Proof. revert s. induction k as [|k IH]; intros [|c r]; cbn; try lia. specialize (IH r). lia. Qed.

(** ** [split] and [join] at one character, [substring] *)

Lemma split_chars_ne p s : split_chars p s <> [].
Proof. destruct s as [|c r]; cbn; [congruence|]. destruct (p c); [congruence|]. unfold cons_head. case_match; congruence. Qed.

(** [s.split(c).join(c) === s] *)
Lemma split_chars_join c s : js_join (String c EmptyString) (split_chars (fun x => is_char x c) s) = s.
Proof.
  induction s as [|c' r IH]; [done|]. cbn [split_chars].
  pose proof (split_chars_ne (fun x => is_char x c) r) as Hne.
  destruct (is_char c' c) eqn:Hc.
  - apply bool_decide_eq_true in Hc as ->. rewrite js_join_cons by done. by rewrite IH.
  - destruct (split_chars _ r) as [|x [|y ys]]; [done | by rewrite <- IH |].
    cbn [cons_head js_join] in IH |- *. rewrite string_app_cons. by rewrite IH.
Qed.

(** Dropping the last piece before joining keeps a prefix. *)
Lemma js_join_removelast sep l : exists rest, js_join sep l = (js_join sep (removelast l) ++ rest)%string.
Proof.
  induction l as [|x [|y r] IH]; [exists EmptyString; done | exists x; reflexivity |].
  destruct IH as [rest Hr].
  change (removelast (x :: y :: r)) with (x :: removelast (y :: r)).
  rewrite (js_join_cons sep x (y :: r)) by done.
  destruct (removelast (y :: r)) as [|z zs] eqn:Hrl.
  - by exists (sep ++ js_join sep (y :: r))%string.
  - exists rest. rewrite (js_join_cons sep x (z :: zs)) by done. by rewrite Hr, !string_app_assoc.
Qed.

Lemma str_take_prefix n s : exists rest, s = (str_take n s ++ rest)%string.
Proof.
  revert s. induction n as [|n IH]; intros [|c r]; try by eexists.
  destruct (IH r) as [rest Hr]. exists rest. cbn [str_take]. rewrite string_app_cons. by rewrite <- Hr.
Qed.

Lemma str_take_length n s : (String.length (str_take n s) <= n)%nat.
Proof. revert s. induction n as [|n IH]; intros [|c r]; cbn; try lia. specialize (IH r). lia. Qed.

(** ** What [encodeURIComponent] writes *)

(** The characters of an escaped URI component. *)
Definition url_safe (c : ascii) : bool := uri_unreserved c || is_char c "%".

Lemma encode_char_safe c : str_forall url_safe (encode_char c) = true.
Proof. destruct c as [[] [] [] [] [] [] [] []]; vm_compute; reflexivity. Qed.

Lemma no_char_forall x s : no_char x s = str_forall (fun c => negb (is_char c x)) s.
Proof. induction s as [|c r IH]; cbn; [done|]. by rewrite IH. Qed.

(** A split at a class of characters, over a string whose first part has
    none of them. *)
Lemma split_chars_sep p a c b :
  str_forall (fun x => negb (p x)) a = true -> p c = true ->
  split_chars p (a ++ String c b) = a :: split_chars p b.
Proof.
  intros Ha Hc. induction a as [|c' a IH].
  - change (EmptyString ++ String c b)%string with (String c b). cbn [split_chars]. by rewrite Hc.
  - rewrite string_app_cons. cbn [split_chars]. cbn in Ha.
    apply andb_true_iff in Ha as [Hc' Ha]. apply negb_true_iff in Hc' as ->. by rewrite IH.
Qed.

Lemma split_chars_none p a : str_forall (fun x => negb (p x)) a = true -> split_chars p a = [a].
Proof.
  induction a as [|c a IH]; cbn; [done|]. intros [Hc Ha]%andb_true_iff.
  apply negb_true_iff in Hc as ->. by rewrite IH.
Qed.

Lemma encodeURIComponent_safe s : str_forall url_safe (encodeURIComponent s) = true.
Proof. induction s as [|c r IH]; [done|]. cbn [encodeURIComponent]. by rewrite str_forall_app, encode_char_safe, IH. Qed.

(** A character that is never written by [encodeURIComponent]. *)
Lemma encodeURIComponent_no_char x s : url_safe x = false -> no_char x (encodeURIComponent s) = true.
Proof.
  intros Hx. rewrite no_char_forall. apply (str_forall_impl url_safe); [|apply encodeURIComponent_safe].
  intros c Hc. unfold is_char. apply negb_true_iff, bool_decide_eq_false_2. by intros ->; rewrite Hx in Hc.
Qed.
