(* ===== verification/Media.v ===== *)
(** * The world the controllers act on

    Files on disk with what ffprobe reports for them, the counter behind
    [uuidv4()], and the warnings the controllers print.  This is the state
    of every [async] function of the back end ([St world]). *)

From S2P Require Import Prelude.
From Stdlib Require Import Ascii.
Local Open Scope string_scope.

(** What a file holds, as far as the encoder is concerned. *)
Inductive media_kind : Type :=
| KImage                              (** a still picture *)
| KVideo (len : Q) (has_audio : bool) (** a clip; its audio track, if any, has the same length *)
| KAudio (len : Q)                    (** a sound file *)
| KText (contents : string).          (** a text file (the concat manifest) *)

(** A file and the [metadata.format.duration] that ffprobe reports for it
    ([None]: ffprobe fails on the file). *)
Record file : Type := mkFile {
  f_kind : media_kind;
  f_probe : option jsval
}.

(** An image read as a video is a single frame (25 fps). *)
Definition frame_len : Q := 1 # 25.

(** The length of what the file plays. *)
Definition natural_len (f : file) : Q :=
  match f_kind f with
  | KVideo l _ | KAudio l => l
  | KImage => frame_len
  | KText _ => 0
  end.

(** A file as ffprobe sees it: a length that is not negative, reported
    exactly when ffprobe succeeds. *)
Definition file_ok (f : file) : Prop :=
  (0 <= natural_len f)%Q /\
  (f_probe f = None \/ f_probe f = Some (VNum (JNum (natural_len f)))).

(** The warnings of [console.warn] that carry information. *)
Inductive warning : Type :=
| WVerifyFailed (path : string)
| WDurationMismatch (path : string)
| WFinalDurationMismatch.

Record world : Type := mkWorld {
  w_files : gmap string file;
  w_fresh : nat;
  w_warnings : list warning
}.

Abbreviation M := (St world).

Definition wf_world (w : world) : Prop := map_Forall (fun _ f => file_ok f) (w_files w).

(** [path.join(dir, name)] for a directory and a plain file name. *)
Definition path_join (dir name : string) : string := dir ++ "/" ++ name.

(** [path.basename(p)]: what follows the last ["/"]. *)
Fixpoint basename_aux (s acc : string) : string :=
  match s with
  | EmptyString => acc
  | String c r => if is_char c "/" then basename_aux r "" else basename_aux r (acc ++ String c "")
  end.

Definition basename (p : string) : string := basename_aux p "".

Definition set_files (w : world) (fs : gmap string file) : world :=
  mkWorld fs (w_fresh w) (w_warnings w).

(** Write (or overwrite) the file at [p]. *)
Definition write_file (p : string) (f : file) : M unit :=
  mmodify (fun w => set_files w (<[p := f]> (w_files w))).

(** [fs.access(p)] followed by [fs.stat(p)]: both succeed exactly when the
    file exists. *)
Definition fs_exists (p : string) : M bool :=
  fun w => (w, Ok (bool_decide (is_Some (w_files w !! p)))).

(** [uuidv4()]: a name never handed out before. *)
Definition fresh_uuid : M string :=
  fun w => (mkWorld (w_files w) (S (w_fresh w)) (w_warnings w),
            Ok ("uuid" ++ pretty (w_fresh w))).

Definition warn (x : warning) : M unit :=
  mmodify (fun w => mkWorld (w_files w) (w_fresh w) (w_warnings w ++ [x])).

(** [ffmpeg.ffprobe(p, cb)]: the [metadata.format.duration] of the file,
    or an error when the file is missing or not a media file. *)
Definition ffprobe (p : string) : M jsval :=
  fun w =>
    match w_files w !! p with
    | Some f =>
        match f_probe f with
        | Some v => (w, Ok v)
        | None => (w, Throw (ErrFfprobe p))
        end
    | None => (w, Throw (ErrFfprobe p))
    end.

(** ** Effects on the files *)

Lemma warn_files x w : (warn x w).1 = mkWorld (w_files w) (w_fresh w) (w_warnings w ++ [x]).
Proof. reflexivity. Qed.

Lemma fresh_uuid_run w :
  fresh_uuid w = (mkWorld (w_files w) (S (w_fresh w)) (w_warnings w), Ok ("uuid" ++ pretty (w_fresh w))).
Proof. reflexivity. Qed.

Lemma wf_world_set_files w fs : wf_world (set_files w fs) <-> map_Forall (fun _ f => file_ok f) fs.
Proof. reflexivity. Qed.

Lemma set_files_files w fs : w_files (set_files w fs) = fs.
Proof. reflexivity. Qed.

(** ** The primitive steps settle *)

Lemma fs_exists_settles p : settles (fs_exists p).
Proof. intros w. exact I. Qed.

Lemma fresh_uuid_settles : settles fresh_uuid.
Proof. intros w. exact I. Qed.

Lemma warn_settles x : settles (warn x).
Proof. by apply settles_modify. Qed.

Lemma ffprobe_settles p : settles (ffprobe p).
Proof. intros w. unfold ffprobe. by repeat case_match. Qed.

#[export] Hint Resolve fs_exists_settles fresh_uuid_settles warn_settles ffprobe_settles : settles.

(** ** [path.basename] of a joined path *)

(** The name has no ["/"]. *)
Fixpoint no_slash (s : string) : bool :=
  match s with
  | EmptyString => true
  | String c r => negb (is_char c "/") && no_slash r
  end.

Lemma no_slash_app s1 s2 : no_slash (s1 ++ s2) = no_slash s1 && no_slash s2.
Proof. induction s1 as [|c s1 IH]; [done|]. rewrite string_app_cons. cbn [no_slash]. rewrite IH. by destruct (is_char c "/"), (no_slash s1). Qed.

Lemma no_slash_pretty_N_go x s : no_slash s = true -> no_slash (pretty_N_go x s) = true.
Proof.
  revert s. induction (N.lt_wf_0 x) as [x _ IH]; intros s Hs.
  destruct (decide (x = 0%N)) as [->|Hx]; [by rewrite pretty_N_go_0|].
  rewrite pretty_N_go_step by lia. apply IH; [apply N.div_lt; lia|].
  cbn. rewrite Hs, andb_true_r. unfold pretty_N_char. by repeat case_match.
Qed.

Lemma no_slash_pretty (n : nat) : no_slash (pretty n) = true.
Proof.
  unfold pretty, pretty_nat, pretty, pretty_N. case_decide; [done|].
  by apply no_slash_pretty_N_go.
Qed.

Lemma basename_aux_no_slash s acc : no_slash s = true -> basename_aux s acc = acc ++ s.
Proof.
  revert acc. induction s as [|c s IH]; intros acc Hs; cbn [basename_aux no_slash] in *; [by rewrite string_app_nil_r|].
  apply andb_true_iff in Hs as [Hc Hs]. apply negb_true_iff in Hc. rewrite Hc, IH by done.
  by rewrite <- string_app_assoc.
Qed.

Lemma basename_aux_app dir name acc :
  basename_aux (dir ++ "/" ++ name) acc = basename_aux name "".
Proof.
  revert acc. induction dir as [|c dir IH]; intros acc; [done|].
  rewrite string_app_cons. cbn [basename_aux]. by case_match.
Qed.

(** [path.basename(path.join(dir, name))] is [name]. *)
Lemma basename_path_join dir name : no_slash name = true -> basename (path_join dir name) = name.
Proof. intros Hn. unfold basename, path_join. rewrite basename_aux_app. by apply basename_aux_no_slash. Qed.
