(* ===== verification/Ffmpeg.v ===== *)
(** * The encoding engine: fluent-ffmpeg commands and what ffmpeg makes of them

    Not code of the repository: the environment the controllers drive.
    - [ffcmd] and the [ff_*] builders follow fluent-ffmpeg 2.x: options of
      an input go to the input added last, and [inputOptions] with no input
      throws ["No input specified"].
    - [ff_semantics] is the reference meaning of a command: which streams
      the output has and how long it is ([-loop 1], [-stream_loop -1],
      [apad], [-an], [-shortest], [-t], the concat demuxer).
    - [Encoder] is the interface the controllers are written against; an
      encoder may fail on any command, but when it succeeds (or never
      ends) it agrees with [ff_semantics] ([EncoderSound]). *)

From S2P Require Import Prelude Media.
From Stdlib Require Import Ascii.


(** ** Stream lengths *)

Inductive ext : Type := Fin (q : Q) | Inf.

#[export] Instance ext_eq_dec : EqDecision ext.
Proof. solve_decision. Defined.

Definition emin (a b : ext) : ext :=
  match a, b with
  | Fin x, Fin y => Fin (Qmin x y)
  | Fin x, Inf => Fin x
  | Inf, e => e
  end.

Definition emax (a b : ext) : ext :=
  match a, b with
  | Fin x, Fin y => Fin (Qmax x y)
  | _, _ => Inf
  end.

(** ** Commands *)

(** The options the controllers pass, one constructor per option string of
    the source; [OptRaw] holds the codec, quality and container options,
    which do not change which streams are written or for how long.  [OptT]
    is ["-t ${d}"] and fluent-ffmpeg's [.duration(d)]: JavaScript prints a
    number as a string that reads back as the same number. *)
Inductive ffopt : Type :=
| OptLoop1           (** ["-loop 1"] *)
| OptStreamLoopInf   (** ["-stream_loop -1"] *)
| OptT (d : jsnum)   (** ["-t ${d}"] *)
| OptNoAudio         (** ["-an"] *)
| OptCopyVideo       (** ["-c:v copy"] *)
| OptShortest        (** ["-shortest"] *)
| OptFormatConcat    (** ["-f concat"] *)
| OptRaw (s : string).

#[export] Instance ffopt_eq_dec : EqDecision ffopt.
Proof. solve_decision. Defined.

Record ffinput : Type := mkInput { i_path : string; i_opts : list ffopt }.

Record ffcmd : Type := mkCmd {
  c_inputs : list ffinput;
  c_afilters : list string;
  c_vfilters : list string;
  c_outopts : list ffopt;
  c_output : option string
}.

(** ** The fluent-ffmpeg builder *)

(** [ffmpeg()] *)
Definition ff_new : ffcmd := mkCmd [] [] [] [] None.

(** [.input(p)]; [ffmpeg(p)] is [ff_input p ff_new]. *)
Definition ff_input (p : string) (c : ffcmd) : ffcmd :=
  mkCmd (c_inputs c ++ [mkInput p []]) (c_afilters c) (c_vfilters c) (c_outopts c) (c_output c).

Definition add_to_last (os : list ffopt) (l : list ffinput) : option (list ffinput) :=
  match rev l with
  | [] => None
  | i :: r => Some (rev r ++ [mkInput (i_path i) (i_opts i ++ os)])
  end.

(** [.inputOptions(os)]: the options go to the current (last) input. *)
Definition ff_inputOptions (os : list ffopt) (c : ffcmd) : res ffcmd :=
  match add_to_last os (c_inputs c) with
  | None => Throw (ErrFluent "No input specified"%string)
  | Some l => Ok (mkCmd l (c_afilters c) (c_vfilters c) (c_outopts c) (c_output c))
  end.

(** [.outputOptions(os)] *)
Definition ff_outputOptions (os : list ffopt) (c : ffcmd) : ffcmd :=
  mkCmd (c_inputs c) (c_afilters c) (c_vfilters c) (c_outopts c ++ os) (c_output c).

(** [.duration(d)]: the output option [-t d]. *)
Definition ff_duration (d : jsnum) (c : ffcmd) : ffcmd := ff_outputOptions [OptT d] c.

(** [.audioFilters(fs)] and [.videoFilters(fs)] *)
Definition ff_audioFilters (fs : list string) (c : ffcmd) : ffcmd :=
  mkCmd (c_inputs c) (c_afilters c ++ fs) (c_vfilters c) (c_outopts c) (c_output c).

Definition ff_videoFilters (fs : list string) (c : ffcmd) : ffcmd :=
  mkCmd (c_inputs c) (c_afilters c) (c_vfilters c ++ fs) (c_outopts c) (c_output c).

(** [.output(p)] *)
Definition ff_output (p : string) (c : ffcmd) : ffcmd :=
  mkCmd (c_inputs c) (c_afilters c) (c_vfilters c) (c_outopts c) (Some p).

(** ** Durations given as text

    fluent-ffmpeg passes the argument of [.duration(v)] to ffmpeg as the
    text [String(v)]; ffmpeg reads it with [av_parse_time]: an optional
    [-], then [HH:MM:SS] or [MM:SS] (minutes and seconds of one or two
    digits, at most 59) or an integer number of seconds, then an optional
    fraction of which six digits count (microseconds), then an optional
    unit [s], [ms] or [us], and nothing else. *)

Fixpoint take_digits_max (n : nat) (s : string) : list N * string :=
  match n, s with
  | S n', String c r =>
      match digit_of c with
      | Some d => let '(ds, r') := take_digits_max n' r in (d :: ds, r')
      | None => ([], s)
      end
  | _, _ => ([], s)
  end.

(** [date_get_num]: one to [n] digits, a value at most [maxv]. *)
Definition date_num (n : nat) (maxv : N) (s : string) : option (N * string) :=
  match take_digits_max n s with
  | ([], _) => None
  | (ds, r) => if (digits_value ds <=? maxv)%N then Some (digits_value ds, r) else None
  end.

Definition expect_char (x : ascii) (s : string) : option string :=
  match s with String c r => if is_char c x then Some r else None | EmptyString => None end.

(** ["%J:%M:%S"] and ["%M:%S"]: whole seconds. *)
Definition parse_hms (s : string) : option (N * string) :=
  match date_num 10 2147483647 s with
  | Some (h, r1) =>
      match expect_char ":" r1 with
      | Some r2 =>
          match date_num 2 59 r2 with
          | Some (m, r3) =>
              match expect_char ":" r3 with
              | Some r4 => match date_num 2 59 r4 with
                           | Some (sec, r5) => Some (h * 3600 + m * 60 + sec, r5)%N
                           | None => None
                           end
              | None => None
              end
          | None => None
          end
      | None => None
      end
  | None => None
  end.

Definition parse_ms (s : string) : option (N * string) :=
  match date_num 2 59 s with
  | Some (m, r1) =>
      match expect_char ":" r1 with
      | Some r2 => match date_num 2 59 r2 with
                   | Some (sec, r3) => Some (m * 60 + sec, r3)%N
                   | None => None
                   end
      | None => None
      end
  | None => None
  end.

(** [strtoll(p, &o, 10)]: white space, a sign, at least one digit. *)
Definition strtoll_prefix (s : string) : option (Z * string) :=
  let '(neg, r) := parse_sign (skip_ws s) in
  match take_digits r with
  | ([], _) => None
  | (ds, r') => Some ((if neg then - Z.of_N (digits_value ds) else Z.of_N (digits_value ds))%Z, r')
  end.

Definition pad_right (k : nat) (ds : list N) : list N := ds ++ replicate (k - length ds) 0%N.

(** The [.m...] part: six digits count, the others are skipped. *)
Definition parse_micro (s : string) : Z * string :=
  match expect_char "." s with
  | Some r =>
      let '(ds, r1) := take_digits_max 6 r in
      let '(_, r2) := take_digits r1 in
      (Z.of_N (digits_value (pad_right 6 ds)), r2)
  | None => (0%Z, s)
  end.

(** [av_parse_time(&us, s, 1)], in seconds. *)
Definition ff_parse_time (s : string) : jsnum :=
  let '(neg, p) := match s with String c r => if is_char c "-" then (true, r) else (false, s)
                                | EmptyString => (false, s) end in
  let whole := match parse_hms p with
               | Some (t, q) => Some (Z.of_N t, q)
               | None => match parse_ms p with
                         | Some (t, q) => Some (Z.of_N t, q)
                         | None => strtoll_prefix p
                         end
               end in
  match whole with
  | None => JNaN
  | Some (t, q) =>
      let '(micro, q1) := parse_micro q in
      let '(us, q2) :=
        match q1 with
        | String "m" (String "s" r) => ((t * 1000 + micro / 1000)%Z, r)
        | String "u" (String "s" r) => (t, r)
        | String "s" r => ((t * 1000000 + micro)%Z, r)
        | _ => ((t * 1000000 + micro)%Z, q1)
        end in
      match q2 with
      | EmptyString => JNum ((if neg then - inject_Z us else inject_Z us) / inject_Z 1000000)
      | _ => JNaN
      end
  end.

(** The value fluent-ffmpeg passes for [.duration(v)], as ffmpeg reads
    it.  A number prints as a decimal that ffmpeg reads back (to the
    microsecond, exact for the six-decimal durations ffprobe reports). *)
Definition ff_time_value (v : jsval) : jsnum :=
  match v with
  | VNum n => n
  | VStr s => ff_parse_time s
  | VUndefined | VNull | VBool _ => ff_parse_time (jsval_to_string v)
  end.

(** [.loop(d)]: [-loop 1] on the current input, and [.duration(d)] when
    [d] is given. *)
Definition ff_loop (d : option jsval) (c : ffcmd) : res ffcmd :=
  res_bind (ff_inputOptions [OptLoop1] c) (fun c' =>
  Ok (match d with Some v => ff_duration (ff_time_value v) c' | None => c' end)).

(** ** The concat demuxer's manifest

    Lines [file 'p'] open an entry, [duration d] sets the duration of the
    entry opened last; empty lines are skipped, anything else is an
    error. *)

Fixpoint split_on (sep : ascii) (s : string) : list string :=
  match s with
  | EmptyString => [EmptyString]
  | String c r =>
      if is_char c sep then EmptyString :: split_on sep r
      else match split_on sep r with
           | [] => [String c EmptyString]
           | x :: xs => String c x :: xs
           end
  end.

Fixpoint strip_prefix (pre s : string) : option string :=
  match pre, s with
  | EmptyString, _ => Some s
  | String a pre', String b s' => if is_char a b then strip_prefix pre' s' else None
  | String _ _, EmptyString => None
  end.

(** The quoted path and what follows the closing quote. *)
Fixpoint take_quoted (s : string) : option (string * string) :=
  match s with
  | EmptyString => None
  | String c r =>
      if is_char c "'" then Some (EmptyString, r)
      else match take_quoted r with
           | Some (p, rest) => Some (String c p, rest)
           | None => None
           end
  end.

Inductive manifest_line : Type := LFile (p : string) | LDuration (d : jsnum) | LEmpty.

Definition parse_manifest_line (l : string) : option manifest_line :=
  match strip_prefix "file '" l with
  | Some r =>
      match take_quoted r with
      | Some (p, EmptyString) => Some (LFile p)
      | _ => None
      end
  | None =>
      match strip_prefix "duration " l with
      | Some d => Some (LDuration (parse_float_string d))
      | None => match l with EmptyString => Some LEmpty | _ => None end
      end
  end%string.

Fixpoint manifest_entries (acc : list (string * option jsnum)) (ls : list manifest_line)
  : option (list (string * option jsnum)) :=
  match ls with
  | [] => Some (rev acc)
  | LFile p :: r => manifest_entries ((p, None) :: acc) r
  | LDuration d :: r =>
      match acc with
      | (p, _) :: acc' => manifest_entries ((p, Some d) :: acc') r
      | [] => None
      end
  | LEmpty :: r => manifest_entries acc r
  end.

Definition parse_manifest (s : string) : option (list (string * option jsnum)) :=
  ls ← mapM parse_manifest_line (split_on "010" s); manifest_entries [] ls.

(** ** What ffmpeg writes *)

Record streams : Type := mkStreams { s_video : option ext; s_audio : option ext }.

(** Whether a flag option (one without an argument) is among [os]. *)
Definition same_flag (o o' : ffopt) : bool :=
  match o, o' with
  | OptLoop1, OptLoop1 | OptStreamLoopInf, OptStreamLoopInf | OptNoAudio, OptNoAudio
  | OptCopyVideo, OptCopyVideo | OptShortest, OptShortest | OptFormatConcat, OptFormatConcat => true
  | _, _ => false
  end.

Definition has_opt (o : ffopt) (os : list ffopt) : bool := existsb (same_flag o) os.

Definition file_streams (f : file) (opts : list ffopt) : streams :=
  let lp e := if has_opt OptStreamLoopInf opts then Inf else e in
  match f_kind f with
  | KImage => mkStreams (Some (if has_opt OptLoop1 opts then Inf else Fin frame_len)) None
  | KVideo len a => mkStreams (Some (lp (Fin len))) (if a then Some (lp (Fin len)) else None)
  | KAudio len => mkStreams None (Some (lp (Fin len)))
  | KText _ => mkStreams None None
  end.

Definition no_such_file (p : string) : js_error := ErrFfmpeg (p ++ ": No such file or directory")%string.

(** One entry of a concat manifest: its stated duration, or the length of
    the file. *)
Definition entry_len (fs : gmap string file) (e : string * option jsnum) : res Q :=
  match fs !! e.1 with
  | None => Throw (no_such_file e.1)
  | Some f =>
      match e.2 with
      | None => Ok (natural_len f)
      | Some (JNum q) =>
          if Qle_bool 0 q then Ok q
          else Throw (ErrFfmpeg "Invalid duration in concat manifest"%string)
      | Some _ => Throw (ErrFfmpeg "Invalid duration in concat manifest"%string)
      end
  end.

Fixpoint entries_len (fs : gmap string file) (es : list (string * option jsnum)) : res Q :=
  match es with
  | [] => Ok 0
  | e :: r =>
      match entry_len fs e, entries_len fs r with
      | Ok x, Ok y => Ok (x + y)
      | Throw err, _ | Ok _, Throw err => Throw err
      | Hang, _ | Ok _, Hang => Hang
      end
  end.

(** The concat demuxer reads the manifest; the joined stream has the
    streams of the first clip and the summed length. *)
Definition concat_streams (fs : gmap string file) (manifest : string) : res streams :=
  match parse_manifest manifest with
  | None => Throw (ErrFfmpeg "Invalid data found when processing input"%string)
  | Some [] => Throw (ErrFfmpeg "Invalid data found when processing input"%string)
  | Some ((p, d) :: es) =>
      match fs !! p, entries_len fs ((p, d) :: es) with
      | Some f, Ok total =>
          let s := file_streams f [] in
          Ok (mkStreams (option_map (fun _ => Fin total) (s_video s))
                        (option_map (fun _ => Fin total) (s_audio s)))
      | None, _ => Throw (no_such_file p)
      | _, Throw e => Throw e
      | _, Hang => Hang
      end
  end.

Definition input_streams (fs : gmap string file) (i : ffinput) : res streams :=
  match fs !! i_path i with
  | None => Throw (no_such_file (i_path i))
  | Some f =>
      if has_opt OptFormatConcat (i_opts i) then
        match f_kind f with
        | KText s => concat_streams fs s
        | _ => Throw (ErrFfmpeg "Invalid data found when processing input"%string)
        end
      else Ok (file_streams f (i_opts i))
  end.

Fixpoint inputs_streams (fs : gmap string file) (l : list ffinput) : res (list streams) :=
  match l with
  | [] => Ok []
  | i :: r =>
      match input_streams fs i, inputs_streams fs r with
      | Ok s, Ok ss => Ok (s :: ss)
      | Throw e, _ | Ok _, Throw e => Throw e
      | Hang, _ | Ok _, Hang => Hang
      end
  end.

Fixpoint first_some {A} (l : list (option A)) : option A :=
  match l with
  | [] => None
  | Some x :: _ => Some x
  | None :: r => first_some r
  end.

(** The last [-t] of the output options (ffmpeg keeps the last one). *)
Definition last_t (os : list ffopt) : option jsnum :=
  fold_left (fun acc o => match o with OptT d => Some d | _ => acc end) os None.

(** Length of the output before [-t]: the shortest stream under
    [-shortest], the longest otherwise. *)
Definition combine_lens (shortest : bool) (ss : list ext) : option ext :=
  match ss with
  | [] => None
  | e :: r => Some (fold_left (if shortest then emin else emax) r e)
  end.

Definition cap_t (t : option jsnum) (e : ext) : res ext :=
  match t with
  | None => Ok e
  | Some (JNum q) => Ok (emin e (Fin (Qmax 0 q)))
  | Some _ => Throw (ErrFfmpeg "Invalid duration specification for t"%string)
  end.

(** The output streams: the first input's video stream and the first audio
    stream (none under [-an]); [apad] makes the audio endless. *)
Definition out_video (ins : list streams) : option ext := first_some (map s_video ins).

Definition out_audio (c : ffcmd) (ins : list streams) : option ext :=
  if has_opt OptNoAudio (c_outopts c) then None
  else match first_some (map s_audio ins) with
       | Some e => Some (if existsb (String.eqb "apad"%string) (c_afilters c) then Inf else e)
       | None => None
       end.

Definition out_lens (c : ffcmd) (ins : list streams) : list ext :=
  match out_video ins, out_audio c ins with
  | Some v, Some a => [v; a]
  | Some v, None => [v]
  | None, Some a => [a]
  | None, None => []
  end.

(** The file ffmpeg writes for [c], an error, or a run that never ends
    (an endless stream with no [-t]). *)
Definition ff_semantics (fs : gmap string file) (c : ffcmd) : res file :=
  match c_output c with
  | None => Throw (ErrFluent "No output specified"%string)
  | Some _ =>
      match inputs_streams fs (c_inputs c) with
      | Throw e => Throw e
      | Hang => Hang
      | Ok ins =>
          match combine_lens (has_opt OptShortest (c_outopts c)) (out_lens c ins) with
          | None => Throw (ErrFfmpeg "Output file does not contain any stream"%string)
          | Some l =>
              match cap_t (last_t (c_outopts c)) l with
              | Ok (Fin len) =>
                  Ok (mkFile (match out_video ins with
                              | Some _ => KVideo len (bool_decide (is_Some (out_audio c ins)))
                              | None => KAudio len
                              end) (Some (VNum (JNum len))))
              | Ok Inf => Hang
              | Throw e => Throw e
              | Hang => Hang
              end
          end
      end
  end.

(** ** The encoder interface

    The controllers are written against any [Encoder]; the duration
    theorems hold for every sound one, which may still fail on any
    command (a missing codec, a full disk). *)
Class Encoder : Type := encode : gmap string file -> ffcmd -> res file.

Class EncoderSound (E : Encoder) : Prop := {
  encode_ok : forall fs c f, encode fs c = Ok f -> ff_semantics fs c = Ok f;
  encode_hang : forall fs c, encode fs c = Hang -> ff_semantics fs c = Hang
}.

(** The reference encoder does exactly what [ff_semantics] says. *)
Definition ffmpeg_reference : Encoder := ff_semantics.


(** [.on('end', ...).on('error', ...).run()]: the run writes the output
    file, or the promise rejects with the error, or never settles. *)
Definition ff_run `{Encoder} (c : ffcmd) : M unit :=
  fun w =>
    match c_output c with
    | None => (w, Throw (ErrFluent "No output specified"%string))
    | Some p =>
        match encode (w_files w) c with
        | Ok f => (set_files w (<[p := f]> (w_files w)), Ok tt)
        | Throw e => (w, Throw e)
        | Hang => (w, Hang)
        end
    end.

(** [e] lasts at least [q]. *)
Definition ext_ge (e : ext) (q : Q) : Prop :=
  match e with Inf => True | Fin x => (q <= x)%Q end.

Definition opt_ge (o : option ext) (q : Q) : Prop :=
  match o with Some e => ext_ge e q | None => True end.

Definition streams_ge (s : streams) (q : Q) : Prop :=
  opt_ge (s_video s) q /\ opt_ge (s_audio s) q.

(** ** Laws of the semantics *)

Lemma ffmpeg_reference_sound : EncoderSound ffmpeg_reference.
Proof. split; done. Qed.

Lemma emin_ge a b q : ext_ge a q -> ext_ge b q -> ext_ge (emin a b) q.
Proof. destruct a, b; cbn; auto. apply Q.min_glb. Qed.

Lemma emax_ge a b q : ext_ge a q -> ext_ge b q -> ext_ge (emax a b) q.
Proof.
  destruct a, b; cbn; auto. intros Ha _. eapply Qle_trans; [exact Ha | apply Q.le_max_l].
Qed.

Lemma fold_left_ge (f : ext -> ext -> ext) r e q :
  (forall a b, ext_ge a q -> ext_ge b q -> ext_ge (f a b) q) ->
  ext_ge e q -> Forall (fun x => ext_ge x q) r -> ext_ge (fold_left f r e) q.
Proof.
  intros Hf. revert e. induction r as [|x r IH]; intros e He Hr; cbn; [done|].
  inversion Hr; subst. apply IH; auto.
Qed.

Lemma combine_lens_ge sh ss q l :
  Forall (fun e => ext_ge e q) ss -> combine_lens sh ss = Some l -> ext_ge l q.
Proof.
  destruct ss as [|e r]; cbn; [done|]. intros Hall [= <-]. inversion Hall; subst.
  apply fold_left_ge; [|done|done]. intros a b. destruct sh; [apply emin_ge | apply emax_ge].
Qed.

(** Cutting a stream that lasts at least [q >= 0] at [-t q] leaves exactly
    [q]. *)
Lemma cap_t_exact l q :
  (0 <= q)%Q -> ext_ge l q -> exists x, cap_t (Some (JNum q)) l = Ok (Fin x) /\ (x == q)%Q.
Proof.
  intros Hq Hl. destruct l as [y|]; cbn; eexists; split; try reflexivity.
  - cbn in Hl. rewrite (Q.max_r 0 q Hq). apply Q.min_r. exact Hl.
  - apply Q.max_r. exact Hq.
Qed.

Lemma first_some_opt_ge (l : list (option ext)) q :
  Forall (fun o => opt_ge o q) l -> opt_ge (first_some l) q.
Proof. induction 1 as [|[x|] r]; cbn; auto. Qed.

(** The selected streams last at least [q] when the chosen video stream
    and every audio stream do. *)
Lemma out_lens_sel c ins q :
  opt_ge (out_video ins) q -> Forall (fun s => opt_ge (s_audio s) q) ins ->
  Forall (fun e => ext_ge e q) (out_lens c ins).
Proof.
  intros Hv Hall.
  assert (Ha : opt_ge (out_audio c ins) q).
  { unfold out_audio. destruct (has_opt OptNoAudio (c_outopts c)); [done|].
    pose proof (first_some_opt_ge (map s_audio ins) q) as Hf.
    destruct (first_some (map s_audio ins)); [|done]. destruct (existsb _ _); [done|].
    apply Hf. by apply Forall_map. }
  unfold out_lens. destruct (out_video ins), (out_audio c ins); repeat constructor; done.
Qed.

Lemma out_lens_ge c ins q :
  Forall (fun s => streams_ge s q) ins -> Forall (fun e => ext_ge e q) (out_lens c ins).
Proof.
  intros Hall. apply out_lens_sel.
  - apply first_some_opt_ge. apply Forall_map. eapply Forall_impl; [exact Hall|]. by intros ? [].
  - eapply Forall_impl; [exact Hall|]. by intros ? [].
Qed.

Lemma input_streams_plain fs p f opts :
  fs !! p = Some f -> has_opt OptFormatConcat opts = false ->
  input_streams fs (mkInput p opts) = Ok (file_streams f opts).
Proof. intros Hf Ho. unfold input_streams. cbn -[has_opt]. by rewrite Hf, Ho. Qed.

(** Inversion of a successful run of the semantics. *)
Lemma ff_semantics_inv fs c f :
  ff_semantics fs c = Ok f ->
  exists p ins l x,
    c_output c = Some p /\ inputs_streams fs (c_inputs c) = Ok ins /\
    combine_lens (has_opt OptShortest (c_outopts c)) (out_lens c ins) = Some l /\
    cap_t (last_t (c_outopts c)) l = Ok (Fin x) /\
    f = mkFile (match out_video ins with
                | Some _ => KVideo x (bool_decide (is_Some (out_audio c ins)))
                | None => KAudio x
                end) (Some (VNum (JNum x))).
Proof.
  unfold ff_semantics. intros H.
  repeat (case_match; simplify_eq/=; try done);
    do 4 eexists; (split_and!; [reflexivity | reflexivity | eassumption | eassumption |]);
    by match goal with Hv : out_video _ = _ |- _ => rewrite Hv end.
Qed.

(** The cut law: a command cut at [-t q] whose selected streams all last at
    least [q] writes a file of length exactly [q]. *)
Lemma ff_semantics_cut fs c f q :
  ff_semantics fs c = Ok f ->
  last_t (c_outopts c) = Some (JNum q) -> (0 <= q)%Q ->
  (forall ins, inputs_streams fs (c_inputs c) = Ok ins -> Forall (fun e => ext_ge e q) (out_lens c ins)) ->
  (natural_len f == q)%Q.
Proof.
  intros Hs Ht Hq Hge.
  destruct (ff_semantics_inv _ _ _ Hs) as (p & ins & l & x & _ & Hins & Hl & Hc & ->).
  rewrite Ht in Hc.
  pose proof (combine_lens_ge _ _ _ _ (Hge _ Hins) Hl) as Hlq.
  destruct (cap_t_exact l q Hq Hlq) as (x' & Hx' & Hxq). rewrite Hc in Hx'. simplify_eq.
  by destruct (out_video ins).
Qed.

(** A successful run cut at [-t d] had a finite [d]. *)
Lemma ff_semantics_t_finite fs c f d :
  ff_semantics fs c = Ok f -> last_t (c_outopts c) = Some d -> exists q, d = JNum q.
Proof.
  intros Hs Ht. destruct (ff_semantics_inv _ _ _ Hs) as (p & ins & l & x & _ & _ & _ & Hc & _).
  rewrite Ht in Hc. destruct d; cbn in Hc; eauto; done.
Qed.

(** Every stream of a well-formed input has a length that is not
    negative, so is every file ffmpeg writes. *)
Lemma file_streams_ge0 f opts : file_ok f -> streams_ge (file_streams f opts) 0.
Proof.
  destruct f as [k pr]; intros [Hl _]; cbn in *.
  destruct k; cbn in *; repeat split; repeat case_match; cbn; auto.
  all: unfold frame_len in *; try lra.
Qed.

Lemma entries_len_ge0 fs es x :
  map_Forall (fun _ f => file_ok f) fs -> entries_len fs es = Ok x -> (0 <= x)%Q.
Proof.
  intros Hwf. revert x. induction es as [|e r IH]; intros x; cbn; [intros [= <-]; lra|].
  destruct (entry_len fs e) as [y| |] eqn:He, (entries_len fs r) as [z| |];
    intros; simplify_eq; try done.
  assert (0 <= y)%Q.
  { unfold entry_len in He. destruct (fs !! e.1) as [f|] eqn:Hf; [|done].
    destruct e.2 as [[q| |]|]; simplify_eq; try done.
    - case_match; simplify_eq. by apply Qle_bool_imp_le.
    - exact (proj1 (Hwf _ _ Hf)). }
  specialize (IH z eq_refl). lra.
Qed.

Lemma input_streams_ge0 fs i s :
  map_Forall (fun _ f => file_ok f) fs -> input_streams fs i = Ok s -> streams_ge s 0.
Proof.
  intros Hwf. unfold input_streams.
  destruct (fs !! i_path i) as [f|] eqn:Hf; [|done].
  case_match; [|intros [= <-]; by apply file_streams_ge0, (Hwf _ _ Hf)].
  destruct (f_kind f) as [| | |txt]; try done. unfold concat_streams.
  destruct (parse_manifest txt) as [[|[p d] es]|]; try done.
  destruct (fs !! p) as [f'|] eqn:Hf'; [|done].
  destruct (entries_len fs ((p, d) :: es)) as [t| |] eqn:Ht; try done.
  intros [= <-]. pose proof (entries_len_ge0 _ _ _ Hwf Ht).
  split; cbn; [destruct (s_video (file_streams f' [])) | destruct (s_audio (file_streams f' []))];
    cbn; auto.
Qed.

Lemma inputs_streams_ge0 fs l ins :
  map_Forall (fun _ f => file_ok f) fs -> inputs_streams fs l = Ok ins ->
  Forall (fun s => streams_ge s 0) ins.
Proof.
  intros Hwf. revert ins. induction l as [|i r IH]; intros ins; cbn; [intros [= <-]; done|].
  destruct (input_streams fs i) as [s| |] eqn:Hi, (inputs_streams fs r) as [ss| |];
    intros; simplify_eq; try done.
  constructor; [eapply input_streams_ge0; eauto | by apply IH].
Qed.

Lemma cap_t_ge0 t l x : ext_ge l 0 -> cap_t t l = Ok (Fin x) -> (0 <= x)%Q.
Proof.
  intros Hl. destruct t as [[q| |]|]; cbn; intros H; simplify_eq; try done.
  - destruct l as [y|]; cbn in *; simplify_eq.
    + apply Q.min_glb; [exact Hl | apply Q.le_max_l].
    + apply Q.le_max_l.
Qed.

Lemma ff_semantics_file_ok fs c f :
  map_Forall (fun _ f => file_ok f) fs -> ff_semantics fs c = Ok f -> file_ok f.
Proof.
  intros Hwf Hs.
  destruct (ff_semantics_inv _ _ _ Hs) as (p & ins & l & x & _ & Hins & Hl & Hc & ->).
  pose proof (combine_lens_ge _ _ _ _ (out_lens_ge c ins 0 (inputs_streams_ge0 _ _ _ Hwf Hins)) Hl).
  pose proof (cap_t_ge0 _ _ _ H Hc).
  split; [by destruct (out_video ins) | right; by destruct (out_video ins)].
Qed.

(** ** When ffmpeg does not hang

    Reading inputs never hangs; only an endless output stream does, and a
    [-t] on the output rules that out. *)
Lemma entries_len_not_hang fs es : entries_len fs es <> Hang.
Proof.
  induction es as [|e es IH]; cbn; [done|].
  unfold entry_len. repeat case_match; simplify_eq/=; done.
Qed.

Lemma input_streams_not_hang fs i : input_streams fs i <> Hang.
Proof.
  unfold input_streams, concat_streams. pose proof (entries_len_not_hang fs) as Hn.
  repeat case_match; try discriminate. exfalso. by eapply Hn.
Qed.

Lemma inputs_streams_not_hang fs l : inputs_streams fs l <> Hang.
Proof.
  induction l as [|i l IH]; cbn; [done|]. pose proof (input_streams_not_hang fs i).
  repeat case_match; simplify_eq/=; done.
Qed.

Lemma cap_t_some_not_inf d e : cap_t (Some d) e <> Ok Inf /\ cap_t (Some d) e <> Hang.
Proof. destruct d; cbn; [destruct e|..]; done. Qed.

Lemma ff_semantics_t_not_hang fs c d : last_t (c_outopts c) = Some d -> ff_semantics fs c <> Hang.
Proof.
  intros Ht. unfold ff_semantics. rewrite Ht. destruct (c_output c); [|done].
  destruct (inputs_streams fs (c_inputs c)) eqn:Hi; [|done|by apply inputs_streams_not_hang in Hi].
  destruct (combine_lens _ _) as [e|]; [|done]. destruct (cap_t_some_not_inf d e) as [H1 H2].
  destruct (cap_t (Some d) e) as [[x|]| |]; done.
Qed.

Section Run.
Context `{E : Encoder}.

Lemma ff_run_ok c w w' :
  ff_run c w = (w', Ok tt) ->
  exists p f, c_output c = Some p /\ encode (w_files w) c = Ok f /\
              w' = set_files w (<[p := f]> (w_files w)).
Proof. unfold ff_run. repeat case_match; intros; simplify_eq; eauto. Qed.

Lemma ff_run_other c w w' r :
  ff_run c w = (w', r) -> r <> Ok tt -> w' = w.
Proof. unfold ff_run. repeat case_match; intros; simplify_eq; done. Qed.

Context `{!EncoderSound E}.

Lemma ff_run_wf c w w' r : wf_world w -> ff_run c w = (w', r) -> wf_world w'.
Proof.
  intros Hwf Hr. destruct r as [[]| |].
  - destruct (ff_run_ok _ _ _ Hr) as (p & f & _ & Hf & ->).
    apply map_Forall_insert_2; [|exact Hwf].
    eapply ff_semantics_file_ok; [exact Hwf | by apply encode_ok].
  - by rewrite (ff_run_other _ _ _ _ Hr).
  - by rewrite (ff_run_other _ _ _ _ Hr).
Qed.

(** A sound encoder hangs only where ffmpeg does. *)
Lemma ff_run_settles c : (forall fs, ff_semantics fs c <> Hang) -> settles (ff_run c).
Proof.
  intros Hc w. unfold ff_run. destruct (c_output c); [|done].
  destruct (encode (w_files w) c) eqn:He; cbn; try done.
  by apply (Hc (w_files w)), encode_hang.
Qed.
End Run.
