(* ===== verification/Scene.v ===== *)
(** * Scenes as the controllers receive them

    [generateScriptWithMedia] (script.controller.js) builds one object per
    scene: the script's scene with [media] (a downloaded file, or [null]
    when the stock-media search failed), [audio] (the narration file, or
    [null]) and [sceneNumber].  The video controller reads only the fields
    below.  [controller] holds the directories of the
    [VideoGeneratorController] constructor. *)

From S2P Require Import Prelude Media.

(** [scene.media]: [{ path, type, metadata, sceneNumber, duration }]; the
    video controller reads [type], [path] and [duration]. *)
Record media_obj : Type := mkMedia {
  media_type : string;      (** ['image'] or ['video'] *)
  media_path : string;
  media_duration : jsval    (** the declared duration, a string or a number or undefined *)
}.

(** [scene.audio]: [{ path, sceneNumber, type }], or the multi-track form
    [{ type: 'multiple', paths: [...] }] the controller also accepts. *)
Record audio_obj : Type := mkAudio {
  audio_type : jsval;
  audio_path : jsval;
  audio_paths : option (list string)   (** [Some l] when [Array.isArray(paths)] *)
}.

Record scene : Type := mkScene {
  sceneNumber : nat;
  scene_media : option media_obj;   (** [None] is [null] *)
  scene_audio : option audio_obj    (** [None] is [null] *)
}.

(** What [generateSceneVideo] resolves with: [{ path, duration }]. *)
Record rendered : Type := mkRendered {
  r_path : string;
  r_duration : jsnum
}.

(** [this.tempDir] and [this.outputDir]: [path.join(process.cwd(), 'temp')]
    and [... 'output'].  [cwd] is the working directory of the process. *)
Record controller : Type := mkController { tempDir : string; outputDir : string }.

Definition new_controller (cwd : string) : controller :=
  mkController (path_join cwd "temp") (path_join cwd "output").

Definition is_image (m : media_obj) : bool := String.eqb (media_type m) "image".
