(* ===== verification/Resolver.v ===== *)
(** * Duration Resolver (video.generator.controller.js)

    [verifyFile], [getVideoDuration] and the first two steps of
    [generateSceneVideo]: the media duration (an image's declared duration
    or 5 s, a video's probed length, rejected when [NaN] or [<= 0]) and
    the final duration (the narration's probed length when the narration
    file exists, the media duration otherwise). *)

From S2P Require Import Prelude Media Scene.
Local Open Scope string_scope.
Local Open Scope js_scope.

Module DurationResolver.

(** [async verifyFile(filePath)]: [fs.access] then [fs.stat]; any error
    (a missing file, or a path that is not a string) gives [false] and a
    warning. *)
Definition verifyFile (p : jsval) : M bool :=
  match p with
  | VStr s =>
      ex <- fs_exists s ;;
      if ex then mret true else warn (WVerifyFailed s) ;;; mret false
  | _ => warn (WVerifyFailed (jsval_to_string p)) ;;; mret false
  end.

(** [async getVideoDuration(videoPath)]: [parseFloat] of the probed
    [format.duration]; a probe error rejects. *)
Definition getVideoDuration (p : string) : M jsnum :=
  v <- ffprobe p ;; mret (parseFloat v).

(** The default duration of an image without a usable declared one. *)
Definition image_default : jsnum := JNum 5.

(** Step 1 of [generateSceneVideo]: [parseFloat(scene.media.duration) || 5]
    for an image, the probed length for anything else; [NaN] and values
    [<= 0] are rejected. *)
Definition resolve_media_duration (m : media_obj) : M jsnum :=
  v <- (if is_image m
        then mret (let d := parseFloat (media_duration m) in
                   if js_truthy d then d else image_default)
        else getVideoDuration (media_path m)) ;;
  if js_isNaN v || js_le v js_zero
  then mthrow (ErrMessage ("Invalid media duration: " ++ js_number_to_string v))
  else mret v.

(** Step 2: with a narration file that exists, the final duration is its
    probed length; otherwise the media duration. *)
Definition resolve_final_duration (s : scene) (audioExists : bool) (videoDuration : jsnum) : M jsnum :=
  match audioExists, scene_audio s with
  | true, Some a => getVideoDuration (jsval_to_string (audio_path a))
  | _, _ => mret videoDuration
  end.

(** ** Step lemmas *)

Lemma verifyFile_spec p w w' r :
  verifyFile p w = (w', r) ->
  w_files w' = w_files w /\ w_fresh w' = w_fresh w /\
  r = Ok (match p with VStr s => bool_decide (is_Some (w_files w !! s)) | _ => false end).
Proof.
  intros H. destruct p as [| | | |s]; cbn in H; unfold mbind, fs_exists, warn, mmodify, mret in H;
    cbn in H; try (simplify_eq/=; done).
  case_bool_decide; simplify_eq/=; done.
Qed.

(** [verifyFile] only adds warnings. *)
Lemma verifyFile_warnings p w w' r : verifyFile p w = (w', r) -> w_warnings w `prefix_of` w_warnings w'.
Proof.
  intros H. destruct p as [| | | |s]; cbn in H; unfold mbind, fs_exists, warn, mmodify, mret in H;
    cbn in H; try case_bool_decide; simplify_eq/=; first [done | by apply prefix_app_r].
Qed.

Lemma getVideoDuration_spec p w w' v :
  getVideoDuration p w = (w', Ok v) ->
  w' = w /\ exists f pv, w_files w !! p = Some f /\ f_probe f = Some pv /\ v = parseFloat pv.
Proof.
  intros H. unfold getVideoDuration, ffprobe in H. mrun; eauto 10.
Qed.

Lemma getVideoDuration_other p w w' r : getVideoDuration p w = (w', r) -> w' = w.
Proof.
  intros H. unfold getVideoDuration, ffprobe in H. by mrun.
Qed.

(** In a well-formed world a probed length is the file's length. *)
Lemma getVideoDuration_wf p w w' v :
  wf_world w -> getVideoDuration p w = (w', Ok v) ->
  w' = w /\ exists f, w_files w !! p = Some f /\ v = JNum (natural_len f).
Proof.
  intros Hwf H. destruct (getVideoDuration_spec _ _ _ _ H) as (-> & f & pv & Hf & Hp & ->).
  split; [done|]. exists f. split; [done|].
  destruct (proj2 (Hwf _ _ Hf)) as [Hn | Hs]; rewrite Hp in *; simplify_eq; done.
Qed.

Lemma resolve_media_duration_spec m w w' v :
  resolve_media_duration m w = (w', Ok v) ->
  w' = w /\ js_isNaN v = false /\ js_le v js_zero = false /\
  (if is_image m
   then v = (let d := parseFloat (media_duration m) in if js_truthy d then d else image_default)
   else getVideoDuration (media_path m) w = (w, Ok v)).
Proof.
  intros H. unfold resolve_media_duration in H.
  destruct (is_image m); [by mrun|].
  munfold. destruct (getVideoDuration (media_path m) w) as [w1 [v1| |]] eqn:Hg; try done.
  pose proof (getVideoDuration_other _ _ _ _ Hg); subst w1. by mrun.
Qed.

Lemma resolve_media_duration_other m w w' r : resolve_media_duration m w = (w', r) -> w' = w.
Proof.
  intros H. unfold resolve_media_duration in H.
  destruct (is_image m); [by mrun|].
  munfold. destruct (getVideoDuration (media_path m) w) as [w1 [v1| |]] eqn:Hg;
    pose proof (getVideoDuration_other _ _ _ _ Hg); subst w1; by mrun.
Qed.

Lemma resolve_final_duration_other s ae vd w w' r : resolve_final_duration s ae vd w = (w', r) -> w' = w.
Proof.
  unfold resolve_final_duration. munfold.
  repeat case_match; solve [intros; simplify_eq; done | apply getVideoDuration_other].
Qed.

(** The probes read only the files: two worlds with the same files give
    the same outcome. *)
Lemma getVideoDuration_files p w1 w2 :
  w_files w1 = w_files w2 -> (getVideoDuration p w1).2 = (getVideoDuration p w2).2.
Proof.
  intros Hf. unfold getVideoDuration, ffprobe. munfold. rewrite Hf.
  destruct (w_files w2 !! p) as [f|]; [destruct (f_probe f)|]; done.
Qed.

Lemma resolve_media_duration_files m w1 w2 :
  w_files w1 = w_files w2 -> (resolve_media_duration m w1).2 = (resolve_media_duration m w2).2.
Proof.
  intros Hf. unfold resolve_media_duration. munfold. destruct (is_image m); [cbn; by case_match|].
  pose proof (getVideoDuration_files (media_path m) _ _ Hf) as Hg.
  destruct (getVideoDuration (media_path m) w1) as [w1' r1] eqn:H1,
           (getVideoDuration (media_path m) w2) as [w2' r2] eqn:H2; cbn in Hg; subst r2.
  destruct r1 as [v| |]; cbn; [destruct (js_isNaN v || js_le v js_zero)|..]; done.
Qed.

(** Every step of the resolver settles. *)
Lemma verifyFile_settles p : settles (verifyFile p).
Proof. unfold verifyFile. destruct p; eauto 6 with settles. Qed.

Lemma getVideoDuration_settles p : settles (getVideoDuration p).
Proof. unfold getVideoDuration. eauto with settles. Qed.

Lemma resolve_media_duration_settles m : settles (resolve_media_duration m).
Proof.
  unfold resolve_media_duration. eauto 8 using getVideoDuration_settles with settles.
Qed.

Lemma resolve_final_duration_settles s ae vd : settles (resolve_final_duration s ae vd).
Proof. unfold resolve_final_duration. repeat case_match; eauto using getVideoDuration_settles with settles. Qed.

End DurationResolver.

#[export] Hint Resolve DurationResolver.verifyFile_settles DurationResolver.getVideoDuration_settles
  DurationResolver.resolve_media_duration_settles DurationResolver.resolve_final_duration_settles : settles.
