(* ===== verification/Verifier.v ===== *)
(** * Verifier (video.generator.controller.js, [verifyVideoDuration])

    Probe a produced file and compare its duration with the expected one:
    a difference above half a second is reported with [console.warn] and
    never fails the run; the promise resolves with the probed value as
    ffprobe gave it. *)

From S2P Require Import Prelude Media.
Local Open Scope string_scope.
Local Open Scope js_scope.

Module DurationVerifier.

(** The per-scene tolerance, in seconds. *)
Definition scene_tolerance : jsnum := JNum (1 # 2).

(** [Math.abs(actual - expected) > tolerance]: [-] converts both operands
    with ToNumber. *)
Definition exceeds (actual expected : jsval) (tolerance : jsnum) : bool :=
  js_gt (js_abs (js_sub (js_to_number actual) (js_to_number expected))) tolerance.

(** [async verifyVideoDuration(videoPath, expectedDuration)] *)
Definition verifyVideoDuration (videoPath : string) (expectedDuration : jsval) : M jsval :=
  actualDuration <- ffprobe videoPath ;;
  (if exceeds actualDuration expectedDuration scene_tolerance
   then warn (WDurationMismatch videoPath) else mret tt) ;;;
  mret actualDuration.

Lemma exceeds_num l e t : exceeds (VNum (JNum l)) (VNum (JNum e)) (JNum t) = Qlt_bool t (Qabs (l - e)).
Proof. reflexivity. Qed.

(** A value that ToNumber reads as [NaN] never exceeds a tolerance. *)
Lemma exceeds_nan a e t : js_to_number a = JNaN -> exceeds a e t = false.
Proof. intros H. unfold exceeds. rewrite H. by destruct t. Qed.

(** The run of [verifyVideoDuration] on a file ffprobe can read. *)
Lemma verifyVideoDuration_run p f v e w :
  w_files w !! p = Some f -> f_probe f = Some v ->
  verifyVideoDuration p e w =
    (mkWorld (w_files w) (w_fresh w)
       (w_warnings w ++ if exceeds v e scene_tolerance then [WDurationMismatch p] else [])%list, Ok v).
Proof.
  intros Hf Hv. unfold verifyVideoDuration, ffprobe. munfold. rewrite Hf, Hv.
  destruct (exceeds v e scene_tolerance); cbn; [done|]. by rewrite app_nil_r; destruct w.
Qed.

(** C15: the verifier is diagnostic only: on a file whose probed duration
    is the number [l] it resolves with [l], writes nothing, and warns
    exactly when [|l - e| > 0.5]. *)
Theorem verifyVideoDuration_tolerance p f l e w :
  w_files w !! p = Some f -> f_probe f = Some (VNum (JNum l)) ->
  exists w', verifyVideoDuration p (VNum (JNum e)) w = (w', Ok (VNum (JNum l))) /\
    w_files w' = w_files w /\
    w_warnings w' = (w_warnings w ++ if Qlt_bool (1 # 2) (Qabs (l - e)) then [WDurationMismatch p] else [])%list.
Proof.
  intros Hf Hv. rewrite (verifyVideoDuration_run _ _ _ _ _ Hf Hv). eexists. split_and!; [done | done |].
  by unfold scene_tolerance; rewrite exceeds_num.
Qed.

(** A duration that is not a number is never reported: when ffprobe
    gives a value that ToNumber reads as [NaN] (ffprobe prints ["N/A"] for
    a stream without a duration), the comparison is false and the verifier
    resolves without a warning, whatever was expected. *)
Theorem verifyVideoDuration_nan_silent p f v e w :
  w_files w !! p = Some f -> f_probe f = Some v -> js_to_number v = JNaN ->
  verifyVideoDuration p e w = (w, Ok v).
Proof.
  intros Hf Hv Hn. rewrite (verifyVideoDuration_run _ _ _ _ _ Hf Hv), exceeds_nan by done.
  rewrite app_nil_r. by destruct w.
Qed.

End DurationVerifier.
