(* ===== verification/Concat.v ===== *)
(** * Timeline Concatenator (video.generator.controller.js, [combineSceneVideos])

    Probe every clip, write the concat manifest ([file 'p'] and
    [duration d] per clip) to [tempDir/concat.txt], sum the probed
    durations, run ffmpeg's concat demuxer with a fixed output profile,
    then probe the result and warn when it differs from the sum by more
    than one second.  A failing final probe is ignored. *)

From S2P Require Import Prelude NumberFacts Media Ffmpeg Scene Resolver.
From Stdlib Require Import Ascii.
Local Open Scope string_scope.
Local Open Scope js_scope.

Module Concatenator.
Import DurationResolver.

Section WithEncoder.
Context `{E : Encoder} (ctl : controller).

(** [path.join(this.tempDir, 'concat.txt')] *)
Definition concat_file_path : string := path_join (tempDir ctl) "concat.txt".

(** [path.join(this.outputDir, `${outputFileName || 'final'}.mp4`)] *)
Definition final_output_path (outputFileName : jsval) : string :=
  path_join (outputDir ctl)
    (jsval_to_string (if js_val_truthy outputFileName then outputFileName else VStr "final") ++ ".mp4").

(** [`file '${p}'\nduration ${duration}`] *)
Definition manifest_entry (p : string) (duration : jsnum) : string :=
  "file '" ++ p ++ "'" ++ String "010" EmptyString ++ "duration " ++ js_number_to_string duration.

(** One manifest entry per clip, with the clip's probed duration. *)
Definition probe_entry (p : string) : M string :=
  duration <- getVideoDuration p ;; mret (manifest_entry p duration).

Definition concat_input_options : list ffopt := [OptFormatConcat; OptRaw "-safe 0"].

Definition concat_output_options : list ffopt :=
  [OptRaw "-c:v libx264"; OptRaw "-preset medium"; OptRaw "-crf 23"; OptRaw "-c:a aac";
   OptRaw "-b:a 192k"; OptRaw "-pix_fmt yuv420p"; OptRaw "-movflags +faststart"; OptRaw "-vsync 2"].

Definition concat_command (concatFilePath finalOutputPath : string) : res ffcmd :=
  c <-? ff_inputOptions concat_input_options (ff_input concatFilePath ff_new) ;;
  Ok (ff_output finalOutputPath (ff_outputOptions concat_output_options c)).

(** The timeline tolerance, in seconds. *)
Definition final_tolerance : jsnum := JNum 1.

(** The ['end'] handler: probe the result and compare it with the sum; an
    error of the probe is caught and the promise resolves anyway. *)
Definition check_final (finalOutputPath : string) (totalDuration : jsnum) : M unit :=
  mcatch
    (actualDuration <- getVideoDuration finalOutputPath ;;
     if js_gt (js_abs (js_sub actualDuration totalDuration)) final_tolerance
     then warn WFinalDurationMismatch else mret tt)
    (fun _ => mret tt).

(** [async combineSceneVideos(scenePaths, outputFileName)]; its [catch]
    logs and rethrows. *)
Definition combineSceneVideos (scenePaths : list string) (outputFileName : jsval) : M string :=
  let finalOutputPath := final_output_path outputFileName in
  fileList <- mmap probe_entry scenePaths ;;
  write_file concat_file_path (mkFile (KText (js_join (String "010" EmptyString) fileList)) None) ;;;
  durations <- mmap getVideoDuration scenePaths ;;
  let totalDuration := fold_left js_add durations (JNum 0) in
  cmd <- lift_res (concat_command concat_file_path finalOutputPath) ;;
  ff_run cmd ;;;
  check_final finalOutputPath totalDuration ;;;
  mret finalOutputPath.
End WithEncoder.

End Concatenator.

Module ConcatenatorFacts.
Import DurationResolver Concatenator.

(** A path that can be written between quotes on one manifest line. *)
Definition safe_path (p : string) : bool := no_char "'" p && no_char "010" p.

(** ** Reading the manifest back *)

Lemma split_on_no_char sep x : no_char sep x = true -> split_on sep x = [x].
Proof.
  induction x as [|c x IH]; [done|]. cbn [no_char split_on]. intros [Hc Hx]%andb_true_iff.
  apply negb_true_iff in Hc. rewrite Hc, IH by done. done.
Qed.

Lemma split_on_app sep x y :
  no_char sep x = true -> split_on sep (x ++ String sep y) = x :: split_on sep y.
Proof.
  induction x as [|c x IH]; intros Hx.
  - change (EmptyString ++ String sep y)%string with (String sep y). cbn [split_on].
    unfold is_char. by rewrite bool_decide_eq_true_2.
  - rewrite string_app_cons. cbn [no_char split_on] in *. apply andb_true_iff in Hx as [Hc Hx].
    apply negb_true_iff in Hc. rewrite Hc, IH by done. done.
Qed.

Lemma strip_prefix_app pre r : strip_prefix pre (pre ++ r) = Some r.
Proof.
  induction pre as [|c pre IH]; [by destruct r|]. rewrite string_app_cons. cbn [strip_prefix].
  unfold is_char. by rewrite bool_decide_eq_true_2.
Qed.

Lemma take_quoted_app p r : no_char "'" p = true -> take_quoted (p ++ String "'" r) = Some (p, r).
Proof.
  induction p as [|c p IH]; intros Hp.
  - change (EmptyString ++ String "'" r)%string with (String "'" r). cbn [take_quoted].
    unfold is_char. by rewrite bool_decide_eq_true_2.
  - rewrite string_app_cons. cbn [no_char take_quoted] in *. apply andb_true_iff in Hp as [Hc Hp].
    apply negb_true_iff in Hc. rewrite Hc, IH by done. done.
Qed.

(** The two lines of an entry. *)
Definition file_line (p : string) : string := "file '" ++ p ++ "'".
Definition duration_line (d : jsnum) : string := "duration " ++ js_number_to_string d.

Lemma manifest_entry_lines p d :
  manifest_entry p d = (file_line p ++ String "010" (duration_line d))%string.
Proof.
  unfold manifest_entry, file_line, duration_line. rewrite <- !string_app_assoc. reflexivity.
Qed.

Lemma parse_file_line p : safe_path p = true -> parse_manifest_line (file_line p) = Some (LFile p).
Proof.
  intros [Hq _]%andb_true_iff. unfold parse_manifest_line, file_line.
  rewrite strip_prefix_app. change "'" with (String "'" EmptyString).
  rewrite take_quoted_app by done. done.
Qed.

Lemma parse_duration_line d :
  parse_manifest_line (duration_line d) = Some (LDuration (parse_float_string (js_number_to_string d))).
Proof.
  unfold parse_manifest_line, duration_line.
  assert (Hf : strip_prefix "file '" ("duration " ++ js_number_to_string d) = None)
    by (rewrite string_app_cons; reflexivity).
  by rewrite Hf, strip_prefix_app.
Qed.

Lemma file_line_no_nl p : safe_path p = true -> no_char "010" (file_line p) = true.
Proof.
  intros [_ Hn]%andb_true_iff. unfold file_line. rewrite !no_char_app, Hn. done.
Qed.

Lemma duration_line_no_nl d : no_char "010" (duration_line d) = true.
Proof. unfold duration_line. rewrite no_char_app, js_number_to_string_no_char by auto. done. Qed.

Section Roundtrip.
Variable dur : string -> jsnum.

Lemma split_manifest ps :
  Forall (fun p => safe_path p = true) ps -> ps <> [] ->
  split_on "010" (js_join (String "010" EmptyString) (map (fun p => manifest_entry p (dur p)) ps)) =
  concat (map (fun p => [file_line p; duration_line (dur p)]) ps).
Proof.
  induction 1 as [|p ps Hp Hps IH]; [done|]. intros _. destruct ps as [|p' ps'].
  - cbn [map js_join concat app]. rewrite manifest_entry_lines.
    rewrite split_on_app by (by apply file_line_no_nl).
    by rewrite split_on_no_char by apply duration_line_no_nl.
  - remember (p' :: ps') as rest eqn:Hrest.
    assert (Hne : rest <> []) by (by subst rest).
    cbn [map concat]. rewrite js_join_cons by (by destruct rest).
    rewrite manifest_entry_lines, <- string_app_assoc, string_app_cons.
    rewrite split_on_app by (by apply file_line_no_nl).
    change (String "010" EmptyString ++ ?j)%string with (String "010" j).
    rewrite split_on_app by apply duration_line_no_nl. rewrite IH by done. done.
Qed.

Lemma parse_manifest_lines ps :
  Forall (fun p => safe_path p = true) ps ->
  mapM parse_manifest_line (concat (map (fun p => [file_line p; duration_line (dur p)]) ps)) =
  Some (concat (map (fun p => [LFile p; LDuration (parse_float_string (js_number_to_string (dur p)))]) ps)).
Proof.
  intros Hps. apply mapM_Some_2. induction Hps as [|p ps Hp _ IH]; cbn [map concat app]; [constructor|].
  constructor; [by apply parse_file_line|]. constructor; [apply parse_duration_line | exact IH].
Qed.

Lemma manifest_entries_pairs (g : string -> jsnum) acc ps :
  manifest_entries acc (concat (map (fun p => [LFile p; LDuration (g p)]) ps)) =
  Some (rev acc ++ map (fun p => (p, Some (g p))) ps)%list.
Proof.
  revert acc. induction ps as [|p ps IH]; intros acc; cbn [map concat app manifest_entries].
  - by rewrite app_nil_r.
  - rewrite IH. cbn [rev]. by rewrite <- app_assoc.
Qed.

(** The manifest written by [combineSceneVideos] reads back as its
    entries: each clip with the printed-then-parsed duration. *)
Lemma manifest_roundtrip ps :
  Forall (fun p => safe_path p = true) ps -> ps <> [] ->
  parse_manifest (js_join (String "010" EmptyString) (map (fun p => manifest_entry p (dur p)) ps)) =
  Some (map (fun p => (p, Some (parse_float_string (js_number_to_string (dur p))))) ps).
Proof.
  intros Hps Hne. unfold parse_manifest. rewrite split_manifest, parse_manifest_lines by done.
  simpl. by rewrite manifest_entries_pairs.
Qed.
End Roundtrip.

(** [durations.reduce((sum, dur) => sum + dur, 0)] over finite numbers. *)
Lemma fold_js_add_num (ls : list Q) (z : Q) :
  fold_left js_add (map JNum ls) (JNum z) = JNum (fold_left Qplus ls z).
Proof. revert z. induction ls as [|l ls IH]; intros z; [done|]. cbn. apply IH. Qed.

Lemma fold_left_Qplus_eq (ls : list Q) (z : Q) : fold_left Qplus ls z == z + fold_right Qplus 0 ls.
Proof.
  revert z. induction ls as [|l ls IH]; intros z; cbn [fold_left fold_right]; [ring|].
  rewrite IH. ring.
Qed.

(** ** The clips of a timeline *)

(** What [getVideoDuration] gives for a clip in a well-formed world, and
    its length. *)
Definition clip_duration (fs : gmap string file) (p : string) : jsnum :=
  match fs !! p with Some f => JNum (natural_len f) | None => JNaN end.

Definition clip_len (fs : gmap string file) (p : string) : Q :=
  match fs !! p with Some f => natural_len f | None => 0 end.

(** Every path is a clip whose length has at most [frac_digits] decimals
    and can be quoted in the manifest. *)
Definition clips_ok (fs : gmap string file) (ps : list string) : Prop :=
  Forall (fun p => safe_path p = true /\
            exists f l a, fs !! p = Some f /\ f_kind f = KVideo l a /\ decimal20 l = true) ps.

Lemma entries_len_clips fs ps :
  map_Forall (fun _ f => file_ok f) fs -> clips_ok fs ps ->
  exists X, entries_len fs (map (fun p => (p, Some (parse_float_string (js_number_to_string (clip_duration fs p))))) ps) = Ok X /\
            X == fold_right Qplus 0 (map (clip_len fs) ps).
Proof.
  intros Hwf. induction 1 as [|p ps [_ (f & l & a & Hf & Hk & Hd)] _ (X & HX & HXeq)]; [by exists 0|].
  assert (Hcd : clip_duration fs p = JNum l) by (unfold clip_duration, natural_len; by rewrite Hf, Hk).
  assert (Hcl : clip_len fs p = l) by (unfold clip_len, natural_len; by rewrite Hf, Hk).
  cbn [map entries_len fold_right]. rewrite Hcd, Hcl. unfold entry_len. cbn [fst snd]. rewrite Hf.
  destruct (number_roundtrip_num l Hd) as (x & -> & Hx).
  assert (Hl : 0 <= l) by (pose proof (proj1 (Hwf _ _ Hf)) as H0; unfold natural_len in H0; by rewrite Hk in H0).
  assert (Hb : Qle_bool 0 x = true) by (apply Qle_bool_iff; lra).
  rewrite Hb, HX. eexists. split; [reflexivity|]. lra.
Qed.

Section Semantics.
Context (ctl : controller).

Lemma concat_command_ok cfp out :
  concat_command cfp out =
  Ok (ff_output out (ff_outputOptions concat_output_options (mkCmd [mkInput cfp concat_input_options] [] [] [] None))).
Proof. reflexivity. Qed.

(** The concat demuxer over the manifest of the clips [ps]: one stream
    per kind of the first clip, as long as the sum of the clips. *)
Lemma concat_streams_clips fs ps text :
  map_Forall (fun _ f => file_ok f) fs -> clips_ok fs ps -> ps <> [] ->
  text = js_join (String "010" EmptyString) (map (fun p => manifest_entry p (clip_duration fs p)) ps) ->
  exists X (a : bool), concat_streams fs text = Ok (mkStreams (Some (Fin X)) (if a then Some (Fin X) else None)) /\
              X == fold_right Qplus 0 (map (clip_len fs) ps).
Proof.
  intros Hwf Hok Hne ->. unfold concat_streams.
  rewrite (manifest_roundtrip (clip_duration fs)) by (done || (eapply Forall_impl; [exact Hok | by intros p []])).
  destruct (entries_len_clips fs ps Hwf Hok) as (X & HX & HXeq).
  destruct ps as [|p ps]; [done|]. inversion Hok as [|? ? [_ (f & l & a & Hf & Hk & _)] _]; subst.
  cbn [map] in HX |- *. rewrite Hf, HX. exists X, a. split; [|exact HXeq].
  unfold file_streams. rewrite Hk. by destruct a.
Qed.

(** What the concat command writes: a clip as long as the sum of the
    clips, with the duration ffprobe will report for it. *)
Lemma concat_semantics fs cfp out ps f :
  map_Forall (fun _ f => file_ok f) fs -> clips_ok fs ps -> ps <> [] ->
  fs !! cfp = Some (mkFile (KText (js_join (String "010" EmptyString)
                                     (map (fun p => manifest_entry p (clip_duration fs p)) ps))) None) ->
  ff_semantics fs (ff_output out (ff_outputOptions concat_output_options
                                   (mkCmd [mkInput cfp concat_input_options] [] [] [] None))) = Ok f ->
  exists X a, f = mkFile (KVideo X a) (Some (VNum (JNum X))) /\ X == fold_right Qplus 0 (map (clip_len fs) ps).
Proof.
  intros Hwf Hok Hne Hc Hs.
  destruct (concat_streams_clips fs ps _ Hwf Hok Hne eq_refl) as (X & a & Hcs & HX).
  unfold ff_semantics in Hs. cbn -[concat_streams] in Hs. unfold input_streams in Hs.
  cbn -[concat_streams] in Hs. rewrite Hc in Hs. cbn -[concat_streams] in Hs. rewrite Hcs in Hs.
  destruct a; cbn in Hs; injection Hs as <-; (eexists _, _; split; [reflexivity|]);
    (transitivity X; [first [apply Q.max_id | reflexivity] | exact HX]).
Qed.
End Semantics.

(** ** The steps of [combineSceneVideos] *)

Lemma probe_entry_other p w w' r : probe_entry p w = (w', r) -> w' = w.
Proof.
  unfold probe_entry. munfold. destruct (getVideoDuration p w) as [w1 r1] eqn:Hg.
  pose proof (getVideoDuration_other _ _ _ _ Hg) as ->. destruct r1; by intros [= <- _].
Qed.

Lemma getVideoDuration_clip p w d :
  wf_world w -> getVideoDuration p w = (w, Ok d) -> d = clip_duration (w_files w) p.
Proof.
  intros Hwf H. destruct (getVideoDuration_wf _ _ _ _ Hwf H) as (_ & f & Hf & ->).
  unfold clip_duration. by rewrite Hf.
Qed.

Lemma probe_entry_wf p w e :
  wf_world w -> probe_entry p w = (w, Ok e) -> e = manifest_entry p (clip_duration (w_files w) p).
Proof.
  unfold probe_entry. munfold. intros Hwf. destruct (getVideoDuration p w) as [w1 [d| |]] eqn:Hg; try done.
  pose proof (getVideoDuration_other _ _ _ _ Hg) as ->. intros [= <-]. by rewrite (getVideoDuration_clip _ _ _ Hwf Hg).
Qed.

(** Writing a file that is not one of the clips keeps the clips. *)
Lemma clips_ok_insert fs ps q x : clips_ok fs ps -> q ∉ ps -> clips_ok (<[q := x]> fs) ps.
Proof.
  unfold clips_ok. rewrite !Forall_forall. intros Hok Hq p Hp.
  destruct (Hok p Hp) as [Hs (f & l & a & Hf & Hk & Hd)].
  split; [done|]. exists f, l, a. rewrite lookup_insert_ne; [done|]. intros ->. by apply Hq.
Qed.

Lemma clip_insert_ne fs q x p : q <> p -> clip_duration (<[q := x]> fs) p = clip_duration fs p /\
                                           clip_len (<[q := x]> fs) p = clip_len fs p.
Proof. intros Hne. unfold clip_duration, clip_len. by rewrite lookup_insert_ne. Qed.

Lemma clip_duration_len fs p f : fs !! p = Some f -> clip_duration fs p = JNum (clip_len fs p).
Proof. unfold clip_duration, clip_len. by intros ->. Qed.

(** The final probe does not warn when the result is as long as the sum. *)
Lemma check_final_quiet out w f X T :
  w_files w !! out = Some f -> f_probe f = Some (VNum (JNum X)) -> X == T ->
  check_final out (JNum T) w = (w, Ok tt).
Proof.
  intros Hf Hp HX. unfold check_final, getVideoDuration, ffprobe. munfold. rewrite Hf, Hp.
  assert (H0 : Qabs (X + - T) == 0) by (transitivity (Qabs 0); [apply Qabs_wd; lra | reflexivity]).
  assert (H1 : Qle_bool (Qabs (X + - T)) 1 = true) by (apply Qle_bool_iff; lra).
  cbn -[Qabs Qle_bool Qplus Qopp]. unfold Qlt_bool. by rewrite H1.
Qed.

(** The manifest written first, and the clips seen after it is written. *)
Lemma combine_probes ctl ps w fl w1 ds :
  wf_world w -> clips_ok (w_files w) ps ->
  mmap probe_entry ps w = (w, Ok fl) ->
  w1 = set_files w (<[concat_file_path ctl := mkFile (KText (js_join (String "010" EmptyString) fl)) None]> (w_files w)) ->
  mmap getVideoDuration ps w1 = (w1, Ok ds) ->
  fl = map (fun p => manifest_entry p (clip_duration (w_files w) p)) ps /\
  (concat_file_path ctl ∉ ps) /\ ds = map JNum (map (clip_len (w_files w)) ps).
Proof.
  intros Hwf Hok H1 -> H2.
  destruct (mmap_read_inv _ _ _ _ _ probe_entry_other H1) as [_ Hfl].
  destruct (mmap_read_inv _ _ _ _ _ getVideoDuration_other H2) as [_ Hds].
  assert (Hfl' : fl = map (fun p => manifest_entry p (clip_duration (w_files w) p)) ps).
  { apply Forall2_fun_map. eapply Forall2_impl; [exact Hfl|]. intros p e He. by apply probe_entry_wf. }
  assert (Hnin : concat_file_path ctl ∉ ps).
  { intros Hin. destruct (list_elem_of_lookup_1 _ _ Hin) as [i Hi].
    destruct (Forall2_lookup_l _ _ _ _ _ Hds Hi) as (d & _ & Hd).
    unfold getVideoDuration, ffprobe in Hd. munfold. rewrite set_files_files, lookup_insert_eq in Hd. done. }
  split_and!; [exact Hfl' | exact Hnin |]. rewrite map_map. apply Forall2_fun_map.
  eapply (Forall2_impl_l (fun p => p ∈ ps /\ _)); [|exact Hds|].
  { apply Forall_and; split; [by apply Forall_forall | exact Hok]. }
  intros p d [Hp [_ (f & l & a & Hf & _)]] Hd. destruct (getVideoDuration_spec _ _ _ _ Hd) as (_ & f' & pv & Hf' & Hpv & ->).
  rewrite set_files_files, lookup_insert_ne in Hf' by (intros <-; by apply Hnin).
  rewrite Hf in Hf'. injection Hf' as <-. destruct (proj2 (Hwf _ _ Hf)) as [Hn | Hs]; [congruence|].
  rewrite Hpv in Hs. injection Hs as ->. unfold clip_len. by rewrite Hf.
Qed.

Section Timeline.
Context `{E : Encoder} `{!EncoderSound E} (ctl : controller).

(** C16: the round trip of the timeline.  With a sound encoder, when
    [combineSceneVideos] resolves on clips whose probed durations have at
    most [frac_digits] decimals, the final file lasts exactly the sum of
    the probed durations (the manifest carries them unchanged through
    [Number.prototype.toString] and the concat demuxer), so the final
    check does not warn. *)
Theorem combineSceneVideos_duration ps name w w' out :
  wf_world w -> ps <> [] -> clips_ok (w_files w) ps ->
  combineSceneVideos ctl ps name w = (w', Ok out) ->
  exists f, w_files w' !! out = Some f /\
            natural_len f == fold_right Qplus 0 (map (clip_len (w_files w)) ps) /\
            w_warnings w' = w_warnings w.
Proof.
  intros Hwf Hne Hok H. unfold combineSceneVideos, write_file, mmodify in H. munfold.
  destruct (mmap probe_entry ps w) as [w0 [fl| |]] eqn:H1; try done.
  pose proof (proj1 (mmap_read_inv _ _ _ _ _ probe_entry_other H1)) as ->.
  set (w1 := set_files w (<[concat_file_path ctl := mkFile (KText (js_join (String "010" EmptyString) fl)) None]> (w_files w))) in H.
  destruct (mmap getVideoDuration ps w1) as [w1' [ds| |]] eqn:H2; try done.
  pose proof (proj1 (mmap_read_inv _ _ _ _ _ getVideoDuration_other H2)) as ->.
  destruct (combine_probes ctl ps w fl w1 ds Hwf Hok H1 eq_refl H2) as (-> & Hnin & ->).
  rewrite fold_js_add_num, concat_command_ok in H.
  destruct (ff_run _ w1) as [w2 [[]| |]] eqn:H3; try done.
  destruct (ff_run_ok _ _ _ H3) as (p & f & [= <-] & Hf & ->).
  assert (Hins : forall p, p ∈ ps -> concat_file_path ctl <> p) by (intros p Hp <-; by apply Hnin).
  assert (Hwf1 : wf_world w1) by (apply map_Forall_insert_2; [split; [done | by left] | exact Hwf]).
  assert (Hman : map (fun p => manifest_entry p (clip_duration (w_files w1) p)) ps =
                 map (fun p => manifest_entry p (clip_duration (w_files w) p)) ps).
  { apply map_ext_in. intros p Hp%list_elem_of_In. unfold w1. rewrite set_files_files. by rewrite (proj1 (clip_insert_ne _ _ _ _ (Hins p Hp))). }
  destruct (concat_semantics (w_files w1) (concat_file_path ctl) (final_output_path ctl name) ps f Hwf1
              (clips_ok_insert _ _ _ _ Hok Hnin) Hne) as (X & a & -> & HX);
    [rewrite Hman; unfold w1; by rewrite set_files_files, lookup_insert_eq | by apply encode_ok|].
  assert (Hlen : map (clip_len (w_files w1)) ps = map (clip_len (w_files w)) ps).
  { apply map_ext_in. intros p Hp%list_elem_of_In. unfold w1. rewrite set_files_files. by rewrite (proj2 (clip_insert_ne _ _ _ _ (Hins p Hp))). }
  rewrite Hlen in HX.
  rewrite (check_final_quiet _ _ (mkFile (KVideo X a) (Some (VNum (JNum X)))) X) in H;
    [| by rewrite set_files_files, lookup_insert_eq | done | by rewrite fold_left_Qplus_eq, HX; ring].
  injection H as <- <-. eexists. rewrite set_files_files, lookup_insert_eq. split_and!; [done | exact HX | done].
Qed.
End Timeline.
End ConcatenatorFacts.
