(* ===== verification/Normalizer.v ===== *)
(** * Audio Normalizer (video.generator.controller.js)

    [normalizeAudio]: loudness-normalise the narration, pad it with
    silence ([apad]) and cut it at the target duration ([.duration]);
    [stripAudioFromVideo]: copy the video stream of a clip without its
    audio ([-c:v copy -an]).  Both write a fresh file under [tempDir]. *)

From S2P Require Import Prelude Media Ffmpeg Scene.
From Stdlib Require Import Ascii.
Local Open Scope string_scope.
Local Open Scope js_scope.

Module AudioNormalizer.

Section WithEncoder.
Context `{E : Encoder} (ctl : controller).

Definition normalized_name (id : string) : string :=
  path_join (tempDir ctl) ("temp_" ++ id ++ "_normalized_audio.mp3").

Definition noaudio_name (id : string) : string :=
  path_join (tempDir ctl) ("temp_" ++ id ++ "_noaudio.mp4").

Definition loudnorm_filters : list string :=
  ["loudnorm=I=-16:LRA=11:TP=-1.5"; "apad"].

(** The command of [normalizeAudio]: every path an input, the two audio
    filters, [-t duration]. *)
Definition normalize_command (audioPaths : list string) (d : jsnum) (out : string) : ffcmd :=
  ff_output out (ff_duration d (ff_audioFilters loudnorm_filters
    (fold_left (fun c p => ff_input p c) audioPaths ff_new))).

(** [async normalizeAudio(audioPaths, duration)]: the output name is drawn
    first; a duration that [parseFloat] reads as [NaN] throws. *)
Definition normalizeAudio (audioPaths : list string) (duration : jsval) : M string :=
  id <- fresh_uuid ;;
  let outputPath := normalized_name id in
  let normalizedDuration := parseFloat duration in
  if js_isNaN normalizedDuration
  then mthrow (ErrMessage ("Invalid duration value: " ++ jsval_to_string duration))
  else ff_run (normalize_command audioPaths normalizedDuration outputPath) ;;; mret outputPath.

Definition strip_command (videoPath out : string) : ffcmd :=
  ff_output out (ff_outputOptions [OptCopyVideo; OptNoAudio] (ff_input videoPath ff_new)).

(** [async stripAudioFromVideo(videoPath)] *)
Definition stripAudioFromVideo (videoPath : string) : M string :=
  id <- fresh_uuid ;;
  let outputPath := noaudio_name id in
  ff_run (strip_command videoPath outputPath) ;;; mret outputPath.
End WithEncoder.

End AudioNormalizer.

Module AudioNormalizerFacts.
Import AudioNormalizer.

Lemma last_char_name (dir id suf : string) :
  suf <> EmptyString ->
  last_char (path_join dir ("temp_" ++ id ++ suf)) = last_char suf.
Proof.
  intros Hs. unfold path_join. rewrite !last_char_app; try done;
    repeat apply string_app_nonempty; done.
Qed.

(** The normalised narration and the stripped clip never share a name. *)
Lemma normalized_noaudio_neq ctl id1 id2 : normalized_name ctl id1 <> noaudio_name ctl id2.
Proof.
  apply last_char_neq. unfold normalized_name, noaudio_name.
  rewrite !last_char_name; [cbn; congruence | discriminate | discriminate].
Qed.

(** A path that does not end in ["3"] is never a normalised narration. *)
Lemma not_normalized_name ctl p : last_char p <> Some "3"%char -> forall id, p <> normalized_name ctl id.
Proof.
  intros Hp id ->. apply Hp. unfold normalized_name. rewrite last_char_name; [done | discriminate].
Qed.

(** A path that does not end in ["4"] is never a stripped clip. *)
Lemma not_noaudio_name ctl p : last_char p <> Some "4"%char -> forall id, p <> noaudio_name ctl id.
Proof.
  intros Hp id ->. apply Hp. unfold noaudio_name. rewrite last_char_name; [done | discriminate].
Qed.

Lemma normalize_command_shape ps d out :
  c_inputs (normalize_command ps d out) = map (fun p => mkInput p []) ps /\
  c_afilters (normalize_command ps d out) = loudnorm_filters /\
  c_outopts (normalize_command ps d out) = [OptT d] /\
  c_output (normalize_command ps d out) = Some out.
Proof.
  unfold normalize_command. cbn.
  enough (forall c, c_inputs (fold_left (fun c p => ff_input p c) ps c) =
                    (c_inputs c ++ map (fun p => mkInput p []) ps)%list /\
                    c_afilters (fold_left (fun c p => ff_input p c) ps c) = c_afilters c /\
                    c_outopts (fold_left (fun c p => ff_input p c) ps c) = c_outopts c) as H.
  { destruct (H ff_new) as (-> & -> & ->). done. }
  induction ps as [|p ps IH]; intros c; cbn; [by rewrite app_nil_r|].
  destruct (IH (ff_input p c)) as (-> & -> & ->). cbn. by rewrite <- app_assoc.
Qed.

Lemma fold_emax_inf r e : Inf ∈ e :: r -> fold_left emax r e = Inf.
Proof.
  revert e. induction r as [|x r IH]; intros e Hin; cbn.
  - by apply list_elem_of_singleton in Hin.
  - apply IH. destruct (decide (e = Inf)) as [->|Hne]; [cbn; left|].
    destruct (decide (x = Inf)) as [->|Hnx]; [destruct e; cbn; left|].
    right. apply elem_of_cons in Hin as [?|Hin]; [congruence|].
    apply elem_of_cons in Hin as [?|Hin]; [congruence|done].
Qed.

Lemma combine_lens_noshort_inf ss : Inf ∈ ss -> combine_lens false ss = Some Inf.
Proof. destruct ss as [|e r]; [by intros ?%elem_of_nil|]. intros. cbn. f_equal. by apply fold_emax_inf. Qed.

(** The normalised narration: its audio track (if any) lasts at least the
    target, because [apad] makes it endless before [-t] cuts it. *)
Lemma normalize_output_audio fs ps q out f :
  ff_semantics fs (normalize_command ps (JNum q) out) = Ok f -> (0 <= q)%Q ->
  opt_ge (s_audio (file_streams f [])) q.
Proof.
  intros Hs Hq. destruct (ff_semantics_inv _ _ _ Hs) as (p & ins & l & x & _ & _ & Hl & Hc & ->).
  destruct (normalize_command_shape ps (JNum q) out) as (_ & Haf & Hopt & _).
  unfold out_lens, out_audio in *. rewrite Hopt, Haf in *. cbn in Hl, Hc |- *.
  destruct (first_some (map s_audio ins)) as [e|].
  - rewrite combine_lens_noshort_inf in Hl; [|destruct (out_video ins); set_solver].
    simplify_eq/=. destruct (out_video ins); cbn; apply Q.le_max_r.
  - destruct (out_video ins); cbn; done.
Qed.

(** The stripped clip has the video of the source and no audio. *)
Lemma strip_output fs vp out f f1 l a :
  ff_semantics fs (strip_command vp out) = Ok f -> fs !! vp = Some f1 -> f_kind f1 = KVideo l a ->
  f = mkFile (KVideo l false) (Some (VNum (JNum l))).
Proof.
  intros Hs Hf1 Hk. unfold ff_semantics, strip_command in Hs. cbn in Hs.
  unfold input_streams in Hs. cbn in Hs. rewrite Hf1 in Hs. cbn in Hs.
  unfold file_streams in Hs. rewrite Hk in Hs. cbn in Hs. by injection Hs as <-.
Qed.

(** Neither command hangs: the narration is cut by [-t], the stripped
    clip has no endless stream. *)
Lemma normalize_command_not_hang fs ps d out : ff_semantics fs (normalize_command ps d out) <> Hang.
Proof.
  apply (ff_semantics_t_not_hang _ _ d).
  destruct (normalize_command_shape ps d out) as (_ & _ & -> & _). done.
Qed.

Lemma strip_command_not_hang fs vp out : ff_semantics fs (strip_command vp out) <> Hang.
Proof.
  unfold ff_semantics, strip_command. cbn. unfold input_streams. cbn.
  destruct (fs !! vp) as [f|]; cbn; [|done].
  unfold file_streams. destruct (f_kind f) as [|l []|l|t]; cbn; done.
Qed.

Section Runs.
Context `{E : Encoder} (ctl : controller).

Lemma normalizeAudio_ok ps dur w w' out :
  normalizeAudio ctl ps dur w = (w', Ok out) ->
  out = normalized_name ctl ("uuid" ++ pretty (w_fresh w)) /\
  exists f, encode (w_files w) (normalize_command ps (parseFloat dur) out) = Ok f /\
            w_files w' = <[out := f]> (w_files w) /\ w_fresh w' = S (w_fresh w).
Proof.
  unfold normalizeAudio. intros H. mrun.
  destruct a. destruct (ff_run_ok _ _ _ ltac:(eassumption)) as (p & f & Hp & Hf & ->).
  cbn in *. injection Hp as <-. eauto.
Qed.

Lemma stripAudioFromVideo_ok vp w w' out :
  stripAudioFromVideo ctl vp w = (w', Ok out) ->
  out = noaudio_name ctl ("uuid" ++ pretty (w_fresh w)) /\
  exists f, encode (w_files w) (strip_command vp out) = Ok f /\
            w_files w' = <[out := f]> (w_files w) /\ w_fresh w' = S (w_fresh w).
Proof.
  unfold stripAudioFromVideo. intros H. mrun.
  destruct a. destruct (ff_run_ok _ _ _ ltac:(eassumption)) as (p & f & Hp & Hf & ->).
  cbn in *. injection Hp as <-. eauto.
Qed.

Context `{!EncoderSound E}.

Lemma normalizeAudio_settles ps dur : settles (normalizeAudio ctl ps dur).
Proof.
  unfold normalizeAudio. eapply (settles_bind (fun _ => True)); [auto with settles|].
  intros id _. case_match; [auto with settles|].
  eapply (settles_bind (fun _ => True)); [|auto with settles].
  apply ff_run_settles. intros fs. apply normalize_command_not_hang.
Qed.

Lemma stripAudioFromVideo_settles vp : settles (stripAudioFromVideo ctl vp).
Proof.
  unfold stripAudioFromVideo. eapply (settles_bind (fun _ => True)); [auto with settles|].
  intros id _. eapply (settles_bind (fun _ => True)); [|auto with settles].
  apply ff_run_settles. intros fs. apply strip_command_not_hang.
Qed.
End Runs.
End AudioNormalizerFacts.

#[export] Hint Resolve AudioNormalizerFacts.normalizeAudio_settles AudioNormalizerFacts.stripAudioFromVideo_settles : settles.
