(* ===== verification/Renderer.v ===== *)
(** * Scene Renderer (video.generator.controller.js, [generateSceneVideo])

    One clip per scene: verify the files, resolve the durations
    ([Resolver]), normalise the narration and strip the clip's own audio
    ([Normalizer]), then build and run the ffmpeg command: an image is
    looped ([-loop 1]), a video is looped ([-stream_loop -1]) when the
    narration is longer, the frame is scaled and padded to 1920x1080 and
    the output is cut at the final duration ([-t]). *)

From S2P Require Import Prelude Media Ffmpeg Scene Resolver Normalizer.
Local Open Scope string_scope.
Local Open Scope js_scope.

Module SceneRenderer.
Import DurationResolver AudioNormalizer.

Section WithEncoder.
Context `{E : Encoder} (ctl : controller).

(** [path.join(this.tempDir, `scene_${scene.sceneNumber}_final.mp4`)] *)
Definition scene_output_path (n : nat) : string :=
  path_join (tempDir ctl) ("scene_" ++ pretty n ++ "_final.mp4").

Definition is_multiple (a : audio_obj) : bool :=
  match audio_type a with VStr t => String.eqb t "multiple" | _ => false end.

(** Which narration files are normalised: the [paths] of a ['multiple']
    narration, else the single [path] when it is truthy, else none. *)
Definition narration_inputs (a : audio_obj) : option (list string) :=
  let single := if js_val_truthy (audio_path a) then Some [jsval_to_string (audio_path a)] else None in
  match audio_paths a with
  | Some ps => if is_multiple a then Some ps else single
  | None => single
  end.

Definition normalize_narration (a : audio_obj) (finalDuration : jsnum) : M (option string) :=
  match narration_inputs a with
  | Some ps => p <- normalizeAudio ctl ps (VNum finalDuration) ;; mret (Some p)
  | None => mret None
  end.

(** A video source loses its own audio track before the narration is
    muxed in. *)
Definition strip_source (m : media_obj) : M string :=
  if is_image m then mret (media_path m) else stripAudioFromVideo ctl (media_path m).

(** Step 3: [normalizedAudioPath] and [videoPath]. *)
Definition process_audio (s : scene) (m : media_obj) (audioExists : bool) (finalDuration : jsnum)
  : M (option string * string) :=
  match audioExists, scene_audio s with
  | true, Some a =>
      na <- normalize_narration a finalDuration ;;
      vp <- strip_source m ;;
      mret (na, vp)
  | _, _ => mret (None, media_path m)
  end.

Definition scene_video_filters : list string :=
  ["format=yuv420p"; "scale=1920:1080:force_original_aspect_ratio=decrease";
   "pad=1920:1080:(ow-iw)/2:(oh-ih)/2"].

Definition base_output_options (d : jsnum) : list ffopt :=
  [OptRaw "-c:v libx264"; OptRaw "-preset medium"; OptRaw "-profile:v high";
   OptRaw "-level 4.1"; OptRaw "-crf 23"; OptRaw "-pix_fmt yuv420p";
   OptRaw "-movflags +faststart"; OptRaw "-vsync 2"; OptT d].

Definition audio_output_options : list ffopt :=
  [OptRaw "-c:a aac"; OptRaw "-b:a 192k"; OptShortest].

(** Step 4, the command.  For a video the loop option is given before
    the input is added, as in the source. *)
Definition scene_command (m : media_obj) (videoPath : string) (videoDuration finalDuration : jsnum)
    (normalizedAudioPath : option string) (outputPath : string) : res ffcmd :=
  c1 <-? (if is_image m
          then c <-? ff_inputOptions [OptLoop1] (ff_input videoPath ff_new) ;;
               Ok (ff_duration finalDuration c)
          else c <-? (if js_gt finalDuration videoDuration
                      then ff_inputOptions [OptStreamLoopInf] ff_new
                      else Ok ff_new) ;;
               Ok (ff_input videoPath c)) ;;
  let c2 := match normalizedAudioPath with Some p => ff_input p c1 | None => c1 end in
  let opts := (base_output_options finalDuration ++
               (if is_Some_dec normalizedAudioPath then audio_output_options else []))%list in
  Ok (ff_output outputPath (ff_videoFilters scene_video_filters (ff_outputOptions opts c2))).

Definition get_media (s : scene) : M media_obj :=
  match scene_media s with
  | Some m => mret m
  | None => mthrow (ErrTypeError "Cannot read properties of null (reading 'path')")
  end.

(** [scene.audio ? await this.verifyFile(scene.audio.path) : false] *)
Definition verify_narration (s : scene) : M bool :=
  match scene_audio s with
  | Some a => verifyFile (audio_path a)
  | None => mret false
  end.

(** [async generateSceneVideo(scene)] *)
Definition generateSceneVideo (s : scene) : M (option rendered) :=
  m <- get_media s ;;
  mediaExists <- verifyFile (VStr (media_path m)) ;;
  audioExists <- verify_narration s ;;
  if negb mediaExists then mret None else
  let outputPath := scene_output_path (sceneNumber s) in
  videoDuration <- resolve_media_duration m ;;
  finalDuration <- resolve_final_duration s audioExists videoDuration ;;
  pa <- process_audio s m audioExists finalDuration ;;
  cmd <- lift_res (scene_command m pa.2 videoDuration finalDuration pa.1 outputPath) ;;
  ff_run cmd ;;;
  mret (Some (mkRendered outputPath finalDuration)).
End WithEncoder.

End SceneRenderer.

Module SceneRendererFacts.
Import DurationResolver AudioNormalizer AudioNormalizerFacts SceneRenderer.

(** What the renderer reads as its first input: the image, or a clip at
    least as long as the target. *)
Definition first_input_ok (m : media_obj) (fs : gmap string file) (vp : string) (q : Q) : Prop :=
  exists f1, fs !! vp = Some f1 /\
    (if is_image m then f_kind f1 = KImage
     else exists l a, f_kind f1 = KVideo l a /\ (q <= l)%Q).

(** What it reads as its second input: a narration whose audio, if any,
    lasts at least the target. *)
Definition narration_ok (fs : gmap string file) (na : option string) (q : Q) : Prop :=
  forall p, na = Some p -> exists f2, fs !! p = Some f2 /\ opt_ge (s_audio (file_streams f2 [])) q.

(** The value of [audioExists]: the narration's [path] is a string naming
    a file that exists. *)
Definition narration_exists (s : scene) (fs : gmap string file) : bool :=
  match scene_audio s with
  | Some a => match audio_path a with VStr p => bool_decide (is_Some (fs !! p)) | _ => false end
  | None => false
  end.

(** The media file has the kind its [type] announces. *)
Definition media_matches_kind (m : media_obj) (w : world) : Prop :=
  forall f, w_files w !! media_path m = Some f ->
    if is_image m then f_kind f = KImage else exists l a, f_kind f = KVideo l a.

Lemma scene_command_inv m vp vd fd na out cmd :
  scene_command m vp vd fd na out = Ok cmd ->
  (if is_image m then True else js_gt fd vd = false) /\
  cmd = ff_output out (ff_videoFilters scene_video_filters
          (ff_outputOptions (base_output_options fd ++
                             (if is_Some_dec na then audio_output_options else []))%list
            (let c1 := if is_image m then ff_duration fd (mkCmd [mkInput vp [OptLoop1]] [] [] [] None)
                       else ff_input vp ff_new in
             match na with Some p => ff_input p c1 | None => c1 end))).
Proof.
  unfold scene_command. destruct (is_image m); cbn; [intros [= <-]; done|].
  destruct (js_gt fd vd); cbn; [done|]. intros [= <-]. done.
Qed.


Lemma scene_command_not_hang m vp vd fd na out : scene_command m vp vd fd na out <> Hang.
Proof. unfold scene_command, ff_inputOptions, res_bind. repeat case_match; discriminate. Qed.

Lemma scene_command_last_t m vp vd fd na out cmd :
  scene_command m vp vd fd na out = Ok cmd -> last_t (c_outopts cmd) = Some fd.
Proof.
  intros Hc. apply scene_command_inv in Hc as [_ ->]. by destruct (is_image m), na.
Qed.

(** The cut law for the render command: with an image, or a clip at least
    as long as the target, and a narration padded to the target, the clip
    written lasts exactly the target. *)
Lemma scene_command_cut fs m vp vd q na out cmd f :
  scene_command m vp vd (JNum q) na out = Ok cmd -> ff_semantics fs cmd = Ok f -> (0 <= q)%Q ->
  first_input_ok m fs vp q -> narration_ok fs na q -> (natural_len f == q)%Q.
Proof.
  intros Hc Hs Hq (f1 & Hf1 & Hk) Hn.
  eapply ff_semantics_cut; [exact Hs | by eapply scene_command_last_t | exact Hq |].
  apply scene_command_inv in Hc as [_ ->]. intros ins Hins.
  set (o1 := if is_image m then [OptLoop1] else []).
  assert (Hi1 : input_streams fs (mkInput vp o1) = Ok (file_streams f1 o1))
    by (apply input_streams_plain; [done | subst o1; by destruct (is_image m)]).
  assert (Hs1 : opt_ge (s_video (file_streams f1 o1)) q /\ opt_ge (s_audio (file_streams f1 o1)) q
                /\ s_video (file_streams f1 o1) <> None).
  { subst o1. destruct (is_image m).
    - unfold file_streams. rewrite Hk. cbn. done.
    - destruct Hk as (l & a & Hk & Hql). unfold file_streams. rewrite Hk. cbn.
      destruct a; cbn; done. }
  destruct Hs1 as (Hv1 & Ha1 & Hsome).
  assert (Hc1 : c_inputs (if is_image m then ff_duration (JNum q) (mkCmd [mkInput vp [OptLoop1]] [] [] [] None)
                          else ff_input vp ff_new) = [mkInput vp o1])
    by (subst o1; by destruct (is_image m)).
  destruct na as [p|]; cbn in Hins; rewrite ?Hc1 in Hins; cbn -[input_streams] in Hins;
    rewrite ?Hi1 in Hins.
  - destruct (Hn p eq_refl) as (f2 & Hf2 & Ha2).
    rewrite (input_streams_plain fs p f2 [] Hf2 eq_refl) in Hins. simplify_eq/=.
    apply out_lens_sel; [unfold out_video; cbn; by destruct (s_video (file_streams f1 o1)) |].
    by repeat constructor.
  - simplify_eq/=.
    apply out_lens_sel; [unfold out_video; cbn; by destruct (s_video (file_streams f1 o1)) |].
    by repeat constructor.
Qed.

Section Steps.
Context `{E : Encoder} `{!EncoderSound E} (ctl : controller).

Lemma normalize_narration_run a fd w w1 na :
  normalize_narration ctl a fd w = (w1, Ok na) ->
  (na = None /\ w1 = w) \/
  exists ps p, na = Some p /\ normalizeAudio ctl ps (VNum fd) w = (w1, Ok p).
Proof.
  intros H. unfold normalize_narration in H.
  destruct (narration_inputs a) as [ps|]; [|by mrun; left].
  munfold. destruct (normalizeAudio ctl ps (VNum fd) w) as [w2 [p| |]] eqn:Hn; simplify_eq/=.
  right. eauto.
Qed.

Lemma strip_source_run m w1 w2 vp :
  strip_source ctl m w1 = (w2, Ok vp) ->
  (is_image m = true /\ vp = media_path m /\ w2 = w1) \/
  (is_image m = false /\ stripAudioFromVideo ctl (media_path m) w1 = (w2, Ok vp)).
Proof. intros H. unfold strip_source in H. destruct (is_image m); [by mrun; left | by right]. Qed.

(** After step 3 the render command reads an image or a clip at least as
    long as the target, and a narration padded to the target. *)
Lemma process_audio_inputs s m ae q w w' na vp f_m :
  process_audio ctl s m ae (JNum q) w = (w', Ok (na, vp)) -> (0 <= q)%Q ->
  w_files w !! media_path m = Some f_m ->
  (forall id, media_path m <> normalized_name ctl id) ->
  (if is_image m then f_kind f_m = KImage else exists l a, f_kind f_m = KVideo l a /\ (q <= l)%Q) ->
  first_input_ok m (w_files w') vp q /\ narration_ok (w_files w') na q.
Proof.
  intros Hp Hq Hm Hfresh Hk. unfold process_audio in Hp.
  destruct ae, (scene_audio s) as [a|]; munfold; simplify_eq/=;
    try (split; [exists f_m; done | done]).
  destruct (normalize_narration ctl a (JNum q) w) as [w1 [na1| |]] eqn:Hn; try done.
  destruct (strip_source ctl m w1) as [w2 [vp2| |]] eqn:Hs; simplify_eq/=.
  (* the files after the narration step *)
  assert (Hw1 : w_files w1 !! media_path m = Some f_m /\ narration_ok (w_files w1) na q).
  { destruct (normalize_narration_run _ _ _ _ _ Hn) as [[-> ->] | (ps & p & -> & Hna)];
      [done|].
    destruct (normalizeAudio_ok ctl _ _ _ _ _ Hna) as (-> & f2 & Hf2 & Hw & _).
    rewrite Hw. split; [rewrite lookup_insert_ne; [done | apply not_eq_sym, Hfresh]|].
    intros p [= <-]. exists f2. rewrite lookup_insert_eq. split; [done|].
    eapply normalize_output_audio; [by apply encode_ok | done]. }
  destruct Hw1 as [Hm1 Hn1].
  destruct (strip_source_run _ _ _ _ Hs) as [(Hi & -> & ->) | (Hi & Hst)].
  - split; [exists f_m; split; [exact Hm1 | exact Hk] | done].
  - destruct (stripAudioFromVideo_ok ctl _ _ _ _ Hst) as (-> & f3 & Hf3 & Hw & _).
    rewrite Hi in Hk. destruct Hk as (l & a' & Hk & Hql).
    pose proof (strip_output _ _ _ _ _ _ _ (encode_ok _ _ _ Hf3) Hm1 Hk) as ->.
    rewrite Hw. split.
    + exists (mkFile (KVideo l false) (Some (VNum (JNum l)))). rewrite lookup_insert_eq, Hi. eauto.
    + intros p Hp. destruct (Hn1 p Hp) as (f2 & Hf2 & Ha2). exists f2.
      rewrite lookup_insert_ne; [done|].
      destruct (normalize_narration_run _ _ _ _ _ Hn) as [[-> _] | (ps & p' & Hp' & Hna)];
        [done|].
      rewrite Hp in Hp'. injection Hp' as <-.
      destruct (normalizeAudio_ok ctl _ _ _ _ _ Hna) as (-> & _).
      apply not_eq_sym, normalized_noaudio_neq.
Qed.

Lemma verify_narration_spec s w w' r :
  verify_narration s w = (w', r) ->
  w_files w' = w_files w /\ r = Ok (narration_exists s (w_files w)) /\ w_warnings w `prefix_of` w_warnings w'.
Proof.
  unfold verify_narration, narration_exists. destruct (scene_audio s); [|by intros; mrun].
  intros H. destruct (verifyFile_spec _ _ _ _ H) as (? & _ & ->).
  split_and!; [done | done | by eapply verifyFile_warnings].
Qed.

(** The run of [generateSceneVideo] that resolves with a clip, step by
    step: the media file exists, the durations are resolved on the files
    as they were, step 3 and the command succeed and the command runs. *)
Lemma generateSceneVideo_ok_inv s w w' r :
  generateSceneVideo ctl s w = (w', Ok (Some r)) ->
  exists m w2 vd fd na vp w5 cmd,
    scene_media s = Some m /\ is_Some (w_files w !! media_path m) /\ w_files w2 = w_files w /\
    resolve_media_duration m w2 = (w2, Ok vd) /\
    resolve_final_duration s (narration_exists s (w_files w)) vd w2 = (w2, Ok fd) /\
    process_audio ctl s m (narration_exists s (w_files w)) fd w2 = (w5, Ok (na, vp)) /\
    scene_command m vp vd fd na (scene_output_path ctl (sceneNumber s)) = Ok cmd /\
    ff_run cmd w5 = (w', Ok tt) /\
    r = mkRendered (scene_output_path ctl (sceneNumber s)) fd.
Proof.
  intros H. unfold generateSceneVideo, get_media in H.
  destruct (scene_media s) as [m|]; munfold; [|done].
  cbn -[verifyFile verify_narration resolve_media_duration resolve_final_duration process_audio
        scene_command ff_run scene_output_path] in H.
  destruct (verifyFile (VStr (media_path m)) w) as [w1 [me| |]] eqn:Hv1; try done.
  destruct (verifyFile_spec _ _ _ _ Hv1) as (Hf1 & _ & [= ->]).
  destruct (verify_narration s w1) as [w2 [ae| |]] eqn:Hv2; try done.
  destruct (verify_narration_spec _ _ _ _ Hv2) as (Hf2 & [= ->] & _). rewrite Hf1 in Hf2, H.
  case_bool_decide as Hex;
    cbn -[resolve_media_duration resolve_final_duration process_audio scene_command ff_run scene_output_path] in H;
    [|done].
  destruct (resolve_media_duration m w2) as [w3 [vd| |]] eqn:Hmd; try done.
  pose proof (resolve_media_duration_other _ _ _ _ Hmd) as ->.
  destruct (resolve_final_duration s (narration_exists s (w_files w)) vd w2) as [w4 [fd| |]] eqn:Hfd; try done.
  pose proof (resolve_final_duration_other _ _ _ _ _ _ Hfd) as ->.
  destruct (process_audio ctl s m _ fd w2) as [w5 [[na vp]| |]] eqn:Hpa; try done.
  cbn [fst snd] in H.
  destruct (scene_command m vp vd fd na _) as [cmd| |] eqn:Hc; try done.
  destruct (ff_run cmd w5) as [w6 [[]| |]] eqn:Hrun; simplify_eq/=; try done.
  exists m, w2, vd, fd, na, vp, w5, cmd. done.
Qed.

(** The final duration is not negative: a narration's probed length, or
    a media duration that passed the [<= 0] guard. *)
Lemma final_duration_nonneg s ae vd w w' q :
  wf_world w -> js_le vd js_zero = false ->
  resolve_final_duration s ae vd w = (w', Ok (JNum q)) -> (0 <= q)%Q.
Proof.
  intros Hwf Hle H. unfold resolve_final_duration in H.
  repeat case_match; munfold; simplify_eq/=;
    first [ apply Qlt_le_weak; by apply js_le_zero_false
          | destruct (getVideoDuration_wf _ _ _ _ Hwf H) as (_ & f & Hf & [= ->]);
            exact (proj1 (Hwf _ _ Hf)) ].
Qed.
End Steps.


Section Duration.
Context `{E : Encoder} `{!EncoderSound E} (ctl : controller).

(** C1: every clip the renderer reports lasts exactly the duration it
    reports: the rendered file's length is [finalDuration], which is
    finite.  The encoder is any sound one; the media file has the kind
    its [type] announces and is not a name the controller draws. *)
Theorem generateSceneVideo_duration s m w w' r :
  wf_world w -> scene_media s = Some m -> media_matches_kind m w ->
  (forall id, media_path m <> normalized_name ctl id) ->
  generateSceneVideo ctl s w = (w', Ok (Some r)) ->
  exists q f, r_duration r = JNum q /\ w_files w' !! r_path r = Some f /\ (natural_len f == q)%Q.
Proof.
  intros Hwf Hm Hkind Hfresh H.
  destruct (generateSceneVideo_ok_inv ctl _ _ _ _ H)
    as (m' & w2 & vd & fd & na & vp & w5 & cmd & Hm' & [f_m Hfm] & Hf2 & Hmd & Hfd & Hpa & Hc & Hrun & ->).
  rewrite Hm in Hm'. injection Hm' as <-.
  destruct (resolve_media_duration_spec _ _ _ _ Hmd) as (_ & _ & Hle & Hvd).
  destruct (ff_run_ok _ _ _ Hrun) as (p & f & Hp & Hf & ->).
  pose proof (encode_ok _ _ _ Hf) as Hsem.
  destruct (ff_semantics_t_finite _ _ _ _ Hsem (scene_command_last_t _ _ _ _ _ _ _ Hc)) as [q ->].
  assert (Hwf2 : wf_world w2) by (unfold wf_world; by rewrite Hf2).
  pose proof (final_duration_nonneg _ _ _ _ _ _ Hwf2 Hle Hfd) as Hq.
  rewrite <- Hf2 in Hfm. specialize (Hkind f_m). rewrite <- Hf2 in Hkind.
  destruct (process_audio_inputs ctl _ _ _ _ _ _ _ _ _ Hpa Hq Hfm Hfresh) as [H1 H2].
  { specialize (Hkind Hfm). destruct (is_image m) eqn:Hi; [done|].
    destruct Hkind as (l & a & Hk). exists l, a. split; [done|].
    apply scene_command_inv in Hc as [Hgt _]. rewrite Hi in Hgt.
    destruct (getVideoDuration_wf _ _ _ _ Hwf2 Hvd) as (_ & f' & Hf' & ->).
    rewrite Hfm in Hf'. injection Hf' as <-. apply js_gt_num_false.
    unfold natural_len in Hgt. by rewrite Hk in Hgt. }
  apply scene_command_inv in Hc as Hc'. destruct Hc' as [_ Hcmd].
  assert (p = scene_output_path ctl (sceneNumber s)) as -> by (rewrite Hcmd in Hp; by injection Hp).
  exists q, f. rewrite set_files_files. cbn [r_path r_duration].
  rewrite lookup_insert_eq. split_and!; [done | done |].
  eapply scene_command_cut; eauto.
Qed.

(** C13: without a narration file a video scene keeps the audio track of
    its source clip: [stripAudioFromVideo] runs only when there is a
    narration, and no [-an] is given otherwise.  The specification says
    such a clip is silent. *)
Theorem generateSceneVideo_keeps_source_audio s m w w' r f_m l :
  scene_media s = Some m -> is_image m = false -> narration_exists s (w_files w) = false ->
  w_files w !! media_path m = Some f_m -> f_kind f_m = KVideo l true ->
  generateSceneVideo ctl s w = (w', Ok (Some r)) ->
  exists q, w_files w' !! r_path r = Some (mkFile (KVideo q true) (Some (VNum (JNum q)))).
Proof.
  intros Hm Hi Hna Hfm Hk H.
  destruct (generateSceneVideo_ok_inv ctl _ _ _ _ H)
    as (m' & w2 & vd & fd & na & vp & w5 & cmd & Hm' & _ & Hf2 & _ & _ & Hpa & Hc & Hrun & ->).
  rewrite Hm in Hm'. injection Hm' as <-. rewrite Hna in Hpa.
  unfold process_audio in Hpa. munfold. simplify_eq/=.
  apply scene_command_inv in Hc as [_ ->]. rewrite Hi in Hrun.
  destruct (ff_run_ok _ _ _ Hrun) as (p & f & [= <-] & Hf & ->).
  pose proof (encode_ok _ _ _ Hf) as Hsem. rewrite set_files_files. cbn [r_path].
  rewrite lookup_insert_eq. unfold ff_semantics in Hsem. cbn in Hsem.
  unfold input_streams in Hsem. cbn in Hsem. rewrite Hf2, Hfm in Hsem. cbn in Hsem.
  unfold file_streams in Hsem. rewrite Hk in Hsem. cbn in Hsem.
  destruct fd as [q| |]; cbn in Hsem; simplify_eq/=; eauto.
Qed.

(** Under a sound encoder the promise of [generateSceneVideo] always
    settles: every ffmpeg run it starts is cut by [-t] or reads finite
    streams, and every probe and check returns. *)
Theorem generateSceneVideo_settles s : settles (generateSceneVideo ctl s).
Proof.
  unfold generateSceneVideo, get_media.
  eapply (settles_bind (fun _ => True)); [auto with settles|]. intros m _.
  eapply (settles_bind (fun _ => True)); [auto with settles|]. intros me _.
  eapply (settles_bind (fun _ => True)); [unfold verify_narration; auto with settles|]. intros ae _.
  destruct (negb me); [auto with settles|].
  eapply (settles_bind (fun _ => True)); [auto with settles|]. intros vd _.
  eapply (settles_bind (fun _ => True)); [auto with settles|]. intros fd _.
  eapply (settles_bind (fun _ => True));
    [unfold process_audio, normalize_narration, strip_source; settle|]. intros [na vp] _.
  eapply (settles_bind (fun cmd => exists d, last_t (c_outopts cmd) = Some d)).
  { apply settles_lift. destruct (scene_command _ _ _ _ _ _) eqn:Hc;
      [eauto using scene_command_last_t | done | by apply scene_command_not_hang in Hc]. }
  intros cmd [d Hd]. eapply (settles_bind (fun _ => True)); [|auto with settles].
  apply ff_run_settles. intros fs. by apply (ff_semantics_t_not_hang _ _ d).
Qed.
End Duration.
Section Behaviour.
Context `{E : Encoder} (ctl : controller).

(** C2: a video scene is never extended: the duration a video scene
    resolves with never exceeds the length ffprobe reports for its media
    file.  When the narration is longer the code asks fluent-ffmpeg for
    [-stream_loop -1] before the clip is an input, which throws, so the
    loop-extension of the specification never happens. *)
Theorem generateSceneVideo_never_extends s m w w' r :
  scene_media s = Some m -> is_image m = false ->
  generateSceneVideo ctl s w = (w', Ok (Some r)) ->
  exists f pv, w_files w !! media_path m = Some f /\ f_probe f = Some pv /\
               js_gt (r_duration r) (parseFloat pv) = false.
Proof.
  intros Hm Hi H.
  destruct (generateSceneVideo_ok_inv ctl _ _ _ _ H)
    as (m' & w2 & vd & fd & na & vp & w5 & cmd & Hm' & _ & Hf2 & Hmd & _ & _ & Hc & _ & ->).
  rewrite Hm in Hm'. injection Hm' as <-.
  destruct (resolve_media_duration_spec _ _ _ _ Hmd) as (_ & _ & _ & Hvd). rewrite Hi in Hvd.
  destruct (getVideoDuration_spec _ _ _ _ Hvd) as (_ & f & pv & Hf & Hp & ->).
  apply scene_command_inv in Hc as [Hgt _]. rewrite Hi in Hgt.
  exists f, pv. rewrite <- Hf2. done.
Qed.

(** C3: the duration rule.  The clip's duration is the probed length of
    the narration when the narration's path names a file that exists, and
    the media duration of step 1 otherwise (no narration, or one whose file
    is missing). *)
Theorem generateSceneVideo_final_duration s m w w' r :
  scene_media s = Some m ->
  generateSceneVideo ctl s w = (w', Ok (Some r)) ->
  if narration_exists s (w_files w)
  then exists a p, scene_audio s = Some a /\ audio_path a = VStr p /\
                   (getVideoDuration p w).2 = Ok (r_duration r)
  else (resolve_media_duration m w).2 = Ok (r_duration r).
Proof.
  intros Hm H.
  destruct (generateSceneVideo_ok_inv ctl _ _ _ _ H)
    as (m' & w2 & vd & fd & na & vp & w5 & cmd & Hm' & _ & Hf2 & Hmd & Hfd & _ & _ & _ & ->).
  rewrite Hm in Hm'. injection Hm' as <-. cbn [r_duration].
  pose proof (resolve_media_duration_files m _ _ Hf2) as Hrm. rewrite Hmd in Hrm.
  unfold resolve_final_duration, narration_exists in *.
  destruct (scene_audio s) as [a|] eqn:Ha; [|munfold; simplify_eq/=; done].
  destruct (audio_path a) as [| | | |p] eqn:Hp; try (munfold; simplify_eq/=; done).
  case_bool_decide; munfold; simplify_eq/=; [|done].
  exists a, p. split; [done | split; [done |]].
  rewrite <- (getVideoDuration_files p _ _ Hf2), Hfd. done.
Qed.

(** C12: a scene whose media file is missing resolves with [null]: no file
    is written and the failed check is reported as a warning. *)
Theorem generateSceneVideo_missing_media s m w :
  scene_media s = Some m -> w_files w !! media_path m = None ->
  exists w', generateSceneVideo ctl s w = (w', Ok None) /\ w_files w' = w_files w /\
             WVerifyFailed (media_path m) ∈ w_warnings w'.
Proof.
  intros Hm Hnone. unfold generateSceneVideo, get_media. rewrite Hm. munfold.
  cbn -[verifyFile verify_narration].
  unfold verifyFile, fs_exists, warn, mmodify. munfold. cbn -[verify_narration].
  rewrite Hnone. cbn -[verify_narration].
  destruct (verify_narration s _) as [w2 r2] eqn:Hv.
  destruct (verify_narration_spec _ _ _ _ Hv) as (Hf & -> & Hpre). cbn.
  eexists. split_and!; [reflexivity | done |].
  eapply elem_of_prefix; [|exact Hpre]. cbn. set_solver.
Qed.
End Behaviour.
End SceneRendererFacts.
