(* ===== verification/Orchestrator.v ===== *)
(** * Pipeline Orchestrator (video.generator.controller.js)

    [processScenes]: every scene goes through [generateSceneVideo]; a
    scene that rejects is logged and becomes [null]; the [null]s are
    filtered out.  [generateVideo]: create the two directories, process
    the scenes, reject when none succeeded, and rewrite each clip's path
    to the URL the server publishes it under.

    [Promise.all] is modelled by running the scene tasks one after the
    other in the order of the array (see the root file for what this
    covers). *)

From S2P Require Import Prelude Media Ffmpeg Scene Resolver Normalizer Renderer.
Local Open Scope string_scope.
Local Open Scope js_scope.

Module SceneOrchestrator.
Import SceneRenderer.

Section WithEncoder.
Context `{E : Encoder} (ctl : controller).

(** The task of one scene: [try { return await this.generateSceneVideo(scene) }
    catch (error) { return null }]. *)
Definition render_or_null (s : scene) : M (option rendered) :=
  mcatch (generateSceneVideo ctl s) (fun _ => mret None).

(** [sceneVideos.filter(Boolean)]: a result object is truthy, [null] is not. *)
Fixpoint filter_Boolean (xs : list (option rendered)) : list rendered :=
  match xs with
  | [] => []
  | Some r :: xs => r :: filter_Boolean xs
  | None :: xs => filter_Boolean xs
  end.

(** [async processScenes(scenes)] *)
Definition processScenes (scenes : list scene) : M (list rendered) :=
  sceneVideos <- mmap render_or_null scenes ;;
  mret (filter_Boolean sceneVideos).

(** [fs.mkdir(dir, { recursive: true })]: succeeds when the directory
    exists already, fails when a file has its name. *)
Definition mkdir_p (dir : string) : M unit :=
  fun w =>
    match w_files w !! dir with
    | Some _ => (w, Throw (ErrMessage ("EEXIST: file already exists, mkdir '" ++ dir ++ "'")))
    | None => (w, Ok tt)
    end.

Definition server_origin : string := "http://localhost:3000/".

(** [scene.path = `http://localhost:3000/${path.basename(scene.path)}`]:
    the code rewrites the [path] field of the object in place; nothing
    reads the old value afterwards, so the model returns the updated
    object. *)
Definition served_url (r : rendered) : rendered :=
  mkRendered (server_origin ++ basename (r_path r)) (r_duration r).

(** [async generateVideo(scenes)]; its [catch] logs and rethrows. *)
Definition generateVideo (scenes : list scene) : M (list rendered) :=
  mkdir_p (tempDir ctl) ;;;
  mkdir_p (outputDir ctl) ;;;
  sceneVideoPaths <- processScenes scenes ;;
  if Nat.eqb (List.length sceneVideoPaths) 0%nat
  then mthrow (ErrMessage "No scenes processed successfully")
  else mret (map served_url sceneVideoPaths).
End WithEncoder.

End SceneOrchestrator.

Module SceneOrchestratorFacts.
Import SceneRenderer SceneRendererFacts SceneOrchestrator.

(** The name of a scene's clip, and the URL it is published under. *)
Definition clip_name (s : scene) : string := "scene_" ++ pretty (sceneNumber s) ++ "_final.mp4".

Lemma clip_name_no_slash s : no_slash (clip_name s) = true.
Proof. unfold clip_name. rewrite !no_slash_app, no_slash_pretty. done. Qed.

(** [filter(Boolean)] keeps the results in order. *)
Lemma filter_Boolean_sublist {A} (f : rendered -> A) (g : scene -> A) ss os :
  Forall2 (fun s o => forall r, o = Some r -> f r = g s) ss os ->
  map f (filter_Boolean os) `sublist_of` map g ss.
Proof.
  induction 1 as [|s [r|] ss os Hso _ IH]; cbn; [done| |].
  - rewrite (Hso r eq_refl). by apply sublist_skip.
  - by apply sublist_cons.
Qed.

Section Facts.
Context `{E : Encoder} (ctl : controller).

Lemma generateSceneVideo_ok_path s w w' r :
  generateSceneVideo ctl s w = (w', Ok (Some r)) -> r_path r = scene_output_path ctl (sceneNumber s).
Proof.
  intros H. destruct (generateSceneVideo_ok_inv ctl _ _ _ _ H) as (? & ? & ? & ? & ? & ? & ? & ? & _ & _ & _ & _ & _ & _ & _ & _ & ->).
  done.
Qed.

(** A scene task that resolves with a clip resolves with the clip of its
    scene. *)
Lemma render_or_null_path s w w' o :
  render_or_null ctl s w = (w', Ok o) -> forall r, o = Some r -> r_path r = scene_output_path ctl (sceneNumber s).
Proof.
  unfold render_or_null, mcatch. intros H r ->.
  destruct (generateSceneVideo ctl s w) as [w1 [o'| |]] eqn:Hg; munfold; simplify_eq/=.
  by eapply generateSceneVideo_ok_path.
Qed.

Lemma processScenes_paths scenes w w' rs :
  processScenes ctl scenes w = (w', Ok rs) ->
  map r_path rs `sublist_of` map (fun s => scene_output_path ctl (sceneNumber s)) scenes.
Proof.
  unfold processScenes, mbind, mret. intros H.
  destruct (mmap _ scenes w) as [w1 [os| |]] eqn:Hm; simplify_eq/=.
  apply filter_Boolean_sublist. eapply Forall2_impl; [exact (mmap_ok_inv _ _ _ _ _ Hm)|].
  intros s o (s1 & s2 & Hs). by eapply render_or_null_path.
Qed.

(** [generateVideo] resolves only with clips. *)
Lemma generateVideo_nonempty scenes w w' urls : generateVideo ctl scenes w = (w', Ok urls) -> urls <> [].
Proof.
  unfold generateVideo. munfold.
  destruct (mkdir_p (tempDir ctl) w) as [w1 [[]| |]]; try done.
  destruct (mkdir_p (outputDir ctl) w1) as [w2 [[]| |]]; try done.
  destruct (processScenes ctl scenes w2) as [w3 [rs| |]]; try done.
  destruct (Nat.eqb_spec (List.length rs) 0%nat) as [|Hlen]; intros; simplify_eq/=. by destruct rs.
Qed.

(** C14: if [generateVideo] resolves, it resolves with at least one clip,
    and the clips are published as [http://localhost:3000/scene_<n>_final.mp4],
    one per scene that rendered, in the order of the scenes. *)
Theorem generateVideo_urls scenes w w' urls :
  generateVideo ctl scenes w = (w', Ok urls) ->
  urls <> [] /\ map r_path urls `sublist_of` map (fun s => server_origin ++ clip_name s) scenes.
Proof.
  unfold generateVideo. intros H. munfold.
  destruct (mkdir_p (tempDir ctl) w) as [w1 [[]| |]]; try done.
  destruct (mkdir_p (outputDir ctl) w1) as [w2 [[]| |]]; try done.
  destruct (processScenes ctl scenes w2) as [w3 [rs| |]] eqn:Hp; try done.
  destruct (Nat.eqb_spec (List.length rs) 0%nat) as [|Hlen]; simplify_eq/=.
  split; [by destruct rs|].
  rewrite map_map. unfold served_url. cbn [r_path].
  assert (Hfun : map (fun s => server_origin ++ clip_name s) scenes =
                 map (fun p => server_origin ++ basename p) (map (fun s => scene_output_path ctl (sceneNumber s)) scenes)).
  { rewrite map_map. apply map_ext. intros s. unfold scene_output_path.
    by rewrite basename_path_join; [|apply clip_name_no_slash]. }
  rewrite Hfun, <- (map_map r_path (fun p => server_origin ++ basename p)).
  apply (fmap_sublist (fun p => server_origin ++ basename p)). by eapply processScenes_paths.
Qed.

Context `{!EncoderSound E}.

Lemma render_or_null_resolves s w : exists w' o, render_or_null ctl s w = (w', Ok o).
Proof.
  unfold render_or_null, mcatch.
  pose proof (settles_not_hang _ _ w (generateSceneVideo_settles ctl s)) as Hs.
  destruct (generateSceneVideo ctl s w) as [w1 [o| |]]; eauto; done.
Qed.

(** C4: under a sound encoder [processScenes] always resolves: a scene
    that rejects is dropped, none hangs; the clips it returns are those of
    the scenes, in their order. *)
Theorem processScenes_resolves scenes w :
  exists w' rs, processScenes ctl scenes w = (w', Ok rs) /\
    map r_path rs `sublist_of` map (fun s => scene_output_path ctl (sceneNumber s)) scenes.
Proof.
  destruct (mmap_ok (render_or_null ctl) (fun _ _ => True) scenes w) as (w1 & os & Hm & _).
  { intros s w0. destruct (render_or_null_resolves s w0) as (w2 & o & Ho). eauto. }
  assert (Hp : processScenes ctl scenes w = (w1, Ok (filter_Boolean os))).
  { unfold processScenes, mbind. by rewrite Hm. }
  exists w1, (filter_Boolean os). split; [done|]. by eapply processScenes_paths.
Qed.
End Facts.
End SceneOrchestratorFacts.
