(* ===== verification/Wizard.v ===== *)
(** * Script Wizard (scriptWizard.controller.js)

    The text side of the pipeline: the script the language model writes
    is normalised ([formatScript]), cut into scenes by the scene regular
    expression ([parseScenes]), each scene's narration cleaned
    ([_cleanSceneText]) and timed at 150 words a minute
    ([analyzeTimings]), its visual description turned into search
    keywords ([_extractSearchKeywords]) and, with the model's help, into
    search queries ([_enhanceSceneKeywords], [_generateSearchQueries]).
    The language model is a parameter ([generateContent]); its answers
    are arbitrary. *)

From S2P Require Import Prelude NumberFacts Text Media Ffmpeg.
From Stdlib Require Import Ascii.
Local Open Scope string_scope.

Module ScriptWizard.

(** ** [analyzeTimings] *)

(** [{ estimatedDuration, wordCount }] *)
Record timing : Type := mkTiming { estimatedDuration : string; wordCount : nat }.

(** [this.wordsPerMinute] *)
Definition wordsPerMinute : Q := 150.

(** [`${n}`] for an integer. *)
Definition int_to_string (z : Z) : string := js_number_to_string (JNum (inject_Z z)).

(** The body of [analyzeTimings] after the words are counted.  The
    source computes in binary floating point; the quotient by 150 is exact
    here, and since [(wordCount mod 150) * 0.4] is never within 0.1 of a
    half, the rounding is the same for every word count below 2^40. *)
Definition timing_of_count (wordCount : nat) : timing :=
  let durationInMinutes := inject_Z (Z.of_nat wordCount) / wordsPerMinute in
  let minutes := Qfloor durationInMinutes in
  let seconds := round_half_up ((durationInMinutes - inject_Z minutes) * 60) in
  mkTiming (int_to_string minutes ++ ":" ++ padStart 2 "0" (int_to_string seconds)) wordCount.

(** [analyzeTimings(scriptText)] *)
Definition analyzeTimings (scriptText : string) : timing :=
  timing_of_count (List.length (word_tokens scriptText)).

(** ** Keywords and queries *)

Definition wizard_stop_words : list string := ["a"; "an"; "the"; "with"; "at"; "of"; "in"; "on"; "for"].

(** [stopWords.has(word)] *)
Definition is_stop_word (stop : list string) (w : string) : bool := existsb (String.eqb w) stop.

(** [_extractSearchKeywords(visualDescription)]: lower case, split at
    white space, stop words out, punctuation out, words of three
    characters or more, the first three. *)
Definition _extractSearchKeywords (visualDescription : string) : list string :=
  let words := split_ws (js_to_lower visualDescription) in
  firstn 3 (filter (fun w => (2 < String.length w)%nat)
              (map (filter_chars (fun c => is_word_char c || js_is_space c))
                   (List.filter (fun w => negb (is_stop_word wizard_stop_words w)) words))).

(** [queries.add(x)] on a [Set] kept in insertion order. *)
Definition set_add (x : string) (l : list string) : list string :=
  if existsb (String.eqb x) l then l else l ++ [x].

(** The two-word combinations of the nested loop, [i < j]. *)
Fixpoint keyword_pairs (ks : list string) : list string :=
  match ks with
  | [] => []
  | k :: r => map (fun k' => k ++ " " ++ k') r ++ keyword_pairs r
  end.

(** [_generateSearchQueries(keywords, description)] *)
Definition _generateSearchQueries (keywords : list string) (description : string) : list string :=
  let queries := set_add description [] in
  let queries := fold_left (fun q k => set_add k q) keywords queries in
  fold_left (fun q p => set_add p q) (keyword_pairs keywords) queries.

(** ** [_cleanSceneText] *)

(** [/\[.*?\]/]: an opening bracket up to the first closing one on the
    same line. *)
Fixpoint bracket_body (s : string) : option nat :=
  match s with
  | EmptyString => None
  | String c r =>
      if is_char c "]" then Some 1%nat
      else if is_line_terminator c then None else option_map S (bracket_body r)
  end.

Definition bracket_matcher : matcher (A := unit) :=
  fun _ s => match s with
             | String c r => if is_char c "[" then option_map (fun n => (tt, S n)) (bracket_body r) else None
             | EmptyString => None
             end.

(** [/Narrator\s*\([^)]*\):/] *)
Definition narrator_tone_matcher : matcher (A := unit) :=
  fun _ s =>
    if String.prefix "Narrator" s then
      let k1 := count_while js_is_space (str_drop 8 s) in
      match str_drop (8 + k1) s with
      | String c r3 =>
          if is_char c "(" then
            let k2 := count_while (fun c => negb (is_char c ")")) r3 in
            if String.prefix "):" (str_drop k2 r3) then Some (tt, 8 + k1 + 1 + k2 + 2)%nat else None
          else None
      | EmptyString => None
      end
    else None.

(** [/^\s*\*\s/gm]: at the start of a line, white space, a star and one
    white-space character. *)
Definition line_start (prev : option ascii) : bool :=
  match prev with None => true | Some c => is_line_terminator c end.

Definition bullet_matcher : matcher (A := unit) :=
  fun prev s =>
    if line_start prev then
      let k := count_while js_is_space s in
      match str_drop k s with
      | String c (String c' _) => if is_char c "*" && js_is_space c' then Some (tt, k + 2)%nat else None
      | _ => None
      end
    else None.

(** [/\s+/g] *)
Definition ws_run_matcher : matcher (A := unit) :=
  fun _ s => let k := count_while js_is_space s in if (0 <? k)%nat then Some (tt, k) else None.

(** [_cleanSceneText(sceneContent)]: the six replacements, then [trim]. *)
Definition _cleanSceneText (sceneContent : string) : string :=
  trim (replace_all ws_run_matcher (fun _ => " ")
         (replace_all bullet_matcher (fun _ => "")
           (remove_all "[Pause]"
             (remove_all "Narrator:"
               (replace_all narrator_tone_matcher (fun _ => "")
                 (replace_all bracket_matcher (fun _ => "") sceneContent)))))).

(** ** [formatScript] *)

(** [/\n{3,}/g] *)
Definition newlines_matcher : matcher (A := unit) :=
  fun _ s => let k := count_while (fun c => is_char c "010") s in if (3 <=? k)%nat then Some (tt, k) else None.

(** [/([^\n])\*\*Scene/g], capturing the character before the marker. *)
Definition scene_break_matcher : matcher (A := ascii) :=
  fun _ s => match s with
             | String c r => if negb (is_char c "010") && String.prefix "**Scene" r then Some (c, 8%nat) else None
             | EmptyString => None
             end.

Definition nl2 : string := String "010" (String "010" EmptyString).

(** [formatScript(scriptText)] *)
Definition formatScript (scriptText : string) : string :=
  trim (replace_all scene_break_matcher (fun c => String c (nl2 ++ "**Scene"))
         (replace_all newlines_matcher (fun _ => nl2) scriptText)).

(** ** [parseScenes] *)

(** [\*\*Scene \d+:\*\*] at the head of [s]: how many characters it
    covers. *)
Definition scene_header (s : string) : option nat :=
  if String.prefix "**Scene " s then
    let k := count_while (in_range 48 57) (str_drop 8 s) in
    if (0 <? k)%nat && String.prefix ":**" (str_drop (8 + k) s) then Some (8 + k + 3)%nat else None
  else None.

(** [\s*MEDIA_TYPE:\s*(video|image)] after the closing bracket: the type
    and how many characters it covers. *)
Definition media_type_tail (s : string) : option (string * nat) :=
  let k1 := count_while js_is_space s in
  let r1 := str_drop k1 s in
  if String.prefix "MEDIA_TYPE:" r1 then
    let k2 := count_while js_is_space (str_drop 11 r1) in
    let r2 := str_drop (11 + k2) r1 in
    if String.prefix "video" r2 then Some ("video", k1 + 11 + k2 + 5)%nat
    else if String.prefix "image" r2 then Some ("image", k1 + 11 + k2 + 5)%nat
    else None
  else None.

(** [(.*?)\]] followed by the media type: the shortest description for
    which the rest matches; [.] does not cross a line end. *)
Fixpoint lazy_description (s : string) : option (string * string * nat) :=
  match s with
  | EmptyString => None
  | String c r =>
      match (if is_char c "]" then media_type_tail r else None) with
      | Some (t, n) => Some (EmptyString, t, S n)
      | None =>
          if is_line_terminator c then None
          else match lazy_description r with
               | Some (d, t, n) => Some (String c d, t, S n)
               | None => None
               end
      end
  end.

(** [([\s\S]*?)(?=\*\*Scene \d+:\*\*|$)]: everything up to the next
    scene header or the end. *)
Fixpoint lazy_content (s : string) : string :=
  match s with
  | EmptyString => EmptyString
  | String c r => match scene_header s with Some _ => EmptyString | None => String c (lazy_content r) end
  end.

(** The scene pattern of [parseScenes]: its three groups. *)
Definition scene_matcher : matcher (A := string * string * string) :=
  fun _ s =>
    match scene_header s with
    | None => None
    | Some h =>
        let r1 := str_drop h s in
        let k := count_while js_is_space r1 in
        match str_drop k r1 with
        | String c r2 =>
            if is_char c "[" then
              match lazy_description r2 with
              | Some (d, t, n) =>
                  let content := lazy_content (str_drop n r2) in
                  Some ((d, t, content), h + k + 1 + n + String.length content)%nat
              | None => None
              end
            else None
        | EmptyString => None
        end
    end.

(** A scene of the wizard: the fields [parseScenes] sets, and the
    [searchQueries] [_enhanceSceneKeywords] adds ([None]: absent). *)
Record wscene : Type := mkWScene {
  ws_sceneNumber : nat;
  ws_text : string;
  ws_duration : timing;
  ws_visualDescription : string;
  ws_mediaType : string;
  ws_searchKeywords : list string;
  ws_searchQueries : option (list string)
}.

(** One iteration of the [while] loop of [parseScenes]. *)
Definition parse_step (scenes : list wscene) (g : string * string * string) : list wscene :=
  let '(g1, g2, sceneContent) := g in
  let visualDescription := trim g1 in
  let mediaType := trim g2 in
  let cleanText := _cleanSceneText sceneContent in
  if String.eqb cleanText "" then scenes
  else (scenes ++ [mkWScene (List.length scenes + 1) cleanText (analyzeTimings cleanText)
                     visualDescription mediaType (_extractSearchKeywords visualDescription) None])%list.

(** [parseScenes(scriptText)] *)
Definition parseScenes (scriptText : string) : list wscene :=
  fold_left parse_step (match_all scene_matcher scriptText) [].

(** ** [optimizeScript] and [processScript] *)

(** [{ sentenceCount, wordCount, averageWordsPerSentence, readabilityScore }] *)
Record optimization : Type := mkOptimization {
  sentenceCount : nat;
  opt_wordCount : nat;
  averageWordsPerSentence : jsnum;
  readabilityScore : jsnum
}.

(** [this.optimalSentenceLength] *)
Definition optimalSentenceLength : jsnum := JNum 20.

Definition js_nat (n : nat) : jsnum := JNum (inject_Z (Z.of_nat n)).

(** The [SentenceTokenizer] of [natural] is a parameter: the optimisation
    figures hold for any way of cutting the text into sentences. *)
Section Analysis.
Variable sentence_tokenize : string -> list string.

(** [optimizeScript(scriptText)] *)
Definition optimizeScript (scriptText : string) : optimization :=
  let sentences := sentence_tokenize scriptText in
  let words := word_tokens scriptText in
  let sentenceCount := List.length sentences in
  let wordCount := List.length words in
  let averageWordsPerSentence := js_div (js_nat wordCount) (js_nat sentenceCount) in
  let readabilityScore := js_max (JNum 0) (js_min (JNum 100)
        (js_sub (JNum 100) (js_mul (js_abs (js_sub averageWordsPerSentence optimalSentenceLength)) (JNum 2)))) in
  mkOptimization sentenceCount wordCount
    (js_div (js_math_round (js_mul averageWordsPerSentence (JNum 10))) (JNum 10))
    (js_math_round readabilityScore).

(** An element of [sceneSummary]. *)
Record scene_summary : Type := mkSummary {
  sum_sceneNumber : nat;
  sum_duration : timing;
  sum_visualDescription : string;
  sum_mediaType : string;
  sum_searchKeywords : list string
}.

Record analysis : Type := mkAnalysis {
  formattedScript : string;
  optimizationResults : optimization;
  timingAnalysis : timing;
  numberOfScenes : nat;
  sceneSummary : list scene_summary
}.

(** [processScript(scriptText)]; nothing in it throws. *)
Definition processScript (scriptText : string) : analysis :=
  let formatted := formatScript scriptText in
  let scenes := parseScenes formatted in
  mkAnalysis formatted (optimizeScript formatted) (analyzeTimings formatted) (List.length scenes)
    (map (fun s => mkSummary (ws_sceneNumber s) (ws_duration s) (ws_visualDescription s)
                     (ws_mediaType s) (ws_searchKeywords s)) scenes).
End Analysis.

(** ** The prompts *)

Definition dq : string := String "034" EmptyString.

(** [_constructSystemPrompt(style, tone, duration, format, numberOfScenes)] *)
Definition _constructSystemPrompt (style tone duration format numberOfScenes : jsval) : string :=
  "You are a professional script writer. Create a " ++ jsval_to_string format ++ " script that is:
        - Written in a " ++ jsval_to_string style ++ " style
        - Uses a " ++ jsval_to_string tone ++ " tone
        - Approximately " ++ jsval_to_string duration ++ " in length
        - Divided into exactly " ++ jsval_to_string numberOfScenes ++ " distinct scenes
        - Structured for video presentation
        
        For each scene, provide:
        1. A DETAILED visual description in [brackets] that includes:
           - Specific setting details
           - Lighting conditions
           - Camera angles or shot types
           - Key visual elements
           - Actions or movements
           - Important objects or subjects
        
        2. Specify " ++ dq ++ "MEDIA_TYPE:" ++ dq ++ " followed by either:
           - " ++ dq ++ "video" ++ dq ++ " for scenes with movement or action
           - " ++ dq ++ "image" ++ dq ++ " for static scenes
        
        3. Include [KEYWORDS] section with 5-7 specific search terms that describe:
           - Main subject
           - Setting
           - Style/mood
           - Actions
           - Visual characteristics
        
        Example format:
        **Scene 1:**
        [Modern corporate office interior, warm natural lighting through large windows, wide establishing shot, business professionals in formal attire working at sleek desks with dual monitors, subtle activity with people walking in background]
        MEDIA_TYPE: video
        [KEYWORDS]: corporate office interior, natural lighting, business professionals working, modern workspace, wide office shot, professional environment
        Narrator (enthusiastic): Script text here...
        [Pause]".

(** The prompt of [_enhanceSceneKeywords] for one scene. *)
Definition keyword_prompt (visualDescription : string) : string :=
  "
                Generate specific, visually-focused search keywords for this scene description. 
                Include different variations and related terms that would help find matching video/image content.
                Scene: " ++ visualDescription ++ "
                Consider:
                - Main subjects/objects
                - Actions/movements
                - Setting/environment
                - Visual style/mood
                - Lighting/time of day
                - Camera angles/shots
                Return only keywords, separated by commas.".

(** ** [_enhanceSceneKeywords] and [generateScript] *)

(** The options of [generateScript]: each property may be [undefined]. *)
Record script_options : Type := mkScriptOptions {
  so_style : jsval; so_tone : jsval; so_duration : jsval; so_format : jsval; so_numberOfScenes : jsval
}.

(** The [options] argument: omitted, [null], or an object. *)
Inductive options_arg : Type := OptsUndefined | OptsNull | OptsObj (o : script_options).

(** A destructuring default: it applies when the property is [undefined]. *)
Definition or_default (d v : jsval) : jsval := match v with VUndefined => d | _ => v end.

(** [{ originalPrompt, generatedScript, scenes, analysis }] *)
Record script_result : Type := mkScriptResult {
  originalPrompt : string;
  generatedScript : string;
  result_scenes : list wscene;
  result_analysis : analysis
}.

Section Model.
(** [this.scriptGeneretClient.generateContent(systemPrompt, prompt)]: the
    language model's answer, an error, or no answer at all. *)
Variable generateContent : option string -> string -> res string.
Variable sentence_tokenize : string -> list string.

(** The body of the loop of [_enhanceSceneKeywords] for one scene: an
    error of the model is logged and the scene kept as it was. *)
Definition enhance_scene (scene : wscene) : res wscene :=
  match generateContent None (keyword_prompt (ws_visualDescription scene)) with
  | Ok keywordResponse =>
      let enhancedKeywords :=
        List.filter (fun k => negb (String.eqb k ""))
          (map trim (split_chars (fun c => is_char c ",") keywordResponse)) in
      Ok (mkWScene (ws_sceneNumber scene) (ws_text scene) (ws_duration scene) (ws_visualDescription scene)
            (ws_mediaType scene) enhancedKeywords
            (Some (_generateSearchQueries enhancedKeywords (ws_visualDescription scene))))
  | Throw _ => Ok scene
  | Hang => Hang
  end.

(** [async _enhanceSceneKeywords(scenes)]: the scenes one after the other. *)
Fixpoint _enhanceSceneKeywords (scenes : list wscene) : res (list wscene) :=
  match scenes with
  | [] => Ok []
  | scene :: rest => res_bind (enhance_scene scene) (fun e => res_bind (_enhanceSceneKeywords rest) (fun es => Ok (e :: es)))
  end.

Definition default_options : script_options :=
  mkScriptOptions VUndefined VUndefined VUndefined VUndefined VUndefined.

(** [async generateScript(prompt, options = {})]; its [catch] wraps the
    message of any error. *)
Definition generateScript (prompt : string) (options : options_arg) : res script_result :=
  let body :=
    res_bind (match options with
              | OptsUndefined => Ok default_options
              | OptsNull => Throw (ErrTypeError "Cannot destructure 'options' as it is null.")
              | OptsObj o => Ok o
              end) (fun o =>
    let systemPrompt := _constructSystemPrompt (or_default (VStr "professional") (so_style o))
                          (or_default (VStr "friendly") (so_tone o)) (or_default (VStr "2 minutes") (so_duration o))
                          (or_default (VStr "video script") (so_format o)) (or_default (VNum (JNum 3)) (so_numberOfScenes o)) in
    res_bind (generateContent (Some systemPrompt) prompt) (fun generatedScript =>
    let scenes := parseScenes generatedScript in
    res_bind (_enhanceSceneKeywords scenes) (fun scenesWithKeywords =>
    let analysis := processScript sentence_tokenize generatedScript in
    Ok (mkScriptResult prompt generatedScript scenesWithKeywords analysis)))) in
  match body with
  | Throw e => Throw (ErrMessage ("Error generating script: " ++ error_message e))
  | r => r
  end.
End Model.
End ScriptWizard.

Module ScriptWizardFacts.
Import ScriptWizard.

(** ** Timings *)

(** ["M:SS"] as [analyzeTimings] writes it. *)
Definition timing_string (m s : Z) : string := int_to_string m ++ ":" ++ padStart 2 "0" (int_to_string s).

(** [analyzeTimings] in integers: the minutes are the word count divided
    by 150, the seconds the remainder times 0.4 rounded half up, which is
    [(4 r + 5) / 10]. *)
Lemma timing_of_count_eq wc :
  estimatedDuration (timing_of_count wc) =
  timing_string (Z.of_nat wc / 150) ((4 * (Z.of_nat wc mod 150) + 5) / 10).
Proof.
  unfold timing_of_count, timing_string, round_half_up. cbn [estimatedDuration].
  assert (Hm : Qfloor (inject_Z (Z.of_nat wc) / wordsPerMinute) = (Z.of_nat wc / 150)%Z).
  { unfold Qfloor, Qdiv, Qmult, inject_Z, wordsPerMinute. cbn. by rewrite Z.mul_1_r. }
  rewrite Hm. do 3 f_equal.
  rewrite <- (Qfloor_inject_Z ((4 * (Z.of_nat wc mod 150) + 5) / 10)). f_equal.
  pose proof (Z.div_mod (Z.of_nat wc) 150 ltac:(lia)) as Hdm.
  set (W := Z.of_nat wc) in *. set (m := (W / 150)%Z) in *. set (r := (W mod 150)%Z) in *.
  transitivity (Qfloor ((4 * r + 5) # 10)).
  - apply Qfloor_comp. unfold Qeq. cbn. lia.
  - by rewrite Qfloor_inject_Z.
Qed.

Lemma timing_seconds_range wc :
  let s := ((4 * (Z.of_nat wc mod 150) + 5) / 10)%Z in
  (0 <= s <= 60 /\ (s = 60 <-> Z.of_nat wc mod 150 = 149))%Z.
Proof.
  cbn zeta. pose proof (Z.mod_pos_bound (Z.of_nat wc) 150 ltac:(lia)) as Hr.
  generalize dependent (Z.of_nat wc mod 150)%Z. intros r Hr.
  pose proof (Z.div_mod (4 * r + 5) 10 ltac:(lia)). pose proof (Z.mod_pos_bound (4 * r + 5) 10 ltac:(lia)).
  split; [|split]; intros; lia.
Qed.

(** What ffmpeg and [parseFloat] read in ["M:SS"], for every minute
    below 60 and second up to 60, checked by evaluation: ffmpeg reads
    [60 M + SS] and rejects [SS = 60]; [parseFloat] reads [M]. *)
Definition Zrange (n : nat) : list Z := map Z.of_nat (seq 0 n).

Definition timing_reads (m s : Z) : bool :=
  (match ff_parse_time (timing_string m s) with
   | JNum q => negb (Z.eqb s 60) && Qeq_bool q (inject_Z (60 * m + s))
   | JNaN => Z.eqb s 60
   | JInf _ => false
   end) &&
  (match parse_float_string (timing_string m s) with JNum q => Qeq_bool q (inject_Z m) | _ => false end).

Lemma timing_table : forallb (fun m => forallb (timing_reads m) (Zrange 61)) (Zrange 60) = true.
Proof. vm_compute. reflexivity. Qed.

Lemma timing_reads_true m s : (0 <= m < 60)%Z -> (0 <= s <= 60)%Z -> timing_reads m s = true.
Proof.
  intros Hm Hs. pose proof timing_table as H. rewrite forallb_forall in H.
  assert (Hin : forall k n, (0 <= k < Z.of_nat n)%Z -> In k (Zrange n)).
  { intros k n Hk. unfold Zrange. apply in_map_iff. exists (Z.to_nat k). split; [lia|]. apply in_seq. lia. }
  specialize (H m (Hin m 60%nat ltac:(lia))). rewrite forallb_forall in H. apply H, Hin. lia.
Qed.

Lemma ff_parse_timing m s :
  (0 <= m < 60)%Z -> (0 <= s <= 60)%Z ->
  (s = 60%Z -> ff_parse_time (timing_string m s) = JNaN) /\
  (s <> 60%Z -> exists q, ff_parse_time (timing_string m s) = JNum q /\ q == inject_Z (60 * m + s)).
Proof.
  intros Hm Hs. pose proof (timing_reads_true m s Hm Hs) as H. unfold timing_reads in H.
  apply andb_true_iff in H as [H _].
  destruct (ff_parse_time (timing_string m s)) as [q| |]; [|split; intros Hs'; [done|]..|done].
  - apply andb_true_iff in H as [H1 H2]. split; intros Hs'; [subst; done|].
    exists q. split; [done|]. by apply Qeq_bool_iff.
  - apply Z.eqb_eq in H. done.
Qed.

Lemma parse_float_timing m s :
  (0 <= m < 60)%Z -> (0 <= s <= 60)%Z ->
  exists q, parse_float_string (timing_string m s) = JNum q /\ q == inject_Z m.
Proof.
  intros Hm Hs. pose proof (timing_reads_true m s Hm Hs) as H. unfold timing_reads in H.
  apply andb_true_iff in H as [_ H]. destruct (parse_float_string _) as [q| |]; [|done|done].
  exists q. split; [done|]. by apply Qeq_bool_iff.
Qed.

(** C21: the [estimatedDuration] of [analyzeTimings], as ffmpeg reads it
    for a [-t] value: for a text of fewer than 9000 words (an hour at 150
    words a minute), the speaking time of its words rounded to the
    nearest second, except when the word count is 149 modulo 150, where
    the seconds are rounded up to ["60"] and ffmpeg rejects the value. *)
Theorem analyzeTimings_ffmpeg text :
  let wc := List.length (word_tokens text) in (Z.of_nat wc < 9000)%Z ->
  ((Z.of_nat wc mod 150 = 149)%Z -> ff_parse_time (estimatedDuration (analyzeTimings text)) = JNaN) /\
  ((Z.of_nat wc mod 150 <> 149)%Z ->
   exists q, ff_parse_time (estimatedDuration (analyzeTimings text)) = JNum q /\
             Qabs (q - inject_Z (Z.of_nat wc) * (2 # 5)) <= 1 # 2).
Proof.
  cbn zeta. intros Hwc. unfold analyzeTimings. rewrite timing_of_count_eq.
  destruct (timing_seconds_range (List.length (word_tokens text))) as [Hs Hs60].
  set (W := Z.of_nat (List.length (word_tokens text))) in *.
  assert (Hm : (0 <= W / 150 < 60)%Z) by (split; [apply Z.div_pos|apply Z.div_lt_upper_bound]; lia).
  destruct (ff_parse_timing _ _ Hm Hs) as [Hnan Hnum]. split; [intros Hr; apply Hnan, Hs60, Hr|].
  intros Hr. destruct (Hnum ltac:(intros He; apply Hr, Hs60, He)) as (q & Hq & Hqe). exists q. split; [done|].
  pose proof (Z.div_mod W 150 ltac:(lia)). pose proof (Z.mod_pos_bound W 150 ltac:(lia)).
  pose proof (Z.div_mod (4 * (W mod 150) + 5) 10 ltac:(lia)).
  pose proof (Z.mod_pos_bound (4 * (W mod 150) + 5) 10 ltac:(lia)).
  apply Qabs_Qle_condition. rewrite Hqe. unfold Qle, Qminus, Qplus, Qmult, Qopp, inject_Z. cbn. lia.
Qed.

(** ** Search queries *)

Lemma set_add_elem x y l : y ∈ set_add x l <-> y = x \/ y ∈ l.
Proof.
  unfold set_add. destruct (existsb (String.eqb x) l) eqn:He.
  - apply existsb_exists in He as (z & Hz & Hxz). apply String.eqb_eq in Hxz as <-.
    apply list_elem_of_In in Hz. split; [by right|]. by intros [->|].
  - rewrite elem_of_app, list_elem_of_singleton. tauto.
Qed.

Lemma set_add_NoDup x l : NoDup l -> NoDup (set_add x l).
Proof.
  unfold set_add. intros Hl. destruct (existsb (String.eqb x) l) eqn:He; [done|].
  apply NoDup_app. split_and!; [done| |by apply NoDup_singleton].
  intros y Hy ->%list_elem_of_singleton. apply not_true_iff_false in He. apply He, existsb_exists.
  exists x. split; [by apply list_elem_of_In | apply String.eqb_refl].
Qed.

Lemma set_add_head x y l : head l = Some y -> head (set_add x l) = Some y.
Proof. unfold set_add. destruct l; [done|]. case_match; done. Qed.

(** Adding the elements of [xs] one by one. *)
Lemma fold_set_add xs l :
  NoDup l -> NoDup (fold_left (fun q k => set_add k q) xs l) /\
  (forall y, y ∈ fold_left (fun q k => set_add k q) xs l <-> y ∈ l \/ y ∈ xs) /\
  (forall z, head l = Some z -> head (fold_left (fun q k => set_add k q) xs l) = Some z).
Proof.
  revert l. induction xs as [|x xs IH]; intros l Hl; cbn [fold_left].
  - split_and!; [done| |done]. intros y. rewrite elem_of_nil. tauto.
  - destruct (IH (set_add x l) (set_add_NoDup _ _ Hl)) as (Hn & Hin & Hh). split_and!; [done| |].
    + intros y. rewrite Hin, set_add_elem, elem_of_cons. tauto.
    + intros z Hz. by apply Hh, set_add_head.
Qed.

(** The pairs of the nested loop are the [ks[i] ks[j]] with [i < j]. *)
Lemma keyword_pairs_elem ks x :
  x ∈ keyword_pairs ks <-> exists i j a b, (i < j)%nat /\ ks !! i = Some a /\ ks !! j = Some b /\ x = a ++ " " ++ b.
Proof.
  induction ks as [|k ks IH]; cbn [keyword_pairs].
  - rewrite elem_of_nil. split; [done|]. intros (i & j & a & b & _ & Ha & _). by rewrite lookup_nil in Ha.
  - rewrite elem_of_app, IH, list_elem_of_fmap. split.
    + intros [(k' & -> & Hk')|(i & j & a & b & Hij & Ha & Hb & ->)].
      * apply list_elem_of_lookup_1 in Hk' as [j Hj]. exists 0%nat, (S j), k, k'. split_and!; [lia|done|done|done].
      * exists (S i), (S j), a, b. split_and!; [lia|done|done|done].
    + intros (i & j & a & b & Hij & Ha & Hb & ->). destruct i as [|i]; destruct j as [|j]; [lia| | lia |].
      * left. cbn in Ha, Hb. injection Ha as ->. exists b. split; [done|]. by eapply list_elem_of_lookup_2.
      * right. exists i, j, a, b. split_and!; [lia|done|done|done].
Qed.

(** C22: [_generateSearchQueries(keywords, description)] lists each query
    once, starts with the description, and its queries are exactly the
    description, the keywords and the two-keyword combinations
    [keywords[i] keywords[j]] with [i < j]. *)
Theorem generateSearchQueries_spec ks d :
  let q := _generateSearchQueries ks d in
  NoDup q /\ head q = Some d /\
  (forall x, x ∈ q <-> x = d \/ x ∈ ks \/
     exists i j a b, (i < j)%nat /\ ks !! i = Some a /\ ks !! j = Some b /\ x = a ++ " " ++ b).
Proof.
  cbn zeta. unfold _generateSearchQueries.
  assert (H0 : NoDup (set_add d [])) by (apply set_add_NoDup, NoDup_nil_2).
  destruct (fold_set_add ks _ H0) as (Hn1 & Hin1 & Hh1).
  destruct (fold_set_add (keyword_pairs ks) _ Hn1) as (Hn2 & Hin2 & Hh2).
  split_and!; [done | by apply Hh2, Hh1 |].
  intros x. rewrite Hin2, Hin1, set_add_elem, elem_of_nil, keyword_pairs_elem. tauto.
Qed.

(** ** Keywords *)

(** A character of a keyword: a lower-case letter, a digit or [_]. *)
Definition lower_word_char (c : ascii) : bool := is_word_char c && negb (in_range 65 90 c).

(** [_extractSearchKeywords] gives at most three keywords, each of
    at least three characters, all of them lower-case letters, digits or
    underscores. *)
Theorem extractSearchKeywords_shape d :
  (List.length (_extractSearchKeywords d) <= 3)%nat /\
  Forall (fun k => (3 <= String.length k)%nat /\ str_forall lower_word_char k = true) (_extractSearchKeywords d).
Proof.
  unfold _extractSearchKeywords. split; [apply firstn_le_length|].
  pose proof (split_runs_from_forall js_is_space _ false _ (js_to_lower_forall d)) as Hw.
  apply Forall_take. rewrite Forall_forall in Hw |- *.
  intros k [Hlen Hk%list_elem_of_In]%list_elem_of_filter. split; [lia|].
  apply in_map_iff in Hk as (w & <- & Hw'). apply filter_In in Hw' as [Hw' _].
  eapply str_forall_impl; [|apply filter_chars_forall, (Hw w); by apply list_elem_of_In].
  intros c. unfold lower_word_char. destruct (is_word_char c), (js_is_space c), (in_range 65 90 c); done.
Qed.

(** ** Scenes *)

Lemma media_type_tail_type s t n : media_type_tail s = Some (t, n) -> t = "video" \/ t = "image".
Proof. unfold media_type_tail. repeat case_match; intros; simplify_eq; auto. Qed.

Lemma lazy_description_type s d t n : lazy_description s = Some (d, t, n) -> t = "video" \/ t = "image".
Proof.
  revert d t n. induction s as [|c r IH]; intros d t n; cbn; [done|].
  repeat case_match; intros; simplify_eq; eauto using media_type_tail_type.
Qed.

Lemma scene_matcher_type prev s d t c n :
  scene_matcher prev s = Some ((d, t, c), n) -> t = "video" \/ t = "image".
Proof.
  unfold scene_matcher. repeat case_match; intros; simplify_eq; by eapply lazy_description_type.
Qed.

(** What [parseScenes] promises of each scene it keeps. *)
Definition scene_ok (w : wscene) : Prop :=
  ws_text w <> "" /\ (ws_mediaType w = "video" \/ ws_mediaType w = "image") /\
  ws_duration w = analyzeTimings (ws_text w) /\
  ws_searchKeywords w = _extractSearchKeywords (ws_visualDescription w) /\ ws_searchQueries w = None.

Lemma parse_step_ok scenes g :
  (g.1.2 = "video" \/ g.1.2 = "image") ->
  map ws_sceneNumber scenes = seq 1 (List.length scenes) -> Forall scene_ok scenes ->
  map ws_sceneNumber (parse_step scenes g) = seq 1 (List.length (parse_step scenes g)) /\
  Forall scene_ok (parse_step scenes g).
Proof.
  destruct g as [[g1 g2] content]. cbn [fst snd]. intros Ht Hn Hok. unfold parse_step.
  destruct (String.eqb (_cleanSceneText content) "") eqn:He; [done|].
  rewrite length_app, map_app, Hn. cbn [map List.length]. rewrite seq_app. split.
  - cbn. do 2 f_equal. lia.
  - apply Forall_app. split; [done|]. constructor; [|constructor].
    split_and!; cbn; [by apply String.eqb_neq | by destruct Ht as [->| ->]; [left|right] | done..].
Qed.

Lemma fold_parse_step_ok gs scenes :
  Forall (fun g => g.1.2 = "video" \/ g.1.2 = "image") gs ->
  map ws_sceneNumber scenes = seq 1 (List.length scenes) -> Forall scene_ok scenes ->
  map ws_sceneNumber (fold_left parse_step gs scenes) = seq 1 (List.length (fold_left parse_step gs scenes)) /\
  Forall scene_ok (fold_left parse_step gs scenes).
Proof.
  intros Hg. revert scenes. induction Hg as [|g gs Hg _ IH]; intros scenes Hn Hok; [done|].
  cbn [fold_left]. destruct (parse_step_ok scenes g Hg Hn Hok). by apply IH.
Qed.

(** C23: [parseScenes] numbers the scenes it keeps 1, 2, ..., n in
    order; each has a non-empty cleaned text timed by [analyzeTimings],
    a media type ["video"] or ["image"], and the keywords of its visual
    description. *)
Theorem parseScenes_wellformed text :
  map ws_sceneNumber (parseScenes text) = seq 1 (List.length (parseScenes text)) /\
  Forall scene_ok (parseScenes text).
Proof.
  unfold parseScenes.
  assert (Hg : Forall (fun g => g.1.2 = "video" \/ g.1.2 = "image") (match_all scene_matcher text)).
  { apply Forall_forall. intros [[d t] c] Hin. destruct (match_all_sound _ _ _ Hin) as (prev & s' & n & Hm).
    by eapply scene_matcher_type. }
  apply fold_parse_step_ok; [exact Hg | done | constructor].
Qed.

(** ** Cleaned narration *)

(** What [s.replace(/\s+/g, ' ')] gives, read left to right: [in_ws]
    says whether a run of white space is under way. *)
Fixpoint collapse_ws_from (in_ws : bool) (s : string) : string :=
  match s with
  | EmptyString => EmptyString
  | String c r =>
      if js_is_space c then (if in_ws then collapse_ws_from true r else String " " (collapse_ws_from true r))
      else String c (collapse_ws_from false r)
  end.

Lemma collapse_true_skip r : collapse_ws_from true r = collapse_ws_from false (str_drop (count_while js_is_space r) r).
Proof.
  induction r as [|c r IH]; [done|]. cbn [collapse_ws_from count_while].
  destruct (js_is_space c) eqn:Hc; cbn [str_drop collapse_ws_from]; [exact IH | by rewrite Hc].
Qed.

Lemma replace_ws_collapse s : replace_all ws_run_matcher (fun _ => " ") s = collapse_ws_from false s.
Proof.
  unfold replace_all. generalize (@None ascii). remember (String.length s) as n eqn:Hn.
  assert (Hle : (String.length s <= n)%nat) by lia. clear Hn. revert s Hle.
  induction n as [|n IH]; intros [|c r] Hle prev; cbn [String.length] in Hle; [done | lia | done |].
  cbn [scan collapse_ws_from]. unfold ws_run_matcher at 1. cbn [count_while].
  destruct (js_is_space c) eqn:Hc; cbn [fold_right Nat.ltb Nat.leb].
  - rewrite Nat.sub_succ, Nat.sub_0_r, scan_skip. cbn [fold_right]. change (" " ++ ?x)%string with (String " " x).
    rewrite collapse_true_skip, IH; [done|]. pose proof (str_drop_length (count_while js_is_space r) r). lia.
  - rewrite IH; [done | lia].
Qed.

(** [collapse] leaves only spaces, never two in a row, and none at the
    start after a run. *)
Lemma collapse_ws_shape in_ws s :
  str_forall (fun c => negb (js_is_space c) || is_char c " ") (collapse_ws_from in_ws s) = true /\
  no_ws_pair (collapse_ws_from in_ws s) = true /\
  (in_ws = true -> not_ws_head (head_char (collapse_ws_from in_ws s)) = true).
Proof.
  revert in_ws. induction s as [|c r IH]; intros in_ws; [done|]. cbn [collapse_ws_from].
  destruct (IH true) as (Hf1 & Hn1 & Hh1). destruct (IH false) as (Hf0 & Hn0 & _).
  destruct (js_is_space c) eqn:Hc; [destruct in_ws|].
  - split_and!; auto.
  - split_and!; [| |by intros].
    + cbn [str_forall]. by rewrite Hf1.
    + change (String " " ?x) with (String " " EmptyString ++ x)%string. rewrite no_ws_pair_app, Hn1.
      specialize (Hh1 eq_refl). destruct (head_char (collapse_ws_from true r)); cbn in Hh1 |- *; [|done].
      apply negb_true_iff in Hh1. by rewrite Hh1.
  - split_and!; [cbn [str_forall]; by rewrite Hc, Hf0 | | intros; cbn [head_char not_ws_head]; by rewrite Hc].
    change (String c ?x) with (String c EmptyString ++ x)%string. rewrite no_ws_pair_app, Hn0.
    cbn [last_char ws_opt no_ws_pair]. by rewrite Hc.
Qed.

(** C24: the cleaned narration of a scene is normalised: its only white
    space is single spaces, never at its start or end. *)
Theorem cleanSceneText_normal x :
  let t := _cleanSceneText x in
  str_forall (fun c => negb (js_is_space c) || is_char c " ") t = true /\ no_ws_pair t = true /\
  not_ws_head (head_char t) = true /\ not_ws_head (last_char t) = true.
Proof.
  cbn zeta. unfold _cleanSceneText. rewrite replace_ws_collapse.
  generalize (replace_all bullet_matcher (fun _ => "") (remove_all "[Pause]" (remove_all "Narrator:"
    (replace_all narrator_tone_matcher (fun _ => "") (replace_all bracket_matcher (fun _ => "") x))))).
  intros y. destruct (collapse_ws_shape false y) as (Hf & Hn & _).
  destruct (trim_ends (collapse_ws_from false y)) as [Hh Hl].
  split_and!; [by apply trim_forall | by apply trim_no_ws_pair | done | done].
Qed.

(** The format the system prompt asks for does not survive
    [parseScenes]: parsing the prompt's own example yields one scene whose
    narration text starts with the [[KEYWORDS]] list (only the bracketed
    tag is removed), so the keywords are read aloud by the narration. *)
Example system_prompt_example_text :
  map ws_text (parseScenes (_constructSystemPrompt (VStr "professional") (VStr "friendly")
                              (VStr "2 minutes") (VStr "video script") (VNum (JNum 3)))) =
  [": corporate office interior, natural lighting, business professionals working, modern workspace, wide office shot, professional environment Script text here..."].
Proof. vm_compute. reflexivity. Qed.

(** The stop-word filter of [_extractSearchKeywords] runs before the
    punctuation is stripped, so a stop word followed by punctuation
    (["the."]) survives as a keyword. *)
Example extractSearchKeywords_stop_word :
  _extractSearchKeywords "A cup of coffee, the. ocean" = ["cup"; "coffee"; "the"].
Proof. vm_compute. reflexivity. Qed.
End ScriptWizardFacts.
