(* ===== verification/Stock.v ===== *)
(** * Stock media: what the Pixabay and Pexels controllers share

    Both controllers turn a scene of the wizard into a downloaded file:
    [getMediaForScene] searches the stock site, [downloadMedia] fetches
    the chosen file into [temp/] under a name made of [Date.now()], and
    [processScenes] (the same code in both) does this for every scene in
    order, skipping a scene whose search or download fails.  The
    interface [MediaProvider] states the two operations; [processScenes]
    and its laws are written against it.

    The controllers run with the file world of the renderer and a clock
    ([Date.now()], in milliseconds); the web services are parameters of
    each controller. *)

From S2P Require Import Prelude NumberFacts Text Media Wizard.
From Stdlib Require Import Ascii.
Local Open Scope string_scope.
Local Open Scope js_scope.

Module StockMedia.
Import ScriptWizard.

(** The state of a media controller: the files and the clock. *)
Record sworld : Type := mkSW { sw_world : world; sw_clock : Z }.

Abbreviation SM := (St sworld).

(** A step of the file world, run by a media controller. *)
Definition lift_w {A} (m : M A) : SM A :=
  fun s => let '(w', r) := m (sw_world s) in (mkSW w' (sw_clock s), r).

(** [Date.now()] *)
Definition date_now : SM Z := fun s => (s, Ok (sw_clock s)).

(** Time spent waiting for a request. *)
Definition elapse (ms : Z) : SM unit := mmodify (fun s => mkSW (sw_world s) (sw_clock s + ms)).

(** [this.targetDimensions] *)
Definition target_width : jsnum := JNum 1920.
Definition target_height : jsnum := JNum 1080.

(** The object [searchImage] and [searchVideo] resolve with. *)
Record minfo : Type := mkInfo {
  mi_type : string;
  mi_url : jsval;
  mi_width : jsnum;
  mi_height : jsnum;
  mi_duration : jsval;       (** [undefined] for a picture *)
  mi_photographer : jsval;
  mi_user : jsval;
  mi_source : jsval;         (** [pixabayUrl] or [pexelsUrl] *)
  mi_aspectRatio : jsnum;
  mi_title : jsval
}.

(** [metadata] of a downloaded file. *)
Record metadata : Type := mkMeta {
  md_width : jsnum; md_height : jsnum; md_duration : jsval; md_source : jsval; md_creator : jsval
}.

(** What [downloadMedia] resolves with. *)
Record downloaded : Type := mkDownloaded { dl_path : string; dl_type : string; dl_metadata : metadata }.

(** An element of [mediaFiles]: [{ ...downloadedMedia, sceneNumber, duration }]. *)
Record media_file : Type := mkMediaFile {
  mf_path : string; mf_type : string; mf_metadata : metadata; mf_sceneNumber : nat; mf_duration : jsval
}.

(** [mediaInfo.type === 'video' ? 'mp4' : 'jpg'] *)
Definition file_ext (t : string) : string := if String.eqb t "video" then "mp4" else "jpg".

(** [path.join(this.tempDir, `${mediaInfo.type}_${Date.now()}.${fileExt}`)] *)
Definition download_path (tempDir : string) (t : string) (now : Z) : string :=
  path_join tempDir (t ++ "_" ++ int_to_string now ++ "." ++ file_ext t).

(** [fs.promises.unlink(p)] *)
Definition unlink (p : string) : M unit :=
  fun w => match w_files w !! p with
           | Some _ => (set_files w (delete p (w_files w)), Ok tt)
           | None => (w, Throw (ErrENOENT p))
           end.

(** [p] lies in the directory [dir]. *)
Definition under (dir p : string) : bool := String.prefix (dir ++ "/") p.

(** [fs.promises.rmdir(dir, { recursive: true })]: the directory and all
    it holds go. *)
Definition rmdir_recursive (dir : string) : M unit :=
  mmodify (fun w => set_files w (filter (fun kv => under dir kv.1 = false) (w_files w))).

(** The answer to the download request of [downloadMedia]. *)
Record file_response : Type := mkFResp { fr_ok : bool; fr_statusText : string; fr_body : file }.

(** ** The network

    A request to [url] takes [latency url] milliseconds of the clock and
    answers what [answer url] says: a rejection when the request fails,
    [Hang] when the server never answers. *)
Definition net_fetch {A} (latency : string -> Z) (answer : string -> res A) (url : string) : SM A :=
  elapse (latency url) ;;; lift_res (answer url).

(** A request with node-fetch's [timeout] option: when the answer does
    not come within [timeout] milliseconds the request rejects with
    node-fetch's [FetchError]. *)
Definition net_fetch_timeout {A} (timeout : Z) (latency : string -> Z) (answer : string -> res A) (url : string)
  : SM A :=
  match answer url with
  | Hang => elapse timeout ;;; mthrow (ErrMessage ("network timeout at: " ++ url))
  | _ => if (timeout <? latency url)%Z then elapse timeout ;;; mthrow (ErrMessage ("network timeout at: " ++ url))
         else net_fetch latency answer url
  end.

Section Download.
Variables (tempDir : string) (latency : string -> Z) (fetch_file : string -> res file_response).
(** [mediaInfo.photographer || mediaInfo.user] in Pixabay,
    [mediaInfo.photographer || mediaInfo.user?.name] in Pexels. *)
Variable creator_of : minfo -> jsval.

(** [async downloadMedia(mediaInfo)]: the name is taken from the clock
    before the request; [mkdir] of [temp] does not change the files. *)
Definition stock_downloadMedia (mediaInfo : minfo) : SM downloaded :=
  mcatch
    (now <- date_now ;;
     let filePath := download_path tempDir (mi_type mediaInfo) now in
     response <- net_fetch latency fetch_file (jsval_to_string (mi_url mediaInfo)) ;;
     if negb (fr_ok response) then mthrow (ErrMessage ("Failed to download: " ++ fr_statusText response))
     else lift_w (write_file filePath (fr_body response)) ;;;
          mret (mkDownloaded filePath (mi_type mediaInfo)
                  (mkMeta (mi_width mediaInfo) (mi_height mediaInfo) (mi_duration mediaInfo)
                          (mi_source mediaInfo) (creator_of mediaInfo))))
    (fun error => mthrow (ErrMessage ("Media download failed: " ++ error_message error))).

(** [fs.promises.unlink(file.path).catch(err => console.warn(...))] *)
Definition unlink_quietly (file : media_file) : M unit := mcatch (unlink (mf_path file)) (fun _ => mret tt).

(** [async cleanup(mediaFiles)]: every failure is only logged. *)
Definition stock_cleanup (mediaFiles : list media_file) : SM unit :=
  mcatch (lift_w (mmap unlink_quietly mediaFiles ;;;
                  mcatch (rmdir_recursive tempDir) (fun _ => mret tt)))
         (fun _ => mret tt).
End Download.

(** ** The interface of a stock-media controller

    What [processScenes] calls. *)
Class MediaProvider : Type := {
  provider_getMedia : wscene -> SM minfo;
  provider_download : minfo -> SM downloaded
}.

Section Process.
Context `{MediaProvider}.

(** The pushed object: the scene's estimated duration, or the one of the
    file when that is empty. *)
Definition scene_media_file (scene : wscene) (d : downloaded) : media_file :=
  mkMediaFile (dl_path d) (dl_type d) (dl_metadata d) (ws_sceneNumber scene)
    (let e := estimatedDuration (ws_duration scene) in
     if String.eqb e "" then md_duration (dl_metadata d) else VStr e).

(** The body of the loop: a failing scene is logged and skipped. *)
Definition process_one (scene : wscene) : SM (option media_file) :=
  mcatch (mediaInfo <- provider_getMedia scene ;;
          downloadedMedia <- provider_download mediaInfo ;;
          mret (Some (scene_media_file scene downloadedMedia)))
         (fun _ => mret None).

Fixpoint process_loop (scenes : list wscene) (mediaFiles : list media_file) : SM (list media_file) :=
  match scenes with
  | [] => mret mediaFiles
  | scene :: rest =>
      o <- process_one scene ;;
      process_loop rest (match o with Some f => mediaFiles ++ [f] | None => mediaFiles end)%list
  end.

(** [async processScenes(scenes)], the same code in both controllers. *)
Definition stock_processScenes (scenes : list wscene) : SM (list media_file) := process_loop scenes [].
End Process.
(** ** Steps whose answer does not depend on the state *)

Section Indep.
Context {S : Type}.

Definition indep {A} (m : St S A) : Prop := forall s1 s2, (m s1).2 = (m s2).2.

Lemma indep_ret {A} (a : A) : indep (mret a).
Proof. done. Qed.

Lemma indep_throw {A} e : indep (mthrow (A := A) e).
Proof. done. Qed.

Lemma indep_lift {A} (r : res A) : indep (lift_res r).
Proof. done. Qed.

Lemma indep_modify f : indep (mmodify f).
Proof. done. Qed.

Lemma indep_bind {A B} (m : St S A) (k : A -> St S B) : indep m -> (forall a, indep (k a)) -> indep (mbind m k).
Proof.
  intros Hm Hk s1 s2. specialize (Hm s1 s2). unfold mbind.
  destruct (m s1) as [s1' r1], (m s2) as [s2' r2]; cbn in Hm; subst. destruct r2; cbn; [apply Hk | done..].
Qed.

Lemma indep_catch {A} (m : St S A) (h : js_error -> St S A) : indep m -> (forall e, indep (h e)) -> indep (mcatch m h).
Proof.
  intros Hm Hh s1 s2. specialize (Hm s1 s2). unfold mcatch.
  destruct (m s1) as [s1' r1], (m s2) as [s2' r2]; cbn in Hm; subst. destruct r2; cbn; [done | apply Hh | done].
Qed.
End Indep.

Create HintDb indep.
#[export] Hint Resolve indep_ret indep_throw indep_lift indep_modify : indep.

(** Prove [indep] of a step built from the combinators. *)
Ltac indep_solve :=
  repeat first [ match goal with |- forall _, _ => intro end
               | apply indep_bind | apply indep_catch
               | solve [eauto with indep]
               | case_match
               | progress cbn beta iota ].

Lemma indep_net_fetch {A} latency (answer : string -> res A) url : indep (net_fetch latency answer url).
Proof. unfold net_fetch, elapse. indep_solve. Qed.

Lemma indep_net_fetch_timeout {A} timeout latency (answer : string -> res A) url :
  indep (net_fetch_timeout timeout latency answer url).
Proof. unfold net_fetch_timeout, elapse. indep_solve; apply indep_net_fetch. Qed.

#[export] Hint Resolve indep_net_fetch indep_net_fetch_timeout : indep.

(** The answer of such a step, read in any state. *)
Lemma indep_run {A} (m : SM A) s0 s : indep m -> exists s', m s = (s', (m s0).2).
Proof. intros Hm. exists (m s).1. rewrite (Hm s0 s). by destruct (m s). Qed.

(** ** Requests that settle *)

Lemma settles_elapse ms : settles (elapse ms).
Proof. apply settles_modify. done. Qed.

Lemma settles_net_fetch {A} latency (answer : string -> res A) url :
  answer url <> Hang -> settles (net_fetch latency answer url).
Proof.
  intros Hh. unfold net_fetch. eapply (settles_bind (fun _ => True)); [apply settles_elapse|].
  intros _ _. apply settles_lift. by destruct (answer url).
Qed.

(** A request with a timeout always settles. *)
Lemma settles_net_fetch_timeout {A} timeout latency (answer : string -> res A) url :
  settles (net_fetch_timeout timeout latency answer url).
Proof.
  unfold net_fetch_timeout. destruct (answer url) eqn:Ha; [case_match..|];
    first [apply settles_net_fetch; congruence | settle; apply settles_elapse].
Qed.

#[export] Hint Resolve settles_elapse settles_net_fetch_timeout : settles.

(** ** Steps that keep a relation between states, steps whose answers
    satisfy a predicate *)

Section Keeps.
Context {S : Type} (R : S -> S -> Prop) `{!PreOrder R}.

Definition keeps {A} (m : St S A) : Prop := forall s, R s (m s).1.

Lemma keeps_ret {A} (a : A) : keeps (mret a).
Proof. intros s. reflexivity. Qed.

Lemma keeps_throw {A} e : keeps (mthrow (A := A) e).
Proof. intros s. reflexivity. Qed.

Lemma keeps_lift {A} (r : res A) : keeps (lift_res r).
Proof. intros s. reflexivity. Qed.

Lemma keeps_bind {A B} (m : St S A) (k : A -> St S B) : keeps m -> (forall a, keeps (k a)) -> keeps (mbind m k).
Proof.
  intros Hm Hk s. specialize (Hm s). unfold mbind. destruct (m s) as [s' [a| |]]; cbn in *; [|done..].
  etrans; [exact Hm | apply Hk].
Qed.

Lemma keeps_catch {A} (m : St S A) (h : js_error -> St S A) : keeps m -> (forall e, keeps (h e)) -> keeps (mcatch m h).
Proof.
  intros Hm Hh s. specialize (Hm s). unfold mcatch. destruct (m s) as [s' [a|e|]]; cbn in *; [done| |done].
  etrans; [exact Hm | apply Hh].
Qed.

(** The answer of [m], when it resolves, satisfies [P]. *)
Definition answers {A} (P : A -> Prop) (m : St S A) : Prop :=
  forall s, match (m s).2 with Ok a => P a | _ => True end.

Lemma answers_ret {A} (P : A -> Prop) a : P a -> answers P (mret a).
Proof. intros Ha s. exact Ha. Qed.

Lemma answers_throw {A} (P : A -> Prop) e : answers P (mthrow e).
Proof. intros s. exact I. Qed.

Lemma answers_bind {A B} (P : B -> Prop) (m : St S A) (k : A -> St S B) :
  (forall a, answers P (k a)) -> answers P (mbind m k).
Proof. intros Hk s. unfold mbind. destruct (m s) as [s' [a| |]]; [apply Hk | exact I..]. Qed.

Lemma answers_catch {A} (P : A -> Prop) (m : St S A) (h : js_error -> St S A) :
  answers P m -> (forall e, answers P (h e)) -> answers P (mcatch m h).
Proof.
  intros Hm Hh s. specialize (Hm s). unfold mcatch. destruct (m s) as [s' [a|e|]]; [done | apply Hh | done].
Qed.
Lemma answers_bind_dep {A B} (Q : A -> Prop) (P : B -> Prop) (m : St S A) (k : A -> St S B) :
  answers Q m -> (forall a, Q a -> answers P (k a)) -> answers P (mbind m k).
Proof.
  intros Hm Hk s. specialize (Hm s). unfold mbind. destruct (m s) as [s' [a| |]]; [by apply Hk | exact I..].
Qed.
End Keeps.

(** The clock never goes back. *)
Definition clock_le (s1 s2 : sworld) : Prop := (sw_clock s1 <= sw_clock s2)%Z.

#[export] Instance clock_le_preorder : PreOrder clock_le.
Proof. split; intros ?; unfold clock_le; [lia | intros ???; lia]. Qed.

Lemma keeps_elapse ms : (0 <= ms)%Z -> keeps clock_le (elapse ms).
Proof. intros Hms s. unfold clock_le. cbn. lia. Qed.

Lemma keeps_lift_w {A} (m : M A) : keeps clock_le (lift_w m).
Proof. intros s. unfold lift_w, clock_le. by destruct (m (sw_world s)). Qed.

Lemma keeps_date_now : keeps clock_le date_now.
Proof. intros s. unfold clock_le. cbn. lia. Qed.

Create HintDb keeps.
#[export] Hint Resolve keeps_ret keeps_throw keeps_lift keeps_lift_w keeps_date_now answers_ret answers_throw : keeps.

(** Prove [keeps] or [answers] of a step built from the combinators. *)
Ltac keeps_solve :=
  repeat first [ match goal with |- forall _, _ => intro end
               | match goal with |- PreOrder _ => typeclasses eauto end
               | apply keeps_bind | apply keeps_catch | apply answers_bind | apply answers_catch
               | solve [eauto with keeps]
               | case_match
               | progress cbn beta iota ].

Lemma keeps_net_fetch {A} latency (answer : string -> res A) url :
  (0 <= latency url)%Z -> keeps clock_le (net_fetch latency answer url).
Proof. intros Hl. unfold net_fetch. keeps_solve. by apply keeps_elapse. Qed.

Lemma keeps_net_fetch_timeout {A} timeout latency (answer : string -> res A) url :
  (0 <= timeout)%Z -> (0 <= latency url)%Z -> keeps clock_le (net_fetch_timeout timeout latency answer url).
Proof. intros Ht Hl. unfold net_fetch_timeout. keeps_solve; first [by apply keeps_elapse | by apply keeps_net_fetch]. Qed.

(** ** What [processScenes] needs of a provider *)

(** A provider names its downloads by the clock: a search and a download
    never turn the clock back, a search gives a picture or a video, and a
    download saves under [temp/] a name made of a reading of the clock
    taken during the download. *)
Class MediaProviderLaws `{MediaProvider} (tempDir : string) : Prop := {
  getMedia_clock scene : keeps clock_le (provider_getMedia scene);
  getMedia_type scene : answers (fun m => mi_type m = "image" \/ mi_type m = "video") (provider_getMedia scene);
  download_clock m : keeps clock_le (provider_download m);
  download_named m s s' d : provider_download m s = (s', Ok d) ->
    exists now, dl_path d = download_path tempDir (mi_type m) now /\ (sw_clock s <= now < sw_clock s')%Z
}.

Lemma int_to_string_inj z1 z2 : int_to_string z1 = int_to_string z2 -> z1 = z2.
Proof.
  assert (Hd : forall z, decimal20 (inject_Z z) = true).
  { intros z. unfold decimal20. cbn [Qnum Qden inject_Z]. rewrite Z.mod_1_r. done. }
  intros H. pose proof (number_roundtrip _ (Hd z1)) as H1. pose proof (number_roundtrip _ (Hd z2)) as H2.
  unfold int_to_string in H. rewrite H in H1.
  destruct (parse_float_string _) as [x| |]; cbn in H1, H2; try done.
  apply inject_Z_injective. by rewrite <- H1, H2.
Qed.

(** Two downloads named at different readings of the clock have
    different paths. *)
Lemma download_path_inj dir t1 t2 n1 n2 :
  (t1 = "image" \/ t1 = "video") -> (t2 = "image" \/ t2 = "video") ->
  download_path dir t1 n1 = download_path dir t2 n2 -> n1 = n2.
Proof.
  unfold download_path, path_join. intros Ht1 Ht2 H. apply (inj (String.append dir)) in H.
  apply (inj (String.append "/")) in H.
  destruct Ht1 as [-> | ->], Ht2 as [-> | ->]; cbv [file_ext String.eqb] in H;
    first [ apply (inj (String.append "image_")) in H | apply (inj (String.append "video_")) in H
          | (cbv [String.append] in H; discriminate H) ];
    apply int_to_string_inj; eapply string_app_inv_r; exact H.
Qed.

Section ProcessLaws.
Context `{MediaProviderLaws}.

(** A file saved before the clock read [c]. *)
Definition named_before (c : Z) (f : media_file) : Prop :=
  exists t n, mf_path f = download_path tempDir t n /\ (t = "image" \/ t = "video") /\ (n < c)%Z.

Lemma process_one_spec scene s s1 o :
  process_one scene s = (s1, Ok o) ->
  clock_le s s1 /\
  match o with
  | Some f => mf_sceneNumber f = ws_sceneNumber scene /\ named_before (sw_clock s1) f /\
              forall g, named_before (sw_clock s) g -> mf_path g <> mf_path f
  | None => True
  end.
Proof.
  unfold process_one, mcatch, mbind. pose proof (getMedia_clock scene s) as Hc1.
  pose proof (getMedia_type scene s) as Ht.
  destruct (provider_getMedia scene s) as [s2 [m|e|]] eqn:Hg; cbn in Hc1, Ht; [|intros [= <- <-]; done|done].
  pose proof (download_clock m s2) as Hc2.
  destruct (provider_download m s2) as [s3 [d|e|]] eqn:Hd; cbn in Hc2; [|intros [= <- <-]; split; [by etrans|done]|done].
  intros [= <- <-]. destruct (download_named m s2 s3 d Hd) as (n & Hn & Hlo & Hhi).
  unfold clock_le in *. split; [lia|]. split; [done|]. split.
  - exists (mi_type m), n. cbn. split_and!; [done | done | lia].
  - intros g (t & n' & Hg' & Htg & Hlt) Heq. cbn in Heq. rewrite Hg', Hn in Heq.
    apply download_path_inj in Heq; [lia | done | done].
Qed.

Lemma named_before_mono c1 c2 f : (c1 <= c2)%Z -> named_before c1 f -> named_before c2 f.
Proof. intros Hc (t & n & ? & ? & ?). exists t, n. split_and!; [done | done | lia]. Qed.

(** The loop: the files it adds come from the scenes in order, and no
    two files share a path. *)
Lemma process_loop_spec scenes acc s s' files :
  process_loop scenes acc s = (s', Ok files) ->
  NoDup (map mf_path acc) -> Forall (named_before (sw_clock s)) acc ->
  exists fs, files = (acc ++ fs)%list /\ map mf_sceneNumber fs `sublist_of` map ws_sceneNumber scenes /\
    NoDup (map mf_path files) /\ Forall (named_before (sw_clock s')) files.
Proof.
  revert acc s. induction scenes as [|scene scenes IH]; intros acc s Hrun Hnd Hall.
  - cbn in Hrun. injection Hrun as <- <-. exists []. rewrite app_nil_r. split_and!; [done | constructor | done | done].
  - cbn [process_loop] in Hrun. unfold mbind at 1 in Hrun.
    destruct (process_one scene s) as [s1 [o| |]] eqn:Hp; [|done|done].
    destruct (process_one_spec scene s s1 o Hp) as [Hc Ho].
    assert (Hall1 : Forall (named_before (sw_clock s1)) acc).
    { eapply Forall_impl; [exact Hall|]. intros f. apply named_before_mono, Hc. }
    destruct o as [f|].
    + destruct Ho as (Hn & Hf & Hnew).
      destruct (IH _ _ Hrun) as (fs & -> & Hsub & Hnd' & Hall').
      * rewrite map_app. apply NoDup_app. split_and!; [done | | by apply NoDup_singleton].
        intros p Hp1 Hp2. cbn in Hp2. apply list_elem_of_singleton in Hp2 as ->.
        apply list_elem_of_In, in_map_iff in Hp1 as (g & Hgp & Hg). rewrite Forall_forall in Hall.
        eapply (Hnew g); [apply Hall; by apply list_elem_of_In | done].
      * apply Forall_app. split; [done|]. by constructor.
      * exists (f :: fs). rewrite <- app_assoc in Hnd', Hall' |- *. split_and!; [done | | done | done].
        cbn. rewrite Hn. by apply sublist_skip.
    + destruct (IH _ _ Hrun Hnd Hall1) as (fs & -> & Hsub & Hnd' & Hall').
      exists fs. split_and!; [done | | done | done]. by apply sublist_cons.
Qed.
End ProcessLaws.

(** ** The download *)

Section DownloadLaws.
Variables (tempDir : string) (latency : string -> Z) (fetch_file : string -> res file_response)
  (creator_of : minfo -> jsval).
Hypothesis latency_pos : forall url, (1 <= latency url)%Z.

Lemma download_keeps_clock m : keeps clock_le (stock_downloadMedia tempDir latency fetch_file creator_of m).
Proof.
  unfold stock_downloadMedia. keeps_solve. apply keeps_elapse. specialize (latency_pos (jsval_to_string (mi_url m))). lia.
Qed.

(** The name of a download is the clock read before its request, which
    takes at least a millisecond. *)
Lemma download_named_by_clock m s s' d :
  stock_downloadMedia tempDir latency fetch_file creator_of m s = (s', Ok d) ->
  exists now, dl_path d = download_path tempDir (mi_type m) now /\ (sw_clock s <= now < sw_clock s')%Z.
Proof.
  unfold stock_downloadMedia, net_fetch, elapse, lift_w, date_now.
  cbv [mcatch mbind mmodify lift_res mret mthrow]. cbn.
  specialize (latency_pos (jsval_to_string (mi_url m))).
  destruct (fetch_file _) as [r|e|]; [|done|done]. destruct (fr_ok r); cbn; [|done].
  intros [= <- <-]. exists (sw_clock s). cbn. split; [done | lia].
Qed.
End DownloadLaws.

(** ** [cleanup] *)

Lemma unlink_each_run (files : list media_file) (w : world) :
  exists w' u, mmap unlink_quietly files w = (w', Ok u) /\
    w_fresh w' = w_fresh w /\ w_warnings w' = w_warnings w /\
    forall p, w_files w' !! p = if bool_decide (p ∈ map mf_path files) then None else w_files w !! p.
Proof.
  revert w. induction files as [|f files IH]; intros w; cbn [mmap map].
  - exists w, []. split_and!; [done | done | done |]. intros p. by rewrite bool_decide_eq_false_2 by (by intros ?%elem_of_nil).
  - set (w1 := set_files w (delete (mf_path f) (w_files w))).
    assert (Hw1 : unlink_quietly f w = (w1, Ok tt)).
    { unfold unlink_quietly, mcatch, unlink, w1, mret. destruct (w_files w !! mf_path f) eqn:Hf; [done|].
      rewrite delete_id by done. by destruct w. }
    destruct (IH w1) as (w' & u & Hrun & Hfr & Hwa & Hp).
    exists w', (tt :: u). unfold mbind. rewrite Hw1, Hrun. split_and!; [done | done | done |].
    intros p. rewrite Hp. unfold w1. cbn [w_files set_files].
    destruct (decide (p = mf_path f)) as [->|Hne].
    + rewrite lookup_delete_eq, (bool_decide_eq_true_2 (_ ∈ _ :: _)) by set_solver. by case_bool_decide.
    + rewrite lookup_delete_ne by congruence.
      repeat case_bool_decide; set_solver.
Qed.

(** C30: [cleanup] always resolves; afterwards nothing is left under
    [temp/], the files it was given are gone, and every other file is
    untouched. *)
Theorem stock_cleanup_spec tempDir files s :
  exists s', stock_cleanup tempDir files s = (s', Ok tt) /\ sw_clock s' = sw_clock s /\
    forall p, w_files (sw_world s') !! p =
      if under tempDir p then None
      else if bool_decide (p ∈ map mf_path files) then None else w_files (sw_world s) !! p.
Proof.
  destruct (unlink_each_run files (sw_world s)) as (w' & u & Hrun & _ & _ & Hp).
  cbv [stock_cleanup lift_w mcatch mbind]. rewrite Hrun. cbn.
  eexists. split; [reflexivity|]. split; [done|]. intros p. cbn.
  rewrite map_lookup_filter, Hp. destruct (under tempDir p) eqn:Hu.
  - destruct (bool_decide _); [done|]. destruct (w_files (sw_world s) !! p); [|done]. cbn.
    rewrite option_guard_False; [done | unfold under in Hu; congruence].
  - destruct (bool_decide _); [done|]. destruct (w_files (sw_world s) !! p); cbn; [|done].
    by rewrite option_guard_True.
Qed.

End StockMedia.
