(* ===== verification/Pixabay.v ===== *)
(** * The Pixabay controller ([controllers/pixabay.controller.js])

    [PixabayController] turns the visual description of a scene into
    search queries ([_extractKeyPhrases], [_truncateQuery],
    [_generateSearchQueries]), asks the image or video endpoint for each
    query ([searchImage], [searchVideo]), scores every answer
    ([_calculateMatchScore]) and keeps the best ([getMediaForScene]),
    then downloads it ([downloadMedia], shared with Pexels in Stock.v).

    The web service is a record of answers indexed by the request URL
    ([pixabay_env]); numbers of the JSON answers are rationals (JSON has
    no NaN or infinity). *)

From S2P Require Import Prelude Text Media Wizard Stock.
From Stdlib Require Import Ascii.
Local Open Scope string_scope.
Local Open Scope js_scope.

Module Pixabay.
Import ScriptWizard StockMedia.

(** [this.baseUrl], [this.maxQueryLength] *)
Definition baseUrl : string := "https://pixabay.com/api".
Definition maxQueryLength : nat := 100.

(** ** Queries *)

Definition pixabay_stop_words : list string :=
  ["a"; "an"; "the"; "and"; "or"; "but"; "in"; "on"; "at"; "to"; "for"; "with";
   "background"; "setting"; "scene"; "showing"; "featuring"; "displays"; "contains"].

(** [/[,.;]/] *)
Definition is_phrase_sep (c : ascii) : bool := is_char c "," || is_char c "." || is_char c ";".

(** The key term of one phrase: its first three significant words. *)
Definition phrase_terms (phrase : string) : string :=
  js_join " " (firstn 3 (filter (fun word => (2 < String.length word)%nat)
                          (filter (fun word => is_stop_word pixabay_stop_words word = false)
                                  (split_ws phrase)))).

(** [_extractKeyPhrases(description)] *)
Definition _extractKeyPhrases (description : string) : list string :=
  let phrases := filter (fun phrase => (0 < String.length phrase)%nat)
                   (map trim (split_chars is_phrase_sep (js_to_lower description))) in
  filter (fun term => (0 < String.length term)%nat) (map phrase_terms phrases).

(** [query.split(' ')] *)
Definition split_space (s : string) : list string := split_chars (fun c => is_char c " ") s.

(** [_truncateQuery(query)]: a long query is cut at 100 characters and
    loses what follows the last space of the cut. *)
Definition _truncateQuery (query : string) : string :=
  if (String.length query <=? maxQueryLength)%nat then query
  else js_join " " (removelast (split_space (str_take maxQueryLength query))).

(** [queries.add(this._truncateQuery(x))] under [if (truncated)]. *)
Definition add_truncated (queries : list string) (x : string) : list string :=
  let t := _truncateQuery x in if String.eqb t "" then queries else set_add t queries.

(** The words of more than three characters, the first three. *)
Definition basic_terms (visualDescription : string) : string :=
  js_join " " (firstn 3 (filter (fun word => (3 < String.length word)%nat)
                          (split_ws (js_to_lower visualDescription)))).

(** [_generateSearchQueries(scene)]; a [Set] is a list without
    duplicates in insertion order. *)
Definition pixabay_generateSearchQueries (scene : wscene) : list string :=
  let vd := ws_visualDescription scene in
  if String.eqb vd "" then ["nature"] else
  let keyPhrases := _extractKeyPhrases vd in
  let queries := fold_left add_truncated keyPhrases [] in
  let queries := fold_left add_truncated (ws_searchKeywords scene) queries in
  let queries :=
    match keyPhrases with
    | p :: _ =>
        let mainTerms := js_join " " (firstn 3 (split_space p)) in
        if String.eqb mainTerms "" then queries else set_add (_truncateQuery mainTerms) queries
    | [] => queries
    end in
  match queries with
  | [] => [_truncateQuery (basic_terms vd)]
  | _ => queries
  end.

(** ** The answers of the service *)

(** An element of [data.hits] of the image endpoint. *)
Record photo : Type := mkPhoto {
  p_imageWidth : Q; p_imageHeight : Q; p_largeImageURL : jsval; p_user : jsval; p_pageURL : jsval
}.

(** [video.videos.large] *)
Record vfile : Type := mkVFile { vf_url : jsval; vf_width : Q; vf_height : Q }.

(** An element of [data.hits] of the video endpoint ([vh_large = None]:
    the hit has no [large] rendition). *)
Record vhit : Type := mkVHit {
  vh_large : option vfile; vh_duration : jsval; vh_user : jsval; vh_pageURL : jsval; vh_tags : jsval
}.

(** The answer of the video endpoint: [response.ok], [response.status],
    the [content-type] header and [data.hits]. *)
Record video_response : Type := mkVResp {
  vr_ok : bool; vr_status : Z; vr_contentType : option string; vr_hits : option (list vhit)
}.

(** The environment of a controller: the key, the working directory and
    what the service answers ([data.hits] of the image endpoint). *)
Record pixabay_env : Type := mkPixabayEnv {
  px_apiKey : string;
  px_cwd : string;
  px_latency : string -> Z;
  px_images : string -> res (option (list photo));
  px_videos : string -> res video_response;
  px_files : string -> res file_response
}.

Section Controller.
Variable env : pixabay_env.

(** [this.tempDir] *)
Definition px_tempDir : string := path_join (px_cwd env) "temp".

Definition image_url (query : string) : string :=
  baseUrl ++ "/?key=" ++ px_apiKey env ++ "&q=" ++ encodeURIComponent query ++
  "&per_page=30&orientation=horizontal&min_width=1920&min_height=1080".

Definition video_url (query : string) : string :=
  baseUrl ++ "/videos/?key=" ++ px_apiKey env ++ "&q=" ++ encodeURIComponent query ++
  "&per_page=15&orientation=horizontal".

(** [targetRatio]: [1920 / 1080]. *)
Definition target_ratio : jsnum := js_div target_width target_height.

(** The filter of [searchImage]. *)
Definition suitable_photo (p : photo) : bool :=
  let photoRatio := js_div (JNum (p_imageWidth p)) (JNum (p_imageHeight p)) in
  let ratioDifference := js_abs (js_sub target_ratio photoRatio) in
  let isHDQuality := Qle_bool 1920 (p_imageWidth p) && Qle_bool 1080 (p_imageHeight p) in
  js_lt ratioDifference (JNum (1 # 10)) && isHDQuality.

(** [data.hits.reduce((best, current) => current.imageWidth > best.imageWidth ? current : best, data.hits[0])] *)
Definition widest_photo (first : photo) (hits : list photo) : photo :=
  fold_left (fun best current => if Qlt_bool (p_imageWidth best) (p_imageWidth current) then current else best)
    hits first.

(** The photo [searchImage] takes from a non-empty list of hits. *)
Definition select_photo (first : photo) (hits : list photo) : photo :=
  match List.filter suitable_photo hits with
  | p :: _ => p
  | [] => widest_photo first hits
  end.

Definition photo_info (photo : photo) : minfo :=
  mkInfo "image" (p_largeImageURL photo) (JNum (p_imageWidth photo)) (JNum (p_imageHeight photo))
    VUndefined (p_user photo) VUndefined (p_pageURL photo)
    (js_div (JNum (p_imageWidth photo)) (JNum (p_imageHeight photo))) VUndefined.

(** [async searchImage(query)] *)
Definition searchImage (query : string) : SM minfo :=
  mcatch
    (hits <- net_fetch (px_latency env) (px_images env) (image_url query) ;;
     match hits with
     | None | Some [] => mthrow (ErrMessage ("No images found for query: " ++ query))
     | Some (first :: rest) => mret (photo_info (select_photo first (first :: rest)))
     end)
    (fun error => mthrow (ErrMessage ("Image search failed: " ++ error_message error))).

(** [video.videos.large.width] of a hit without [large]. *)
Definition undefined_width : js_error := ErrTypeError "Cannot read properties of undefined (reading 'width')".

(** The filter of [searchVideo]: reading the size of a missing rendition
    throws. *)
Definition suitable_video (video : vhit) : res bool :=
  match vh_large video with
  | Some f => Ok (Qle_bool 1920 (vf_width f) && Qle_bool 1080 (vf_height f))
  | None => Throw undefined_width
  end.

(** [xs.filter(p)] for a test that may throw. *)
Fixpoint filter_res {A} (p : A -> res bool) (xs : list A) : res (list A) :=
  match xs with
  | [] => Ok []
  | x :: r => b <-? p x ;; ys <-? filter_res p r ;; Ok (if b then x :: ys else ys)
  end.

Definition video_info (video : vhit) (videoFile : vfile) : minfo :=
  mkInfo "video" (vf_url videoFile) (JNum (vf_width videoFile)) (JNum (vf_height videoFile))
    (vh_duration video) VUndefined (vh_user video) (vh_pageURL video)
    (js_div (JNum (vf_width videoFile)) (JNum (vf_height videoFile)))
    (if js_val_truthy (vh_tags video) then vh_tags video else VStr "").

(** [contentType.includes('application/json')] *)
Definition json_content (ct : option string) : bool :=
  match ct with Some c => includes c "application/json" | None => false end.

(** [async searchVideo(query)] *)
Definition searchVideo (query : string) : SM minfo :=
  mcatch
    (let truncatedQuery := _truncateQuery query in
     response <- net_fetch_timeout 5000 (px_latency env) (px_videos env) (video_url truncatedQuery) ;;
     if negb (vr_ok response) then mthrow (ErrMessage ("HTTP error! status: " ++ int_to_string (vr_status response)))
     else if negb (json_content (vr_contentType response)) then
       mthrow (ErrMessage ("Invalid content type: " ++
                 match vr_contentType response with Some c => c | None => "null" end))
     else match vr_hits response with
     | None | Some [] => mthrow (ErrMessage ("No videos found for query: " ++ truncatedQuery))
     | Some (first :: rest) =>
         suitableVideos <- lift_res (filter_res suitable_video (first :: rest)) ;;
         let video := match suitableVideos with v :: _ => v | [] => first end in
         match vh_large video with
         | None => mthrow (ErrMessage "No suitable video file available")
         | Some videoFile => mret (video_info video videoFile)
         end
     end)
    (fun error => mthrow (ErrMessage ("Video search failed: " ++ error_message error))).

(** [mediaType === 'video' ? this.searchVideo(query) : this.searchImage(query)] *)
Definition search_kind (mediaType : string) (query : string) : SM minfo :=
  if String.eqb mediaType "video" then searchVideo query else searchImage query.

(** [(media.title || '').toLowerCase()] *)
Definition media_title (t : jsval) : res string :=
  match (if js_val_truthy t then t else VStr "") with
  | VStr s => Ok (js_to_lower s)
  | _ => Throw (ErrTypeError "(media.title || '').toLowerCase is not a function")
  end.

(** [_calculateMatchScore(media, query)] *)
Definition _calculateMatchScore (media : minfo) (query : string) : res jsnum :=
  let resolutionScore := js_min (js_div (mi_width media) target_width) (js_div (mi_height media) target_height) in
  let score := js_add js_zero (js_mul resolutionScore (JNum (4 # 10))) in
  let mediaRatio := js_div (mi_width media) (mi_height media) in
  let ratioScore := js_sub (JNum 1) (js_abs (js_sub target_ratio mediaRatio)) in
  let score := js_add score (js_mul ratioScore (JNum (3 # 10))) in
  let queryWords := split_ws (js_to_lower query) in
  mediaTitle <-? media_title (mi_title media) ;;
  let matchingWords := List.filter (fun word => includes mediaTitle word) queryWords in
  let keywordScore := js_div (JNum (inject_Z (Z.of_nat (List.length matchingWords))))
                             (JNum (inject_Z (Z.of_nat (List.length queryWords)))) in
  Ok (js_add score (js_mul keywordScore (JNum (3 # 10)))).

(** One pass of the [for] loop of [getMediaForScene]: [bestMatch] and
    [highestScore]; a failed search is skipped. *)
Fixpoint search_loop (mediaType : string) (queries : list string) (best : option minfo) (highestScore : jsnum)
  : SM (option minfo * jsnum) :=
  match queries with
  | [] => mret (best, highestScore)
  | query :: rest =>
      o <- mcatch (results <- search_kind mediaType query ;;
                   score <- lift_res (_calculateMatchScore results query) ;;
                   mret (Some (results, score)))
                  (fun _ => mret None) ;;
      match o with
      | Some (results, score) =>
          if js_gt score highestScore then search_loop mediaType rest (Some results) score
          else search_loop mediaType rest best highestScore
      | None => search_loop mediaType rest best highestScore
      end
  end.

(** [async getMediaForScene(scene)] *)
Definition getMediaForScene (scene : wscene) : SM minfo :=
  mcatch
    (let mediaType := ws_mediaType scene in
     if String.eqb (ws_visualDescription scene) "" then mthrow (ErrMessage "Scene missing visual description")
     else
       let searchQueries := pixabay_generateSearchQueries scene in
       first_pass <- search_loop mediaType searchQueries None js_zero ;;
       let '(bestMatch, highestScore) := first_pass in
       second_pass <-
          match bestMatch with
          | Some _ => mret (bestMatch, highestScore)
          | None =>
              let fallbackType := if String.eqb mediaType "video" then "image" else "video" in
              search_loop fallbackType searchQueries None highestScore
          end ;;
       match second_pass.1 with
       | None => mthrow (ErrMessage "No suitable media found for scene")
       | Some m => mret m
       end)
    (fun error => mthrow (ErrMessage ("Failed to get media for scene: " ++ error_message error))).

(** [async _searchMediaWithRanking(query, mediaType)] *)
Definition _searchMediaWithRanking (query mediaType : string) : SM (minfo * jsnum) :=
  results <- search_kind mediaType query ;;
  score <- lift_res (_calculateMatchScore results query) ;;
  mret (results, score).

(** [creator: mediaInfo.photographer || mediaInfo.user] *)
Definition pixabay_creator (mediaInfo : minfo) : jsval :=
  if js_val_truthy (mi_photographer mediaInfo) then mi_photographer mediaInfo else mi_user mediaInfo.

(** [async downloadMedia(mediaInfo)] *)
Definition downloadMedia : minfo -> SM downloaded :=
  stock_downloadMedia px_tempDir (px_latency env) (px_files env) pixabay_creator.

(** [async cleanup(mediaFiles)] *)
Definition cleanup : list media_file -> SM unit := stock_cleanup px_tempDir.
End Controller.

(** A [PixabayController] as a provider of [processScenes]. *)
#[export] Instance pixabay_provider (env : pixabay_env) : MediaProvider :=
  {| provider_getMedia := getMediaForScene env; provider_download := downloadMedia env |}.

(** [async processScenes(scenes)] *)
Definition pixabay_processScenes (env : pixabay_env) : list wscene -> SM (list media_file) :=
  stock_processScenes (H := pixabay_provider env).
End Pixabay.

Module PixabayFacts.
Import ScriptWizard ScriptWizardFacts StockMedia Pixabay.

(** ** Queries *)

(** What the service accepts as a query. *)
Definition within_limit (q : string) : Prop := (String.length q <= maxQueryLength)%nat.

Lemma truncateQuery_spec q :
  (exists rest, q = (_truncateQuery q ++ rest)%string) /\ within_limit (_truncateQuery q).
Proof.
  unfold _truncateQuery, within_limit. destruct (Nat.leb_spec (String.length q) maxQueryLength) as [Hle|Hgt].
  - split; [exists EmptyString; by rewrite string_app_nil_r | done].
  - destruct (str_take_prefix maxQueryLength q) as [r1 Hr1].
    pose proof (str_take_length maxQueryLength q) as Hlen.
    set (t := str_take maxQueryLength q) in *.
    destruct (js_join_removelast " " (split_space t)) as [r2 Hr2].
    unfold split_space in *. rewrite split_chars_join in Hr2. split.
    + exists (r2 ++ r1)%string. by rewrite string_app_assoc, <- Hr2.
    + apply (f_equal String.length) in Hr2. rewrite string_length_app in Hr2. lia.
Qed.

Lemma Forall_set_add (P : string -> Prop) x l : P x -> Forall P l -> Forall P (set_add x l).
Proof. intros Hx Hl. unfold set_add. case_match; [done|]. apply Forall_app. split; [done | by constructor]. Qed.

Lemma set_add_ne x l : set_add x l <> [].
Proof. unfold set_add. destruct l as [|y l]; cbn; [discriminate|]. case_match; discriminate. Qed.

Lemma add_truncated_inv l x :
  NoDup l -> Forall within_limit l -> NoDup (add_truncated l x) /\ Forall within_limit (add_truncated l x) /\
  (l <> [] -> add_truncated l x <> []).
Proof.
  intros Hn Hf. unfold add_truncated. case_match; [done|]. split_and!.
  - by apply set_add_NoDup.
  - apply Forall_set_add; [apply truncateQuery_spec | done].
  - intros _. apply set_add_ne.
Qed.

Lemma fold_add_truncated xs l :
  NoDup l -> Forall within_limit l ->
  NoDup (fold_left add_truncated xs l) /\ Forall within_limit (fold_left add_truncated xs l) /\
  (l <> [] -> fold_left add_truncated xs l <> []).
Proof.
  revert l. induction xs as [|x xs IH]; intros l Hn Hf; cbn [fold_left]; [done|].
  destruct (add_truncated_inv l x Hn Hf) as (Hn' & Hf' & Hne').
  destruct (IH _ Hn' Hf') as (H1 & H2 & H3). split_and!; [done | done |]. auto.
Qed.
Lemma queries_or_basic (q : list string) t :
  NoDup q -> Forall within_limit q -> within_limit t ->
  (match q with [] => [t] | _ => q end) <> [] /\ NoDup (match q with [] => [t] | _ => q end) /\
  Forall within_limit (match q with [] => [t] | _ => q end).
Proof. intros Hn Hf Ht. destruct q; [split_and!; [done | apply NoDup_singleton | by constructor] | done]. Qed.

(** [_generateSearchQueries] gives at least one query, no query
    twice, and every query within the 100 characters the service
    accepts. *)
Theorem generateSearchQueries_bounded scene :
  pixabay_generateSearchQueries scene <> [] /\ NoDup (pixabay_generateSearchQueries scene) /\
  Forall within_limit (pixabay_generateSearchQueries scene).
Proof.
  unfold pixabay_generateSearchQueries. case_match.
  - split_and!; [done | apply NoDup_singleton | repeat constructor].
  - destruct (fold_add_truncated (_extractKeyPhrases (ws_visualDescription scene)) [] (NoDup_nil_2) (List.Forall_nil _))
      as (H1 & H2 & _).
    destruct (fold_add_truncated (ws_searchKeywords scene) _ H1 H2) as (H3 & H4 & _).
    apply queries_or_basic; [| | apply truncateQuery_spec]; repeat case_match; try done;
      first [by apply set_add_NoDup | apply Forall_set_add; [apply truncateQuery_spec | done]].
Qed.

(** ** Requests *)

Definition is_amp (c : ascii) : bool := is_char c "&".

(** The parameters of a search URL: what precedes the query, the query
    and the fixed tail. *)
Lemma split_query_url A q T :
  str_forall (fun x => negb (is_amp x)) A = true ->
  split_chars is_amp (A ++ String "&" ("q=" ++ encodeURIComponent q ++ String "&" T)) =
  A :: ("q=" ++ encodeURIComponent q)%string :: split_chars is_amp T.
Proof.
  intros HA. rewrite split_chars_sep by done. f_equal.
  rewrite string_app_assoc, split_chars_sep; [done| |done].
  unfold is_amp. rewrite str_forall_app. apply andb_true_intro. split; [reflexivity|].
  rewrite <- no_char_forall. by apply encodeURIComponent_no_char.
Qed.

(** The query goes into the search URL as one parameter: whatever
    its characters, splitting the URL at [&] gives the key, [q=] with the
    escaped query, and the fixed parameters of the controller. *)
Theorem search_url_params env q :
  no_char "&" (px_apiKey env) = true ->
  split_chars is_amp (image_url env q) =
    [baseUrl ++ "/?key=" ++ px_apiKey env; "q=" ++ encodeURIComponent q;
     "per_page=30"; "orientation=horizontal"; "min_width=1920"; "min_height=1080"]%string /\
  split_chars is_amp (video_url env q) =
    [baseUrl ++ "/videos/?key=" ++ px_apiKey env; "q=" ++ encodeURIComponent q;
     "per_page=15"; "orientation=horizontal"]%string.
Proof.
  intros Hk. rewrite no_char_forall in Hk. split.
  - change (image_url env q) with ((baseUrl ++ "/?key=" ++ px_apiKey env) ++ String "&"
      ("q=" ++ encodeURIComponent q ++ String "&" "per_page=30&orientation=horizontal&min_width=1920&min_height=1080"))%string.
    rewrite split_query_url; [reflexivity|]. unfold is_amp. rewrite !str_forall_app, Hk. reflexivity.
  - change (video_url env q) with ((baseUrl ++ "/videos/?key=" ++ px_apiKey env) ++ String "&"
      ("q=" ++ encodeURIComponent q ++ String "&" "per_page=15&orientation=horizontal"))%string.
    rewrite split_query_url; [reflexivity|]. unfold is_amp. rewrite !str_forall_app, Hk. reflexivity.
Qed.

(** ** The choice of [getMediaForScene] *)

(** What the search of one query gives: the media and its score, or
    nothing when the search or the score throws. *)
Definition outcome : Type := option (minfo * jsnum).

Definition not_above (h : jsnum) (o : outcome) : Prop :=
  match o with Some (_, y) => js_gt y h = false | None => True end.

(** [m] is the first of the answers with the highest score, and that
    score is above [h]. *)
Definition best_above (h : jsnum) (outs : list outcome) (m : minfo) : Prop :=
  exists pre x post, outs = (pre ++ Some (m, x) :: post)%list /\ js_gt x h = true /\
    Forall (fun o => not_above h o \/ match o with Some (_, y) => js_gt x y = true | None => True end) pre /\
    Forall (not_above x) post.

(** The running maximum of the loop, on the list of outcomes. *)
Fixpoint pick_from (outs : list outcome) (best : option minfo) (h : jsnum) : option minfo * jsnum :=
  match outs with
  | [] => (best, h)
  | Some (m, y) :: r => if js_gt y h then pick_from r (Some m) y else pick_from r best h
  | None :: r => pick_from r best h
  end.

Lemma pick_from_spec outs b h :
  (pick_from outs b h = (b, h) /\ Forall (not_above h) outs) \/
  (exists m x, pick_from outs b h = (Some m, x) /\ best_above h outs m).
Proof.
  revert b h. induction outs as [|o r IH]; intros b h; cbn [pick_from]; [by left|].
  destruct o as [[m0 y]|]; [destruct (js_gt y h) eqn:Hy|].
  - right. destruct (IH (Some m0) y) as [[-> Hr] | (m & x & -> & pre & x' & post & -> & Hx & Hpre & Hpost)].
    + exists m0, y. split; [done|]. by exists [], y, r.
    + exists m, x. split; [done|]. exists (Some (m0, y) :: pre), x', post.
      split_and!; [done | by eapply js_gt_trans | | done]. constructor; [by right|].
      eapply Forall_impl; [exact Hpre|]. intros [[m1 z]|] Hz; [|by left]. cbn in Hz |- *.
      destruct Hz as [Hz|Hz]; [|by right]. destruct (js_gt_not_above x' y z h Hx Hy Hz); auto.
  - destruct (IH b h) as [[-> Hr] | (m & x & -> & pre & x' & post & -> & Hx & Hpre & Hpost)].
    + left. split; [done|]. by constructor.
    + right. exists m, x. split; [done|]. exists (Some (m0, y) :: pre), x', post.
      split_and!; [done | done | | done]. constructor; [by left | done].
  - destruct (IH b h) as [[-> Hr] | (m & x & -> & pre & x' & post & -> & Hx & Hpre & Hpost)].
    + left. split; [done|]. by constructor.
    + right. exists m, x. split; [done|]. exists (None :: pre), x', post.
      split_and!; [done | done | | done]. constructor; [by left | done].
Qed.

(** A search reads only the service: its answer does not depend on the
    state it starts in. *)
Definition probe_state : sworld := mkSW (mkWorld ∅ 0 []) 0.

Definition search_result env t q : res minfo := (search_kind env t q probe_state).2.

Lemma search_kind_state env t q s : exists s', search_kind env t q s = (s', search_result env t q).
Proof.
  apply indep_run. unfold search_kind, searchVideo, searchImage. case_match; indep_solve.
Qed.

Lemma calculateMatchScore_not_hang m q : _calculateMatchScore m q <> Hang.
Proof. unfold _calculateMatchScore, media_title. destruct (if js_val_truthy _ then _ else _); cbn; discriminate. Qed.

(** The outcome of the search of one query. *)
Definition score_outcome env t q : outcome :=
  match search_result env t q with
  | Ok m => match _calculateMatchScore m q with Ok x => Some (m, x) | _ => None end
  | _ => None
  end.

Lemma pick_from_cons o r b h :
  pick_from (o :: r) b h = pick_from r (pick_from [o] b h).1 (pick_from [o] b h).2.
Proof. destruct o as [[m y]|]; cbn; [destruct (js_gt y h)|]; reflexivity. Qed.

Lemma search_loop_step env t q qs best h s :
  (search_result env t q = Hang /\ (search_loop env t (q :: qs) best h s).2 = Hang) \/
  (exists s1, search_loop env t (q :: qs) best h s =
     search_loop env t qs (pick_from [score_outcome env t q] best h).1 (pick_from [score_outcome env t q] best h).2 s1).
Proof.
  cbn [search_loop]. destruct (search_kind_state env t q s) as (s1 & Hs).
  cbv [mbind mcatch mret lift_res]. rewrite Hs. unfold score_outcome.
  destruct (search_result env t q) as [m|e|]; [|by right; eexists | by left].
  pose proof (calculateMatchScore_not_hang m q).
  destruct (_calculateMatchScore m q) as [x|e|]; [|by right; eexists | done].
  right. exists s1. cbn. by destruct (js_gt x h).
Qed.

Lemma search_loop_run env t qs best h s :
  (exists s', search_loop env t qs best h s = (s', Ok (pick_from (map (score_outcome env t) qs) best h))) \/
  ((search_loop env t qs best h s).2 = Hang /\ exists q, q ∈ qs /\ search_result env t q = Hang).
Proof.
  revert best h s. induction qs as [|q qs IH]; intros best h s; [by left; eexists|].
  destruct (search_loop_step env t q qs best h s) as [[Hh Hl] | (s1 & ->)].
  - right. split; [done|]. exists q. split; [by left | done].
  - cbn [map]. rewrite (pick_from_cons (score_outcome env t q) (map (score_outcome env t) qs)).
    destruct (IH (pick_from [score_outcome env t q] best h).1 (pick_from [score_outcome env t q] best h).2 s1)
      as [(s' & Hs') | (Hl & q' & Hq' & Hh)]; [left; by exists s' | right].
    split; [done|]. exists q'. split; [by right | done].
Qed.

(** The outcomes of the searches of [qs] for the media type [t]. *)
Definition outcomes env t qs : list outcome := map (score_outcome env t) qs.

(** C25: [getMediaForScene] keeps the first answer with the highest
    score among the searches of the generated queries, as long as that
    score is above 0 (the [minMatchScore] of 0.6 is never read); when no
    answer scores above 0 it does the same with the other media type.
    It rejects when the scene has no visual description or nothing scores
    above 0, and it stalls only when one of its searches stalls. *)
Theorem getMediaForScene_best env scene s :
  match (getMediaForScene env scene s).2 with
  | Ok m =>
      ws_visualDescription scene <> "" /\
      (best_above js_zero (outcomes env (ws_mediaType scene) (pixabay_generateSearchQueries scene)) m \/
       (Forall (not_above js_zero) (outcomes env (ws_mediaType scene) (pixabay_generateSearchQueries scene)) /\
        best_above js_zero (outcomes env (if String.eqb (ws_mediaType scene) "video" then "image" else "video")
                                     (pixabay_generateSearchQueries scene)) m))
  | Throw e =>
      (ws_visualDescription scene = "" /\
       e = ErrMessage "Failed to get media for scene: Scene missing visual description") \/
      (Forall (not_above js_zero) (outcomes env (ws_mediaType scene) (pixabay_generateSearchQueries scene)) /\
       Forall (not_above js_zero) (outcomes env (if String.eqb (ws_mediaType scene) "video" then "image" else "video")
                                           (pixabay_generateSearchQueries scene)) /\
       e = ErrMessage "Failed to get media for scene: No suitable media found for scene")
  | Hang => exists t q, q ∈ pixabay_generateSearchQueries scene /\ search_result env t q = Hang
  end.
Proof.
  unfold getMediaForScene, outcomes. cbv [mcatch].
  destruct (String.eqb (ws_visualDescription scene) "") eqn:Hvd.
  { left. split; [by apply String.eqb_eq | done]. }
  apply String.eqb_neq in Hvd.
  set (qs := pixabay_generateSearchQueries scene). set (t := ws_mediaType scene).
  set (fb := if String.eqb t "video" then "image" else "video").
  destruct (search_loop_run env t qs None js_zero s) as [(s1 & Hs1) | (Hl & q & Hq & Hh)].
  2: { cbv [mbind]. destruct (search_loop env t qs None js_zero s) as [? []]; cbn in Hl; try done.
       cbn. by exists t, q. }
  cbv [mbind]. rewrite Hs1.
  destruct (pick_from_spec (map (score_outcome env t) qs) None js_zero) as [[Hp Hall] | (m & x & Hp & Hbest)];
    rewrite Hp; cbn [fst snd]; [|cbn; auto].
  destruct (search_loop_run env fb qs None js_zero s1) as [(s2 & Hs2) | (Hl & q & Hq & Hh)].
  2: { destruct (search_loop env fb qs None js_zero s1) as [? []]; cbn in Hl; try done.
       cbn. by exists fb, q. }
  rewrite Hs2.
  destruct (pick_from_spec (map (score_outcome env fb) qs) None js_zero) as [[Hp2 Hall2] | (m & x & Hp2 & Hbest)];
    rewrite Hp2; cbn; [right | auto].
  split_and!; done.
Qed.

(** ** [searchVideo] *)

(** A hit with a [large] rendition of at least 1920x1080. *)
Definition suitable_large (v : vhit) : bool :=
  match vh_large v with Some f => Qle_bool 1920 (vf_width f) && Qle_bool 1080 (vf_height f) | None => false end.

Definition has_large (v : vhit) : bool := bool_decide (is_Some (vh_large v)).

Lemma filter_res_suitable hits :
  filter_res suitable_video hits =
  if forallb has_large hits then Ok (List.filter suitable_large hits) else Throw undefined_width.
Proof.
  induction hits as [|v r IH]; [done|].
  change (filter_res suitable_video (v :: r)) with
    (res_bind (suitable_video v) (fun b => res_bind (filter_res suitable_video r) (fun ys => Ok (if b then v :: ys else ys)))).
  rewrite IH. cbn [forallb List.filter]. unfold suitable_video, has_large, suitable_large.
  destruct (vh_large v) as [f|]; [|reflexivity].
  rewrite bool_decide_eq_true_2 by eauto. cbn [res_bind andb].
  destruct (forallb _ r); [|reflexivity]. cbn [res_bind]. by destruct (_ && _).
Qed.


(** Once the service has answered with hits, [searchVideo] takes
    the first hit with a 1920x1080 [large] rendition, or the first hit;
    a hit without [large] makes it reject with the [TypeError] of the
    filter.  Its check [!videoFile] is never reached. *)
Theorem searchVideo_hits env q s r first rest :
  px_videos env (video_url env (_truncateQuery q)) = Ok r ->
  (px_latency env (video_url env (_truncateQuery q)) <= 5000)%Z ->
  vr_ok r = true -> json_content (vr_contentType r) = true -> vr_hits r = Some (first :: rest) ->
  if forallb has_large (first :: rest)
  then exists f, let v := match List.filter suitable_large (first :: rest) with v :: _ => v | [] => first end in
       vh_large v = Some f /\ (searchVideo env q s).2 = Ok (video_info v f)
  else (searchVideo env q s).2 =
       Throw (ErrMessage "Video search failed: Cannot read properties of undefined (reading 'width')").
Proof.
  intros Hr Hl Hok Hct Hh. unfold searchVideo, net_fetch_timeout, net_fetch, elapse.
  rewrite Hr. destruct (Z.ltb_spec 5000 (px_latency env (video_url env (_truncateQuery q)))) as [?|_]; [lia|].
  cbv [mcatch mbind mmodify lift_res mret mthrow]. rewrite Hok, Hct, Hh. cbn [negb].
  rewrite filter_res_suitable. destruct (forallb has_large (first :: rest)) eqn:Hall; [|done].
  assert (Hv : forall v, v ∈ first :: List.filter suitable_large (first :: rest) -> is_Some (vh_large v)).
  { intros v Hv. apply forallb_forall with (x := v) in Hall.
    - by apply bool_decide_eq_true in Hall.
    - apply list_elem_of_In. apply elem_of_cons in Hv as [->|Hv]; [by left|].
      apply list_elem_of_In, filter_In in Hv. by apply list_elem_of_In, Hv. }
  destruct (List.filter suitable_large (first :: rest)) as [|v0 vs] eqn:Hf;
    [destruct (Hv first) as [f Hfv]; [by left|] | destruct (Hv v0) as [f Hfv]; [by right; left|]];
    exists f; cbn; by rewrite Hfv.
Qed.

(** C28: [searchVideo] always settles: its request has a timeout of
    5 seconds. *)
Theorem searchVideo_settles env q : settles (searchVideo env q).
Proof.
  unfold searchVideo. apply settles_catch; [|intros; apply settles_throw].
  eapply (settles_bind (fun _ => True)); [apply settles_net_fetch_timeout|]. intros r _.
  repeat case_match; try apply settles_throw.
  eapply (settles_bind (fun _ => True)).
  - apply settles_lift. rewrite filter_res_suitable. destruct (forallb has_large _); exact I.
  - intros sv _. case_match; [by apply settles_ret | apply settles_throw].
Qed.

(** The image requests have no timeout: when the service never answers
    them, the image search never settles. *)
Lemma searchImage_hang env q s :
  px_images env (image_url env q) = Hang -> (searchImage env q s).2 = Hang.
Proof. intros H. cbv [searchImage mcatch mbind net_fetch elapse mmodify lift_res]. by rewrite H. Qed.

Lemma search_loop_hang env mt qs best h s :
  (forall q s, (search_kind env mt q s).2 = Hang) -> qs <> [] -> (search_loop env mt qs best h s).2 = Hang.
Proof.
  intros Hk Hq. destruct qs as [|q qs]; [done|]. cbn [search_loop]. unfold mbind, mcatch.
  specialize (Hk q s). destruct (search_kind env mt q s) as [s1 []]; by cbn in Hk.
Qed.

(** C29: [searchImage] has no timeout: when the service never answers
    image requests, [getMediaForScene] of a scene that asks for an image
    never settles, since its first search waits for ever. *)
Theorem getMediaForScene_stalls env scene s :
  (forall url, px_images env url = Hang) -> ws_mediaType scene <> "video" -> ws_visualDescription scene <> "" ->
  (getMediaForScene env scene s).2 = Hang.
Proof.
  intros Himg Hmt Hd. unfold getMediaForScene, mcatch. cbv zeta.
  rewrite (proj2 (String.eqb_neq _ _) Hd). unfold mbind.
  destruct (generateSearchQueries_bounded scene) as [Hne _].
  assert (Hk : forall q s, (search_kind env (ws_mediaType scene) q s).2 = Hang).
  { intros q s'. unfold search_kind. rewrite (proj2 (String.eqb_neq _ _) Hmt). by apply searchImage_hang. }
  pose proof (search_loop_hang env _ _ None js_zero s Hk Hne) as Hl.
  destruct (search_loop env _ _ None js_zero s) as [s1 []]; by cbn in Hl.
Qed.

(** ** [searchImage] *)

(** [p] is the first of [hits] with the largest width. *)
Definition widest_at (hits : list photo) (p : photo) : Prop :=
  exists pre post, hits = (pre ++ p :: post)%list /\
    Forall (fun p' => p_imageWidth p' < p_imageWidth p) pre /\ Forall (fun p' => p_imageWidth p' <= p_imageWidth p) post.

Lemma widest_photo_spec b l :
  (widest_photo b l = b /\ Forall (fun p' => p_imageWidth p' <= p_imageWidth b) l) \/
  (p_imageWidth b < p_imageWidth (widest_photo b l) /\ widest_at l (widest_photo b l)).
Proof.
  revert b. induction l as [|x l IH]; intros b; [by left|].
  change (widest_photo b (x :: l)) with
    (widest_photo (if Qlt_bool (p_imageWidth b) (p_imageWidth x) then x else b) l).
  destruct (Qlt_bool (p_imageWidth b) (p_imageWidth x)) eqn:Hbx.
  - apply Qlt_bool_iff in Hbx. right. destruct (IH x) as [Hl | Hl]; set (r := widest_photo x l) in *; clearbody r.
    + destruct Hl as [-> Hl]. split; [done|]. by exists [], l.
    + destruct Hl as [Hlt (pre & post & -> & Hpre & Hpost)]. split; [lra|].
      exists (x :: pre), post. split_and!; [done | constructor; [lra | done] | done].
  - apply Qlt_bool_false in Hbx. destruct (IH b) as [Hl | Hl]; set (r := widest_photo b l) in *; clearbody r.
    + destruct Hl as [-> Hl]. left. split; [done|]. by constructor.
    + destruct Hl as [Hlt (pre & post & -> & Hpre & Hpost)]. right. split; [done|].
      exists (x :: pre), post. split_and!; [done | constructor; [lra | done] | done].
Qed.

Lemma filter_first {A} (f : A -> bool) l p r :
  List.filter f l = p :: r -> exists pre post, l = (pre ++ p :: post)%list /\ f p = true /\ Forall (fun x => f x = false) pre.
Proof.
  induction l as [|x l IH]; [done|]. cbn [List.filter]. destruct (f x) eqn:Hx.
  - intros [= -> _]. by exists [], l.
  - intros (pre & post & -> & Hp & Hpre)%IH. exists (x :: pre), post. split_and!; [done | done | by constructor].
Qed.

(** [searchImage] takes the first photo of 1920x1080 or more whose
    ratio is within 0.1 of 16:9; when there is none, the first of the
    widest photos. *)
Theorem searchImage_choice env q s first rest :
  px_images env (image_url env q) = Ok (Some (first :: rest)) ->
  exists pre p post, first :: rest = (pre ++ p :: post)%list /\ (searchImage env q s).2 = Ok (photo_info p) /\
    ((suitable_photo p = true /\ Forall (fun p' => suitable_photo p' = false) pre) \/
     (Forall (fun p' => suitable_photo p' = false) (first :: rest) /\
      Forall (fun p' => p_imageWidth p' < p_imageWidth p) pre /\ Forall (fun p' => p_imageWidth p' <= p_imageWidth p) post)).
Proof.
  intros Hr. unfold searchImage, net_fetch, elapse. cbv [mcatch mbind mmodify lift_res mret]. rewrite Hr.
  cbn [snd]. unfold select_photo.
  destruct (List.filter suitable_photo (first :: rest)) as [|p r] eqn:Hf.
  - assert (Hno : Forall (fun p' => suitable_photo p' = false) (first :: rest)).
    { apply Forall_forall. intros x Hx. apply not_true_iff_false. intros Hs.
      assert (Hin : In x (List.filter suitable_photo (first :: rest))) by (apply filter_In; split; [first [done | by apply list_elem_of_In] | done]).
      by rewrite Hf in Hin. }
    destruct (widest_photo_spec first (first :: rest)) as [[Heq Hl] | [Hlt Hw]].
    + exists [], first, rest. rewrite Heq. split_and!; [done | done |]. right. split_and!; [done | done |].
      by inversion Hl.
    + destruct Hw as (pre & post & Hsplit & Hpre & Hpost). exists pre, (widest_photo first (first :: rest)), post.
      split_and!; [done | done |]. right. by split_and!.
  - apply filter_first in Hf as (pre & post & Hsplit & Hp & Hpre). exists pre, p, post.
    split_and!; [done | done |]. left. by split.
Qed.

Lemma search_kind_type env t q : answers (fun m => mi_type m = "image" \/ mi_type m = "video") (search_kind env t q).
Proof. unfold search_kind, searchVideo, searchImage. case_match; keeps_solve; by (left + right). Qed.

(** ** [PixabayController] as a provider of [processScenes] *)

Section Laws.
Variable env : pixabay_env.
(** Every request takes at least a millisecond. *)
Hypothesis latency_pos : forall url, (1 <= px_latency env url)%Z.

Local Ltac latency := match goal with |- (0 <= px_latency env ?u)%Z => specialize (latency_pos u); lia end.

Lemma search_kind_keeps t q : keeps clock_le (search_kind env t q).
Proof.
  unfold search_kind, searchVideo, searchImage. case_match; keeps_solve;
    first [apply keeps_elapse; latency | apply keeps_net_fetch_timeout; [lia | latency]].
Qed.

Lemma search_loop_keeps t qs best h : keeps clock_le (search_loop env t qs best h).
Proof.
  revert best h. induction qs as [|q qs IH]; intros best h; cbn [search_loop]; keeps_solve;
    first [apply search_kind_keeps | apply IH].
Qed.

Lemma getMediaForScene_keeps scene : keeps clock_le (getMediaForScene env scene).
Proof. unfold getMediaForScene. keeps_solve; apply search_loop_keeps. Qed.
Definition media_typed (m : minfo) : Prop := mi_type m = "image" \/ mi_type m = "video".

Lemma search_loop_type t qs best h :
  (forall m, best = Some m -> media_typed m) ->
  answers (fun r => forall m, r.1 = Some m -> media_typed m) (search_loop env t qs best h).
Proof.
  revert best h. induction qs as [|q qs IH]; intros best h Hb; cbn [search_loop].
  - apply answers_ret. exact Hb.
  - apply (answers_bind_dep (fun o => match o with Some (m, _) => media_typed m | None => True end)).
    + apply answers_catch; [|intros; by apply answers_ret].
      apply (answers_bind_dep media_typed); [apply search_kind_type|]. intros m Hm.
      apply answers_bind. intros x. by apply answers_ret.
    + intros [[m x]|] Hm; [case_match|]; apply IH; [by intros ? [= <-] | done | done].
Qed.

Lemma getMediaForScene_type scene : answers media_typed (getMediaForScene env scene).
Proof.
  unfold getMediaForScene. apply answers_catch; [|intros; apply answers_throw].
  case_match; [apply answers_throw|].
  apply (answers_bind_dep (fun r => forall m, r.1 = Some m -> media_typed m)); [by apply search_loop_type|].
  intros [b h] Hb.
  apply (answers_bind_dep (fun r => forall m, r.1 = Some m -> media_typed m)).
  - destruct b; [by apply answers_ret | by apply search_loop_type].
  - intros [[m|] h'] Hm; [apply answers_ret; by apply Hm | apply answers_throw].
Qed.

#[local] Instance pixabay_laws : MediaProviderLaws (H := pixabay_provider env) (px_tempDir env).
Proof.
  split; cbn [provider_getMedia provider_download pixabay_provider].
  - apply getMediaForScene_keeps.
  - apply getMediaForScene_type.
  - intros m. apply download_keeps_clock. exact latency_pos.
  - intros m s s' d Hd. exact (download_named_by_clock _ _ _ _ latency_pos m s s' d Hd).
Qed.

(** C27: when every request takes at least a millisecond,
    [processScenes] gives at most one file per scene, in the order of the
    scenes, and no two of its files share a path. *)
Theorem processScenes_files scenes s s' files :
  pixabay_processScenes env scenes s = (s', Ok files) ->
  map mf_sceneNumber files `sublist_of` map ws_sceneNumber scenes /\ NoDup (map mf_path files).
Proof.
  intros Hrun. destruct (process_loop_spec scenes [] s s' files Hrun) as (fs & -> & Hsub & Hnd & _);
    [constructor | constructor | split; done].
Qed.
End Laws.


Lemma pick_from_some outs b h m x :
  pick_from outs b h = (Some m, x) -> b = Some m \/ exists y, Some (m, y) ∈ outs.
Proof.
  revert b h. induction outs as [|o r IH]; intros b h; cbn [pick_from]; [intros [= ->]; by left|].
  destruct o as [[m0 y]|]; [case_match|]; intros Hp; destruct (IH _ _ Hp) as [[= <-] | (y' & Hy)];
    first [by left | right; exists y; by left | right; exists y'; by right].
Qed.

End PixabayFacts.
