(* ===== verification/Pexels.v ===== *)
(** * The Pexels controller ([controllers/pexels.controller.js])

    [PexelsController] searches the visual description of a scene as it
    is, first for the scene's media type and then for the other one
    ([getMediaForScene]), and picks a photo ([searchImage], the same
    choice as Pixabay's) or a video file ([searchVideo]: a 1920x1080 file
    of an HD video, else the largest file of the first video).  Downloads,
    [processScenes] and [cleanup] are the shared code of Stock.v.

    The [user] object of a video is represented by its [name], the only
    field the controller reads. *)

From S2P Require Import Prelude Text Media Wizard Stock.
From Stdlib Require Import Ascii.
Local Open Scope string_scope.
Local Open Scope js_scope.

Module Pexels.
Import ScriptWizard StockMedia.

(** An element of [data.photos]. *)
Record pphoto : Type := mkPPhoto {
  pp_width : Q; pp_height : Q; pp_src_original : jsval; pp_photographer : jsval; pp_url : jsval
}.

(** An element of [video.video_files]. *)
Record pfile : Type := mkPFile { pf_width : Q; pf_height : Q; pf_quality : jsval; pf_link : jsval }.

(** An element of [data.videos]. *)
Record pvideo : Type := mkPVideo {
  pv_video_files : list pfile; pv_duration : jsval; pv_user_name : jsval; pv_url : jsval
}.

(** The environment: the key and what the service answers ([data.photos]
    and [data.videos], [None] when the field is missing). *)
Record pexels_env : Type := mkPexelsEnv {
  pe_apiKey : string;
  pe_cwd : string;
  pe_latency : string -> Z;
  pe_photos : string -> res (option (list pphoto));
  pe_videos : string -> res (option (list pvideo));
  pe_files : string -> res file_response
}.

Section Controller.
Variable env : pexels_env.

Definition pe_tempDir : string := path_join (pe_cwd env) "temp".

Definition pexels_image_url (query : string) : string :=
  "https://api.pexels.com/v1/search?query=" ++ encodeURIComponent query ++ "&per_page=30&orientation=landscape".

Definition pexels_video_url (query : string) : string :=
  "https://api.pexels.com/videos/search?query=" ++ encodeURIComponent query ++ "&per_page=15&orientation=landscape".

(** The filter of [searchImage]. *)
Definition pexels_suitable_photo (p : pphoto) : bool :=
  let photoRatio := js_div (JNum (pp_width p)) (JNum (pp_height p)) in
  let ratioDifference := js_abs (js_sub (js_div target_width target_height) photoRatio) in
  js_lt ratioDifference (JNum (1 # 10)) && (Qle_bool 1920 (pp_width p) && Qle_bool 1080 (pp_height p)).

(** [data.photos.reduce((best, current) => current.width > best.width ? current : best, data.photos[0])] *)
Definition pexels_widest (first : pphoto) (photos : list pphoto) : pphoto :=
  fold_left (fun best current => if Qlt_bool (pp_width best) (pp_width current) then current else best) photos first.

Definition pexels_photo_info (photo : pphoto) : minfo :=
  mkInfo "image" (pp_src_original photo) (JNum (pp_width photo)) (JNum (pp_height photo))
    VUndefined (pp_photographer photo) VUndefined (pp_url photo)
    (js_div (JNum (pp_width photo)) (JNum (pp_height photo))) VUndefined.

(** [async searchImage(query)] *)
Definition pexels_searchImage (query : string) : SM minfo :=
  mcatch
    (photos <- net_fetch (pe_latency env) (pe_photos env) (pexels_image_url query) ;;
     match photos with
     | None | Some [] => mthrow (ErrMessage ("No images found for query: " ++ query))
     | Some (first :: rest) =>
         let photo := match List.filter pexels_suitable_photo (first :: rest) with
                      | p :: _ => p
                      | [] => pexels_widest first (first :: rest)
                      end in
         mret (pexels_photo_info photo)
     end)
    (fun error => mthrow (ErrMessage ("Image search failed: " ++ error_message error))).

(** [f.width === 1920 && f.height === 1080] *)
Definition exact_size (f : pfile) : bool := Qeq_bool (pf_width f) 1920 && Qeq_bool (pf_height f) 1080.

(** [... && (f.quality === 'hd' || f.quality === 'fhd')] *)
Definition hd_file (f : pfile) : bool :=
  exact_size f && (js_strict_eq (pf_quality f) (VStr "hd") || js_strict_eq (pf_quality f) (VStr "fhd")).

(** [array.find(p)] *)
Definition js_find {A} (p : A -> bool) (xs : list A) : option A := List.find p xs.

(** [b.width * b.height - a.width * a.height] *)
Definition area (f : pfile) : Q := pf_width f * pf_height f.

(** Insertion of [x] into a list sorted by decreasing area: after every
    element at least as large. *)
Fixpoint insert_by_area (x : pfile) (sorted : list pfile) : list pfile :=
  match sorted with
  | [] => [x]
  | y :: r => if Qlt_bool (area y) (area x) then x :: y :: r else y :: insert_by_area x r
  end.

(** [files.sort((a, b) => (b.width * b.height) - (a.width * a.height))]:
    the sort of the language is stable, as this insertion sort is. *)
Definition sort_by_area (files : list pfile) : list pfile :=
  fold_left (fun sorted x => insert_by_area x sorted) files [].

(** The file taken from the first video when no video has an HD
    1920x1080 file. *)
Definition fallback_file (video : pvideo) : option pfile :=
  match sort_by_area (List.filter (fun f => Qle_bool 1920 (pf_width f) && Qle_bool 1080 (pf_height f))
                                  (pv_video_files video)) with
  | f :: _ => Some f
  | [] => head (pv_video_files video)
  end.

Definition pexels_video_info (video : pvideo) (videoFile : pfile) : minfo :=
  mkInfo "video" (pf_link videoFile) (JNum (pf_width videoFile)) (JNum (pf_height videoFile))
    (pv_duration video) VUndefined (pv_user_name video) (pv_url video)
    (js_div (JNum (pf_width videoFile)) (JNum (pf_height videoFile))) VUndefined.

(** [async searchVideo(query)] *)
Definition pexels_searchVideo (query : string) : SM minfo :=
  mcatch
    (videos <- net_fetch (pe_latency env) (pe_videos env) (pexels_video_url query) ;;
     match videos with
     | None | Some [] => mthrow (ErrMessage ("No videos found for query: " ++ query))
     | Some (first :: rest) =>
         let suitableVideos := List.filter (fun v => bool_decide (is_Some (js_find hd_file (pv_video_files v))))
                                 (first :: rest) in
         let '(video, videoFile) :=
           match suitableVideos with
           | v :: _ => (v, js_find exact_size (pv_video_files v))
           | [] => (first, fallback_file first)
           end in
         match videoFile with
         | None => mthrow (ErrMessage "No suitable video file available")
         | Some f => mret (pexels_video_info video f)
         end
     end)
    (fun error => mthrow (ErrMessage ("Video search failed: " ++ error_message error))).

(** [mediaType === 'video' ? this.searchVideo(q) : this.searchImage(q)],
    and the other one. *)
Definition pexels_primary (mediaType query : string) : SM minfo :=
  if String.eqb mediaType "video" then pexels_searchVideo query else pexels_searchImage query.

Definition pexels_fallback (mediaType query : string) : SM minfo :=
  if String.eqb mediaType "video" then pexels_searchImage query else pexels_searchVideo query.

(** [async getMediaForScene(scene)] *)
Definition pexels_getMediaForScene (scene : wscene) : SM minfo :=
  mcatch
    (let mediaType := ws_mediaType scene in
     let searchQuery := ws_visualDescription scene in
     mcatch (pexels_primary mediaType searchQuery)
       (fun primaryError =>
          mcatch (pexels_fallback mediaType searchQuery)
            (fun fallbackError =>
               mthrow (ErrMessage ("Failed to find any media. Primary (" ++ mediaType ++ "): " ++
                                   error_message primaryError ++ ". " ++
                                   "Fallback: " ++ error_message fallbackError)))))
    (fun error => mthrow (ErrMessage ("Failed to get media for scene: " ++ error_message error))).

(** [creator: mediaInfo.photographer || mediaInfo.user?.name] *)
Definition pexels_creator (mediaInfo : minfo) : jsval :=
  if js_val_truthy (mi_photographer mediaInfo) then mi_photographer mediaInfo else mi_user mediaInfo.

(** [async downloadMedia(mediaInfo)] *)
Definition pexels_downloadMedia : minfo -> SM downloaded :=
  stock_downloadMedia pe_tempDir (pe_latency env) (pe_files env) pexels_creator.

(** [async cleanup(mediaFiles)] *)
Definition pexels_cleanup : list media_file -> SM unit := stock_cleanup pe_tempDir.
End Controller.

#[export] Instance pexels_provider (env : pexels_env) : MediaProvider :=
  {| provider_getMedia := pexels_getMediaForScene env; provider_download := pexels_downloadMedia env |}.

(** [async processScenes(scenes)] *)
Definition pexels_processScenes (env : pexels_env) : list wscene -> SM (list media_file) :=
  stock_processScenes (H := pexels_provider env).
End Pexels.

Module PexelsFacts.
Import ScriptWizard StockMedia Pexels.

(** ** The largest file *)

(** [f] is the first of [l] with the largest area. *)
Definition first_largest (l : list pfile) (f : pfile) : Prop :=
  exists pre post, l = (pre ++ f :: post)%list /\
    Forall (fun g => area g < area f) pre /\ Forall (fun g => area g <= area f) post.

Lemma first_largest_snoc l m x :
  first_largest l m -> first_largest (l ++ [x]) (if Qlt_bool (area m) (area x) then x else m).
Proof.
  intros (pre & post & -> & Hpre & Hpost). destruct (Qlt_bool (area m) (area x)) eqn:Hmx.
  - apply Qlt_bool_iff in Hmx. exists (pre ++ m :: post)%list, []. rewrite <- app_assoc. split_and!; [done| |done].
    apply Forall_app. split; [eapply Forall_impl; [exact Hpre|]; intros g Hg; by apply (Qlt_trans _ (area m))|].
    constructor; [done|]. eapply Forall_impl; [exact Hpost|]. intros g Hg. by apply (Qle_lt_trans _ (area m)).
  - apply Qlt_bool_false in Hmx. exists pre, (post ++ [x])%list. rewrite <- app_assoc. split_and!; [done | done |].
    apply Forall_app. split; [done|]. by constructor.
Qed.

Lemma insert_by_area_head x m r :
  head (insert_by_area x (m :: r)) = Some (if Qlt_bool (area m) (area x) then x else m).
Proof. cbn. by destruct (Qlt_bool (area m) (area x)). Qed.

Lemma fold_insert_head l acc P m :
  head acc = Some m -> first_largest P m ->
  exists m', head (fold_left (fun sorted x => insert_by_area x sorted) l acc) = Some m' /\ first_largest (P ++ l) m'.
Proof.
  revert acc P m. induction l as [|x l IH]; intros acc P m Hh HP; cbn [fold_left].
  - exists m. by rewrite app_nil_r.
  - destruct acc as [|m0 r]; [done|]. injection Hh as ->.
    destruct (IH (insert_by_area x (m :: r)) (P ++ [x])%list _ (insert_by_area_head x m r) (first_largest_snoc P m x HP))
      as (m' & Hm' & HP'). exists m'. by rewrite <- app_assoc in HP'.
Qed.

(** Sorting by decreasing area and taking the first element picks the
    first of the files with the largest area. *)
Theorem sort_by_area_first files :
  files <> [] -> exists f, head (sort_by_area files) = Some f /\ first_largest files f.
Proof.
  destruct files as [|f0 l]; [done|]. intros _. unfold sort_by_area. cbn [fold_left].
  destruct (fold_insert_head l [f0] [f0] f0) as (m' & Hm & HP); [done | by exists [], [] |].
  exists m'. split; [exact Hm | exact HP].
Qed.

Lemma filter_no_hd vs :
  Forall (fun v => js_find hd_file (pv_video_files v) = None) vs ->
  List.filter (fun v => bool_decide (is_Some (js_find hd_file (pv_video_files v)))) vs = [].
Proof.
  induction 1 as [|v vs Hv _ IH]; [done|]. cbn [List.filter]. rewrite Hv, bool_decide_false by (by intros []). exact IH.
Qed.

(** C31: when no video of the answer has an HD 1920x1080 file,
    [searchVideo] takes, from the first video, the first of its files of
    at least 1920x1080 with the largest [width * height]: every file
    before it is smaller, none after it is larger. *)
Theorem pexels_searchVideo_fallback env query first rest s :
  pe_videos env (pexels_video_url query) = Ok (Some (first :: rest)) ->
  Forall (fun v => js_find hd_file (pv_video_files v) = None) (first :: rest) ->
  let big := List.filter (fun f => Qle_bool 1920 (pf_width f) && Qle_bool 1080 (pf_height f)) (pv_video_files first) in
  big <> [] ->
  exists s' f, pexels_searchVideo env query s = (s', Ok (pexels_video_info first f)) /\
    exists pre post, big = (pre ++ f :: post)%list /\
      Forall (fun g => pf_width g * pf_height g < pf_width f * pf_height f) pre /\
      Forall (fun g => pf_width g * pf_height g <= pf_width f * pf_height f) post.
Proof.
  intros Hans Hnohd big Hbig.
  pose proof (filter_no_hd _ Hnohd) as Hsuit.
  destruct (sort_by_area_first big Hbig) as (f & Hf & pre & post & Heq & Hpre & Hpost).
  assert (Hfb : fallback_file first = Some f).
  { unfold fallback_file. fold big. destruct (sort_by_area big); by simplify_eq. }
  exists (mkSW (sw_world s) (sw_clock s + pe_latency env (pexels_video_url query))), f.
  cbv [pexels_searchVideo mcatch mbind net_fetch elapse mmodify lift_res mret]. rewrite Hans. cbv iota beta.
  rewrite Hsuit, Hfb. split; [reflexivity|]. exists pre, post. by split_and!.
Qed.

(** C32: when both searches fail, [getMediaForScene] rejects with a
    message that names the scene's media type and both errors. *)
Theorem pexels_getMediaForScene_errors env scene s s1 s2 e1 e2 :
  pexels_primary env (ws_mediaType scene) (ws_visualDescription scene) s = (s1, Throw e1) ->
  pexels_fallback env (ws_mediaType scene) (ws_visualDescription scene) s1 = (s2, Throw e2) ->
  pexels_getMediaForScene env scene s =
    (s2, Throw (ErrMessage ("Failed to get media for scene: Failed to find any media. Primary (" ++
                            ws_mediaType scene ++ "): " ++ error_message e1 ++ ". Fallback: " ++ error_message e2))).
Proof.
  intros H1 H2. cbv [pexels_getMediaForScene mcatch mthrow]. rewrite H1. cbn iota. rewrite H2.
  cbn [error_message]. reflexivity.
Qed.
End PexelsFacts.
