(* ===== verification/Pipeline.v ===== *)
(** * The script controller ([controllers/script.controller.js])

    The HTTP handlers that tie the back end together.  [generateScript]
    and [generateVideoScript] call the script wizard; [getMediaForScript]
    and [cleanupMedia] call the Pexels controller; [generateScriptWithMedia]
    composes everything: the wizard writes the script, the Pixabay
    controller downloads a file per scene, [generateSceneAudio] synthesises
    a narration per scene, the scenes are merged with the media and the
    narrations by position, and the video generator renders them.

    The media search and the narrations run under [Promise.all]; they
    write different files and only the media search reads the clock, so
    they are run one after the other here.  A handler is a step of the
    controller state that ends in the reply it sends. *)

From S2P Require Import Prelude NumberFacts Text Media Ffmpeg Scene Resolver Renderer Orchestrator Wizard Stock Pixabay Pexels.
From Stdlib Require Import Ascii.
Local Open Scope string_scope.
Local Open Scope js_scope.

Module ScriptController.
Import ScriptWizard StockMedia Pixabay Pexels SceneOrchestrator.

(** [{ path, sceneNumber, type }] of a narration. *)
Record audio_file : Type := mkAudioFile { af_path : string; af_sceneNumber : nat; af_type : string }.

(** [{ ...scene, media: mediaFiles[index] || null, audio: audioFiles[index] || null, sceneNumber: index + 1 }] *)
Record enhanced : Type := mkEnhanced {
  es_scene : wscene; es_media : option media_file; es_audio : option audio_file; es_sceneNumber : nat
}.

(** The merge of the scenes with the media and the narrations, by
    position. *)
Definition enhance (scenes : list wscene) (mediaFiles : list media_file) (audioFiles : list audio_file)
  : list enhanced :=
  imap (fun index scene => mkEnhanced scene (mediaFiles !! index) (audioFiles !! index) (S index)) scenes.

(** What the video generator reads of an enhanced scene. *)
Definition media_of (f : media_file) : media_obj := mkMedia (mf_type f) (mf_path f) (mf_duration f).
Definition audio_of (a : audio_file) : audio_obj := mkAudio (VStr (af_type a)) (VStr (af_path a)) None.
Definition to_render_scene (e : enhanced) : scene :=
  mkScene (es_sceneNumber e) (option_map media_of (es_media e)) (option_map audio_of (es_audio e)).

(** The body of a reply. *)
Inductive reply_body : Type :=
| RError (error : string)
| RScript (result : script_result)
| RScriptWithMedia (result : script_result) (scenes : list enhanced) (mediaFiles : list media_file)
    (audioFiles : list audio_file) (videoScenePath : list rendered)
| RMediaFiles (mediaFiles : list media_file)
| RCleaned.

(** [res.status(status).json(body)] *)
Record reply : Type := mkReply { status : Z; body : reply_body }.

(** The options of [generateVideoScript]. *)
Definition video_script_options : options_arg :=
  OptsObj (mkScriptOptions (VStr "professional") (VStr "engaging") (VStr "2 minutes") (VStr "video script") VUndefined).

Section Handlers.
Context {E : Encoder}.
(** The language model, the sentence tokenizer, the speech synthesis of
    gTTS, and the two stock services. *)
Variables (generateContent : option string -> string -> res string) (sentence_tokenize : string -> list string).
Variable tts : string -> res file.
Variables (px : pixabay_env) (pe : pexels_env).
(** [process.cwd()] (the media controllers are made in it) and
    [path.join(__dirname, '..')], the back end's directory. *)
Variable backendDir : string.

Definition cwd : string := px_cwd px.

(** [exports.generateScript] *)
Definition handle_generateScript (prompt : string) (options : options_arg) : SM reply :=
  if String.eqb prompt "" then mret (mkReply 400 (RError "Prompt is required"))
  else mcatch (result <- lift_res (generateScript generateContent sentence_tokenize prompt options) ;;
               mret (mkReply 200 (RScript result)))
              (fun error => mret (mkReply 500 (RError (error_message error)))).

(** [exports.generateVideoScript]: no check of the prompt. *)
Definition handle_generateVideoScript (prompt : string) : SM reply :=
  mcatch (result <- lift_res (generateScript generateContent sentence_tokenize prompt video_script_options) ;;
          mret (mkReply 200 (RScript result)))
         (fun error => mret (mkReply 500 (RError (error_message error)))).

(** [generateSceneAudio(scene, sceneNumber)]: gTTS saves the narration
    of the scene's text into [temp/] of the back end. *)
Definition generateSceneAudio (scene : wscene) (sceneNumber : nat) : SM audio_file :=
  let outputPath := path_join (path_join backendDir "temp") ("scene_" ++ pretty sceneNumber ++ ".mp3") in
  audio <- lift_res (tts (ws_text scene)) ;;
  lift_w (write_file outputPath audio) ;;;
  mret (mkAudioFile outputPath sceneNumber "audio/mp3").

(** [Promise.all(scenes.map((scene, index) => generateSceneAudio(scene, index + 1)))] *)
Fixpoint scene_audios (scenes : list wscene) (index : nat) : SM (list audio_file) :=
  match scenes with
  | [] => mret []
  | scene :: rest =>
      a <- generateSceneAudio scene (S index) ;;
      r <- scene_audios rest (S index) ;;
      mret (a :: r)
  end.

(** [exports.generateScriptWithMedia]; on an error the media directory
    [temp/] of the working directory is removed. *)
Definition generateScriptWithMedia (prompt : string) (options : options_arg) : SM reply :=
  if String.eqb prompt "" then mret (mkReply 400 (RError "Prompt is required"))
  else mcatch
    (scriptResult <- lift_res (generateScript generateContent sentence_tokenize prompt options) ;;
     mediaFiles <- Pixabay.pixabay_processScenes px (result_scenes scriptResult) ;;
     audioFiles <- scene_audios (result_scenes scriptResult) 0 ;;
     let enhancedScenes := enhance (result_scenes scriptResult) mediaFiles audioFiles in
     videoScenePath <- lift_w (generateVideo (new_controller cwd) (map to_render_scene enhancedScenes)) ;;
     mret (mkReply 200 (RScriptWithMedia scriptResult enhancedScenes mediaFiles audioFiles videoScenePath)))
    (fun error =>
       lift_w (mcatch (rmdir_recursive (path_join cwd "temp")) (fun _ => mret tt)) ;;;
       mret (mkReply 500 (RError (error_message error)))).

(** [exports.getMediaForScript]: [None] is a body without an array of
    scenes. *)
Definition getMediaForScript (scenes : option (list wscene)) : SM reply :=
  match scenes with
  | None => mret (mkReply 400 (RError "Valid scenes array is required"))
  | Some scenes =>
      mcatch (mediaFiles <- pexels_processScenes pe scenes ;; mret (mkReply 200 (RMediaFiles mediaFiles)))
             (fun error => mret (mkReply 500 (RError (error_message error))))
  end.

(** [fs.unlink(p)]: fails on a missing file. *)
Definition unlink_audio (file : audio_file) : SM unit := lift_w (unlink (af_path file)).

(** [exports.cleanupMedia]: the media files through the Pexels
    controller, then the narrations, whose deletion may fail. *)
Definition cleanupMedia (mediaFiles : option (list media_file)) (audioFiles : option (list audio_file)) : SM reply :=
  match mediaFiles, audioFiles with
  | None, None => mret (mkReply 400 (RError "Valid mediaFiles or audioFiles array is required"))
  | _, _ =>
      mcatch
        ((match mediaFiles with Some fs => pexels_cleanup pe fs | None => mret tt end) ;;;
         (match audioFiles with Some afs => mmap unlink_audio afs ;;; mret tt | None => mret tt end) ;;;
         mret (mkReply 200 RCleaned))
        (fun error => mret (mkReply 500 (RError (error_message error))))
  end.
End Handlers.
End ScriptController.

Module ScriptControllerFacts.
Import ScriptWizard ScriptWizardFacts StockMedia Pixabay PixabayFacts SceneOrchestrator DurationResolver ScriptController.

(** ** Merging by position *)

Lemma enhance_lookup scenes mfs afs i e :
  enhance scenes mfs afs !! i = Some e ->
  exists sc, scenes !! i = Some sc /\ e = mkEnhanced sc (mfs !! i) (afs !! i) (S i).
Proof. unfold enhance. rewrite list_lookup_imap. destruct (scenes !! i) as [sc|]; [intros [= <-]; by eexists | done]. Qed.

(** Every scene gets the media found for it exactly when the scenes left
    without media are the last ones. *)
Lemma enhance_alignment scenes mfs afs :
  (length mfs <= length scenes)%nat ->
  (forall i e f, enhance scenes mfs afs !! i = Some e -> es_media e = Some f -> mf_sceneNumber f = ws_sceneNumber (es_scene e))
  <-> mf_sceneNumber <$> mfs = take (length mfs) (ws_sceneNumber <$> scenes).
Proof.
  intros Hlen. split.
  - intros H. apply list_eq. intros i. rewrite list_lookup_fmap.
    destruct (decide (i < length mfs)%nat) as [Hi|Hi].
    + rewrite lookup_take_lt, list_lookup_fmap by done.
      destruct (lookup_lt_is_Some_2 mfs i Hi) as [f Hf]. destruct (lookup_lt_is_Some_2 scenes i ltac:(lia)) as [sc Hsc].
      rewrite Hf, Hsc. cbn. f_equal.
      apply (H i (mkEnhanced sc (Some f) (afs !! i) (S i))); [|done].
      unfold enhance. rewrite list_lookup_imap, Hsc. cbn. by rewrite Hf.
    + rewrite lookup_take_ge by lia. by rewrite lookup_ge_None_2 by lia.
  - intros H i e f He Hm. destruct (enhance_lookup _ _ _ _ _ He) as (sc & Hsc & ->). cbn in Hm |- *.
    apply (f_equal (fun l => l !! i)) in H. rewrite list_lookup_fmap, Hm in H. cbn in H.
    rewrite lookup_take_lt in H by (by apply lookup_lt_Some in Hm). rewrite list_lookup_fmap, Hsc in H.
    by injection H.
Qed.

(** ** The composition of [generateScriptWithMedia] *)

Section Composition.
Context {E : Encoder}.
Variables (generateContent : option string -> string -> res string) (sentence_tokenize : string -> list string).
Variables (tts : string -> res file) (px : pixabay_env) (backendDir : string).
Hypothesis latency_pos : forall url, (1 <= px_latency px url)%Z.

(** The files of the media search come one per scene at most, in order. *)
Lemma pixabay_files_fit scenes s s' mfs :
  Pixabay.pixabay_processScenes px scenes s = (s', Ok mfs) -> (length mfs <= length scenes)%nat.
Proof.
  intros Hrun.
  destruct (process_loop_spec (H0 := pixabay_laws px latency_pos) scenes [] s s' mfs Hrun) as (fs & -> & Hsub & _);
    [constructor | constructor |].
  apply sublist_length in Hsub. rewrite !length_map in Hsub. done.
Qed.

(** C26: in the reply of [generateScriptWithMedia], every scene carries
    the media found for it exactly when the scenes the media search
    skipped are the last ones; a scene skipped earlier shifts the media
    of all the scenes after it. *)
Theorem generateScriptWithMedia_alignment prompt options s r enh mfs afs vsp :
  (generateScriptWithMedia generateContent sentence_tokenize tts px backendDir prompt options s).2 =
    Ok (mkReply 200 (RScriptWithMedia r enh mfs afs vsp)) ->
  enh = enhance (result_scenes r) mfs afs /\
  ((forall i e f, enh !! i = Some e -> es_media e = Some f -> mf_sceneNumber f = ws_sceneNumber (es_scene e)) <->
   mf_sceneNumber <$> mfs = take (length mfs) (ws_sceneNumber <$> result_scenes r)).
Proof.
  unfold generateScriptWithMedia. cbv [mcatch mbind lift_res mret].
  repeat case_match; cbn; intros; simplify_eq. split; [done|].
  apply enhance_alignment. by eapply pixabay_files_fit.
Qed.
End Composition.
(** ** The replies of [generateScriptWithMedia] *)

(** The handler always answers: with 200 and the clips the video
    generator published, at least one, or with an error status and a
    message. *)
Lemma generateScriptWithMedia_reply `{E : Encoder} generateContent sentence_tokenize tts px backendDir
    prompt options s s' rep :
  generateScriptWithMedia generateContent sentence_tokenize tts px backendDir prompt options s = (s', Ok rep) ->
  (status rep = 200%Z /\ exists r enh mfs afs vsp, body rep = RScriptWithMedia r enh mfs afs vsp /\ vsp <> []) \/
  (status rep <> 200%Z /\ exists e, body rep = RError e).
Proof.
  unfold generateScriptWithMedia. cbv [mcatch mbind lift_res mret lift_w].
  repeat case_match; cbn; intros; simplify_eq; try (right; split; [done | eauto]).
  left. split; [done|]. do 5 eexists. split; [reflexivity|]. by eapply SceneOrchestratorFacts.generateVideo_nonempty.
Qed.

(** ** The duration of a picture *)

Lemma timing_string_ne m sec : String.eqb (timing_string m sec) "" = false.
Proof.
  apply String.eqb_neq. unfold timing_string. apply string_app_nonempty.
  rewrite string_app_cons. discriminate.
Qed.

(** C33: the wizard writes a scene's duration as ["M:SS"] and the media
    search hands it on; the video generator reads it with [parseFloat],
    so a picture of a scene of [wc] words (fewer than 9000) is shown for
    [wc / 150] seconds, the minutes of the estimate, and for the default
    5 s when the estimate is under a minute. *)
Theorem image_scene_media_duration scene d w wc :
  (Z.of_nat wc < 9000)%Z -> ws_duration scene = timing_of_count wc -> dl_type d = "image" ->
  exists q, resolve_media_duration (media_of (scene_media_file scene d)) w = (w, Ok (JNum q)) /\
    q == (if (Z.of_nat wc <? 150)%Z then 5 else inject_Z (Z.of_nat wc / 150)).
Proof.
  intros Hwc Ht Hd. unfold scene_media_file, media_of. rewrite Ht, timing_of_count_eq, timing_string_ne.
  cbn [mf_type mf_path mf_duration]. rewrite Hd.
  destruct (timing_seconds_range wc) as [Hsec _].
  assert (Hm : (0 <= Z.of_nat wc / 150 < 60)%Z) by (split; [apply Z.div_pos | apply Z.div_lt_upper_bound]; lia).
  destruct (parse_float_timing _ _ Hm Hsec) as (q & Hq & Hqm).
  unfold resolve_media_duration.
  match goal with |- context [is_image ?m] => replace (is_image m) with true by reflexivity end.
  cbv [mbind mret mthrow]. cbn [media_duration parseFloat]. rewrite Hq.
  set (m := (Z.of_nat wc / 150)%Z) in *.
  destruct (Z.ltb_spec (Z.of_nat wc) 150) as [Hlt|Hge].
  - assert (Hm0 : m = 0%Z) by (apply Z.div_small; lia). rewrite Hm0 in Hqm.
    assert (Hz : Qeq_bool q 0 = true) by (apply Qeq_bool_iff; exact Hqm).
    exists 5. unfold js_truthy. rewrite Hz. cbn. split; reflexivity.
  - assert (Hpos : (1 <= m)%Z) by (apply Z.div_le_lower_bound; lia).
    assert (Hq0 : 0 < q) by (rewrite Hqm; unfold Qlt; cbn; lia).
    assert (Hz : Qeq_bool q 0 = false) by (apply not_true_iff_false; intros Hq'%Qeq_bool_iff; lra).
    assert (Hle : Qle_bool q 0 = false) by (apply not_true_iff_false; intros Hq'%Qle_bool_iff; lra).
    exists q. unfold js_truthy. rewrite Hz. cbn. rewrite Hle. cbn. split; [reflexivity | exact Hqm].
Qed.

End ScriptControllerFacts.
