(* ===== verification/Editor.v ===== *)
(** * The video editor ([frontend/src/components/videoEditor.component.jsx])

    [VideoEditor] plays the clips the back end published.  Its React
    state is [currentClip], [isPlaying] and [progress], and the [<video>]
    element behind [videoRef] has its own state: the source, whether it
    is paused, the playback position and the duration.  Every user event
    (the Play/Pause, Previous and Next buttons, a thumbnail, the
    timeline) and every event of the element ([loadedmetadata],
    playback, [timeupdate], [ended]) is one [step]: the handler runs,
    React re-renders, and the effect on [[currentClip, isPlaying,
    videoClips]] runs when a dependency changed ([Object.is]).
    [reachable] is the set of states a mounted editor reaches.

    The media element follows the HTML standard in what the component
    relies on: assigning [src] runs the load algorithm (the position goes
    back to 0, the element is paused, the duration is unknown until the
    metadata arrive); [play()] and [pause()] set [paused]; the element
    reaches [ended] at the end of the clip and is then paused.  The
    markup (class names, the thumbnails' labels) is view code and is not
    modelled: the component reads only the [path] of a clip. *)

From S2P Require Import Prelude Media Scene.
From Stdlib Require Import Ascii.
Local Open Scope string_scope.
Local Open Scope js_scope.

(** ** Numbers as the component computes with them *)

(** [a % b]: the remainder of the truncated division; [NaN] when [b] is
    [0]. *)
Definition Qtrunc (q : Q) : Z := if Qle_bool 0 q then Qfloor q else (- Qfloor (- q))%Z.

Definition js_rem (a b : jsnum) : jsnum :=
  match a, b with
  | JNum x, JNum y => if Qeq_bool y 0 then JNaN else JNum (x - y * inject_Z (Qtrunc (x / y)))
  | JNum x, JInf _ => JNum x
  | _, _ => JNaN
  end.

(** [Object.is(a, b)] on numbers, the comparison of the dependencies of
    an effect and of a state update. *)
Definition js_same_value (a b : jsnum) : bool :=
  match a, b with
  | JNum x, JNum y => Qeq_bool x y
  | JNaN, JNaN => true
  | JInf n1, JInf n2 => Bool.eqb n1 n2
  | _, _ => false
  end.

(** [array[i]]: an element for an integral index in range, [undefined]
    otherwise. *)
Definition js_index {A} (xs : list A) (i : jsnum) : option A :=
  match i with
  | JNum q => if Qeq_bool q (inject_Z (Qfloor q)) && Z.leb 0 (Qfloor q) then xs !! Z.to_nat (Qfloor q) else None
  | _ => None
  end.

(** [n] as a JavaScript number. *)
Definition js_nat (n : nat) : jsnum := JNum (inject_Z (Z.of_nat n)).

Module VideoEditor.

(** ** The [<video>] element *)

Record media_el : Type := mkEl {
  el_src : option string;   (** [src], [None] before the first assignment *)
  el_paused : bool;
  el_time : Q;              (** [currentTime] *)
  el_duration : jsnum       (** [duration]: [NaN] until the metadata are loaded *)
}.

(** The element as the first render creates it. *)
Definition new_el : media_el := mkEl None true 0 JNaN.

(** [video.src = p]: the load algorithm. *)
Definition el_load (p : string) (el : media_el) : media_el := mkEl (Some p) true 0 JNaN.

(** [video.play()] and [video.pause()] *)
Definition el_play (el : media_el) : media_el := mkEl (el_src el) false (el_time el) (el_duration el).
Definition el_pause (el : media_el) : media_el := mkEl (el_src el) true (el_time el) (el_duration el).

Definition non_finite_time : js_error :=
  ErrTypeError "Failed to set the 'currentTime' property on 'HTMLMediaElement': The provided double value is non-finite.".

(** [video.currentTime = t]: a value that is not finite is refused with a
    [TypeError]; a seek is clamped to the media. *)
Definition el_seek (t : jsnum) (el : media_el) : res media_el :=
  match t, el_duration el with
  | JNum q, JNum d => Ok (mkEl (el_src el) (el_paused el) (Qmax 0 (Qmin q d)) (el_duration el))
  | JNum q, _ => Ok el
  | _, _ => Throw non_finite_time
  end.

(** ** The component *)

(** The state of a mounted [VideoEditor]: its three [useState]s and the
    element behind [videoRef]. *)
Record editor : Type := mkEditor {
  currentClip : jsnum;
  isPlaying : bool;
  progress : jsnum;
  video : media_el
}.

Definition set_video (s : editor) (el : media_el) : editor := mkEditor (currentClip s) (isPlaying s) (progress s) el.
Definition set_clip (s : editor) (c : jsnum) : editor := mkEditor c (isPlaying s) (progress s) (video s).
Definition set_playing (s : editor) (b : bool) : editor := mkEditor (currentClip s) b (progress s) (video s).
Definition set_progress (s : editor) (p : jsnum) : editor := mkEditor (currentClip s) (isPlaying s) p (video s).

Section Component.
(** The [videoClips] prop: the [{ path, duration }] objects of the back
    end. *)
Variable videoClips : list rendered.

Definition clips_length : jsnum := js_nat (length videoClips).

(** The first effect, on [[currentClip, isPlaying, videoClips]]. *)
Definition load_effect (s : editor) : res media_el :=
  if Nat.eqb (length videoClips) 0 then Ok (video s)
  else match js_index videoClips (currentClip s) with
       | None => Throw (ErrTypeError "Cannot read properties of undefined (reading 'path')")
       | Some clip =>
           let el := el_load (r_path clip) (video s) in
           Ok (if isPlaying s then el_play el else el_pause el)
       end.

(** The render after a handler: the effect runs when a dependency
    changed. *)
Definition commit (old new : editor) : res editor :=
  if js_same_value (currentClip old) (currentClip new) && Bool.eqb (isPlaying old) (isPlaying new)
  then Ok new
  else el <-? load_effect new ;; Ok (set_video new el).

(** [handlePlayPause] *)
Definition handlePlayPause (s : editor) : editor :=
  if el_paused (video s) then set_playing (set_video s (el_play (video s))) true
  else set_playing (set_video s (el_pause (video s))) false.

(** [handleNextClip]: [setCurrentClip((prev) => (prev + 1) % videoClips.length)] *)
Definition handleNextClip (s : editor) : editor :=
  set_clip s (js_rem (js_add (currentClip s) (JNum 1)) clips_length).

(** [handlePrevClip] *)
Definition handlePrevClip (s : editor) : editor :=
  set_clip s (js_rem (js_add (js_sub (currentClip s) (JNum 1)) clips_length) clips_length).

(** [handleVideoEnd] *)
Definition handleVideoEnd (s : editor) : editor :=
  if js_lt (currentClip s) (js_sub clips_length (JNum 1)) then handleNextClip s
  else set_playing (set_video s (el_pause (video s))) false.

(** [handleTimelineClick(e)]: [x] is [e.clientX - rect.left], [width] is
    [rect.width]. *)
Definition handleTimelineClick (x width : Q) (s : editor) : res editor :=
  let clickedProgress := js_mul (js_div (JNum x) (JNum width)) (JNum 100) in
  el <-? el_seek (js_mul (js_div clickedProgress (JNum 100)) (el_duration (video s))) (video s) ;;
  Ok (set_video s el).

(** [updateProgress], the [timeupdate] listener of the second effect. *)
Definition updateProgress (s : editor) : editor :=
  let v := video s in
  let duration := if js_truthy (el_duration v) then el_duration v else JNum 1 in
  set_progress s (js_mul (js_div (JNum (el_time v)) duration) (JNum 100)).

(** The events. *)
Inductive ui_event : Type :=
| UPlayPause                   (** the Play/Pause button *)
| UPrev                        (** the Previous button *)
| UNext                        (** the Next button *)
| USelect (index : nat)        (** the thumbnail of clip [index]: [setCurrentClip(index)] *)
| UTimeline (x width : Q)      (** a click on the timeline *)
| ULoadedMetadata (d : Q)      (** the element learns the duration of its source *)
| UAdvance (t : Q)             (** playback reaches position [t] *)
| UTimeUpdate                  (** the element fires [timeupdate] *)
| UEnded.                      (** the element fires [ended] *)

(** The handler of an event, before React renders. *)
Definition handle (s : editor) (ev : ui_event) : res editor :=
  let v := video s in
  match ev with
  | UPlayPause => Ok (handlePlayPause s)
  | UPrev => Ok (handlePrevClip s)
  | UNext => Ok (handleNextClip s)
  | USelect i => Ok (if Nat.ltb i (length videoClips) then set_clip s (js_nat i) else s)
  | UTimeline x w => handleTimelineClick x w s
  | ULoadedMetadata d =>
      Ok (match el_src v, el_duration v with
          | Some _, JNaN => if Qle_bool 0 d then set_video s (mkEl (el_src v) (el_paused v) (el_time v) (JNum d)) else s
          | _, _ => s
          end)
  | UAdvance t =>
      Ok (match el_duration v with
          | JNum d => if negb (el_paused v) && Qle_bool (el_time v) t && Qle_bool t d
                      then set_video s (mkEl (el_src v) false t (JNum d)) else s
          | _ => s
          end)
  | UTimeUpdate => Ok (updateProgress s)
  | UEnded =>
      Ok (match el_duration v with
          | JNum d => if negb (el_paused v) && Qeq_bool (el_time v) d
                      then handleVideoEnd (set_video s (el_pause v)) else s
          | _ => s
          end)
  end.

(** One step: the handler, then the render and its effect. *)
Definition step (s : editor) (ev : ui_event) : res editor :=
  s' <-? handle s ev ;; commit s s'.

(** The mount: the initial state and the first run of the effect. *)
Definition mount : res editor :=
  let s := mkEditor (JNum 0) false (JNum 0) new_el in
  el <-? load_effect s ;; Ok (set_video s el).

(** The states the component reaches. *)
Inductive reachable : editor -> Prop :=
| reach_mount s : mount = Ok s -> reachable s
| reach_step s ev s' : reachable s -> step s ev = Ok s' -> reachable s'.

(** A run of events from the mount. *)
Fixpoint run (s : editor) (evs : list ui_event) : res editor :=
  match evs with
  | [] => Ok s
  | ev :: r => s' <-? step s ev ;; run s' r
  end.
End Component.
End VideoEditor.

Module VideoEditorFacts.
Import VideoEditor.

(** ** The component's numbers respect numeric equality *)

Local Ltac num_cases :=
  cbn -[Qeq Qplus Qmult Qopp Qminus Qdiv Qinv Qle_bool Qeq_bool Qfloor Qtrunc] in *; try done; subst; try done.

#[export] Instance Qtrunc_proper : Proper (Qeq ==> eq) Qtrunc.
Proof.
  intros x y Hxy. unfold Qtrunc. rewrite Hxy. case_match; [by apply Qfloor_comp|].
  f_equal. apply Qfloor_comp. by rewrite Hxy.
Qed.

#[export] Instance JNum_proper : Proper (Qeq ==> (≡)) JNum.
Proof. intros x y H. exact H. Qed.

#[export] Instance Qeq_bool_proper : Proper (Qeq ==> Qeq ==> eq) Qeq_bool.
Proof.
  intros x x' Hx y y' Hy. apply Bool.eq_iff_eq_true. rewrite !Qeq_bool_iff, Hx, Hy. done.
Qed.

#[export] Instance js_add_proper : Proper ((≡) ==> (≡) ==> (≡)) js_add.
Proof.
  intros [x| |n] [x'| |n'] Hx [y| |m] [y'| |m'] Hy; num_cases.
  by rewrite Hx, Hy.
Qed.

#[export] Instance js_neg_proper : Proper ((≡) ==> (≡)) js_neg.
Proof. intros [x| |n] [x'| |n'] Hx; num_cases. by rewrite Hx. Qed.

#[export] Instance js_sub_proper : Proper ((≡) ==> (≡) ==> (≡)) js_sub.
Proof. intros a a' Ha b b' Hb. unfold js_sub. by rewrite Ha, Hb. Qed.

#[export] Instance js_rem_proper : Proper ((≡) ==> (≡) ==> (≡)) js_rem.
Proof.
  intros [x| |n] [x'| |n'] Hx [y| |m] [y'| |m'] Hy; num_cases.
  rewrite Hy. destruct (Qeq_bool y' 0); [done|]. apply JNum_proper.
  assert (Ht : Qtrunc (x / y) = Qtrunc (x' / y')) by (apply Qtrunc_proper; by rewrite Hx, Hy).
  by rewrite Ht, Hx, Hy.
Qed.

#[export] Instance js_lt_proper : Proper ((≡) ==> (≡) ==> eq) js_lt.
Proof.
  intros [x| |n] [x'| |n'] Hx [y| |m] [y'| |m'] Hy; num_cases.
  unfold Qlt_bool. by rewrite Hx, Hy.
Qed.

#[export] Instance js_same_value_proper : Proper ((≡) ==> (≡) ==> eq) js_same_value.
Proof.
  intros [x| |n] [x'| |n'] Hx [y| |m] [y'| |m'] Hy; num_cases.
  by rewrite Hx, Hy.
Qed.

#[export] Instance js_index_proper {A} (xs : list A) : Proper ((≡) ==> eq) (js_index xs).
Proof.
  intros [x| |n] [x'| |n'] Hx; num_cases. by rewrite (Qfloor_comp _ _ Hx), Hx.
Qed.

Lemma js_index_equiv {A} (xs : list A) a b : a ≡ b -> js_index xs a = js_index xs b.
Proof. apply js_index_proper. Qed.

Lemma js_index_nat {A} (xs : list A) i : js_index xs (js_nat i) = xs !! i.
Proof.
  unfold js_index, js_nat. rewrite Qfloor_Z, Nat2Z.id.
  replace (Qeq_bool _ _) with true by (symmetry; by apply Qeq_bool_iff).
  by replace (Z.leb 0 (Z.of_nat i)) with true by (symmetry; apply Z.leb_le; lia).
Qed.

Lemma js_same_value_nat i j : js_same_value (js_nat i) (js_nat j) = Nat.eqb i j.
Proof.
  unfold js_same_value, js_nat. destruct (Nat.eqb_spec i j) as [->|Hne].
  - apply Qeq_bool_iff. reflexivity.
  - apply not_true_iff_false. rewrite Qeq_bool_iff. intros H. apply (proj1 (inject_Z_injective _ _)) in H. lia.
Qed.

Lemma js_lt_nat i j : js_lt (js_nat i) (js_nat j) = Nat.ltb i j.
Proof.
  unfold js_lt, js_nat, Qlt_bool. destruct (Nat.ltb_spec i j) as [H|H].
  - apply negb_true_iff, not_true_iff_false. rewrite Qle_bool_iff, <- Zle_Qle. lia.
  - apply negb_false_iff. rewrite Qle_bool_iff, <- Zle_Qle. lia.
Qed.

Lemma js_add_nat i j : js_add (js_nat i) (js_nat j) ≡ js_nat (i + j).
Proof. cbn. rewrite Nat2Z.inj_add, inject_Z_plus. reflexivity. Qed.

Lemma js_sub_nat i j : (j <= i)%nat -> js_sub (js_nat i) (js_nat j) ≡ js_nat (i - j).
Proof. intros H. cbn. rewrite Nat2Z.inj_sub by done. unfold Z.sub. rewrite inject_Z_plus, inject_Z_opp. reflexivity. Qed.

Lemma Qfloor_div_Z a (p : positive) : Qfloor (inject_Z a / inject_Z (Zpos p)) = (a / Zpos p)%Z.
Proof. cbn. by rewrite Z.mul_1_r. Qed.

Lemma js_nat_pred_add i m : (1 <= i + m)%nat -> js_add (js_sub (js_nat i) (JNum 1)) (js_nat m) ≡ js_nat (i + m - 1).
Proof.
  intros H. cbn [js_sub js_neg js_add]. unfold js_nat. apply JNum_proper.
  rewrite Nat2Z.inj_sub, Nat2Z.inj_add by lia. unfold Z.sub. rewrite !inject_Z_plus, inject_Z_opp. ring.
Qed.

Lemma js_rem_nat a n : (0 < n)%nat -> js_rem (js_nat a) (js_nat n) ≡ js_nat (a mod n).
Proof.
  intros Hn. unfold js_rem, js_nat.
  destruct (Z.of_nat n) as [|p|p] eqn:En; [lia| |lia].
  replace (Qeq_bool _ _) with false by (symmetry; apply not_true_iff_false; rewrite Qeq_bool_iff; discriminate).
  cbn [equiv jsnum_Equiv jsnum_equiv].
  assert (Htr : Qtrunc (inject_Z (Z.of_nat a) / inject_Z (Zpos p)) = (Z.of_nat a / Zpos p)%Z).
  { unfold Qtrunc. rewrite Qfloor_div_Z. case_match; [done|].
    exfalso. apply not_true_iff_false in H. apply H, Qle_bool_iff. unfold Qle. cbn. lia. }
  rewrite Htr, Nat2Z.inj_mod, En, Z.mod_eq by lia.
  unfold Z.sub. rewrite inject_Z_plus, inject_Z_opp, inject_Z_mult. reflexivity.
Qed.

Lemma js_same_value_equiv a b : js_same_value a b = true -> a ≡ b.
Proof.
  destruct a as [x| |m], b as [y| |m']; cbn -[Qeq_bool]; try done.
  - by intros ?%Qeq_bool_iff.
  - by intros ->%eqb_prop.
Qed.

(** ** The invariant of the editor *)

Section Invariant.
Variable videoClips : list rendered.
Local Abbreviation n := (length videoClips).

(** The position lies in the clip; it is [0] while the duration is not
    known. *)
Definition time_ok (el : media_el) : Prop :=
  match el_duration el with
  | JNum d => (0 <= el_time el)%Q /\ (el_time el <= d)%Q
  | JNaN => el_time el == 0
  | JInf _ => False
  end.

(** The progress bar is a percentage. *)
Definition progress_ok (p : jsnum) : Prop := exists q, p = JNum q /\ (0 <= q)%Q /\ (q <= 100)%Q.

(** The element plays the clip [i] the state names. *)
Definition shows (i : nat) (s : editor) : Prop :=
  (i < n)%nat /\ currentClip s ≡ js_nat i /\
  exists c, videoClips !! i = Some c /\ el_src (video s) = Some (r_path c).

Definition editor_inv (s : editor) : Prop :=
  el_paused (video s) = negb (isPlaying s) /\ time_ok (video s) /\ progress_ok (progress s) /\
  (if Nat.eqb n 0 then el_src (video s) = None /\ el_duration (video s) = JNaN else exists i, shows i s).

(** The effect loads the clip the state names. *)
Lemma load_effect_eq s i c :
  currentClip s ≡ js_nat i -> videoClips !! i = Some c ->
  load_effect videoClips s = Ok (let el := el_load (r_path c) (video s) in
                                 if isPlaying s then el_play el else el_pause el).
Proof.
  intros Hc Hc'. assert (Hi : (i < n)%nat) by (by apply lookup_lt_Some in Hc').
  unfold load_effect. rewrite (proj2 (Nat.eqb_neq n 0)) by lia.
  by rewrite (js_index_equiv videoClips _ _ Hc), js_index_nat, Hc'.
Qed.

Lemma load_effect_shows s i :
  (i < n)%nat -> currentClip s ≡ js_nat i -> progress_ok (progress s) ->
  exists el, load_effect videoClips s = Ok el /\ editor_inv (set_video s el).
Proof.
  intros Hi Hc Hp. destruct (lookup_lt_is_Some_2 videoClips i Hi) as [c Hc'].
  rewrite (load_effect_eq s i c Hc Hc'). eexists; split; [reflexivity|]. unfold editor_inv. cbn.
  replace (Nat.eqb n 0) with false by (symmetry; apply Nat.eqb_neq; lia).
  destruct (isPlaying s); cbn; (split_and!; [done | reflexivity | done |]); exists i; split_and!; eauto.
Qed.

Lemma load_effect_empty s : n = 0%nat -> load_effect videoClips s = Ok (video s).
Proof. intros Hn. unfold load_effect. by rewrite Hn. Qed.

(** What a handler must leave for the render to restore the invariant:
    a valid progress and clip index, a consistent element when there are
    no clips, and the whole invariant when no dependency changed. *)
Definition pre (s s1 : editor) : Prop :=
  progress_ok (progress s1) /\
  (n <> 0%nat -> exists i, (i < n)%nat /\ currentClip s1 ≡ js_nat i) /\
  (n = 0%nat -> (el_src (video s1) = None /\ el_duration (video s1) = JNaN) /\
                el_paused (video s1) = negb (isPlaying s1) /\ time_ok (video s1)) /\
  (js_same_value (currentClip s) (currentClip s1) && Bool.eqb (isPlaying s) (isPlaying s1) = true -> editor_inv s1).

Lemma commit_inv s s1 s' : commit videoClips s s1 = Ok s' -> pre s s1 -> editor_inv s'.
Proof.
  intros Hc (Hp & Hidx & Hempty & Hsame). unfold commit in Hc. destruct (_ && _) eqn:E; [simplify_eq; by apply Hsame|].
  destruct (decide (n = 0%nat)) as [Hn|Hn].
  - rewrite load_effect_empty in Hc by done. cbn in Hc. simplify_eq.
    destruct (Hempty Hn) as (Hs & Hpa & Ht). unfold editor_inv. rewrite Hn. cbn. by destruct s1.
  - destruct (Hidx Hn) as (i & Hi & Hci). destruct (load_effect_shows s1 i Hi Hci Hp) as (el & Hel & Hinv).
    rewrite Hel in Hc. cbn in Hc. by simplify_eq.
Qed.

Lemma inv_set_clip s c : editor_inv s -> c ≡ currentClip s -> editor_inv (set_clip s c).
Proof.
  intros (Hpa & Ht & Hp & Hs) Hc. split_and!; try done. cbn. destruct (Nat.eqb n 0); [done|].
  destruct Hs as (i & Hi & Hci & Hsrc). exists i. split_and!; [done | cbn; by rewrite Hc | done].
Qed.

Lemma pre_of_inv s s1 : editor_inv s1 -> pre s s1.
Proof.
  intros Hinv. pose proof Hinv as (Hpa & Ht & Hp & Hs). split_and!; [done | | | by intros _].
  - intros Hn. apply Nat.eqb_neq in Hn. rewrite Hn in Hs. destruct Hs as (i & Hi & Hc & _). eauto.
  - intros Hn. rewrite Hn in Hs. auto.
Qed.

Lemma pre_set_clip s c :
  editor_inv s -> (n <> 0%nat -> exists j, (j < n)%nat /\ c ≡ js_nat j) -> pre s (set_clip s c).
Proof.
  intros Hinv Hc. pose proof Hinv as (Hpa & Ht & Hp & Hs). split_and!; [done | done | |].
  - intros Hn. rewrite Hn in Hs. auto.
  - intros Hsame%andb_prop. apply inv_set_clip; [done|]. symmetry. by apply js_same_value_equiv, Hsame.
Qed.

(** [timeupdate] sets the progress to a percentage. *)
Lemma updateProgress_ok s : time_ok (video s) -> progress_ok (progress (updateProgress s)).
Proof.
  unfold updateProgress, time_ok. cbn. destruct (el_duration (video s)) as [d| |]; cbn -[Qeq_bool]; [|intros Ht|done].
  - intros [H0 H1]. destruct (Qeq_bool d 0) eqn:Hd; cbn -[Qeq_bool].
    + apply Qeq_bool_iff in Hd. replace (Qeq_bool 1 0) with false by reflexivity.
      eexists; split; [reflexivity|]. assert (Ht : el_time (video s) / 1 == 0) by (rewrite Hd in H1; field_simplify; lra).
      rewrite Ht. lra.
    + rewrite Hd. eexists; split; [reflexivity|].
      assert (Hpos : (0 < d)%Q) by (apply Qeq_bool_neq in Hd; lra).
      assert (Hr0 : (0 <= el_time (video s) / d)%Q) by (apply Qle_shift_div_l; lra).
      assert (Hr1 : (el_time (video s) / d <= 1)%Q) by (apply Qle_shift_div_r; lra).
      lra.
  - replace (Qeq_bool 1 0) with false by reflexivity. eexists; split; [reflexivity|].
    assert (Ht' : el_time (video s) / 1 == 0) by (rewrite Ht; reflexivity). rewrite Ht'. lra.
Qed.

Lemma inv_shows s : editor_inv s -> n <> 0%nat -> exists i, shows i s.
Proof. intros (_ & _ & _ & Hs) Hn. by rewrite (proj2 (Nat.eqb_neq n 0) Hn) in Hs. Qed.

Lemma inv_empty s : editor_inv s -> n = 0%nat -> el_src (video s) = None /\ el_duration (video s) = JNaN.
Proof. intros (_ & _ & _ & Hs) Hn. by rewrite Hn in Hs. Qed.

Lemma next_clip_equiv s i :
  currentClip s ≡ js_nat i -> (0 < n)%nat -> currentClip (handleNextClip videoClips s) ≡ js_nat (S i mod n).
Proof.
  intros Hc Hn. cbn. unfold clips_length. rewrite Hc. change (JNum 1) with (js_nat 1).
  rewrite js_add_nat, Nat.add_1_r. by apply js_rem_nat.
Qed.

Lemma prev_clip_equiv s i :
  currentClip s ≡ js_nat i -> (0 < n)%nat -> currentClip (handlePrevClip videoClips s) ≡ js_nat ((i + n - 1) mod n).
Proof.
  intros Hc Hn. cbn. unfold clips_length. rewrite Hc, js_nat_pred_add by lia. by apply js_rem_nat.
Qed.

Lemma last_clip_test s i :
  currentClip s ≡ js_nat i -> (0 < n)%nat ->
  js_lt (currentClip s) (js_sub (clips_length videoClips) (JNum 1)) = Nat.ltb i (n - 1).
Proof.
  intros Hc Hn. unfold clips_length. change (JNum 1) with (js_nat 1). rewrite Hc, js_sub_nat by lia.
  apply js_lt_nat.
Qed.

Local Ltac inv_parts := match goal with H : editor_inv ?s |- _ => pose proof H as (?Hpa & ?Ht & ?Hp & ?Hs) end.

Lemma pre_playpause s : editor_inv s -> pre s (handlePlayPause s).
Proof.
  intros Hinv. inv_parts. unfold handlePlayPause.
  assert (Heqb : Bool.eqb (isPlaying s) (el_paused (video s)) = false) by (rewrite Hpa; by destruct (isPlaying s)).
  split_and!.
  - by destruct (el_paused _).
  - intros Hn. destruct (inv_shows s Hinv Hn) as (i & Hi & Hc & _). exists i. by destruct (el_paused _).
  - intros Hn. destruct (inv_empty s Hinv Hn). by destruct (el_paused _).
  - rewrite andb_true_iff. destruct (el_paused _) eqn:E; cbn; intros [_ Hb]; by rewrite Heqb in Hb.
Qed.

Lemma pre_next s : editor_inv s -> pre s (handleNextClip videoClips s).
Proof.
  intros Hinv. apply pre_set_clip; [done|]. intros Hn. destruct (inv_shows s Hinv Hn) as (i & Hi & Hc & _).
  exists (S i mod n). split; [apply Nat.mod_upper_bound; lia | apply next_clip_equiv; [done | lia]].
Qed.

Lemma pre_prev s : editor_inv s -> pre s (handlePrevClip videoClips s).
Proof.
  intros Hinv. apply pre_set_clip; [done|]. intros Hn. destruct (inv_shows s Hinv Hn) as (i & Hi & Hc & _).
  exists ((i + n - 1) mod n). split; [apply Nat.mod_upper_bound; lia | apply prev_clip_equiv; [done | lia]].
Qed.

Lemma time_ok_seek el t el' : time_ok el -> el_seek t el = Ok el' -> time_ok el'.
Proof.
  unfold el_seek, time_ok. destruct t as [q| |]; destruct (el_duration el) as [d| |] eqn:Ed; intros Ht [= <-]; cbn;
    rewrite ?Ed; try done.
  split; [apply Q.le_max_l|]. apply Q.max_lub; [lra|]. apply Q.le_min_r.
Qed.

Lemma el_seek_keeps t el el' :
  el_seek t el = Ok el' -> el_src el' = el_src el /\ el_duration el' = el_duration el /\ el_paused el' = el_paused el.
Proof. unfold el_seek. by repeat case_match; intros; simplify_eq. Qed.

(** A change of the element that keeps its source, duration and pause
    state and a valid position keeps the invariant. *)
Lemma inv_set_video s el :
  editor_inv s -> el_src el = el_src (video s) -> el_duration el = el_duration (video s) ->
  el_paused el = el_paused (video s) -> time_ok el -> editor_inv (set_video s el).
Proof.
  intros (Hpa & Ht & Hp & Hs) H1 H2 H3 Ht'. unfold editor_inv; cbn. rewrite H1, H2, H3. split_and!; try done.
  destruct (Nat.eqb n 0); [done|]. destruct Hs as (i & Hi & Hc & c & Hc' & Hsrc).
  exists i. unfold shows. cbn. rewrite H1. eauto.
Qed.

Lemma pre_ended s d :
  editor_inv s -> el_paused (video s) = false -> el_duration (video s) = JNum d ->
  pre s (handleVideoEnd videoClips (set_video s (el_pause (video s)))).
Proof.
  intros Hinv Hnp Hd. inv_parts.
  destruct (decide (n = 0%nat)) as [Hn|Hn]; [destruct (inv_empty s Hinv Hn); congruence|].
  destruct (inv_shows s Hinv Hn) as (i & Hi & Hc & _).
  assert (Hplay : isPlaying s = true) by (destruct (isPlaying s); cbn in Hpa; congruence).
  unfold handleVideoEnd. cbn [currentClip set_video]. rewrite (last_clip_test s i) by (done || lia).
  destruct (Nat.ltb_spec i (n - 1)) as [Hlt|Hge].
  - split_and!; [done | | done |].
    + intros _. exists (S i mod n). split; [apply Nat.mod_upper_bound; lia | apply next_clip_equiv; [done | lia]].
    + rewrite (js_same_value_proper _ _ Hc _ _ (next_clip_equiv (set_video s (el_pause (video s))) i Hc ltac:(lia))).
      rewrite js_same_value_nat, Nat.mod_small by lia. by rewrite (proj2 (Nat.eqb_neq i (S i))) by lia.
  - split_and!; [done | intros _; by exists i | done |].
    cbn. rewrite Hplay. by rewrite andb_false_r.
Qed.

Lemma handle_pre s ev s1 : editor_inv s -> handle videoClips s ev = Ok s1 -> pre s s1.
Proof.
  intros Hinv Hh. inv_parts. destruct ev as [| | |i|x w|d|t| |]; cbn [handle] in Hh.
  - injection Hh as <-. by apply pre_playpause.
  - injection Hh as <-. by apply pre_prev.
  - injection Hh as <-. by apply pre_next.
  - injection Hh as <-. destruct (Nat.ltb_spec i n); [|by apply pre_of_inv].
    apply pre_set_clip; [done|]. intros _. by exists i.
  - unfold handleTimelineClick in Hh. destruct (el_seek _ _) as [el| |] eqn:Hseek; cbn in Hh; try done.
    injection Hh as <-. apply pre_of_inv. destruct (el_seek_keeps _ _ _ Hseek) as (H1 & H2 & H3).
    apply inv_set_video; auto. exact (time_ok_seek _ _ _ Ht Hseek).
  - injection Hh as <-. apply pre_of_inv.
    destruct (el_src (video s)) eqn:Hsrc; [|done]. destruct (el_duration (video s)) eqn:Hd; try done.
    destruct (Qle_bool 0 d) eqn:Hd0; [|done]. apply Qle_bool_iff in Hd0.
    unfold time_ok in Ht. rewrite Hd in Ht.
    unfold editor_inv. split_and!; [done | cbn; split; [rewrite Ht; lra | rewrite Ht; done] | done |].
    cbn. destruct (Nat.eqb n 0) eqn:Hn; [destruct Hs; congruence|].
    destruct Hs as (i & Hi & Hc & c & Hc' & Hsrc'). rewrite Hsrc in Hsrc'. exists i. unfold shows. cbn. eauto.
  - injection Hh as <-. apply pre_of_inv.
    unfold time_ok in Ht. destruct (el_duration (video s)) as [d| |] eqn:Hd; try done.
    destruct (negb _ && _ && _) eqn:Hg; [|done]. apply andb_prop in Hg as [[Hp0%negb_true_iff Ht1%Qle_bool_iff]%andb_prop Ht2%Qle_bool_iff].
    unfold editor_inv. split_and!; [by rewrite <- Hp0 | cbn; lra | done | done].
  - injection Hh as <-. apply pre_of_inv. unfold editor_inv. split_and!; [done | done | by apply updateProgress_ok | done].
  - injection Hh as <-. destruct (el_duration (video s)) as [d| |] eqn:Hd; try by apply pre_of_inv.
    destruct (negb _ && _) eqn:Hg; [|by apply pre_of_inv]. apply andb_prop in Hg as [Hp0%negb_true_iff _].
    by eapply pre_ended.
Qed.

Lemma step_inv s ev s' : editor_inv s -> step videoClips s ev = Ok s' -> editor_inv s'.
Proof.
  intros Hinv Hstep. unfold step in Hstep.
  destruct (handle videoClips s ev) as [s1| |] eqn:Hh; cbn in Hstep; try done.
  eapply commit_inv; [exact Hstep|]. by eapply handle_pre.
Qed.

Lemma mount_inv s : mount videoClips = Ok s -> editor_inv s.
Proof.
  unfold mount. destruct (decide (n = 0%nat)) as [Hn|Hn].
  - rewrite load_effect_empty by done. intros [= <-]. unfold editor_inv. rewrite Hn. cbn.
    split_and!; try done. by exists 0.
  - destruct (load_effect_shows (mkEditor (JNum 0) false (JNum 0) new_el) 0) as (el & Hel & Hinv);
      [lia | reflexivity | by exists 0 |].
    rewrite Hel. by intros [= <-].
Qed.


Lemma commit_keeps_clip s s1 s' : commit videoClips s s1 = Ok s' -> currentClip s' = currentClip s1.
Proof. unfold commit. destruct (_ && _); [by intros [= ->]|]. by destruct (load_effect videoClips s1); intros [= <-]. Qed.

Lemma commit_ok s s1 : pre s s1 -> exists s', commit videoClips s s1 = Ok s'.
Proof.
  intros (Hp & Hidx & Hempty & _). unfold commit. destruct (_ && _); [eauto|].
  destruct (decide (n = 0%nat)) as [Hn|Hn]; [rewrite load_effect_empty by done; cbn; eauto|].
  destruct (Hidx Hn) as (i & Hi & Hc). destruct (load_effect_shows s1 i Hi Hc Hp) as (el & -> & _). cbn. eauto.
Qed.

Lemma el_seek_result t el : match el_seek t el with Ok _ => True | Throw e => e = non_finite_time | Hang => False end.
Proof. unfold el_seek. by destruct t, (el_duration el). Qed.

(** A handler fails only on a click on the timeline, with the
    [TypeError] of a position that is not a number. *)
Lemma handle_result s ev :
  match handle videoClips s ev with
  | Ok _ => True
  | Throw e => (exists x w, ev = UTimeline x w) /\ e = non_finite_time
  | Hang => False
  end.
Proof.
  destruct ev as [| | |i|x w|d|t| |]; cbn [handle]; try done.
  unfold handleTimelineClick. match goal with |- context [el_seek ?t ?el] => pose proof (el_seek_result t el) end.
  destruct (el_seek _ _); cbn; eauto.
Qed.

Lemma step_ok s ev : editor_inv s -> (forall x w, ev <> UTimeline x w) -> exists s', step videoClips s ev = Ok s'.
Proof.
  intros Hinv Hev. unfold step. pose proof (handle_result s ev) as Hr.
  destruct (handle videoClips s ev) as [s1| e |] eqn:Hh; [| destruct Hr as [(x & w & ->) _]; by edestruct Hev | done].
  cbn. apply commit_ok. by eapply handle_pre.
Qed.

Lemma js_same_value_refl_nat i : js_same_value (js_nat i) (js_nat i) = true.
Proof. by rewrite js_same_value_nat, Nat.eqb_refl. Qed.

Lemma next_prev_mod i : (i < n)%nat -> ((S i mod n) + n - 1) mod n = i.
Proof.
  intros Hi. destruct (decide (S i = n)) as [<-|Hne].
  - rewrite Nat.Div0.mod_same. rewrite Nat.mod_small; lia.
  - rewrite (Nat.mod_small (S i)) by lia. replace (S i + n - 1)%nat with (i + 1 * n)%nat by lia.
    rewrite Nat.Div0.mod_add. by apply Nat.mod_small.
Qed.

(** A mounted editor with clips shows the first one, paused. *)
Lemma mount_shows_first s : n <> 0%nat -> mount videoClips = Ok s -> shows 0 s /\ isPlaying s = false.
Proof.
  intros Hn. destruct (lookup_lt_is_Some_2 videoClips 0 ltac:(lia)) as [c Hc].
  unfold mount. rewrite (load_effect_eq _ 0 c) by (done || reflexivity). cbn. intros [= <-].
  split; [|done]. split_and!; [lia | reflexivity | eauto].
Qed.

(** The mount and every step keep the invariant. *)
Lemma reachable_inv s : reachable videoClips s -> editor_inv s.
Proof. induction 1; [by apply mount_inv | by eapply step_inv]. Qed.
End Invariant.

(** ** What the editor does *)

(** A click on a timeline of non-zero width, once the duration is known,
    moves the position. *)
Lemma handleTimelineClick_ok s x w :
  time_ok (video s) -> ~ (w == 0)%Q -> el_duration (video s) <> JNaN ->
  exists s', handleTimelineClick x w s = Ok s'.
Proof.
  unfold time_ok, handleTimelineClick. intros Ht Hw Hd.
  destruct (el_duration (video s)) as [d| |] eqn:E; [|done|done].
  cbn [js_div js_mul]. replace (Qeq_bool w 0) with false by (symmetry; by apply not_true_iff_false; rewrite Qeq_bool_iff).
  replace (Qeq_bool 100 0) with false by reflexivity. unfold el_seek. rewrite E. cbn. by eexists.
Qed.

(** C5: the editor never crashes.  From every state it reaches, every
    event leads to a state that satisfies the invariant (the clip index
    stays a valid index, the element shows that clip, it is paused
    exactly when [isPlaying] is false, the position lies in the clip and
    the progress bar is a percentage); the only event that throws is a
    click on the timeline while the duration is not known or while the
    timeline has width 0, with the [TypeError] of a position that is not
    a finite number, and no event leaves the component stuck. *)
Theorem editor_step_safe videoClips s ev :
  reachable videoClips s ->
  match step videoClips s ev with
  | Ok s' => editor_inv videoClips s'
  | Throw e => (exists x w, ev = UTimeline x w /\ (el_duration (video s) = JNaN \/ (w == 0)%Q)) /\ e = non_finite_time
  | Hang => False
  end.
Proof.
  intros Hr. pose proof (reachable_inv videoClips s Hr) as Hinv. unfold step.
  pose proof (handle_result videoClips s ev) as Hres.
  destruct (handle videoClips s ev) as [s1| e |] eqn:Hh; [cbn | | done].
  2: { destruct Hres as [(x & w & ->) ->]. split; [|done]. exists x, w. split; [done|].
       destruct (decide (el_duration (video s) = JNaN)) as [|Hd]; [by left|]. right.
       destruct (Qeq_dec w 0) as [|Hw]; [done|]. destruct Hinv as (_ & Ht & _).
       destruct (handleTimelineClick_ok s x w Ht Hw Hd) as [s' Hs']. cbn [handle] in Hh. congruence. }
  pose proof (handle_pre videoClips s ev s1 Hinv Hh) as Hpre.
  destruct (commit_ok videoClips s s1 Hpre) as [s' Hc]. rewrite Hc. by eapply commit_inv.
Qed.

(** C34: Play/Pause reloads the clip.  Pressing the button toggles
    [isPlaying], and the effect on [isPlaying] assigns [src] again, which
    runs the load algorithm: the position goes back to 0 and the
    duration is forgotten.  Pausing loses the position, and resuming
    starts the clip from the beginning. *)
Theorem editor_playpause_restarts videoClips s i :
  reachable videoClips s -> shows videoClips i s ->
  exists s', step videoClips s UPlayPause = Ok s' /\
    isPlaying s' = negb (isPlaying s) /\ el_paused (video s') = isPlaying s /\
    el_time (video s') = 0%Q /\ el_duration (video s') = JNaN /\ shows videoClips i s'.
Proof.
  intros Hr (Hi & Hc & c & Hc' & Hsrc). pose proof (reachable_inv videoClips s Hr) as (Hpa & _).
  unfold step. cbn [handle res_bind]. unfold commit, handlePlayPause.
  rewrite Hpa. destruct (isPlaying s); cbn -[js_same_value load_effect];
    rewrite (js_same_value_proper _ _ Hc _ _ Hc), js_same_value_refl_nat; cbn -[load_effect];
    erewrite load_effect_eq by eauto; cbn; eexists; (split; [reflexivity|]); split_and!; try done; unfold shows; cbn; eauto.
Qed.

(** C35: at the end of a clip the editor goes on with the next one from
    its start, and stops on the last one. *)
Theorem editor_ended_next videoClips s i d :
  reachable videoClips s -> shows videoClips i s -> el_paused (video s) = false ->
  el_duration (video s) = JNum d -> el_time (video s) == d ->
  exists s', step videoClips s UEnded = Ok s' /\
    if Nat.ltb (S i) (length videoClips)
    then shows videoClips (S i) s' /\ isPlaying s' = true /\ el_paused (video s') = false /\ el_time (video s') = 0%Q
    else shows videoClips i s' /\ isPlaying s' = false /\ el_paused (video s') = true.
Proof.
  intros Hr (Hi & Hc & c & Hc' & Hsrc) Hnp Hd Ht. pose proof (reachable_inv videoClips s Hr) as (Hpa & _).
  assert (Hplay : isPlaying s = true) by (destruct (isPlaying s); cbn in Hpa; congruence).
  unfold step. cbn [handle]. rewrite Hd, Hnp. replace (Qeq_bool _ d) with true by (symmetry; by apply Qeq_bool_iff).
  cbn [negb andb res_bind]. unfold handleVideoEnd. cbn [currentClip set_video].
  rewrite (last_clip_test videoClips s i Hc) by lia.
  destruct (Nat.ltb_spec i (length videoClips - 1)) as [Hlt|Hge].
  - replace (Nat.ltb (S i) (length videoClips)) with true by (symmetry; apply Nat.ltb_lt; lia).
    destruct (lookup_lt_is_Some_2 videoClips (S i) ltac:(lia)) as [c1 Hc1].
    pose proof (next_clip_equiv videoClips (set_video s (el_pause (video s))) i Hc ltac:(lia)) as Hn.
    rewrite Nat.mod_small in Hn by lia.
    unfold commit. rewrite (js_same_value_proper _ _ Hc _ _ Hn), js_same_value_nat.
    rewrite (proj2 (Nat.eqb_neq i (S i))) by lia. cbn [andb].
    erewrite load_effect_eq by eauto. cbn. rewrite Hplay. eexists; split; [reflexivity|].
    split_and!; try done. split_and!; [lia | done | eauto].
  - replace (Nat.ltb (S i) (length videoClips)) with false by (symmetry; apply Nat.ltb_ge; lia).
    unfold commit. cbn [currentClip isPlaying set_playing set_video]. rewrite Hplay, andb_false_r.
    erewrite load_effect_eq by (cbn; eauto). cbn. eexists; split; [reflexivity|].
    split_and!; try done. split_and!; eauto.
Qed.

(** C36: Previous undoes Next: from every state of a non-empty editor,
    Next then Previous comes back to the same clip. *)
Theorem editor_next_prev videoClips s :
  reachable videoClips s -> length videoClips <> 0%nat ->
  exists s1 s2, step videoClips s UNext = Ok s1 /\ step videoClips s1 UPrev = Ok s2 /\ currentClip s2 ≡ currentClip s.
Proof.
  intros Hr Hn. pose proof (reachable_inv videoClips s Hr) as Hinv.
  destruct (step_ok videoClips s UNext Hinv ltac:(done)) as [s1 H1].
  assert (Hr1 : reachable videoClips s1) by (econstructor; eauto).
  destruct (step_ok videoClips s1 UPrev (reachable_inv videoClips s1 Hr1) ltac:(done)) as [s2 H2].
  exists s1, s2. split_and!; [done | done |].
  destruct (inv_shows videoClips s Hinv Hn) as (i & Hi & Hc & _).
  assert (E1 : currentClip s1 ≡ js_nat (S i mod length videoClips)).
  { unfold step in H1. cbn in H1. apply commit_keeps_clip in H1. rewrite H1. apply next_clip_equiv; [done | lia]. }
  assert (E2 : currentClip s2 ≡ js_nat ((S i mod length videoClips + length videoClips - 1) mod length videoClips)).
  { unfold step in H2. cbn in H2. apply commit_keeps_clip in H2. rewrite H2. apply prev_clip_equiv; [done | lia]. }
  rewrite E2, next_prev_mod by done. by rewrite Hc.
Qed.
End VideoEditorFacts.
