(* ===== verification/App.v ===== *)
(** * The page that generates a video ([frontend/src/components/prompt.component.jsx])

    [VideoGeneratorApp] holds a form (the prompt and four selects), sends
    it to [POST /api/prompt/generate-script-with-media] through
    [generateVideo] ([frontend/src/services/video-generate.service.js]),
    and, when the reply carries [videoScenePath], shows the
    [VideoEditor] on those clips until the user goes back.

    [handleSubmit] is split at its [await]: the submit event sends the
    request, and the answer is a later event.  The browser only submits
    the form when every [required] field is filled and the button is not
    [disabled]; a select only offers its options and the empty
    placeholder.  The request body reaches the script controller as the
    prompt and an options object of four strings ([format] is absent). *)

From S2P Require Import Prelude Media Ffmpeg Scene Orchestrator Wizard Stock Pixabay Pipeline Editor.
From Stdlib Require Import Ascii.
Local Open Scope string_scope.
Local Open Scope js_scope.

Module PromptApp.
Import ScriptWizard ScriptController VideoEditor.

(** The five controlled fields. *)
Record form : Type := mkForm {
  prompt : string; style : string; tone : string; duration : string; numberOfScenes : string
}.

Definition empty_form : form := mkForm "" "" "" "" "".

Definition styleOptions : list string :=
  ["Professional"; "Casual"; "Storytelling"; "Inspirational"; "Educational"; "Cinematic"; "Documentary"].
Definition toneOptions : list string := ["Friendly"; "Serious"; "Optimistic"; "Persuasive"; "Authoritative"].
Definition durationOptions : list string := ["15 seconds"; "30 seconds"; "1 minute"; "2 minutes"].
Definition numberOfScenesOptions : list string := ["1"; "2"; "3"; "4"; "5"; "6"; "7"; "8"; "9"; "10"].

Inductive field : Type := FPrompt | FStyle | FTone | FDuration | FScenes.

(** What an [onChange] may deliver: any text for the textarea, the empty
    placeholder or an option for a select. *)
Definition accepts (f : field) (v : string) : bool :=
  let sel os := String.eqb v "" || existsb (String.eqb v) os in
  match f with
  | FPrompt => true
  | FStyle => sel styleOptions
  | FTone => sel toneOptions
  | FDuration => sel durationOptions
  | FScenes => sel numberOfScenesOptions
  end.

(** [setPrompt], [setStyle], ... *)
Definition set_field (f : field) (v : string) (x : form) : form :=
  match f with
  | FPrompt => mkForm v (style x) (tone x) (duration x) (numberOfScenes x)
  | FStyle => mkForm (prompt x) v (tone x) (duration x) (numberOfScenes x)
  | FTone => mkForm (prompt x) (style x) v (duration x) (numberOfScenes x)
  | FDuration => mkForm (prompt x) (style x) (tone x) v (numberOfScenes x)
  | FScenes => mkForm (prompt x) (style x) (tone x) (duration x) v
  end.

(** The [required] fields are all filled. *)
Definition form_complete (x : form) : bool :=
  negb (String.eqb (prompt x) "") && negb (String.eqb (style x) "") && negb (String.eqb (tone x) "") &&
  negb (String.eqb (duration x) "") && negb (String.eqb (numberOfScenes x) "").

(** [videoData]: the prompt, and the options as the script controller
    reads them from the JSON body. *)
Definition videoData (x : form) : string * options_arg :=
  (prompt x, OptsObj (mkScriptOptions (VStr (style x)) (VStr (tone x)) (VStr (duration x)) VUndefined
                                      (VStr (numberOfScenes x)))).

(** [generateVideo(videoData)] once the server answered: [response.ok]
    is a status in [200, 299]; a failed [fetch] rejects as it is. *)
Definition service_result (r : res reply) : res reply_body :=
  match r with
  | Ok rep => if (200 <=? status rep)%Z && (status rep <=? 299)%Z then Ok (body rep)
              else Throw (ErrMessage "Network response was not ok")
  | Throw e => Throw e
  | Hang => Hang
  end.

(** [result.videoScenePath]: [undefined] in every other body. *)
Definition videoScenePath (b : reply_body) : option (list rendered) :=
  match b with RScriptWithMedia _ _ _ _ vsp => Some vsp | _ => None end.

(** The component's state: the form, [isLoading], [videoResult] (the
    editor is shown when it is set) and the request in flight. *)
Record app : Type := mkApp {
  a_form : form;
  isLoading : bool;
  videoResult : option (list rendered);
  inflight : option (string * options_arg)
}.

(** [if (videoResult)]: an array, even empty, is truthy. *)
Definition result_shown (a : app) : bool := match videoResult a with Some _ => true | None => false end.

Definition app0 : app := mkApp empty_form false None None.

Inductive app_event : Type :=
| AEdit (f : field) (v : string)   (** an [onChange] of the form *)
| ASubmit                          (** the form is submitted *)
| AAnswer (r : res reply)          (** the request of [handleSubmit] settles ([Hang]: it never does) *)
| AReset.                          (** "Back to Generator" *)

(** One event: the form exists only while no result is shown. *)
Definition app_step (a : app) (ev : app_event) : app :=
  match ev with
  | AEdit f v =>
      if result_shown a || negb (accepts f v) then a
      else mkApp (set_field f v (a_form a)) (isLoading a) (videoResult a) (inflight a)
  | ASubmit =>
      if result_shown a || isLoading a || negb (form_complete (a_form a)) then a
      else mkApp (a_form a) true (videoResult a) (Some (videoData (a_form a)))
  | AAnswer r =>
      match inflight a with
      | None => a
      | Some _ =>
          match service_result r with
          | Ok b => mkApp (a_form a) false (videoScenePath b) None
          | Throw _ => mkApp (a_form a) false (videoResult a) None
          | Hang => a
          end
      end
  | AReset =>
      if result_shown a then mkApp empty_form (isLoading a) None (inflight a) else a
  end.
End PromptApp.

Module PromptAppFacts.
Import ScriptWizard ScriptController ScriptControllerFacts VideoEditor VideoEditorFacts PromptApp.

(** C9: the page and the back end together.  A complete form is sent
    with its five fields; when the script controller answers, the page
    stops loading and either shows the editor on the clips the video
    generator published, which are never empty, the editor starting
    paused on the first clip, or, on an error reply, stays on the form. *)
Theorem app_shows_published_clips `{E : Encoder} generateContent sentence_tokenize tts px backendDir a w s' rep :
  result_shown a = false -> isLoading a = false -> form_complete (a_form a) = true ->
  generateScriptWithMedia generateContent sentence_tokenize tts px backendDir
    (videoData (a_form a)).1 (videoData (a_form a)).2 w = (s', Ok rep) ->
  inflight (app_step a ASubmit) = Some (videoData (a_form a)) /\ isLoading (app_step a ASubmit) = true /\
  let a2 := app_step (app_step a ASubmit) (AAnswer (Ok rep)) in
  isLoading a2 = false /\ inflight a2 = None /\
  match videoResult a2 with
  | None => status rep <> 200%Z
  | Some clips => clips <> [] /\ exists e, mount clips = Ok e /\ shows clips 0 e /\ isPlaying e = false
  end.
Proof.
  intros Hshown Hload Hcomplete Hrun. unfold app_step. rewrite Hshown, Hload, Hcomplete. cbn -[videoData].
  unfold service_result.
  destruct (generateScriptWithMedia_reply _ _ _ _ _ _ _ _ _ _ Hrun) as [(Hst & r & enh & mfs & afs & vsp & Hb & Hne)|(Hst & e & Hb)].
  - rewrite Hst, Hb. cbn -[videoData]. split_and!; try done.
    destruct (lookup_lt_is_Some_2 vsp 0) as [c Hc]; [destruct vsp; cbn; [done | lia]|].
    pose proof (load_effect_eq vsp (mkEditor (JNum 0) false (JNum 0) new_el) 0 c ltac:(reflexivity) Hc) as Hl.
    unfold mount. rewrite Hl. cbn. eexists; split; [reflexivity|].
    apply (mount_shows_first vsp); [by destruct vsp | unfold mount; by rewrite Hl].
  - assert (Hnone : videoResult a = None) by (unfold result_shown in Hshown; by destruct (videoResult a)).
    destruct (_ && _); cbn -[videoData]; rewrite ?Hb, ?Hnone; cbn -[videoData]; split_and!; done.
Qed.
End PromptAppFacts.
