(* ===== verification/FilterGraph.v ===== *)
(** * Filter graphs: fluent-ffmpeg's [complexFilter] and [map], and what ffmpeg makes of them

    Not code of the repository: the part of the encoding engine that
    [createVideo] of [video-generate.controller.js] drives, next to the
    plain commands of Ffmpeg.v.
    - [fgcmd] and the [fg_*] builders follow fluent-ffmpeg 2.x:
      [.complexFilter(array)] sets the graph (its chains are joined with
      [";"]), [.map(label)] adds an output mapping, and options of an
      input go to the input added last ("No input specified" when there
      is none).
    - [fg_semantics] is the reference meaning of such a command.  An
      input option [-t d] cuts the streams of its input at [d] seconds
      (after [-loop 1] made a picture endless).  A chain
      ["[in]...filter,filter...[out]"] consumes its input labels ([k:v],
      [k:a] name the streams of input [k]) and defines its output labels;
      [scale], [pad], [setsar] and [null] keep a video stream's length,
      [anull] an audio stream's, and [concat] with [n=K:v=1:a=0] joins
      [K >= 1] video streams into one as long as their sum.  The output has
      the mapped streams; under [-shortest] it is as long as the shortest
      of them.  An endless output with no end makes ffmpeg run forever.
    - [FgEncoder] is the interface the generator is written against;
      [FgEncoderSound] states that when it succeeds, or never ends, it
      agrees with [fg_semantics]. *)

From S2P Require Import Prelude Media Ffmpeg.
From Stdlib Require Import Ascii.
Local Open Scope string_scope.

(** ** Commands *)

Record fgcmd : Type := mkFg {
  g_inputs : list ffinput;
  g_graph : list string;
  g_maps : list string;
  g_outopts : list ffopt;
  g_output : option string
}.

(** [ffmpeg()] *)
Definition fg_new : fgcmd := mkFg [] [] [] [] None.

(** [.input(p)] *)
Definition fg_input (p : string) (c : fgcmd) : fgcmd :=
  mkFg (g_inputs c ++ [mkInput p []]) (g_graph c) (g_maps c) (g_outopts c) (g_output c).

(** [.inputOptions(os)] *)
Definition fg_inputOptions (os : list ffopt) (c : fgcmd) : res fgcmd :=
  match add_to_last os (g_inputs c) with
  | None => Throw (ErrFluent "No input specified")
  | Some l => Ok (mkFg l (g_graph c) (g_maps c) (g_outopts c) (g_output c))
  end.

(** [.complexFilter(filters)] *)
Definition fg_complexFilter (filters : list string) (c : fgcmd) : fgcmd :=
  mkFg (g_inputs c) filters (g_maps c) (g_outopts c) (g_output c).

(** [.map(label)] *)
Definition fg_map (label : string) (c : fgcmd) : fgcmd :=
  mkFg (g_inputs c) (g_graph c) (g_maps c ++ [label]) (g_outopts c) (g_output c).

(** [.outputOptions(os)] *)
Definition fg_outputOptions (os : list ffopt) (c : fgcmd) : fgcmd :=
  mkFg (g_inputs c) (g_graph c) (g_maps c) (g_outopts c ++ os) (g_output c).

(** [.save(p)]: the output, then the run. *)
Definition fg_output (p : string) (c : fgcmd) : fgcmd :=
  mkFg (g_inputs c) (g_graph c) (g_maps c) (g_outopts c) (Some p).

(** ** Reading a filter graph *)

(** ["[label]"] at the start of [s]: the label and the rest. *)
Fixpoint read_label_body (s : string) : option (string * string) :=
  match s with
  | EmptyString => None
  | String c r =>
      if is_char c "]" then Some (EmptyString, r)
      else match read_label_body r with Some (l, rest) => Some (String c l, rest) | None => None end
  end.

Definition read_label (s : string) : option (string * string) :=
  match s with
  | String c r => if is_char c "[" then read_label_body r else None
  | EmptyString => None
  end.

(** The labels at the start of [s] ([fuel] bounds their number). *)
Fixpoint read_labels (fuel : nat) (s : string) : list string * string :=
  match fuel with
  | O => ([], s)
  | S fuel' =>
      match read_label s with
      | Some (l, rest) => let '(ls, rest') := read_labels fuel' rest in (l :: ls, rest')
      | None => ([], s)
      end
  end.

(** The filters of a chain: the text up to the output labels. *)
Fixpoint read_body (s : string) : string * string :=
  match s with
  | EmptyString => (EmptyString, EmptyString)
  | String c r => if is_char c "[" then (EmptyString, s) else let '(b, rest) := read_body r in (String c b, rest)
  end.

Record chain : Type := mkChain { ch_in : list string; ch_filters : list (string * string); ch_out : list string }.

(** ["name=args"] *)
Definition split_filter (f : string) : string * string :=
  match split_on "=" f with
  | [] => (EmptyString, EmptyString)
  | name :: _ => (name, match String.index 0 "=" f with
                        | Some i => String.substring (S i) (String.length f) f
                        | None => EmptyString
                        end)
  end.

Definition parse_chain (s : string) : option chain :=
  let '(ins, r1) := read_labels (String.length s) s in
  let '(body, r2) := read_body r1 in
  let '(outs, r3) := read_labels (String.length r2) r2 in
  match r3 with
  | EmptyString => Some (mkChain ins (map split_filter (split_on "," body)) outs)
  | _ => None
  end.

(** ** Streams of a graph *)

Inductive skind : Type := SVideo | SAudio.

#[export] Instance skind_eq_dec : EqDecision skind.
Proof. solve_decision. Defined.

Definition ext_add (a b : ext) : ext :=
  match a, b with Fin x, Fin y => Fin (x + y) | _, _ => Inf end.

(** An input cut by its own [-t]. *)
Definition cap_streams (t : option jsnum) (s : streams) : res streams :=
  match t with
  | None => Ok s
  | Some (JNum q) =>
      let cap := option_map (fun e => emin e (Fin (Qmax 0 q))) in
      Ok (mkStreams (cap (s_video s)) (cap (s_audio s)))
  | Some _ => Throw (ErrFfmpeg "Invalid duration specification for t")
  end.

Definition graph_input_streams (fs : gmap string file) (i : ffinput) : res streams :=
  res_bind (input_streams fs i) (cap_streams (last_t (i_opts i))).

Fixpoint graph_inputs (fs : gmap string file) (l : list ffinput) : res (list streams) :=
  match l with
  | [] => Ok []
  | i :: r =>
      match graph_input_streams fs i, graph_inputs fs r with
      | Ok s, Ok ss => Ok (s :: ss)
      | Throw e, _ | Ok _, Throw e => Throw e
      | Hang, _ | Ok _, Hang => Hang
      end
  end.

Definition no_stream (l : string) : js_error :=
  ErrFfmpeg ("Stream specifier '" ++ l ++ "' in filtergraph description matches no streams.").

(** ["k:v"] or ["k:a"]: a stream of input [k]. *)
Definition input_ref (l : string) : option (nat * ascii) :=
  match take_digits l with
  | (d :: ds, String c (String k EmptyString)) =>
      if is_char c ":" then Some (N.to_nat (digits_value (d :: ds)), k) else None
  | _ => None
  end.

(** The stream a label names: an input stream, or the output of an
    earlier chain, which is consumed. *)
Definition take_stream (ins : list streams) (env : list (string * (skind * ext))) (l : string)
  : res ((skind * ext) * list (string * (skind * ext))) :=
  match input_ref l with
  | Some (k, sel) =>
      match ins !! k with
      | Some s =>
          if is_char sel "v" then match s_video s with Some e => Ok ((SVideo, e), env) | None => Throw (no_stream l) end
          else if is_char sel "a" then match s_audio s with Some e => Ok ((SAudio, e), env) | None => Throw (no_stream l) end
          else Throw (no_stream l)
      | None => Throw (no_stream l)
      end
  | None =>
      match list_find (fun kv => kv.1 = l) env with
      | Some (i, (_, st)) => Ok (st, delete i env)
      | None => Throw (no_stream l)
      end
  end.

Fixpoint take_streams (ins : list streams) (env : list (string * (skind * ext))) (ls : list string)
  : res (list (skind * ext) * list (string * (skind * ext))) :=
  match ls with
  | [] => Ok ([], env)
  | l :: r =>
      res_bind (take_stream ins env l) (fun '(st, env1) =>
      res_bind (take_streams ins env1 r) (fun '(sts, env2) => Ok (st :: sts, env2)))
  end.

(** The option [key] of ["k1=v1:k2=v2"], a number. *)
Definition filter_option (key : string) (args : string) : option N :=
  match List.find (fun kv => String.eqb (fst (split_filter kv)) key) (split_on ":" args) with
  | Some kv => match take_digits (snd (split_filter kv)) with
               | ([], _) => None
               | (ds, EmptyString) => Some (digits_value ds)
               | _ => None
               end
  | None => None
  end.

Definition bad_filter (name : string) : js_error := ErrFfmpeg ("No such filter: '" ++ name ++ "'").

(** One filter on the streams it receives. *)
Definition apply_filter (f : string * string) (sts : list (skind * ext)) : res (list (skind * ext)) :=
  let '(name, args) := f in
  if String.eqb name "concat" then
    let n := default 2%N (filter_option "n" args) in
    if N.eqb n 0 then Throw (ErrFfmpeg "Value 0 for parameter 'n' out of range [1 - 2.14748e+09]")
    else if (negb (N.eqb (default 1%N (filter_option "v" args)) 1) || negb (N.eqb (default 0%N (filter_option "a" args)) 0))%bool
    then Throw (ErrFfmpeg "Unsupported concat layout")
    else if negb (Nat.eqb (length sts) (N.to_nat n)) then Throw (ErrFfmpeg "Invalid concat input count")
    else if forallb (fun st => bool_decide (st.1 = SVideo)) sts
    then Ok [(SVideo, fold_left ext_add (map snd sts) (Fin 0))]
    else Throw (ErrFfmpeg "Media type mismatch")
  else
    let kind := if existsb (String.eqb name) ["scale"; "pad"; "setsar"; "null"] then Some SVideo
                else if String.eqb name "anull" then Some SAudio else None in
    match kind, sts with
    | Some k, [(k', e)] => if bool_decide (k = k') then Ok [(k, e)] else Throw (ErrFfmpeg "Media type mismatch")
    | Some _, _ => Throw (ErrFfmpeg "Invalid filter input count")
    | None, _ => Throw (bad_filter name)
    end.

Fixpoint apply_filters (fs : list (string * string)) (sts : list (skind * ext)) : res (list (skind * ext)) :=
  match fs with
  | [] => Ok sts
  | f :: r => res_bind (apply_filter f sts) (apply_filters r)
  end.

(** A chain: its inputs, its filters, its labelled outputs. *)
Definition run_chain (ins : list streams) (env : list (string * (skind * ext))) (ch : chain)
  : res (list (string * (skind * ext))) :=
  res_bind (take_streams ins env (ch_in ch)) (fun '(sts, env1) =>
  res_bind (apply_filters (ch_filters ch) sts) (fun outs =>
  if Nat.eqb (length outs) (length (ch_out ch)) then Ok (env1 ++ zip (ch_out ch) outs)%list
  else Throw (ErrFfmpeg "Invalid number of filter outputs"))).

Fixpoint run_graph (ins : list streams) (env : list (string * (skind * ext))) (g : list string)
  : res (list (string * (skind * ext))) :=
  match g with
  | [] => Ok env
  | s :: r =>
      match parse_chain s with
      | None => Throw (ErrFfmpeg "Error parsing filtergraph")
      | Some ch => res_bind (run_chain ins env ch) (fun env1 => run_graph ins env1 r)
      end
  end.

(** [-map "[label]"]: a labelled output of the graph. *)
Definition map_label (m : string) : option string :=
  match read_label m with Some (l, EmptyString) => Some l | _ => None end.

Fixpoint mapped (env : list (string * (skind * ext))) (ms : list string) : res (list (skind * ext)) :=
  match ms with
  | [] => Ok []
  | m :: r =>
      match map_label m with
      | Some l =>
          match list_find (fun kv => kv.1 = l) env with
          | Some (_, (_, st)) => res_bind (mapped env r) (fun sts => Ok (st :: sts))
          | None => Throw (no_stream l)
          end
      | None => Throw (ErrFfmpeg "Invalid stream specifier")
      end
  end.

(** The file ffmpeg writes for a graph command. *)
Definition fg_semantics (fs : gmap string file) (c : fgcmd) : res file :=
  match g_output c with
  | None => Throw (ErrFluent "No output specified")
  | Some _ =>
      res_bind (graph_inputs fs (g_inputs c)) (fun ins =>
      res_bind (run_graph ins [] (g_graph c)) (fun env =>
      res_bind (mapped env (g_maps c)) (fun sts =>
      match combine_lens (has_opt OptShortest (g_outopts c)) (map snd sts) with
      | None => Throw (ErrFfmpeg "Output file does not contain any stream")
      | Some l =>
          match cap_t (last_t (g_outopts c)) l with
          | Ok (Fin len) =>
              Ok (mkFile (if existsb (fun st => bool_decide (st.1 = SVideo)) sts
                          then KVideo len (existsb (fun st => bool_decide (st.1 = SAudio)) sts)
                          else KAudio len) (Some (VNum (JNum len))))
          | Ok Inf => Hang
          | Throw e => Throw e
          | Hang => Hang
          end
      end)))
  end.

(** ** The encoder interface *)

Class FgEncoder : Type := fg_encode : gmap string file -> fgcmd -> res file.

Class FgEncoderSound (G : FgEncoder) : Prop := {
  fg_encode_ok : forall fs c f, fg_encode fs c = Ok f -> fg_semantics fs c = Ok f;
  fg_encode_hang : forall fs c, fg_encode fs c = Hang -> fg_semantics fs c = Hang
}.

Definition fg_reference : FgEncoder := fg_semantics.

Lemma fg_reference_sound : FgEncoderSound fg_reference.
Proof. split; done. Qed.

(** [.save(p)] with its [end] and [error] handlers: the output file is
    written, or the promise rejects, or it never settles. *)
Definition fg_run `{FgEncoder} (c : fgcmd) : M unit :=
  fun w =>
    match g_output c with
    | None => (w, Throw (ErrFluent "No output specified"))
    | Some p =>
        match fg_encode (w_files w) c with
        | Ok f => (set_files w (<[p := f]> (w_files w)), Ok tt)
        | Throw e => (w, Throw e)
        | Hang => (w, Hang)
        end
    end.

(** ** Reading back printed labels

    The controllers print stream indices with [${index}]; the lemmas below
    show that the graph reader gets the same numbers back, and that text
    made of digits passes through the label and chain readers
    unchanged. *)
Module FilterGraphFacts.

Fixpoint all_digits (s : string) : bool :=
  match s with
  | EmptyString => true
  | String c r => match digit_of c with Some _ => all_digits r | None => false end
  end.

Lemma all_digits_no_char x s : digit_of x = None -> all_digits s = true -> no_char x s = true.
Proof.
  intros Hx. induction s as [|c s IH]; [done|]. cbn. destruct (digit_of c) eqn:Hc; [intros Hs|done].
  rewrite IH by done. unfold is_char. case_bool_decide; [subst; by rewrite Hx in Hc | done].
Qed.

Lemma digits_value_fold a ds :
  fold_left (fun acc d => acc * 10 + d)%N ds a = (a * 10 ^ N.of_nat (length ds) + digits_value ds)%N.
Proof.
  unfold digits_value. revert a. induction ds as [|d ds IH]; intros a; cbn [fold_left length].
  - cbn. lia.
  - rewrite (IH (a * 10 + d)%N), (IH (0 * 10 + d)%N). rewrite Nat2N.inj_succ, N.pow_succ_r'. lia.
Qed.

Lemma digit_of_pretty_char x : (x < 10)%N -> digit_of (pretty_N_char x) = Some x.
Proof.
  intros Hx. assert (x = 0 \/ x = 1 \/ x = 2 \/ x = 3 \/ x = 4 \/ x = 5 \/ x = 6 \/ x = 7 \/ x = 8 \/ x = 9)%N
    as H by lia.
  by repeat destruct H as [->|H]; [..|subst].
Qed.

Lemma pretty_N_go_app x s1 s2 : pretty_N_go x (s1 ++ s2) = (pretty_N_go x s1 ++ s2)%string.
Proof.
  revert s1. induction x as [x IH] using (well_founded_induction N.lt_wf_0). intros s1.
  destruct (decide (x = 0%N)) as [->|Hx]; [by rewrite !pretty_N_go_0|].
  rewrite !(pretty_N_go_step x) by lia. rewrite <- IH; [done|].
  apply N.div_lt; lia.
Qed.

Lemma pretty_N_go_digits x s : all_digits (pretty_N_go x s) = all_digits s.
Proof.
  revert s. induction x as [x IH] using (well_founded_induction N.lt_wf_0). intros s.
  destruct (decide (x = 0%N)) as [->|Hx]; [by rewrite pretty_N_go_0|].
  rewrite (pretty_N_go_step x) by lia. rewrite IH by (apply N.div_lt; lia). cbn.
  by rewrite digit_of_pretty_char by (apply N.mod_lt; lia).
Qed.

Lemma take_digits_pretty_go x s ds r :
  take_digits s = (ds, r) ->
  exists ds', take_digits (pretty_N_go x s) = ((ds' ++ ds)%list, r) /\
    digits_value (ds' ++ ds) = (x * 10 ^ N.of_nat (length ds) + digits_value ds)%N /\
    (x <> 0%N -> ds' <> []).
Proof.
  revert s ds. induction x as [x IH] using (well_founded_induction N.lt_wf_0). intros s ds Hs.
  destruct (decide (x = 0%N)) as [->|Hx]; [exists []; rewrite pretty_N_go_0; cbn [app]; split_and!; [done|lia|done]|].
  rewrite (pretty_N_go_step x) by lia.
  assert (Hc : take_digits (String (pretty_N_char (x `mod` 10)) s) = ((x `mod` 10)%N :: ds, r)).
  { cbn. rewrite digit_of_pretty_char by (apply N.mod_lt; lia). by rewrite Hs. }
  destruct (IH (x `div` 10)%N ltac:(apply N.div_lt; lia) _ _ Hc) as (ds' & Ht & Hv & _).
  exists (ds' ++ [(x `mod` 10)%N])%list. rewrite <- app_assoc. cbn [app]. split_and!; [done| |by destruct ds'].
  rewrite Hv. unfold digits_value. cbn [fold_left length]. rewrite digits_value_fold.
  rewrite Nat2N.inj_succ, N.pow_succ_r'. pose proof (N.div_mod x 10 ltac:(lia)). unfold digits_value in *. nia.
Qed.

(** [${n}] read back as a number. *)
Lemma take_digits_pretty (n : nat) r :
  take_digits r = ([], r) ->
  exists ds, take_digits (pretty n ++ r) = (ds, r) /\ ds <> [] /\ digits_value ds = N.of_nat n.
Proof.
  intros Hr. cbv [pretty pretty_nat pretty_N].
  case_decide as Hn.
  - exists [0%N]. rewrite Hn. simpl. change (String.append EmptyString r) with r. rewrite Hr. by split_and!.
  - rewrite <- pretty_N_go_app. cbn [String.append].
    destruct (take_digits_pretty_go (N.of_nat n) r [] r Hr) as (ds' & Ht & Hv & Hne).
    rewrite app_nil_r in Ht, Hv. exists ds'. split_and!; [done|by apply Hne|]. rewrite Hv. cbn. lia.
Qed.

Lemma pretty_all_digits (n : nat) : all_digits (pretty n) = true.
Proof. cbv [pretty pretty_nat pretty_N]. case_decide; [done|]. by rewrite pretty_N_go_digits. Qed.

Lemma pretty_no_char x (n : nat) : digit_of x = None -> no_char x (pretty n) = true.
Proof. intros Hx. apply all_digits_no_char, pretty_all_digits. done. Qed.

(** ["k:v"] names stream [v] of input [k]. *)
Lemma input_ref_pretty (n : nat) k : input_ref (pretty n ++ String ":" (String k EmptyString)) = Some (n, k).
Proof.
  unfold input_ref. destruct (take_digits_pretty n (String ":" (String k EmptyString)) eq_refl) as (ds & -> & Hne & Hv).
  destruct ds as [|d ds]; [done|]. cbn -[digits_value]. by rewrite Hv, Nat2N.id.
Qed.

Lemma read_label_body_app l s : no_char "]" l = true ->
  read_label_body (l ++ s) = option_map (fun lr => ((l ++ lr.1)%string, lr.2)) (read_label_body s).
Proof.
  induction l as [|c l IH]; intros Hl; [rewrite string_app_nil_l; by destruct (read_label_body s) as [[]|]|].
  rewrite string_app_cons. cbn in Hl |- *. apply andb_prop in Hl as [Hc Hl]. apply negb_true_iff in Hc. rewrite Hc, IH by done.
  by destruct (read_label_body s) as [[]|].
Qed.

Lemma read_body_app b s : no_char "[" b = true ->
  read_body (b ++ s) = let '(b', r) := read_body s in ((b ++ b')%string, r).
Proof.
  induction b as [|c b IH]; intros Hb; [rewrite string_app_nil_l; by destruct (read_body s)|].
  rewrite string_app_cons. cbn in Hb |- *. apply andb_prop in Hb as [Hc Hb]. apply negb_true_iff in Hc. rewrite Hc, IH by done.
  by destruct (read_body s).
Qed.

Lemma split_on_nonempty sep s : split_on sep s <> [].
Proof. destruct s as [|c r]; cbn; [done|]. case_match; [done|]. by destruct (split_on sep r). Qed.

Lemma split_on_prefix sep l s : no_char sep l = true ->
  split_on sep (l ++ s) = match split_on sep s with [] => [l] | x :: xs => (l ++ x)%string :: xs end.
Proof.
  induction l as [|c l IH]; intros Hl.
  { pose proof (split_on_nonempty sep s). rewrite string_app_nil_l. by destruct (split_on sep s). }
  rewrite string_app_cons. cbn in Hl |- *. apply andb_prop in Hl as [Hc Hl]. apply negb_true_iff in Hc. rewrite Hc, IH by done.
  by destruct (split_on sep s).
Qed.

(** A label of the form ["[l]"] followed by [s]. *)
Lemma read_labels_cons fuel l s : no_char "]" l = true ->
  read_labels (S fuel) ("[" ++ l ++ "]" ++ s) = let '(ls, r) := read_labels fuel s in (l :: ls, r).
Proof.
  intros Hl. rewrite string_app_cons, string_app_nil_l. cbn [read_labels read_label].
  change (is_char "[" "[") with true. cbv iota. rewrite (read_label_body_app l ("]" ++ s)) by done.
  rewrite string_app_cons, string_app_nil_l. cbn [read_label_body]. change (is_char "]" "]") with true.
  cbn. by rewrite string_app_nil_r.
Qed.

(** The text ["[l1][l2]..."]. *)
Definition labels (ls : list string) : string := foldr (fun l acc => "[" ++ l ++ "]" ++ acc) "" ls.

Lemma labels_cons l ls : labels (l :: ls) = ("[" ++ l ++ "]" ++ labels ls)%string.
Proof. reflexivity. Qed.

Lemma labels_length ls : (length ls <= String.length (labels ls))%nat.
Proof.
  induction ls as [|l ls IH]; [cbn; lia|]. rewrite labels_cons, !string_length_app.
  cbn [length String.length]. lia.
Qed.

Lemma read_labels_labels fuel ls s :
  Forall (fun l => no_char "]" l = true) ls -> read_label s = None -> (length ls <= fuel)%nat ->
  read_labels fuel (labels ls ++ s) = (ls, s).
Proof.
  revert fuel. induction ls as [|l ls IH]; intros fuel Hls Hs Hf.
  - rewrite string_app_nil_l. destruct fuel; cbn; [done|]. by rewrite Hs.
  - destruct fuel as [|fuel]; [cbn in Hf; lia|]. apply Forall_cons in Hls as [Hl Hls].
    rewrite labels_cons, <- !string_app_assoc, read_labels_cons by done.
    rewrite IH by (done || cbn in Hf; lia). done.
Qed.

Lemma read_label_body_start b s : b <> EmptyString -> no_char "[" b = true -> read_label (b ++ s) = None.
Proof.
  destruct b as [|c b]; [done|]. intros _ Hb. rewrite string_app_cons. cbn in Hb |- *.
  apply andb_prop in Hb as [Hc _]. apply negb_true_iff in Hc. by rewrite Hc.
Qed.

Lemma read_body_labels outs : read_body (labels outs) = (EmptyString, labels outs).
Proof. destruct outs; [done|]. by rewrite labels_cons, string_app_cons, string_app_nil_l. Qed.

(** A chain written as its input labels, its filters and its output
    labels is read back as such. *)
Lemma parse_chain_labels ins body outs :
  Forall (fun l => no_char "]" l = true) ins -> Forall (fun l => no_char "]" l = true) outs ->
  body <> EmptyString -> no_char "[" body = true ->
  parse_chain (labels ins ++ body ++ labels outs) = Some (mkChain ins (map split_filter (split_on "," body)) outs).
Proof.
  intros Hins Houts Hb Hb'. unfold parse_chain.
  rewrite read_labels_labels; [|done|by apply read_label_body_start|].
  2: { rewrite string_length_app. pose proof (labels_length ins). lia. }
  rewrite read_body_app, read_body_labels, string_app_nil_r by done.
  rewrite <- (string_app_nil_r (labels outs)) at 2.
  by rewrite read_labels_labels by (done || apply labels_length).
Qed.

Lemma run_graph_app ins env g1 g2 :
  run_graph ins env (g1 ++ g2) = res_bind (run_graph ins env g1) (fun env' => run_graph ins env' g2).
Proof.
  revert env. induction g1 as [|s g1 IH]; intros env; [done|]. cbn.
  destruct (parse_chain s); [|done]. destruct (run_chain ins env c); cbn; [apply IH|done|done].
Qed.

(** Labels defined by earlier chains are taken in the order they were
    defined. *)
Lemma take_streams_defined {X} ins (f : X -> string) (g : X -> skind * ext) xs rest :
  Forall (fun x => input_ref (f x) = None) xs ->
  take_streams ins (map (fun x => (f x, g x)) xs ++ rest) (map f xs) = Ok (map g xs, rest).
Proof.
  induction xs as [|x xs IH]; intros Hx; [done|]. apply Forall_cons in Hx as [Hx Hxs].
  cbn [map take_streams]. unfold take_stream. rewrite Hx. cbn [app list_find].
  rewrite decide_True by done. cbn. by rewrite IH.
Qed.

Lemma ext_add_fin l a : fold_left ext_add (map Fin l) (Fin a) = Fin (fold_left Qplus l a).
Proof. revert a. induction l as [|q l IH]; intros a; [done|]. apply IH. Qed.

Lemma string_index_eq name args : no_char "=" name = true ->
  String.index 0 "=" (name ++ "=" ++ args) = Some (String.length name).
Proof.
  induction name as [|c name IH].
  { intros _. rewrite string_app_nil_l, string_app_cons, string_app_nil_l. cbn. by destruct args. }
  intros Hn. cbn in Hn. apply andb_prop in Hn as [Hc Hn].
  rewrite string_app_cons. unfold is_char in Hc.
  change (String.index 0 "=" (String c (name ++ "=" ++ args))) with
    (if (if Ascii.ascii_dec "=" c then String.prefix "" (name ++ "=" ++ args) else false) then Some 0%nat
     else match String.index 0 "=" (name ++ "=" ++ args) with Some n => Some (S n) | None => None end).
  destruct (Ascii.ascii_dec "=" c) as [<-|]; [by rewrite bool_decide_true in Hc|]. by rewrite IH.
Qed.

Lemma substring_all m s : (String.length s <= m)%nat -> String.substring 0 m s = s.
Proof.
  revert m. induction s as [|c s IH]; intros m Hm; [by destruct m|].
  destruct m as [|m]; cbn in Hm; [lia|]. cbn. rewrite IH; [done|lia].
Qed.

Lemma substring_app n m x s : String.substring (String.length x + n) m (x ++ s) = String.substring n m s.
Proof. induction x as [|c x IH]; [done|]. rewrite string_app_cons. cbn. apply IH. Qed.

(** ["name=args"] *)
Lemma split_filter_eq name args : name <> EmptyString -> no_char "=" name = true ->
  split_filter (name ++ "=" ++ args) = (name, args).
Proof.
  intros Hne Hn. unfold split_filter. rewrite split_on_prefix by done.
  rewrite string_app_cons, string_app_nil_l. cbn [split_on]. change (is_char "=" "=") with true. cbv iota.
  rewrite string_app_nil_r. change (String "=" args) with ("=" ++ args)%string.
  rewrite (string_index_eq name args Hn).
  replace (S (String.length name)) with (String.length name + 1)%nat by lia.
  rewrite substring_app. change ("=" ++ args)%string with (String "=" args). cbn [String.substring].
  rewrite substring_all; [done|]. rewrite !string_length_app. cbn. lia.
Qed.

End FilterGraphFacts.
