(* ===== verification/VideoGenerate.v ===== *)
(** * The script-driven video generator ([controllers/video-generate.controller.js])

    [VideoGenerator] is an earlier, self-contained pipeline: it cuts the
    generated script into sections at the lines that start with ["**"]
    ([parseScriptSections]), estimates each section's speaking time in
    binary64 ([estimateDuration]), fetches two photos and two SD videos
    per section from Pexels ([getPexelsMedia], [processSection],
    [downloadFile]), speaks the whole text with [say] ([createVoiceover])
    and joins everything with one ffmpeg filter graph ([createVideo],
    modelled in VideoAssemble.v).  No route of the server calls it.

    State: the world of files, the clock of [Date.now()] (Stock.v), and
    the number of [Math.random()] draws so far; the digits a draw prints
    are an oracle ([rand]).  The section objects are kept in a store and
    the list of sections holds references, because [parseScriptSections]
    pushes the object it keeps mutating. *)

From S2P Require Import Prelude Text Media Ffmpeg Scene Orchestrator Wizard Stock Pexels.
From Stdlib Require Import Ascii SpecFloat.
Local Open Scope string_scope.
Local Open Scope js_scope.

Module VideoGenerate.
Import ScriptWizard StockMedia Pexels SceneOrchestrator.

(** ** Strings *)

(** [pathStr.replace(/\\/g, '/')] *)
Fixpoint normalizePath (pathStr : string) : string :=
  match pathStr with
  | EmptyString => EmptyString
  | String c r => String (if is_char c "\" then "/"%char else c) (normalizePath r)
  end.

(** [s.replace(pat, rep)] with a string pattern: the first occurrence. *)
Definition replace_first (pat rep s : string) : string :=
  match String.index 0 pat s with
  | Some i => String.substring 0 i s ++ rep ++ String.substring (i + String.length pat) (String.length s) s
  | None => s
  end.

(** The text before the first line terminator ([.*] of a regular
    expression without the [s] flag). *)
Fixpoint rest_of_line (s : string) : string :=
  match s with
  | String c r => if is_line_terminator c then EmptyString else String c (rest_of_line r)
  | EmptyString => EmptyString
  end.

(** ["**" ++ r] *)
Definition after_stars (s : string) : option string :=
  match s with
  | String a (String b r) => if is_char a "*" && is_char b "*" then Some r else None
  | _ => None
  end.

(** The lazy [(.*?)\*\*]: the shortest text before the next ["**"] on
    the line, and what follows that ["**"]. *)
Fixpoint lazy_close (s : string) : option (string * string) :=
  match after_stars s with
  | Some r => Some (EmptyString, r)
  | None =>
      match s with
      | String c r =>
          if is_line_terminator c then None
          else match lazy_close r with Some (t, rest) => Some (String c t, rest) | None => None end
      | EmptyString => None
      end
  end.

(** [:?] *)
Definition drop_colon (s : string) : string :=
  match s with String c r => if is_char c ":" then r else s | EmptyString => s end.

(** [line.match(...)] with the expression of the source: two stars, a
    lazy group, two stars, an optional colon, and the rest of the line as
    the second group.  The leftmost match and its two groups. *)
Fixpoint section_match (line : string) : option (string * string) :=
  match line with
  | EmptyString => None
  | String _ r =>
      match after_stars line with
      | Some body =>
          match lazy_close body with
          | Some (type, rest) => Some (type, rest_of_line (drop_colon rest))
          | None => section_match r
          end
      | None => section_match r
      end
  end.

(** ** Durations in binary64 *)

Definition prec : Z := 53.
Definition emax : Z := 1024.

(** A non-negative integer as a double. *)
Definition f64_of_Z (n : Z) : spec_float := binary_normalize prec emax n 0 false.

(** [Math.ceil(x)] of a finite double, as an integer. *)
Definition f64_ceil (x : spec_float) : option Z :=
  match x with
  | S754_zero _ => Some 0%Z
  | S754_finite s m e =>
      let v := if s then Zneg m else Zpos m in
      Some (if (0 <=? e)%Z then v * 2 ^ e else - ((- v) / 2 ^ (- e)))%Z
  | _ => None
  end.

(** [content.split(' ').length] *)
Definition word_count (content : string) : nat := length (split_chars (fun c => is_char c " ") content).

(** [Math.ceil((wordCount / wordsPerMinute) * 60)] for a word count. *)
Definition estimate_words (wordCount : nat) : Z :=
  default 0%Z (f64_ceil (SFmul prec emax (SFdiv prec emax (f64_of_Z (Z.of_nat wordCount)) (f64_of_Z 150)) (f64_of_Z 60))).

(** [estimateDuration(content)] *)
Definition estimateDuration (content : string) : Z := estimate_words (word_count content).

(** [Math.ceil(section.duration / 2)] *)
Definition half_duration (d : Z) : Z := default 0%Z (f64_ceil (SFdiv prec emax (f64_of_Z d) (f64_of_Z 2))).

(** ** Sections *)

(** [{ type, content, duration }] *)
Record section : Type := mkSection { sec_type : string; sec_content : string; sec_duration : Z }.

(** The objects made so far (a reference is a position), the array
    [sections] and [currentSection]. *)
Record parse_state : Type := mkParse {
  store : list section;
  sections : list nat;
  currentSection : option nat
}.

Definition trim_content (x : section) : section := mkSection (sec_type x) (trim (sec_content x)) (sec_duration x).
Definition append_line (l : string) (x : section) : section :=
  mkSection (sec_type x) (sec_content x ++ " " ++ l) (sec_duration x).
Definition set_duration (x : section) : section :=
  mkSection (sec_type x) (sec_content x) (estimateDuration (sec_content x)).

(** [currentSection.content = currentSection.content.trim(); sections.push(currentSection)] *)
Definition push_current (st : parse_state) : parse_state :=
  match currentSection st with
  | Some r => mkParse (alter trim_content r (store st)) (sections st ++ [r]) (currentSection st)
  | None => st
  end.

(** The body of the [for] loop. *)
Definition parse_line (st : parse_state) (line : string) : parse_state :=
  if String.prefix "**" line then
    let st1 := push_current st in
    match section_match line with
    | Some (type, description) =>
        mkParse (store st1 ++ [mkSection (js_to_lower type) (trim description) 0]) (sections st1)
                (Some (length (store st1)))
    | None => st1
    end
  else match currentSection st with
       | Some r =>
           if negb (String.eqb (trim line) "") then mkParse (alter (append_line (trim line)) r (store st)) (sections st) (Some r)
           else st
       | None => st
       end.

(** [parseScriptSections(script)]: the array holds references; the
    [forEach] sets the duration of each object it reaches, once per
    reference. *)
(** [script.replace('[SCENE START]', '').trim().split('\n')] *)
Definition script_lines (script : string) : list string :=
  split_chars (fun c => is_char c "010") (trim (replace_first "[SCENE START]" "" script)).

Definition parseScriptSections (script : string) : list section :=
  let st := push_current (fold_left parse_line (script_lines script) (mkParse [] [] None)) in
  let final := fold_left (fun h r => alter set_duration r h) (sections st) (store st) in
  omap (fun r => final !! r) (sections st).

(** ** Paths *)

(** [path.dirname(p)] *)
Fixpoint last_slash (s : string) (i : nat) (acc : option nat) : option nat :=
  match s with
  | EmptyString => acc
  | String c r => last_slash r (S i) (if is_char c "/" then Some i else acc)
  end.

Definition path_dirname (p : string) : string :=
  match last_slash p 0 None with
  | Some O => "/"
  | Some i => String.substring 0 i p
  | None => "."
  end.

(** ** The effects of the generator *)

(** The world, the clock, and the number of [Math.random()] draws. *)
Record vgstate : Type := mkVG { vg_sw : sworld; vg_draws : nat }.

Abbreviation VG := (St vgstate).

Definition lift_sm {A} (m : SM A) : VG A :=
  fun s => let '(sw', r) := m (vg_sw s) in (mkVG sw' (vg_draws s), r).

(** [fs.promises.access(p)] *)
Definition fs_access (p : string) : M unit :=
  fun w => match w_files w !! p with Some _ => (w, Ok tt) | None => (w, Throw (ErrENOENT p)) end.

(** What the search endpoint answers: [data.photos] and [data.videos]
    ([None]: the field is missing, as in an error object). *)
Record pexels_data : Type := mkPexelsData { pd_photos : option (list pphoto); pd_videos : option (list pvideo) }.

(** An element of the media list: [{ type, path, duration }]. *)
Record vmedia : Type := mkVMedia { vm_type : string; vm_path : string; vm_duration : Z }.

Section Generator.
(** [process.cwd()], the network (latency and answers by URL), [say], and
    the text of the [n]-th [Math.random().toString(36).substr(2, 9)]. *)
Variable cwd : string.
Variable latency : string -> Z.
Variable pexels_answer : string -> res pexels_data.
Variable downloads : string -> res file_response.
Variable say_export : string -> res file.
Variable rand : nat -> string.

(** [this.tempDir] *)
Definition vg_tempDir : string := normalizePath (path_join cwd "temp").

(** [path.resolve(p)], without the collapsing of ['.'] and ['..']
    segments. *)
Definition path_resolve (p : string) : string := if String.prefix "/" p then p else path_join cwd p.

Definition date_now_vg : VG Z := lift_sm date_now.

Definition random_suffix : VG string := fun s => (mkVG (vg_sw s) (S (vg_draws s)), Ok (rand (vg_draws s))).

(** The request of [getPexelsMedia]: the query is put in the URL as it
    is. *)
Definition pexels_search_url (query mediaType : string) (perPage : nat) : string :=
  (if String.eqb mediaType "photos" then "https://api.pexels.com/v1/search" else "https://api.pexels.com/videos/search") ++
  "?query=" ++ query ++ "&per_page=" ++ pretty perPage.

(** [async getPexelsMedia(query, mediaType, perPage)] *)
Definition getPexelsMedia (query mediaType : string) (perPage : nat) : VG pexels_data :=
  lift_sm (net_fetch latency pexels_answer (pexels_search_url query mediaType perPage)).

(** [async downloadFile(url, filePath)]: the body is written whatever the
    status of the answer. *)
Definition downloadFile (url filePath : string) : VG string :=
  let absolutePath := path_resolve filePath in
  response <- lift_sm (net_fetch latency downloads url) ;;
  lift_sm (lift_w (write_file absolutePath (fr_body response))) ;;;
  mret absolutePath.

(** [createVoiceover(text, outputFile)] *)
Definition createVoiceover (text outputFile : string) : VG string :=
  let absolutePath := path_resolve outputFile in
  audio <- lift_res (say_export text) ;;
  lift_sm (lift_w (write_file absolutePath audio)) ;;;
  mret absolutePath.

(** [photo_${Date.now()}_${random}.jpg] and the video name. *)
Definition media_name (prefix ext : string) : VG string :=
  now <- date_now_vg ;;
  x <- random_suffix ;;
  mret (normalizePath (path_join vg_tempDir (prefix ++ "_" ++ int_to_string now ++ "_" ++ x ++ ext))).

(** [for (const photo of photos.photos || [])] *)
Fixpoint photo_loop (d : Z) (photos : list pphoto) : VG (list vmedia) :=
  match photos with
  | [] => mret []
  | photo :: rest =>
      filePath <- media_name "photo" ".jpg" ;;
      absolutePath <- downloadFile (jsval_to_string (pp_src_original photo)) filePath ;;
      ms <- photo_loop d rest ;;
      mret (mkVMedia "image" absolutePath (half_duration d) :: ms)
  end.

(** [f.quality === 'sd' && f.width >= 720 && f.height >= 480] *)
Definition sd_file (f : pfile) : bool :=
  js_strict_eq (pf_quality f) (VStr "sd") && Qle_bool 720 (pf_width f) && Qle_bool 480 (pf_height f).

(** [for (const video of videos.videos || [])] *)
Fixpoint video_loop (d : Z) (videos : list pvideo) : VG (list vmedia) :=
  match videos with
  | [] => mret []
  | video :: rest =>
      m <- match js_find sd_file (pv_video_files video) with
           | Some videoFile =>
               filePath <- media_name "video" ".mp4" ;;
               absolutePath <- downloadFile (jsval_to_string (pf_link videoFile)) filePath ;;
               mret [mkVMedia "video" absolutePath (half_duration d)]
           | None => mret []
           end ;;
      ms <- video_loop d rest ;;
      mret (m ++ ms)%list
  end.

(** [x?.length] is truthy *)
Definition has_items {A} (o : option (list A)) : bool := match o with Some (_ :: _) => true | _ => false end.

(** [async processSection(section)]: the query is the section's type;
    its [catch] logs and rethrows. *)
Definition processSection (section : section) : VG (list vmedia) :=
  let searchQuery := sec_type section in
  photos <- getPexelsMedia searchQuery "photos" 2 ;;
  videos <- getPexelsMedia searchQuery "videos" 2 ;;
  if negb (has_items (pd_photos photos)) && negb (has_items (pd_videos videos))
  then mthrow (ErrMessage ("No media found for query: " ++ searchQuery))
  else
    ms1 <- photo_loop (sec_duration section) (default [] (pd_photos photos)) ;;
    ms2 <- video_loop (sec_duration section) (default [] (pd_videos videos)) ;;
    mret (ms1 ++ ms2)%list.

(** [async validateOutputPath(outputFile)], which nothing calls. *)
Definition validateOutputPath (outputFile : string) : VG string :=
  mcatch
    (let absolutePath := path_resolve outputFile in
     let outputDir := path_dirname absolutePath in
     lift_sm (lift_w (mkdir_p outputDir)) ;;;
     mcatch (lift_sm (lift_w (fs_access absolutePath)) ;;; lift_sm (lift_w (unlink absolutePath))) (fun _ => mret tt) ;;;
     let testFile := path_join outputDir ".write_test" in
     lift_sm (lift_w (write_file testFile (mkFile (KText "") None))) ;;;
     lift_sm (lift_w (unlink testFile)) ;;;
     mret absolutePath)
    (fun error => mthrow (ErrMessage ("Cannot write to output location: " ++ error_message error))).

(** [async validateAndPrepareOutputPath(outputFile)]: an existing file
    at the output path is deleted. *)
Definition validateAndPrepareOutputPath (outputFile : string) : VG string :=
  mcatch
    (let absolutePath := normalizePath (path_resolve outputFile) in
     let outputDir := normalizePath (path_dirname absolutePath) in
     lift_sm (lift_w (mkdir_p outputDir)) ;;;
     let testFile := normalizePath (path_join outputDir ".write_test") in
     mcatch (lift_sm (lift_w (write_file testFile (mkFile (KText "") None))) ;;; lift_sm (lift_w (unlink testFile)))
       (fun error => mthrow (ErrMessage ("No write permission in output directory: " ++ error_message error))) ;;;
     mcatch (lift_sm (lift_w (fs_access absolutePath)) ;;; lift_sm (lift_w (unlink absolutePath))) (fun _ => mret tt) ;;;
     mret absolutePath)
    (fun error => mthrow (ErrMessage ("Output path validation failed: " ++ error_message error))).

End Generator.
End VideoGenerate.

Module VideoGenerateFacts.
Import VideoGenerate.
Local Open Scope list_scope.

(** ** Speaking time in binary64 *)

(** [Math.ceil(wordCount * 60 / 150)] computed exactly. *)
Definition estimate_exact (wordCount : nat) : Z := ((2 * Z.of_nat wordCount + 4) / 5)%Z.

(** The word counts up to 3000 at which the rounding of [wordCount / 150]
    and of its product by 60 lands just above an integer. *)
Definition estimate_overshoot : list nat :=
  [155; 310; 620; 625; 1240; 1245; 1250; 2405; 2415; 2425; 2480; 2490; 2500; 2555]%nat.

Definition estimate_table_ok : bool :=
  forallb (fun n => Z.eqb (estimate_words n) (estimate_exact n + if existsb (Nat.eqb n) estimate_overshoot then 1 else 0)%Z)
    (seq 0 3001).

Lemma estimate_table : estimate_table_ok = true.
Proof. vm_compute. reflexivity. Qed.

(** ** Sections as values

    The same parse with the sections held by value: a header line closes
    the current section and opens a new one. *)
Definition section_line (acc : list section * option section) (line : string) : list section * option section :=
  let '(done, cur) := acc in
  if String.prefix "**" line then
    let done' := match cur with Some x => (done ++ [trim_content x])%list | None => done end in
    match section_match line with
    | Some (type, description) => (done', Some (mkSection (js_to_lower type) (trim description) 0))
    | None => (done', cur)
    end
  else match cur with
       | Some x => if negb (String.eqb (trim line) "") then (done, Some (append_line (trim line) x)) else acc
       | None => acc
       end.

Definition script_sections (script : string) : list section :=
  let '(done, cur) := fold_left section_line (script_lines script) ([], None) in
  map set_duration (done ++ match cur with Some x => [trim_content x] | None => [] end)%list.

(** The store holds the closed sections, then the open one; the array
    refers to the closed ones in order. *)
Definition parse_rel (st : parse_state) (acc : list section * option section) : Prop :=
  let '(done, cur) := acc in
  store st = (done ++ match cur with Some x => [x] | None => [] end)%list /\
  sections st = seq 0 (length done) /\
  currentSection st = match cur with Some _ => Some (length done) | None => None end.

Lemma alter_middle {A} (f : A -> A) (l1 l2 : list A) x :
  alter f (length l1) (l1 ++ x :: l2) = (l1 ++ f x :: l2)%list.
Proof. induction l1 as [|y l1 IH]; [done|]. cbn. by rewrite IH. Qed.

Lemma push_current_rel st done cur :
  parse_rel st (done, cur) ->
  let done' := match cur with Some x => done ++ [trim_content x] | None => done end in
  store (push_current st) = done' /\ sections (push_current st) = seq 0 (length done').
Proof.
  intros (Hs & Hq & Hc). unfold push_current. rewrite Hc.
  destruct cur as [x|]; cbn; rewrite ?Hs, ?Hq, ?app_nil_r; [|done].
  rewrite (alter_middle _ done []). rewrite length_app, seq_app. done.
Qed.

Lemma parse_line_rel st acc line :
  (String.prefix "**" line = true -> is_Some (section_match line)) ->
  parse_rel st acc -> parse_rel (parse_line st line) (section_line acc line).
Proof.
  destruct acc as [done cur]. intros Hm Hr. unfold parse_line, section_line.
  destruct (String.prefix "**" line) eqn:Hp.
  - destruct (Hm eq_refl) as [[type d] Hd]. rewrite Hd.
    destruct (push_current_rel st done cur Hr) as [Hs Hq]. cbn. by rewrite Hs, Hq.
  - destruct Hr as (Hs & Hq & Hc). rewrite Hc. destruct cur as [x|]; [|done].
    destruct (negb _); [|done]. cbn. rewrite Hs. by rewrite (alter_middle _ done []).
Qed.

Lemma fold_alter_seq {A} (f : A -> A) (l1 l2 : list A) :
  fold_left (fun h r => alter f r h) (seq (length l1) (length l2)) (l1 ++ l2) = (l1 ++ map f l2)%list.
Proof.
  revert l1. induction l2 as [|x l2 IH]; intros l1; [done|]. cbn [length seq fold_left].
  rewrite alter_middle. replace (l1 ++ f x :: l2)%list with ((l1 ++ [f x]) ++ l2)%list by by rewrite <- app_assoc.
  replace (S (length l1)) with (length (l1 ++ [f x])) by (rewrite length_app; cbn; lia).
  rewrite IH. by rewrite <- app_assoc.
Qed.

Lemma omap_lookup_seq {A} (l1 l2 : list A) :
  omap (fun r => (l1 ++ l2)%list !! r) (seq (length l1) (length l2)) = l2.
Proof.
  revert l1. induction l2 as [|x l2 IH]; intros l1; [done|]. cbn [length seq]. simpl omap.
  rewrite lookup_app_r, Nat.sub_diag by lia. cbn [lookup list_lookup].
  replace (l1 ++ x :: l2)%list with ((l1 ++ [x]) ++ l2)%list by by rewrite <- app_assoc.
  replace (S (length l1)) with (length (l1 ++ [x])) by (rewrite length_app; cbn; lia).
  by rewrite IH.
Qed.

Lemma fold_parse_rel lines st acc :
  (forall line, line ∈ lines -> String.prefix "**" line = true -> is_Some (section_match line)) ->
  parse_rel st acc -> parse_rel (fold_left parse_line lines st) (fold_left section_line lines acc).
Proof.
  revert st acc. induction lines as [|line lines IH]; intros st acc Hm Hr; [done|]. cbn.
  apply IH; [intros l Hl; apply Hm; set_solver|]. apply parse_line_rel; [apply Hm; set_solver|done].
Qed.

(** ** Every section is well formed

    Whatever the script, even when a section object is shared, each
    element of the result has no white space at its ends and the duration
    of its text.  Every object but the current one has been trimmed; the
    last push trims the current one. *)
Definition trimmed (s : string) : bool := not_ws_head (head_char s) && not_ws_head (last_char s).

Definition parse_inv (st : parse_state) : Prop :=
  forall i x, store st !! i = Some x -> currentSection st = Some i \/ trimmed (sec_content x) = true.

Lemma trim_content_trimmed x : trimmed (sec_content (trim_content x)) = true.
Proof. unfold trimmed. cbn. destruct (trim_ends (sec_content x)) as [-> ->]. done. Qed.

Lemma lookup_alter_same {A} (f : A -> A) (r : nat) (l : list A) : alter f r l !! r = f <$> l !! r.
Proof. rewrite list_lookup_alter. by rewrite decide_True. Qed.

Lemma push_current_trimmed st i x :
  parse_inv st -> store (push_current st) !! i = Some x -> trimmed (sec_content x) = true.
Proof.
  intros Hinv. unfold push_current. destruct (currentSection st) as [r|] eqn:Hc; cbn.
  - destruct (decide (i = r)) as [->|Hne].
    + rewrite lookup_alter_same. intros (y & _ & ->)%fmap_Some. apply trim_content_trimmed.
    + rewrite list_lookup_alter_ne by done. intros Hx. destruct (Hinv i x Hx) as [Hi|]; [congruence|done].
  - intros Hx. destruct (Hinv i x Hx) as [Hi|]; [congruence|done].
Qed.

Lemma parse_line_inv st line : parse_inv st -> parse_inv (parse_line st line).
Proof.
  intros Hinv. unfold parse_line. destruct (String.prefix "**" line).
  - pose proof (push_current_trimmed st) as Hp.
    destruct (section_match line) as [[type d]|]; intros i x; cbn; [|right; by eapply Hp].
    destruct (decide (i = length (store (push_current st)))) as [->|Hne]; [by left|].
    intros Hx. right. apply (Hp i x Hinv). rewrite lookup_app in Hx.
    destruct (store (push_current st) !! i) eqn:E; [by simplify_eq|].
    apply lookup_ge_None_1 in E. apply list_lookup_singleton_Some in Hx as [Hi _]. lia.
  - destruct (currentSection st) as [r|] eqn:Hc; [|done]. destruct (negb _); [|done].
    intros i x. cbn. destruct (decide (i = r)) as [->|Hne]; [by left|].
    rewrite list_lookup_alter_ne by done. intros Hx. destruct (Hinv i x Hx) as [H|H]; [congruence|by right].
Qed.

Lemma fold_parse_inv lines st : parse_inv st -> parse_inv (fold_left parse_line lines st).
Proof. revert st. induction lines as [|l ls IH]; intros st H; [done|]. apply IH, parse_line_inv, H. Qed.

Lemma fold_alter_notin {A} (f : A -> A) (rs : list nat) (l : list A) (r : nat) :
  r ∉ rs -> fold_left (fun h r => alter f r h) rs l !! r = l !! r.
Proof.
  revert l. induction rs as [|r0 rs IH]; intros l Hr; [done|]. apply not_elem_of_cons in Hr as [Hne Hr].
  cbn. rewrite IH by done. by rewrite list_lookup_alter_ne.
Qed.

Lemma fold_alter_keep {A} (f : A -> A) (P : A -> Prop) (rs : list nat) (l : list A) :
  (forall x, P x -> P (f x)) -> (forall i x, l !! i = Some x -> P x) ->
  forall i x, fold_left (fun h r => alter f r h) rs l !! i = Some x -> P x.
Proof.
  intros Hf. revert l. induction rs as [|r rs IH]; intros l Hl; [done|]. cbn. apply IH.
  intros i x. destruct (decide (i = r)) as [->|Hne].
  - rewrite lookup_alter_same. intros (y & Hy & ->)%fmap_Some. eauto.
  - rewrite list_lookup_alter_ne by done. apply Hl.
Qed.

Lemma fold_alter_set {A} (f : A -> A) (P : A -> Prop) (rs : list nat) (l : list A) (r : nat) x :
  (forall x, P (f x)) -> r ∈ rs -> fold_left (fun h r => alter f r h) rs l !! r = Some x -> P x.
Proof.
  intros Hf. revert l. induction rs as [|r0 rs IH]; intros l Hr; [by apply not_elem_of_nil in Hr|]. cbn.
  destruct (decide (r ∈ rs)) as [Hin|Hnin]; [by apply IH|].
  apply elem_of_cons in Hr as [->|]; [|done]. rewrite fold_alter_notin by done.
  rewrite lookup_alter_same. intros (y & _ & ->)%fmap_Some. apply Hf.
Qed.

(** C8: [estimateDuration] in binary64.  For every text of at most 3000
    words it gives the exact [ceil(words * 60 / 150)], except at the 14
    word counts of [estimate_overshoot] (155 words, 310, ...), where the
    rounding of the two float operations gives one second more. *)
Theorem estimateDuration_rounding content :
  (word_count content <= 3000)%nat ->
  estimateDuration content =
    (estimate_exact (word_count content) + if existsb (Nat.eqb (word_count content)) estimate_overshoot then 1 else 0)%Z.
Proof.
  intros Hn. pose proof estimate_table as H. unfold estimate_table_ok in H. rewrite forallb_forall in H.
  apply Z.eqb_eq, H, in_seq. lia.
Qed.

(** C7: when every line that starts with ["**"] is a header the pattern
    matches, [parseScriptSections] returns one distinct section per header,
    in order: the parse with references agrees with the parse by value,
    each section holding its trimmed text and its estimated duration. *)
Theorem parseScriptSections_values script :
  (forall line, line ∈ script_lines script -> String.prefix "**" line = true -> is_Some (section_match line)) ->
  parseScriptSections script = script_sections script.
Proof.
  intros Hm. unfold parseScriptSections, script_sections.
  pose proof (fold_parse_rel (script_lines script) (mkParse [] [] None) ([], None) Hm ltac:(done)) as Hr.
  destruct (fold_left section_line (script_lines script) ([], None)) as [done cur].
  destruct (push_current_rel _ _ _ Hr) as [Hs Hq]. rewrite Hs, Hq.
  set (l := match cur with Some x => _ | None => _ end).
  pose proof (fold_alter_seq set_duration [] l) as Hf. pose proof (omap_lookup_seq [] (map set_duration l)) as Ho.
  cbn in Hf, Ho. rewrite length_map in Ho. rewrite Hf, Ho. subst l. by destruct cur; rewrite ?app_nil_r.
Qed.

(** C11: every section [parseScriptSections] returns, shared or not, has
    a text without white space at either end and the duration
    [estimateDuration] gives for that text. *)
Theorem parseScriptSections_wellformed script sec :
  sec ∈ parseScriptSections script ->
  trimmed (sec_content sec) = true /\ sec_duration sec = estimateDuration (sec_content sec).
Proof.
  unfold parseScriptSections. set (st := push_current _).
  assert (Hinv : parse_inv (fold_left parse_line (script_lines script) (mkParse [] [] None))).
  { apply fold_parse_inv. by intros i x. }
  intros (r & Hr & Hx)%list_elem_of_omap. split.
  - revert Hx. apply (fold_alter_keep set_duration (fun x => trimmed (sec_content x) = true)); [done|].
    intros i x. by apply push_current_trimmed.
  - revert Hx. by apply (fold_alter_set set_duration (fun x => sec_duration x = estimateDuration (sec_content x))).
Qed.

(** ** A header that does not match

    Such a line pushes the current section but keeps it current, so it is
    pushed again by the next header or at the end: the array holds the
    same object at two consecutive positions. *)
Definition cur_ok (st : parse_state) : Prop :=
  forall r, currentSection st = Some r -> (r < length (store st))%nat.

(** The section [r] was pushed last and is still current, or it sits
    twice in a row in the array. *)
Definition pushed_twice (r : nat) (st : parse_state) : Prop :=
  (exists l1, sections st = l1 ++ [r] /\ currentSection st = Some r) \/
  (exists l1 l2, sections st = l1 ++ r :: r :: l2).

Lemma push_current_length st : length (store (push_current st)) = length (store st).
Proof. unfold push_current. destruct (currentSection st); [apply length_alter|done]. Qed.

Lemma parse_line_length st line : (length (store st) <= length (store (parse_line st line)))%nat.
Proof.
  unfold parse_line. destruct (String.prefix "**" line).
  - rewrite <- (push_current_length st). destruct (section_match line) as [[]|]; cbn; [rewrite length_app|]; lia.
  - destruct (currentSection st); [|lia]. destruct (negb _); cbn; [rewrite length_alter|]; lia.
Qed.

Lemma push_current_current st : currentSection (push_current st) = currentSection st.
Proof. unfold push_current. destruct (currentSection st) eqn:E; cbn; congruence. Qed.

Lemma parse_line_cur_ok st line : cur_ok st -> cur_ok (parse_line st line).
Proof.
  intros H r. unfold parse_line. destruct (String.prefix "**" line).
  - destruct (section_match line) as [[]|]; cbn.
    + intros [= <-]. rewrite length_app. cbn. lia.
    + rewrite push_current_current, push_current_length. apply H.
  - destruct (currentSection st) eqn:E; [|apply H].
    destruct (negb _); cbn; [rewrite length_alter; intros [= <-]; by apply H|apply H].
Qed.

Lemma parse_line_current st line r :
  currentSection st = Some r -> exists r', currentSection (parse_line st line) = Some r'.
Proof.
  intros Hr. unfold parse_line, push_current. rewrite Hr.
  destruct (String.prefix "**" line); [destruct (section_match line) as [[]|]|destruct (negb _)]; cbn; eauto.
Qed.

Lemma push_current_rel_any st : exists l, sections (push_current st) = sections st ++ l.
Proof. unfold push_current. destruct (currentSection st); cbn; eauto. exists []. by rewrite app_nil_r. Qed.

Lemma parse_line_sections st line : exists l, sections (parse_line st line) = sections st ++ l.
Proof.
  unfold parse_line, push_current. destruct (currentSection st).
  - destruct (String.prefix "**" line); [destruct (section_match line) as [[]|]|destruct (negb _)]; cbn; eauto.
    all: exists []; by rewrite app_nil_r.
  - destruct (String.prefix "**" line); [destruct (section_match line) as [[]|]|]; cbn; exists []; by rewrite app_nil_r.
Qed.

Lemma parse_line_twice r st line : pushed_twice r st -> pushed_twice r (parse_line st line).
Proof.
  intros [(l1 & Hs & Hc)|(l1 & l2 & Hs)].
  - unfold parse_line, push_current. rewrite Hc. destruct (String.prefix "**" line).
    + right. exists l1, []. destruct (section_match line) as [[]|]; cbn; by rewrite Hs, <- app_assoc.
    + left. exists l1. destruct (negb _); cbn; by rewrite ?Hs.
  - right. destruct (parse_line_sections st line) as [l Hl]. exists l1, (l2 ++ l). rewrite Hl, Hs.
    by rewrite <- app_assoc.
Qed.

Lemma fold_cur_ok lines st : cur_ok st -> cur_ok (fold_left parse_line lines st).
Proof. revert st. induction lines as [|l ls IH]; intros st H; [done|]. apply IH, parse_line_cur_ok, H. Qed.

Lemma fold_twice r lines st : pushed_twice r st -> pushed_twice r (fold_left parse_line lines st).
Proof. revert st. induction lines as [|l ls IH]; intros st H; [done|]. apply IH, parse_line_twice, H. Qed.

Lemma fold_current lines st r :
  currentSection st = Some r -> exists r', currentSection (fold_left parse_line lines st) = Some r'.
Proof.
  revert st r. induction lines as [|l ls IH]; intros st r H; [eauto|]. cbn.
  destruct (parse_line_current st l r H) as [r' Hr']. by apply (IH _ r').
Qed.

Lemma fold_current_header lines st :
  (exists h, h ∈ lines /\ String.prefix "**" h = true /\ is_Some (section_match h)) ->
  exists r, currentSection (fold_left parse_line lines st) = Some r.
Proof.
  revert st. induction lines as [|l ls IH]; intros st (h & Hh & Hp & Hm); [by apply not_elem_of_nil in Hh|].
  cbn. apply elem_of_cons in Hh as [->|Hh]; [|apply IH; eauto].
  destruct Hm as [[type d] Hm]. apply (fold_current _ _ (length (store (push_current st)))).
  unfold parse_line. by rewrite Hp, Hm.
Qed.

Lemma fold_alter_length (f : section -> section) rs (h : list section) :
  length (fold_left (fun h r => alter f r h) rs h) = length h.
Proof. revert h. induction rs as [|q qs IH]; intros h; [done|]. cbn [fold_left]. by rewrite IH, length_alter. Qed.

(** C37: a line that starts with ["**"] but has no closing ["**"], after
    a first header, pushes the current section without replacing it: the
    result holds the same section at two consecutive positions (the text
    after that line goes to both). *)
Theorem parseScriptSections_duplicate script pre bad post :
  script_lines script = pre ++ bad :: post ->
  (exists h, h ∈ pre /\ String.prefix "**" h = true /\ is_Some (section_match h)) ->
  String.prefix "**" bad = true -> section_match bad = None ->
  exists i x, parseScriptSections script !! i = Some x /\ parseScriptSections script !! S i = Some x.
Proof.
  intros Hl Hh Hp Hm. unfold parseScriptSections. rewrite Hl, fold_left_app. cbn [fold_left].
  set (st0 := fold_left parse_line pre (mkParse [] [] None)).
  destruct (fold_current_header pre (mkParse [] [] None) Hh) as [r Hr]. fold st0 in Hr.
  assert (Hok : cur_ok st0) by (apply fold_cur_ok; done).
  assert (Hr1 : (r < length (store st0))%nat) by (by apply Hok).
  assert (Ht : pushed_twice r (parse_line st0 bad)).
  { left. exists (sections st0). unfold parse_line, push_current. by rewrite Hp, Hr, Hm. }
  set (st1 := fold_left parse_line post (parse_line st0 bad)).
  pose proof (fold_twice r post _ Ht) as Ht1. fold st1 in Ht1.
  assert (Hlen : (r < length (store (push_current st1)))%nat).
  { rewrite push_current_length. unfold st1. clear Ht1.
    assert (Hg : forall ls st, (length (store st) <= length (store (fold_left parse_line ls st)))%nat).
    { induction ls as [|l ls IH]; intros st; [done|]. cbn. etrans; [apply (parse_line_length st l)|apply IH]. }
    eapply Nat.lt_le_trans; [|apply Hg]. eapply Nat.lt_le_trans; [exact Hr1|apply parse_line_length]. }
  assert (Hs : exists l1 l2, sections (push_current st1) = l1 ++ r :: r :: l2).
  { destruct Ht1 as [(l1 & Hs & Hc)|(l1 & l2 & Hs)].
    - exists l1, []. unfold push_current. rewrite Hc. cbn. by rewrite Hs, <- app_assoc.
    - destruct (push_current_rel_any st1) as [l Hl']. exists l1, (l2 ++ l). rewrite Hl', Hs. by rewrite <- app_assoc. }
  destruct Hs as (l1 & l2 & Hs). rewrite Hs.
  set (fin := fold_left _ _ (store (push_current st1))).
  assert (Hfin : length fin = length (store (push_current st1))).
  { unfold fin. apply fold_alter_length. }
  destruct (lookup_lt_is_Some_2 fin r ltac:(lia)) as [x Hx].
  rewrite omap_app. simpl omap. rewrite Hx.
  exists (length (omap (fun r0 => fin !! r0) l1)), x.
  rewrite !lookup_app_r by lia. rewrite Nat.sub_diag, Nat.sub_succ_l, Nat.sub_diag by lia. done.
Qed.

End VideoGenerateFacts.
