(* ===== verification/VideoAssemble.v ===== *)
(** * Assembling the generated video ([createVideo] of [controllers/video-generate.controller.js])

    [createVideo] prepares the output path, cuts the script into sections,
    speaks the joined contents, collects the media of every section, and
    builds one ffmpeg command: every medium is an input (a picture looped
    and cut at its duration), the narration is the last input, and the
    filter graph scales every input, joins them with [concat] and passes
    the narration through [anull]; the output keeps the shorter of the
    two ([-shortest]).  When ffmpeg ends, the downloads, the narration and
    the temporary directory are removed.

    The command is run by the filter-graph encoder of FilterGraph.v; the
    facts below compute what that command writes. *)

From S2P Require Import Prelude Text Media Ffmpeg FilterGraph Scene Orchestrator Wizard Stock Pexels VideoGenerate.
From Stdlib Require Import Ascii.
Local Open Scope string_scope.
Local Open Scope js_scope.

Module VideoAssemble.
Import ScriptWizard StockMedia Pexels SceneOrchestrator VideoGenerate.

Section Assemble.
Variable cwd : string.
Variable latency : string -> Z.
Variable pexels_answer : string -> res pexels_data.
Variable downloads : string -> res file_response.
Variable say_export : string -> res file.
Variable rand : nat -> string.
(** The encoder, and what ffmpeg prints on [stderr] when it fails. *)
Context `{G : FgEncoder}.
Variable stderr : js_error -> string.

Local Abbreviation processSection := (processSection cwd latency pexels_answer downloads rand).
Local Abbreviation path_resolve := (path_resolve cwd).
Local Abbreviation vg_tempDir := (vg_tempDir cwd).
Local Abbreviation validateAndPrepareOutputPath := (validateAndPrepareOutputPath cwd).
Local Abbreviation createVoiceover := (createVoiceover cwd say_export).

(** [for (const section of sections)]: the media of every section, in
    order; the first section that fails stops the loop. *)
Fixpoint sections_loop (secs : list section) : VG (list vmedia) :=
  match secs with
  | [] => mret []
  | section :: rest =>
      ms <- processSection section ;;
      ms' <- sections_loop rest ;;
      mret (ms ++ ms')%list
  end.

(** The chains of [filterComplex]. *)
Definition scale_chain (index : nat) : string :=
  "[" ++ pretty index ++ ":v]scale=1920:1080:force_original_aspect_ratio=decrease,pad=1920:1080:(ow-iw)/2:(oh-ih)/2,setsar=1[v" ++
  pretty index ++ "]".

Definition concat_chain (n : nat) : string :=
  js_join "" (map (fun index => "[v" ++ pretty index ++ "]") (seq 0 n)) ++ "concat=n=" ++ pretty n ++ ":v=1:a=0[vout]".

Definition audio_chain (n : nat) : string := "[" ++ pretty n ++ ":a]anull[aout]".

Definition filterComplex (n : nat) : list string := (map scale_chain (seq 0 n) ++ [concat_chain n; audio_chain n])%list.

(** [allMediaFiles.forEach(...)]: a picture is looped and cut at its
    duration. *)
Definition add_media (c : res fgcmd) (media : vmedia) : res fgcmd :=
  c' <-? c ;;
  let absolutePath := normalizePath (path_resolve (vm_path media)) in
  if String.eqb (vm_type media) "image"
  then fg_inputOptions [OptLoop1; OptT (JNum (inject_Z (vm_duration media)))] (fg_input absolutePath c')
  else Ok (fg_input absolutePath c').

Definition video_output_options : list ffopt :=
  [OptRaw "-c:v libx264"; OptRaw "-preset medium"; OptRaw "-crf 23"; OptRaw "-pix_fmt yuv420p";
   OptRaw "-c:a aac"; OptShortest; OptRaw "-y"].

(** The command of [createVideo]. *)
Definition assemble_command (allMediaFiles : list vmedia) (voiceover output : string) : res fgcmd :=
  c <-? fold_left add_media allMediaFiles (Ok fg_new) ;;
  let c := fg_input voiceover c in
  Ok (fg_output (normalizePath output)
        (fg_outputOptions video_output_options
           (fg_map "[aout]" (fg_map "[vout]" (fg_complexFilter (filterComplex (length allMediaFiles)) c))))).

(** [fs.promises.rmdir(dir)]: only an empty directory is removed. *)
Definition rmdir_empty (dir : string) : M unit :=
  fun w => if bool_decide (map_Exists (fun p _ => under dir p = true) (w_files w))
           then (w, Throw (ErrMessage ("ENOTEMPTY: directory not empty, rmdir '" ++ dir ++ "'")))
           else (w, Ok tt).

(** [unlink(p).catch(console.error)] *)
Definition unlink_logged (p : string) : VG unit := mcatch (lift_sm (lift_w (unlink p))) (fun _ => mret tt).

(** The [end] handler: the downloads and the narration are deleted, then
    the temporary directory if it is empty; every failure is only
    logged. *)
Definition on_end (allMediaFiles : list vmedia) (voiceover : string) : VG unit :=
  mmap (fun f => unlink_logged (normalizePath (path_resolve (vm_path f)))) allMediaFiles ;;;
  unlink_logged voiceover ;;;
  mcatch (lift_sm (lift_w (rmdir_empty vg_tempDir))) (fun _ => mret tt).

(** ["\n"] *)
Definition nl : string := String "010" EmptyString.

(** [async createVideo(script, outputFile)] on [script.generatedScript];
    its [catch] logs and rethrows. *)
Definition createVideo (generatedScript outputFile : string) : VG string :=
  lift_sm (lift_w (mkdir_p vg_tempDir)) ;;;
  absoluteOutputPath <- validateAndPrepareOutputPath outputFile ;;
  let sections := parseScriptSections generatedScript in
  now <- date_now_vg ;;
  let voiceoverPath := normalizePath (path_join vg_tempDir ("voiceover_" ++ int_to_string now ++ ".wav")) in
  absoluteVoiceoverPath <- createVoiceover (js_join " " (map sec_content sections)) voiceoverPath ;;
  allMediaFiles <- sections_loop sections ;;
  if Nat.eqb (length allMediaFiles) 0 then mthrow (ErrMessage "No media files were processed successfully")
  else
    command <- lift_res (assemble_command allMediaFiles absoluteVoiceoverPath absoluteOutputPath) ;;
    mcatch (lift_sm (lift_w (fg_run command)))
      (fun err => mthrow (ErrMessage ("FFmpeg error: " ++ error_message err ++ nl ++ "Stderr: " ++ stderr err))) ;;;
    on_end allMediaFiles absoluteVoiceoverPath ;;;
    mret absoluteOutputPath.
End Assemble.
End VideoAssemble.

Module VideoAssembleFacts.
Import StockMedia VideoGenerate VideoAssemble FilterGraphFacts.

(** The printed indices stay folded: unfolding [pretty] on a variable
    only produces a large blocked term. *)
#[local] Arguments pretty_nat : simpl never.
#[local] Arguments pretty_N : simpl never.

Section Command.
Variable cwd : string.

(** The input [createVideo] adds for one medium. *)
Definition media_input (m : vmedia) : ffinput :=
  mkInput (normalizePath (path_resolve cwd (vm_path m)))
          (if String.eqb (vm_type m) "image" then [OptLoop1; OptT (JNum (inject_Z (vm_duration m)))] else []).

(** How long the video stream of one medium's input lasts: a picture is
    looped and cut at its duration, a clip keeps its length (a clip given
    as a picture is cut too); other files have no video stream. *)
Definition segment_len (fs : gmap string file) (m : vmedia) : option Q :=
  let image := String.eqb (vm_type m) "image" in
  let d := Qmax 0 (inject_Z (vm_duration m)) in
  match fs !! normalizePath (path_resolve cwd (vm_path m)) with
  | Some f =>
      match f_kind f with
      | KImage => Some (if image then d else frame_len)
      | KVideo len _ => Some (if image then Qmin len d else len)
      | _ => None
      end
  | None => None
  end.

Definition media_streams (fs : gmap string file) (m : vmedia) : streams :=
  match graph_input_streams fs (media_input m) with Ok s => s | _ => mkStreams None None end.

Definition seg (lens : list Q) (j : nat) : ext := match lens !! j with Some q => Fin q | None => Inf end.

Lemma add_media_fold ms c :
  fold_left (add_media cwd) ms (Ok c) =
    Ok (mkFg (g_inputs c ++ map media_input ms)%list (g_graph c) (g_maps c) (g_outopts c) (g_output c)).
Proof.
  revert c. induction ms as [|m ms IH]; intros c; cbn [fold_left map]; [by destruct c; rewrite app_nil_r|].
  assert (Hm : add_media cwd (Ok c) m =
                 Ok (mkFg (g_inputs c ++ [media_input m])%list (g_graph c) (g_maps c) (g_outopts c) (g_output c))).
  { unfold add_media, media_input. cbn [res_bind]. destruct (String.eqb _ _); [|done].
    unfold fg_inputOptions, add_to_last, fg_input. cbn [g_inputs]. rewrite rev_unit, rev_involutive. done. }
  rewrite Hm, IH. cbn. by rewrite <- app_assoc.
Qed.

Lemma media_streams_video fs m q :
  segment_len fs m = Some q ->
  graph_input_streams fs (media_input m) = Ok (media_streams fs m) /\ s_video (media_streams fs m) = Some (Fin q).
Proof.
  unfold segment_len, media_streams, media_input, graph_input_streams, input_streams. cbn [i_path i_opts].
  destruct (fs !! normalizePath (path_resolve cwd (vm_path m))) as [[k p]|]; [|done].
  destruct (String.eqb (vm_type m) "image"), k; cbn; intros Hq; simplify_eq; done.
Qed.

Lemma graph_inputs_ok fs l ins :
  Forall2 (fun i s => graph_input_streams fs i = Ok s) l ins -> graph_inputs fs l = Ok ins.
Proof. induction 1 as [|i s l ins Hi _ IH]; [done|]. cbn. by rewrite Hi, IH. Qed.

Lemma map_seg_seq lens : map (seg lens) (seq 0 (length lens)) = map Fin lens.
Proof.
  induction lens as [|q lens IH]; [done|]. cbn [length seq map]. rewrite <- seq_shift, map_map.
  unfold seg at 1. cbn. f_equal. rewrite <- IH. apply map_ext. intros j. done.
Qed.

(** The chains, as labels and filters. *)
Definition scale_body : string :=
  "scale=1920:1080:force_original_aspect_ratio=decrease,pad=1920:1080:(ow-iw)/2:(oh-ih)/2,setsar=1".

Lemma scale_chain_labels i :
  scale_chain i = (labels [pretty i ++ ":v"] ++ scale_body ++ labels ["v" ++ pretty i])%string.
Proof. unfold scale_chain, labels, scale_body. cbn [foldr]. rewrite <- !string_app_assoc. reflexivity. Qed.

Lemma js_join_empty x xs : js_join "" (x :: xs) = (x ++ js_join "" xs)%string.
Proof. destruct xs; [by rewrite string_app_nil_r|done]. Qed.

Lemma js_join_labels l :
  js_join "" (map (fun index : nat => "[v" ++ pretty index ++ "]")%string l) = labels (map (fun j : nat => "v" ++ pretty j)%string l).
Proof.
  induction l as [|j l IH]; [done|]. cbn [map]. rewrite js_join_empty, IH, labels_cons.
  rewrite <- !string_app_assoc. reflexivity.
Qed.

Definition concat_body (n : nat) : string := "concat=n=" ++ pretty n ++ ":v=1:a=0".

Lemma concat_chain_labels n :
  concat_chain n = (labels (map (fun j : nat => "v" ++ pretty j)%string (seq 0 n)) ++ concat_body n ++ labels ["vout"])%string.
Proof.
  unfold concat_chain, concat_body. rewrite js_join_labels. unfold labels at 2. cbn [foldr].
  rewrite <- !string_app_assoc. reflexivity.
Qed.

Lemma audio_chain_labels n :
  audio_chain n = (labels [pretty n ++ ":a"] ++ "anull" ++ labels ["aout"])%string.
Proof. unfold audio_chain, labels. cbn [foldr]. rewrite <- !string_app_assoc. reflexivity. Qed.

Lemma input_ref_v (j : nat) : input_ref ("v" ++ pretty j)%string = None.
Proof. unfold input_ref. rewrite string_app_cons, string_app_nil_l. done. Qed.

(** The filters of the scale chain keep a video stream, [anull] an audio
    stream. *)
Lemma scale_filters_keep e :
  apply_filters (map split_filter (split_on "," scale_body)) [(SVideo, e)] = Ok [(SVideo, e)].
Proof. vm_compute. reflexivity. Qed.

Lemma anull_keep e : apply_filters (map split_filter (split_on "," "anull")) [(SAudio, e)] = Ok [(SAudio, e)].
Proof. vm_compute. reflexivity. Qed.

(** Printed numbers and the fixed text around them hold no bracket, comma or
    colon. *)
Ltac no_char_ok := repeat constructor; rewrite ?no_char_app, ?pretty_no_char by done; done.

Lemma run_scale_chain ins env (i : nat) s e :
  ins !! i = Some s -> s_video s = Some e ->
  run_graph ins env [scale_chain i] = Ok (env ++ [(("v" ++ pretty i)%string, (SVideo, e))])%list.
Proof.
  intros Hs He. cbn [run_graph]. rewrite scale_chain_labels, parse_chain_labels.
  2-5: no_char_ok.
  unfold run_chain. cbn [ch_in ch_filters ch_out take_streams]. unfold take_stream.
  rewrite input_ref_pretty, Hs. change (is_char "v" "v") with true. cbv iota. rewrite He. cbn [res_bind].
  rewrite scale_filters_keep. done.
Qed.

Lemma run_scale_chains ins env (sg : nat -> ext) k m :
  (forall j, (k <= j < k + m)%nat -> exists s, ins !! j = Some s /\ s_video s = Some (sg j)) ->
  run_graph ins env (map scale_chain (seq k m)) =
    Ok (env ++ map (fun j : nat => (("v" ++ pretty j)%string, (SVideo, sg j))) (seq k m))%list.
Proof.
  revert k env. induction m as [|m IH]; intros k env H; [by rewrite app_nil_r|].
  cbn [seq map]. destruct (H k ltac:(lia)) as (s & Hs & He).
  change (scale_chain k :: map scale_chain (seq (S k) m)) with ([scale_chain k] ++ map scale_chain (seq (S k) m))%list.
  rewrite run_graph_app, (run_scale_chain _ _ _ _ _ Hs He). cbn [res_bind].
  rewrite IH by (intros; apply H; lia). by rewrite <- app_assoc.
Qed.

Lemma concat_options (n : nat) :
  let args := ("n=" ++ pretty n ++ ":v=1:a=0")%string in
  filter_option "n" args = Some (N.of_nat n) /\ filter_option "v" args = Some 1%N /\ filter_option "a" args = Some 0%N.
Proof.
  intros args. unfold filter_option.
  assert (Hs : split_on ":" args = [("n=" ++ pretty n)%string; "v=1"; "a=0"]).
  { unfold args. rewrite string_app_assoc, split_on_prefix by no_char_ok.
    change (split_on ":" ":v=1:a=0") with [""; "v=1"; "a=0"]. cbv iota. by rewrite string_app_nil_r. }
  assert (Hf : split_filter ("n=" ++ pretty n) = ("n", pretty n)).
  { change ("n=" ++ pretty n)%string with ("n" ++ "=" ++ pretty n)%string. by apply split_filter_eq. }
  destruct (take_digits_pretty n "" eq_refl) as (ds & Ht & Hne & Hv). rewrite string_app_nil_r in Ht.
  rewrite Hs. cbn [List.find]. rewrite Hf.
  change (split_filter "v=1") with ("v", "1"). change (split_filter "a=0") with ("a", "0"). cbn [fst snd].
  change ("n" =? "n")%string with true. change ("n" =? "v")%string with false. change ("v" =? "v")%string with true.
  change ("n" =? "a")%string with false. change ("v" =? "a")%string with false. change ("a" =? "a")%string with true.
  cbv iota. rewrite Hf. change (split_filter "v=1") with ("v", "1"). change (split_filter "a=0") with ("a", "0").
  cbn [snd]. rewrite Ht.
  split_and!; [|done|done]. destruct ds; [done|]. by rewrite <- Hv.
Qed.

Lemma split_on_none sep l : no_char sep l = true -> split_on sep l = [l].
Proof. intros H. rewrite <- (string_app_nil_r l) at 1. rewrite split_on_prefix by done. cbn [split_on]. by rewrite string_app_nil_r. Qed.

Lemma run_concat_chain ins (sg : nat -> ext) (n : nat) :
  n <> 0%nat ->
  run_graph ins (map (fun j : nat => (("v" ++ pretty j)%string, (SVideo, sg j))) (seq 0 n)) [concat_chain n] =
    Ok [("vout", (SVideo, fold_left ext_add (map sg (seq 0 n)) (Fin 0)))].
Proof.
  intros Hn. cbn [run_graph]. rewrite concat_chain_labels, parse_chain_labels.
  2: { apply List.Forall_forall. intros l Hl. apply in_map_iff in Hl as (j & <- & _). no_char_ok. }
  2: no_char_ok.
  2: { unfold concat_body. by rewrite string_app_cons. }
  2: { unfold concat_body. no_char_ok. }
  rewrite split_on_none by (unfold concat_body; no_char_ok).
  assert (Hf : split_filter (concat_body n) = ("concat", "n=" ++ pretty n ++ ":v=1:a=0")%string).
  { unfold concat_body. change ("concat=n=" ++ ?x)%string with ("concat" ++ "=" ++ "n=" ++ x)%string.
    by apply split_filter_eq. }
  destruct (concat_options n) as (Hon & Hov & Hoa).
  pose proof (take_streams_defined ins (fun j : nat => ("v" ++ pretty j)%string) (fun j => (SVideo, sg j)) (seq 0 n) []
                (proj2 (List.Forall_forall _ _) (fun j _ => input_ref_v j))) as Ht.
  rewrite app_nil_r in Ht. unfold run_chain. cbn [ch_in ch_filters ch_out map]. rewrite Ht. cbn [res_bind].
  rewrite Hf. cbn [apply_filters apply_filter]. rewrite Hon, Hov, Hoa. cbn [default]. unfold id.
  change ("concat" =? "concat")%string with true. cbv iota.
  replace (N.eqb (N.of_nat n) 0) with false by (symmetry; apply N.eqb_neq; lia).
  change (negb (1 =? 1)%N || negb (0 =? 0)%N) with false. cbv iota.
  rewrite length_map, length_seq, Nat2N.id, Nat.eqb_refl. cbn [negb].
  replace (forallb _ _) with true.
  2: { symmetry. apply forallb_forall. intros x Hx. apply in_map_iff in Hx as (j & <- & _). done. }
  cbn [res_bind apply_filters length Nat.eqb zip app]. by rewrite map_map.
Qed.

Lemma run_audio_chain ins env (n : nat) s e :
  ins !! n = Some s -> s_audio s = Some e ->
  run_graph ins env [audio_chain n] = Ok (env ++ [("aout", (SAudio, e))])%list.
Proof.
  intros Hs He. cbn [run_graph]. rewrite audio_chain_labels, parse_chain_labels by no_char_ok.
  unfold run_chain. cbn [ch_in ch_filters ch_out take_streams]. unfold take_stream.
  rewrite input_ref_pretty, Hs. change (is_char "a" "v") with false. change (is_char "a" "a") with true.
  cbv iota. rewrite He. cbn [res_bind]. rewrite anull_keep. done.
Qed.

Lemma lookup_map {A B} (f : A -> B) (l : list A) j : map f l !! j = f <$> l !! j.
Proof. revert j. induction l as [|x l IH]; intros [|j]; cbn; auto. Qed.

Lemma graph_inputs_media fs ms lens :
  Forall2 (fun m q => segment_len fs m = Some q) ms lens ->
  Forall2 (fun i s => graph_input_streams fs i = Ok s) (map media_input ms) (map (media_streams fs) ms).
Proof. induction 1 as [|m q ms lens Hm _ IH]; constructor; [|done]. by apply (media_streams_video _ _ q). Qed.

(** C6: the command [createVideo] builds, as ffmpeg runs it.  When every
    medium is a picture or a clip and the narration is a sound file, the
    output is one video with sound, as long as the shorter of the joined
    media (each picture for its duration, each clip for its own length)
    and the narration: [-shortest] cuts the narration when the media end
    first. *)
Theorem assemble_command_output ms voice out fs lens lv pv :
  ms <> [] ->
  Forall2 (fun m q => segment_len fs m = Some q) ms lens ->
  fs !! voice = Some (mkFile (KAudio lv) pv) ->
  exists c, assemble_command cwd ms voice out = Ok c /\ g_output c = Some (normalizePath out) /\
    fg_semantics fs c =
      Ok (mkFile (KVideo (Qmin (fold_left Qplus lens 0) lv) true) (Some (VNum (JNum (Qmin (fold_left Qplus lens 0) lv))))).
Proof.
  intros Hne Hseg Hv. unfold assemble_command. rewrite add_media_fold. cbn [res_bind].
  eexists; split; [reflexivity|]. split; [done|].
  pose proof (Forall2_length _ _ _ Hseg) as Hlen.
  set (ins := (map (media_streams fs) ms ++ [mkStreams None (Some (Fin lv))])%list).
  assert (Hins : graph_inputs fs (([] ++ map media_input ms) ++ [mkInput voice []])%list = Ok ins).
  { apply graph_inputs_ok. rewrite app_nil_l. apply Forall2_app; [by apply (graph_inputs_media _ _ lens)|].
    constructor; [|done]. unfold graph_input_streams, input_streams. cbn. by rewrite Hv. }
  unfold fg_semantics. cbn [g_output g_inputs g_graph g_maps g_outopts fg_output fg_outputOptions fg_map fg_complexFilter fg_input fg_new].
  rewrite Hins. cbn [res_bind]. unfold filterComplex.
  rewrite run_graph_app, (run_scale_chains _ _ (seg lens)).
  2: { intros j Hj. destruct (lookup_lt_is_Some_2 ms j) as [m Hm]; [lia|].
       destruct (Forall2_lookup_l _ _ _ _ _ Hseg Hm) as (q & Hq & Hmq).
       exists (media_streams fs m). unfold ins. rewrite lookup_app_l, lookup_map, Hm by (rewrite length_map; lia).
       split; [done|]. unfold seg. rewrite Hq. by apply media_streams_video. }
  cbn [res_bind app].
  change [concat_chain (length ms); audio_chain (length ms)] with ([concat_chain (length ms)] ++ [audio_chain (length ms)])%list.
  rewrite run_graph_app, run_concat_chain by (destruct ms; cbn; [done|lia]). cbn [res_bind].
  rewrite (run_audio_chain _ _ _ (mkStreams None (Some (Fin lv))) (Fin lv)).
  2: { unfold ins. rewrite lookup_app_r, length_map, Nat.sub_diag by (rewrite length_map; lia). done. }
  2: done.
  rewrite Hlen, map_seg_seq, ext_add_fin. reflexivity.
Qed.

End Command.

Section Runs.
Variable cwd : string.
Variable latency : string -> Z.
Variable pexels_answer : string -> res pexels_data.
Variable downloads : string -> res file_response.
Variable say_export : string -> res file.
Variable rand : nat -> string.
Context `{G : FgEncoder}.
Variable stderr : js_error -> string.

(** The two searches for [query] bring no photo and no video (or fail). *)
Definition no_media_for (query : string) : Prop :=
  match pexels_answer (pexels_search_url query "photos" 2) with Ok d => has_items (pd_photos d) = false | _ => True end /\
  match pexels_answer (pexels_search_url query "videos" 2) with Ok d => has_items (pd_videos d) = false | _ => True end.

Lemma getPexelsMedia_ok q k n s s' d :
  getPexelsMedia latency pexels_answer q k n s = (s', Ok d) -> pexels_answer (pexels_search_url q k n) = Ok d.
Proof. unfold getPexelsMedia, lift_sm, net_fetch, mbind, lift_res. repeat case_match; naive_solver. Qed.

Lemma processSection_no_media sec :
  no_media_for (sec_type sec) -> never_ok (processSection cwd latency pexels_answer downloads rand sec).
Proof.
  intros [Hp Hv]. unfold processSection.
  apply (never_ok_bind (fun d => pexels_answer (pexels_search_url (sec_type sec) "photos" 2) = Ok d));
    [intros ???; apply getPexelsMedia_ok|]. intros d1 Hd1. rewrite Hd1 in Hp.
  apply (never_ok_bind (fun d => pexels_answer (pexels_search_url (sec_type sec) "videos" 2) = Ok d));
    [intros ???; apply getPexelsMedia_ok|]. intros d2 Hd2. rewrite Hd2 in Hv.
  rewrite Hp, Hv. apply never_ok_throw.
Qed.

Lemma sections_loop_no_media secs sec :
  sec ∈ secs -> no_media_for (sec_type sec) -> never_ok (sections_loop cwd latency pexels_answer downloads rand secs).
Proof.
  intros Hin Hno. induction secs as [|x secs IH]; [by apply not_elem_of_nil in Hin|]. cbn [sections_loop].
  apply elem_of_cons in Hin as [->|Hin].
  - by apply never_ok_bind_l, processSection_no_media.
  - apply never_ok_bind_r. intros ms. by apply never_ok_bind_l, IH.
Qed.

(** C10: one section for which Pexels finds neither a photo nor a video
    makes the whole [createVideo] fail: the loop over the sections stops
    at the first section that throws, and no video is produced even when
    every other section has media. *)
Theorem createVideo_section_without_media script outputFile sec :
  sec ∈ parseScriptSections script -> no_media_for (sec_type sec) ->
  never_ok (createVideo cwd latency pexels_answer downloads say_export rand stderr script outputFile).
Proof.
  intros Hin Hno. unfold createVideo. cbv zeta.
  do 4 (apply never_ok_bind_r; intros ?). apply never_ok_bind_l. by apply (sections_loop_no_media _ sec).
Qed.
End Runs.
End VideoAssembleFacts.
