(* ===== verification/LegacyRenderer.v ===== *)
(** * The earlier controller (video.generator.controller copy.js)

    The first version of [VideoGeneratorController], kept beside the live
    one: it reads [scene.audio.path] without a guard, mixes the narration
    in with [-shortest] and no loop, writes the concat manifest without
    durations, and resolves with plain paths.  [verifyFile] and
    [stripAudioFromVideo] are the same code as in the live controller. *)

From S2P Require Import Prelude Media Ffmpeg Scene Resolver Concat Normalizer Renderer Orchestrator.
From Stdlib Require Import Ascii.
Local Open Scope string_scope.
Local Open Scope js_scope.

Module LegacyRenderer.
Import DurationResolver AudioNormalizer SceneRenderer SceneOrchestrator.

Section WithEncoder.
Context `{E : Encoder} (ctl : controller).

(** [async verifyFile(filePath)]: the code of the live controller. *)
Definition legacy_verifyFile (p : jsval) : M bool := verifyFile p.

(** [async stripAudioFromVideo(videoPath)]: the code of the live controller. *)
Definition legacy_stripAudioFromVideo (videoPath : string) : M string := stripAudioFromVideo ctl videoPath.

(** [scene.audio.path] with [scene.audio] read unguarded. *)
Definition get_audio (s : scene) : M audio_obj :=
  match scene_audio s with
  | Some a => mret a
  | None => mthrow (ErrTypeError "Cannot read properties of null (reading 'path')")
  end.

(** [scene.media.duration || 5] *)
Definition image_duration_arg (m : media_obj) : jsval :=
  if js_val_truthy (media_duration m) then media_duration m else VNum (JNum 5).

Definition legacy_output_options : list ffopt :=
  [OptRaw "-c:v libx264"; OptRaw "-pix_fmt yuv420p"; OptRaw "-movflags +faststart";
   OptShortest; OptRaw "-c:a aac"; OptRaw "-b:a 192k"].

(** [.size('1920x1080')]: fluent-ffmpeg's scale filter. *)
Definition legacy_size_filters : list string := ["scale=w=1920:h=1080"].

(** The command built in the promise of [generateSceneVideo]:
    [ffmpeg(videoPath)], for an image [.loop(1).duration(duration || 5)]
    ([.loop(1)] itself sets [-t 1], which the later [-t] overrides), the
    narration as a second input when it exists, the output options,
    [.size] and [.output]. *)
Definition legacy_scene_command (m : media_obj) (audioPath : jsval) (audioExists : bool)
    (videoPath outputPath : string) : res ffcmd :=
  c0 <-? (if is_image m
          then c <-? ff_loop (Some (VNum (JNum 1))) (ff_input videoPath ff_new) ;;
               Ok (ff_duration (ff_time_value (image_duration_arg m)) c)
          else Ok (ff_input videoPath ff_new)) ;;
  let c1 := if audioExists then ff_input (jsval_to_string audioPath) c0 else c0 in
  Ok (ff_output outputPath (ff_videoFilters legacy_size_filters (ff_outputOptions legacy_output_options c1))).

(** [async generateSceneVideo(scene)]: both files are verified before the
    media check; a video loses its own audio when the narration exists;
    resolves with the clip's path, or [null] when the media is missing. *)
Definition legacy_generateSceneVideo (s : scene) : M (option string) :=
  m <- get_media s ;;
  mediaExists <- legacy_verifyFile (VStr (media_path m)) ;;
  a <- get_audio s ;;
  audioExists <- legacy_verifyFile (audio_path a) ;;
  if negb mediaExists then mret None else
  let outputPath := scene_output_path ctl (sceneNumber s) in
  videoPath <- (if negb (is_image m) && audioExists
                then legacy_stripAudioFromVideo (media_path m) else mret (media_path m)) ;;
  cmd <- lift_res (legacy_scene_command m (audio_path a) audioExists videoPath outputPath) ;;
  ff_run cmd ;;;
  mret (Some outputPath).

(** [filter(Boolean)] on paths: [null] and the empty string are dropped. *)
Fixpoint filter_paths (xs : list (option string)) : list string :=
  match xs with
  | [] => []
  | Some p :: xs => if String.eqb p "" then filter_paths xs else p :: filter_paths xs
  | None :: xs => filter_paths xs
  end.

(** One scene task: a rejection is logged and becomes [null]. *)
Definition legacy_path_or_null (s : scene) : M (option string) :=
  mcatch (legacy_generateSceneVideo s) (fun _ => mret None).

(** [async processScenes(scenes)] *)
Definition legacy_processScenes (scenes : list scene) : M (list string) :=
  ps <- mmap legacy_path_or_null scenes ;;
  mret (filter_paths ps).

(** [scenePaths.map(p => `file '${p}'`).join('\n')] *)
Definition legacy_manifest (ps : list string) : string :=
  js_join (String "010" EmptyString) (map (fun p => "file '" ++ p ++ "'") ps).

Definition legacy_concat_output_options : list ffopt :=
  [OptRaw "-c:v libx264"; OptRaw "-preset slow"; OptRaw "-crf 22"; OptRaw "-c:a aac";
   OptRaw "-b:a 192k"; OptRaw "-pix_fmt yuv420p"; OptRaw "-movflags +faststart"].

Definition legacy_concat_command (concatFilePath finalOutputPath : string) : res ffcmd :=
  c <-? ff_inputOptions [OptFormatConcat; OptRaw "-safe 0"] (ff_input concatFilePath ff_new) ;;
  Ok (ff_output finalOutputPath (ff_outputOptions legacy_concat_output_options c)).

(** [async combineSceneVideos(scenePaths, outputFileName)] *)
Definition legacy_combineSceneVideos (scenePaths : list string) (outputFileName : jsval) : M string :=
  let finalOutputPath := path_join (outputDir ctl)
    (jsval_to_string (if js_val_truthy outputFileName then outputFileName else VStr "final") ++ ".mp4") in
  let concatFilePath := path_join (tempDir ctl) "concat.txt" in
  write_file concatFilePath (mkFile (KText (legacy_manifest scenePaths)) None) ;;;
  cmd <- lift_res (legacy_concat_command concatFilePath finalOutputPath) ;;
  ff_run cmd ;;;
  mret finalOutputPath.

(** [async generateVideo(scenes)]; its [catch] logs and rethrows. *)
Definition legacy_generateVideo (scenes : list scene) : M string :=
  mkdir_p (tempDir ctl) ;;;
  mkdir_p (outputDir ctl) ;;;
  sceneVideoPaths <- legacy_processScenes scenes ;;
  if Nat.eqb (List.length sceneVideoPaths) 0%nat
  then mthrow (ErrMessage "No scenes processed")
  else
    id <- fresh_uuid ;;
    finalVideoPath <- legacy_combineSceneVideos sceneVideoPaths (VStr ("video_" ++ id)) ;;
    legacy_verifyFile (VStr finalVideoPath) ;;;
    mret finalVideoPath.
End WithEncoder.

End LegacyRenderer.

Module LegacyRendererFacts.
Import DurationResolver AudioNormalizer AudioNormalizerFacts SceneRenderer SceneRendererFacts
       SceneOrchestrator ConcatenatorFacts LegacyRenderer.


(** ** The legacy manifest: [file] lines only *)

Lemma split_legacy_manifest ps :
  Forall (fun p => safe_path p = true) ps -> ps <> [] ->
  split_on "010" (legacy_manifest ps) = map file_line ps.
Proof.
  unfold legacy_manifest. induction 1 as [|p ps Hp Hps IH]; [done|]. intros _.
  destruct ps as [|p' ps'].
  - cbn [map js_join]. by apply split_on_no_char, file_line_no_nl.
  - cbn [map]. rewrite js_join_cons by done.
    change (String "010" EmptyString ++ ?j)%string with (String "010" j).
    fold (file_line p). rewrite split_on_app by (by apply file_line_no_nl).
    f_equal. by apply IH.
Qed.

Lemma manifest_entries_files acc ps :
  manifest_entries acc (map LFile ps) = Some (rev acc ++ map (fun p => (p, None)) ps)%list.
Proof.
  revert acc. induction ps as [|p ps IH]; intros acc; cbn [map manifest_entries].
  - by rewrite app_nil_r.
  - rewrite IH. cbn [rev]. by rewrite <- app_assoc.
Qed.

(** The legacy manifest reads back as its clips, each with no stated
    duration. *)
Lemma legacy_manifest_roundtrip ps :
  Forall (fun p => safe_path p = true) ps -> ps <> [] ->
  parse_manifest (legacy_manifest ps) = Some (map (fun p => (p, None)) ps).
Proof.
  intros Hps Hne. unfold parse_manifest. rewrite split_legacy_manifest by done.
  assert (Hm : mapM parse_manifest_line (map file_line ps) = Some (map LFile ps)).
  { clear Hne. apply mapM_Some_2. induction Hps as [|p ps Hp _ IH]; cbn [map]; [constructor|].
    constructor; [by apply parse_file_line | exact IH]. }
  rewrite Hm. cbn. apply manifest_entries_files.
Qed.

(** Entries with no stated duration last as long as their files. *)
Lemma entries_len_files fs ps :
  Forall (fun p => is_Some (fs !! p)) ps ->
  entries_len fs (map (fun p => (p, None)) ps) = Ok (fold_right Qplus 0 (map (clip_len fs) ps)).
Proof.
  induction 1 as [|p ps [f Hf] _ IH]; [done|]. cbn [map entries_len fold_right].
  rewrite IH. unfold entry_len, clip_len. cbn [fst snd]. by rewrite Hf.
Qed.

Lemma legacy_concat_command_ok cfp out :
  legacy_concat_command cfp out =
  Ok (ff_output out (ff_outputOptions legacy_concat_output_options
        (mkCmd [mkInput cfp [OptFormatConcat; OptRaw "-safe 0"]] [] [] [] None))).
Proof. reflexivity. Qed.

(** Clips that can be listed in the legacy manifest. *)
Definition legacy_clips_ok (fs : gmap string file) (ps : list string) : Prop :=
  Forall (fun p => safe_path p = true /\ exists f l a, fs !! p = Some f /\ f_kind f = KVideo l a) ps.

Lemma legacy_clips_ok_insert fs ps q x : legacy_clips_ok fs ps -> q ∉ ps -> legacy_clips_ok (<[q := x]> fs) ps.
Proof.
  unfold legacy_clips_ok. rewrite !Forall_forall. intros Hok Hq p Hp.
  destruct (Hok p Hp) as [Hs (f & l & a & Hf & Hk)]. split; [done|].
  exists f, l, a. rewrite lookup_insert_ne; [done|]. intros ->. by apply Hq.
Qed.

(** The concat demuxer over the legacy manifest: the streams of the
    first clip, as long as all the clips together. *)
Lemma legacy_concat_streams fs ps :
  legacy_clips_ok fs ps -> ps <> [] ->
  exists a : bool, concat_streams fs (legacy_manifest ps) =
    Ok (mkStreams (Some (Fin (fold_right Qplus 0 (map (clip_len fs) ps))))
                  (if a then Some (Fin (fold_right Qplus 0 (map (clip_len fs) ps))) else None)).
Proof.
  intros Hok Hne. unfold concat_streams.
  rewrite legacy_manifest_roundtrip by (done || (eapply Forall_impl; [exact Hok | by intros p []])).
  assert (Hel : entries_len fs (map (fun p => (p, None)) ps) = Ok (fold_right Qplus 0 (map (clip_len fs) ps)))
    by (apply entries_len_files; eapply Forall_impl; [exact Hok | intros p [_ (f & _ & _ & Hf & _)]; by rewrite Hf]).
  destruct ps as [|p ps]; [done|]. inversion Hok as [|? ? [_ (f & l & a & Hf & Hk)] _]; subst.
  cbn [map] in Hel |- *. rewrite Hf, Hel. exists a. unfold file_streams. rewrite Hk. by destruct a.
Qed.

Lemma legacy_concat_semantics fs cfp out ps f :
  legacy_clips_ok fs ps -> ps <> [] ->
  fs !! cfp = Some (mkFile (KText (legacy_manifest ps)) None) ->
  ff_semantics fs (ff_output out (ff_outputOptions legacy_concat_output_options
                    (mkCmd [mkInput cfp [OptFormatConcat; OptRaw "-safe 0"]] [] [] [] None))) = Ok f ->
  natural_len f == fold_right Qplus 0 (map (clip_len fs) ps).
Proof.
  intros Hok Hne Hc Hs. destruct (legacy_concat_streams fs ps Hok Hne) as (a & Hcs).
  unfold ff_semantics in Hs. cbn -[concat_streams] in Hs. unfold input_streams in Hs.
  cbn -[concat_streams] in Hs. rewrite Hc in Hs. cbn -[concat_streams] in Hs. rewrite Hcs in Hs.
  destruct a; cbn in Hs; injection Hs as <-; cbn; [apply Q.max_id | reflexivity].
Qed.

Section Steps.
Context `{E : Encoder} (ctl : controller).

(** The run of the legacy [generateSceneVideo] that resolves with a clip,
    step by step. *)
Lemma legacy_generateSceneVideo_ok_inv s w w' out :
  legacy_generateSceneVideo ctl s w = (w', Ok (Some out)) ->
  exists m a w2 vp w3 cmd,
    scene_media s = Some m /\ scene_audio s = Some a /\ is_Some (w_files w !! media_path m) /\
    w_files w2 = w_files w /\
    (if negb (is_image m) && narration_exists s (w_files w)
     then legacy_stripAudioFromVideo ctl (media_path m) else mret (media_path m)) w2 = (w3, Ok vp) /\
    legacy_scene_command m (audio_path a) (narration_exists s (w_files w)) vp
      (scene_output_path ctl (sceneNumber s)) = Ok cmd /\
    ff_run cmd w3 = (w', Ok tt) /\ out = scene_output_path ctl (sceneNumber s).
Proof.
  intros H. unfold legacy_generateSceneVideo, get_media, get_audio, legacy_verifyFile in H.
  destruct (scene_media s) as [m|] eqn:Hm; munfold; [|done].
  cbn -[verifyFile legacy_stripAudioFromVideo legacy_scene_command ff_run scene_output_path] in H.
  destruct (verifyFile (VStr (media_path m)) w) as [w1 [me| |]] eqn:Hv1; try done.
  destruct (verifyFile_spec _ _ _ _ Hv1) as (Hf1 & _ & [= ->]).
  destruct (scene_audio s) as [a|] eqn:Ha; [|done].
  destruct (verifyFile (audio_path a) w1) as [w2 [ae| |]] eqn:Hv2; try done.
  destruct (verifyFile_spec _ _ _ _ Hv2) as (Hf2 & _ & [= ->]). rewrite Hf1 in Hf2, H.
  assert (Hae : narration_exists s (w_files w) =
                match audio_path a with VStr p => bool_decide (is_Some (w_files w !! p)) | _ => false end)
    by (unfold narration_exists; by rewrite Ha).
  rewrite <- Hae in H.
  case_bool_decide as Hex; cbn -[legacy_stripAudioFromVideo legacy_scene_command ff_run scene_output_path] in H;
    [|done].
  destruct ((if negb (is_image m) && narration_exists s (w_files w)
             then legacy_stripAudioFromVideo ctl (media_path m) else (fun w0 => (w0, Ok (media_path m)))) w2)
    as [w3 [vp| |]] eqn:Hvp; try done.
  destruct (legacy_scene_command m _ _ vp _) as [cmd| |] eqn:Hc; try done.
  destruct (ff_run cmd w3) as [w4 [[]| |]] eqn:Hrun; simplify_eq/=; try done.
  exists m, a, w2, vp, w3, cmd. done.
Qed.

(** The command of a video scene with its narration: the stripped clip,
    then the narration, under [-shortest] and without [-t]. *)
Lemma legacy_scene_command_video m p vp out :
  is_image m = false ->
  legacy_scene_command m (VStr p) true vp out =
  Ok (mkCmd [mkInput vp []; mkInput p []] [] legacy_size_filters legacy_output_options (Some out)).
Proof. intros Hi. unfold legacy_scene_command. by rewrite Hi. Qed.

(** The command of an image scene with its narration: the looped picture
    cut at [-t 1] and then at the declared duration, and the narration. *)
Lemma legacy_scene_command_image m p vp out :
  is_image m = true ->
  legacy_scene_command m (VStr p) true vp out =
  Ok (mkCmd [mkInput vp [OptLoop1]; mkInput p []] [] legacy_size_filters
        ([OptT (JNum 1); OptT (ff_time_value (image_duration_arg m))] ++ legacy_output_options)%list
        (Some out)).
Proof. intros Hi. unfold legacy_scene_command. by rewrite Hi. Qed.

(** The narration exists when its path names a file. *)
Lemma narration_exists_path s a p fs fa :
  scene_audio s = Some a -> audio_path a = VStr p -> fs !! p = Some fa -> narration_exists s fs = true.
Proof. intros Ha Hp Hf. unfold narration_exists. rewrite Ha, Hp, Hf. by apply bool_decide_eq_true_2. Qed.

Lemma legacy_stripAudioFromVideo_ok `{!EncoderSound E} vp w w' out fm l a :
  legacy_stripAudioFromVideo ctl vp w = (w', Ok out) -> w_files w !! vp = Some fm -> f_kind fm = KVideo l a ->
  (exists id, out = noaudio_name ctl id) /\
  w_files w' = <[out := mkFile (KVideo l false) (Some (VNum (JNum l)))]> (w_files w).
Proof.
  intros H Hf Hk. destruct (stripAudioFromVideo_ok _ _ _ _ _ H) as (-> & f & Hen & -> & _).
  rewrite (strip_output _ _ _ _ _ _ _ (encode_ok _ _ _ Hen) Hf Hk). eauto.
Qed.
End Steps.

Section Lengths.
Context `{E : Encoder} `{!EncoderSound E} (ctl : controller).

(** C17: a video scene with its narration becomes a clip as long as the
    shorter of the two: the clip's own audio is stripped, the narration
    is muxed in under [-shortest], and nothing loops the clip.  A
    narration longer than the clip is cut. *)
Theorem legacy_video_clip_shortest s m a p w w' out fm fa V A hv :
  scene_media s = Some m -> is_image m = false -> scene_audio s = Some a -> audio_path a = VStr p ->
  w_files w !! media_path m = Some fm -> f_kind fm = KVideo V hv ->
  w_files w !! p = Some fa -> f_kind fa = KAudio A -> (forall id, p <> noaudio_name ctl id) ->
  legacy_generateSceneVideo ctl s w = (w', Ok (Some out)) ->
  exists f, w_files w' !! out = Some f /\ natural_len f = Qmin V A.
Proof.
  intros Hm Hi Ha Hp Hfm Hkm Hfa Hka Hna H.
  destruct (legacy_generateSceneVideo_ok_inv ctl _ _ _ _ H)
    as (m' & a' & w2 & vp & w3 & cmd & Hm' & Ha' & _ & Hf2 & Hvp & Hc & Hrun & ->).
  rewrite Hm in Hm'. injection Hm' as <-. rewrite Ha in Ha'. injection Ha' as <-.
  rewrite (narration_exists_path _ _ _ _ _ Ha Hp Hfa) in Hvp, Hc. rewrite Hi in Hvp. cbn [negb andb] in Hvp.
  rewrite <- Hf2 in Hfm.
  destruct (legacy_stripAudioFromVideo_ok ctl _ _ _ _ _ _ _ Hvp Hfm Hkm) as [[id ->] Hf3].
  rewrite Hp, legacy_scene_command_video in Hc by done. injection Hc as <-.
  destruct (ff_run_ok _ _ _ Hrun) as (o & f & [= <-] & Hen & ->).
  pose proof (encode_ok _ _ _ Hen) as Hs. rewrite Hf3, Hf2 in Hs.
  unfold ff_semantics in Hs. cbn -[input_streams] in Hs.
  rewrite (input_streams_plain _ _ _ [] (lookup_insert_eq _ _ _) eq_refl) in Hs.
  rewrite (input_streams_plain _ p fa []) in Hs; [|rewrite lookup_insert_ne; [done | apply not_eq_sym, Hna] | done].
  unfold file_streams in Hs. rewrite Hka in Hs. cbn in Hs. injection Hs as <-.
  exists (mkFile (KVideo (Qmin V A) true) (Some (VNum (JNum (Qmin V A))))).
  by rewrite set_files_files, lookup_insert_eq.
Qed.

(** An image scene with its narration becomes a clip as long as the
    shorter of the narration and the declared duration
    ([scene.media.duration || 5], as ffmpeg reads it): the picture loops
    without end, [-shortest] stops at the narration and [-t] at the
    declared duration.  A narration longer than the declared duration is
    cut. *)
Theorem legacy_image_clip_len s m a p w w' out fm fa A d :
  scene_media s = Some m -> is_image m = true -> scene_audio s = Some a -> audio_path a = VStr p ->
  w_files w !! media_path m = Some fm -> f_kind fm = KImage ->
  w_files w !! p = Some fa -> f_kind fa = KAudio A ->
  ff_time_value (image_duration_arg m) = JNum d ->
  legacy_generateSceneVideo ctl s w = (w', Ok (Some out)) ->
  exists f, w_files w' !! out = Some f /\ natural_len f = Qmin A (Qmax 0 d).
Proof.
  intros Hm Hi Ha Hp Hfm Hkm Hfa Hka Hd H.
  destruct (legacy_generateSceneVideo_ok_inv ctl _ _ _ _ H)
    as (m' & a' & w2 & vp & w3 & cmd & Hm' & Ha' & _ & Hf2 & Hvp & Hc & Hrun & ->).
  rewrite Hm in Hm'. injection Hm' as <-. rewrite Ha in Ha'. injection Ha' as <-.
  rewrite (narration_exists_path _ _ _ _ _ Ha Hp Hfa) in Hvp, Hc. rewrite Hi in Hvp.
  cbn in Hvp. injection Hvp as <- <-.
  rewrite Hp, legacy_scene_command_image, Hd in Hc by done. injection Hc as <-.
  destruct (ff_run_ok _ _ _ Hrun) as (o & f & [= <-] & Hen & ->).
  pose proof (encode_ok _ _ _ Hen) as Hs. rewrite Hf2 in Hs.
  unfold ff_semantics in Hs. cbn -[input_streams] in Hs.
  rewrite (input_streams_plain _ _ _ [OptLoop1] Hfm eq_refl), (input_streams_plain _ p fa [] Hfa eq_refl) in Hs.
  unfold file_streams in Hs. rewrite Hkm, Hka in Hs. cbn in Hs. injection Hs as <-.
  eexists. by rewrite set_files_files, lookup_insert_eq.
Qed.
End Lengths.

Section Jobs.
Context `{E : Encoder} (ctl : controller).

(** A scene without a narration object throws on [scene.audio.path]. *)
Lemma legacy_generateSceneVideo_silent s m w :
  scene_media s = Some m -> scene_audio s = None ->
  exists w', legacy_generateSceneVideo ctl s w =
             (w', Throw (ErrTypeError "Cannot read properties of null (reading 'path')")).
Proof.
  intros Hm Ha. unfold legacy_generateSceneVideo, get_media, get_audio. rewrite Hm, Ha. munfold.
  cbn -[legacy_verifyFile]. destruct (legacy_verifyFile (VStr (media_path m)) w) as [w1 [b| |]] eqn:Hv;
    destruct (verifyFile_spec _ _ _ _ Hv) as (_ & _ & Hr); try done. eauto.
Qed.

(** A scene task that gives a path gives the clip of a scene with a
    narration object. *)
Lemma legacy_path_or_null_some s w w' o :
  legacy_path_or_null ctl s w = (w', Ok o) ->
  forall p, o = Some p -> is_Some (scene_audio s) /\ p = scene_output_path ctl (sceneNumber s).
Proof.
  unfold legacy_path_or_null, mcatch. intros H p ->.
  destruct (legacy_generateSceneVideo ctl s w) as [w1 [o'| |]] eqn:Hg; munfold; simplify_eq/=.
  destruct (legacy_generateSceneVideo_ok_inv ctl _ _ _ _ Hg) as (? & a & ? & ? & ? & ? & _ & Ha & _ & _ & _ & _ & _ & ->).
  rewrite Ha. eauto.
Qed.

Lemma filter_paths_sublist (P : scene -> Prop) `{!forall s, Decision (P s)} (g : scene -> string) ss os :
  Forall2 (fun s o => forall p, o = Some p -> P s /\ p = g s) ss os ->
  filter_paths os `sublist_of` map g (filter P ss).
Proof.
  induction 1 as [|s [p|] ss os Hso _ IH]; cbn [filter_paths]; [done| |].
  - destruct (Hso p eq_refl) as [HP ->]. rewrite filter_cons_True by done. cbn [map].
    case_match; [by apply sublist_cons|]. by apply sublist_skip.
  - rewrite filter_cons. case_decide; [by apply sublist_cons | done].
Qed.

(** C18: the legacy [processScenes] returns only clips of scenes that
    carry a narration object, in the order of the scenes: a scene whose
    [audio] is [null] throws a [TypeError] on [scene.audio.path], which
    the scene task catches and drops. *)
Theorem legacy_processScenes_needs_audio scenes w w' ps :
  legacy_processScenes ctl scenes w = (w', Ok ps) ->
  ps `sublist_of` map (fun s => scene_output_path ctl (sceneNumber s)) (filter (fun s => is_Some (scene_audio s)) scenes).
Proof.
  unfold legacy_processScenes. munfold. intros H.
  destruct (mmap _ scenes w) as [w1 [os| |]] eqn:Hm; simplify_eq/=.
  apply filter_paths_sublist. eapply Forall2_impl; [exact (mmap_ok_inv _ _ _ _ _ Hm)|].
  intros s o (s1 & s2 & Hs). by eapply legacy_path_or_null_some.
Qed.

Lemma filter_silent_nil scenes :
  Forall (fun s => scene_audio s = None) scenes -> filter (fun s => is_Some (scene_audio s)) scenes = [].
Proof.
  induction 1 as [|s ss Hs _ IH]; [done|].
  rewrite filter_cons_False; [exact IH | rewrite Hs; by intros [? ?]].
Qed.

Lemma legacy_processScenes_silent scenes w w' ps :
  Forall (fun s => scene_audio s = None) scenes ->
  legacy_processScenes ctl scenes w = (w', Ok ps) -> ps = [].
Proof.
  intros Hall H. apply legacy_processScenes_needs_audio in H.
  rewrite filter_silent_nil in H by done. by apply sublist_nil_r in H.
Qed.

(** C19: the legacy [generateVideo] never resolves on a job in which no
    scene has a narration object: every scene is dropped and the job
    rejects (with ["No scenes processed"], or earlier). *)
Theorem legacy_generateVideo_silent_job scenes w w' out :
  Forall (fun s => scene_audio s = None) scenes ->
  legacy_generateVideo ctl scenes w <> (w', Ok out).
Proof.
  intros Hall H. unfold legacy_generateVideo in H. munfold.
  destruct (mkdir_p (tempDir ctl) w) as [w1 [[]| |]]; try done.
  destruct (mkdir_p (outputDir ctl) w1) as [w2 [[]| |]]; try done.
  destruct (legacy_processScenes ctl scenes w2) as [w3 [ps| |]] eqn:Hp; try done.
  rewrite (legacy_processScenes_silent _ _ _ _ Hall Hp) in H. done.
Qed.
End Jobs.

Section Timeline.
Context `{E : Encoder} `{!EncoderSound E} (ctl : controller).

(** C20: the legacy timeline.  When the legacy [combineSceneVideos]
    resolves on clips, the final video lasts exactly as long as the clips
    together: the manifest lists the files without durations, so the
    concat demuxer uses each clip's own length. *)
Theorem legacy_combine_duration ps name w w' out :
  ps <> [] -> legacy_clips_ok (w_files w) ps -> path_join (tempDir ctl) "concat.txt" ∉ ps ->
  legacy_combineSceneVideos ctl ps name w = (w', Ok out) ->
  exists f, w_files w' !! out = Some f /\
            natural_len f == fold_right Qplus 0 (map (clip_len (w_files w)) ps).
Proof.
  intros Hne Hok Hnin H. unfold legacy_combineSceneVideos, write_file, mmodify in H. munfold.
  set (cfp := path_join (tempDir ctl) "concat.txt") in *.
  set (w1 := set_files w (<[cfp := mkFile (KText (legacy_manifest ps)) None]> (w_files w))) in H.
  rewrite legacy_concat_command_ok in H. cbn -[ff_run legacy_manifest] in H.
  destruct (ff_run _ w1) as [w2 [[]| |]] eqn:Hrun; try done. injection H as <- <-.
  destruct (ff_run_ok _ _ _ Hrun) as (o & f & [= <-] & Hen & ->).
  exists f. rewrite set_files_files, lookup_insert_eq. split; [done|].
  assert (Hlen : map (clip_len (w_files w1)) ps = map (clip_len (w_files w)) ps).
  { apply map_ext_in. intros p Hp%list_elem_of_In. unfold w1. rewrite set_files_files.
    apply clip_insert_ne. intros <-. by apply Hnin. }
  rewrite <- Hlen. eapply legacy_concat_semantics; [| done | | exact (encode_ok _ _ _ Hen)].
  - unfold w1. rewrite set_files_files. by apply legacy_clips_ok_insert.
  - unfold w1. by rewrite set_files_files, lookup_insert_eq.
Qed.
End Timeline.
End LegacyRendererFacts.
