(* ===== verification/Scenarios.v ===== *)
(** * The scenarios of the specification, run on the model

    A controller working in [/app], the files the stock-media search and
    the narration synthesis leave in [temp/], and the scenes of §8 of the
    specification: an image with no narration (A), a 3 s clip with an 8 s
    narration (B), a 10 s clip with a 4 s narration (C).  The lemmas apply
    the general theorems to these runs, then to the editor and the page
    of the front end, and to a two-section script of the script-driven
    generator. *)

From S2P Require Import Prelude Media Ffmpeg Scene Resolver Verifier Concat Normalizer Renderer Orchestrator Text Wizard LegacyRenderer Stock Pixabay Pexels Pipeline Editor App FilterGraph VideoGenerate VideoAssemble.
From Stdlib Require Import Ascii.
Local Open Scope string_scope.
Import DurationResolver DurationVerifier AudioNormalizer SceneRenderer SceneRendererFacts AudioNormalizerFacts
  SceneOrchestrator SceneOrchestratorFacts Concatenator ConcatenatorFacts LegacyRenderer LegacyRendererFacts ScriptWizard ScriptWizardFacts
  StockMedia Pixabay PixabayFacts Pexels PexelsFacts ScriptController ScriptControllerFacts
  VideoEditor VideoEditorFacts PromptApp PromptAppFacts VideoGenerate VideoGenerateFacts VideoAssemble VideoAssembleFacts.

Definition app_ctl : controller := new_controller "/app".

Definition clip (l : Q) : file := mkFile (KVideo l true) (Some (VNum (JNum l))).
Definition narration (l : Q) : file := mkFile (KAudio l) (Some (VNum (JNum l))).
Definition picture : file := mkFile KImage None.

Definition image_A : media_obj := mkMedia "image" "/app/temp/image_1.jpg" (VNum (JNum 5)).
Definition video_B : media_obj := mkMedia "video" "/app/temp/video_1.mp4" (VNum (JNum 3)).
Definition video_C : media_obj := mkMedia "video" "/app/temp/video_2.mp4" VUndefined.

Definition voice (p : string) : audio_obj := mkAudio (VStr "audio/mp3") (VStr p) None.

Definition scene_A : scene := mkScene 1 (Some image_A) None.
Definition scene_B : scene := mkScene 2 (Some video_B) (Some (voice "/app/temp/scene_2.mp3")).
Definition scene_C : scene := mkScene 3 (Some video_C) (Some (voice "/app/temp/scene_3.mp3")).

Definition files0 : gmap string file :=
  <["/app/temp/image_1.jpg" := picture]> (<["/app/temp/video_1.mp4" := clip 3]>
  (<["/app/temp/scene_2.mp3" := narration 8]> (<["/app/temp/video_2.mp4" := clip 10]>
  (<["/app/temp/scene_3.mp3" := narration 4]> ∅)))).

Definition world0 : world := mkWorld files0 0 [].

(** The runs with the reference encoder. *)
Definition run_C := generateSceneVideo (E := ffmpeg_reference) app_ctl scene_C world0.
Definition rendered_C : rendered := mkRendered "/app/temp/scene_3_final.mp4" (JNum 4).

(** A scene whose media file was never downloaded. *)
Definition video_D : media_obj := mkMedia "video" "/app/temp/video_9.mp4" VUndefined.
Definition scene_D : scene := mkScene 4 (Some video_D) None.

(** The 10 s clip of scene C, without a narration. *)
Definition scene_E : scene := mkScene 5 (Some video_C) None.

Definition run_B := generateSceneVideo (E := ffmpeg_reference) app_ctl scene_B world0.
Definition run_E := generateSceneVideo (E := ffmpeg_reference) app_ctl scene_E world0.
Definition rendered_E : rendered := mkRendered "/app/temp/scene_5_final.mp4" (JNum 10).

(** A clip for which ffprobe reports the duration ["N/A"]. *)
Definition unknown_len : file := mkFile (KVideo 3 false) (Some (VStr "N/A")).
Definition world_na : world := mkWorld (<["/app/temp/stream.mp4" := unknown_len]> files0) 0 [].

(** The timeline of the clips of scenes C and B, joined into [final.mp4]. *)
Definition timeline : list string := ["/app/temp/video_2.mp4"; "/app/temp/video_1.mp4"].
Definition run_timeline := combineSceneVideos (E := ffmpeg_reference) app_ctl timeline VUndefined world0.

Lemma timeline_clips : clips_ok (w_files world0) timeline.
Proof.
  constructor; [split; [reflexivity | exists (clip 10), 10, true; split_and!; [vm_compute|..]; reflexivity]|].
  constructor; [split; [reflexivity | exists (clip 3), 3, true; split_and!; [vm_compute|..]; reflexivity]|].
  constructor.
Qed.

(** The job of the four scenes A, B, C, D: A and C render, B rejects, D
    has no media file. *)
Definition job : list scene := [scene_A; scene_B; scene_C; scene_D].
Definition run_job := generateVideo (E := ffmpeg_reference) app_ctl job world0.
Definition urls_job : list rendered :=
  [mkRendered "http://localhost:3000/scene_1_final.mp4" (JNum 5);
   mkRendered "http://localhost:3000/scene_3_final.mp4" (JNum 4)].

(** The legacy controller: the picture of scene A with the 8 s narration
    of scene B, and a job of the two silent scenes A and E. *)
Definition scene_F : scene := mkScene 6 (Some image_A) (Some (voice "/app/temp/scene_2.mp3")).
Definition legacy_run_C := legacy_generateSceneVideo (E := ffmpeg_reference) app_ctl scene_C world0.
Definition legacy_run_F := legacy_generateSceneVideo (E := ffmpeg_reference) app_ctl scene_F world0.
Definition silent_job : list scene := [scene_A; scene_E].
Definition legacy_job : list scene := [scene_A; scene_C; scene_F].
Definition legacy_run_timeline :=
  legacy_combineSceneVideos (E := ffmpeg_reference) app_ctl timeline (VStr "video_uuid0") world0.

(** ** Facts about the fixtures *)

Lemma world0_wf : wf_world world0.
Proof.
  unfold wf_world, world0, files0. cbn [w_files].
  repeat apply map_Forall_insert_2; try apply map_Forall_empty;
    (split; [apply Qle_bool_imp_le; reflexivity | first [left; reflexivity | right; reflexivity]]).
Qed.

Lemma video_C_kind : media_matches_kind video_C world0.
Proof. intros f Hf. vm_compute in Hf. injection Hf as <-. cbn. eauto. Qed.

Lemma video_C_fresh : forall id, media_path video_C <> normalized_name app_ctl id.
Proof. apply not_normalized_name. vm_compute. discriminate. Qed.

(** ** Witnesses *)

Lemma generateSceneVideo_duration_witness :
  exists q f, r_duration rendered_C = JNum q /\ w_files run_C.1 !! r_path rendered_C = Some f /\
              (natural_len f == q)%Q.
Proof.
  apply (generateSceneVideo_duration (E := ffmpeg_reference) (EncoderSound0 := ffmpeg_reference_sound)
           app_ctl scene_C video_C world0 run_C.1 rendered_C).
  - exact world0_wf.
  - reflexivity.
  - exact video_C_kind.
  - exact video_C_fresh.
  - vm_compute. reflexivity.
Defined.

Lemma generateSceneVideo_never_extends_witness :
  exists f pv, w_files world0 !! media_path video_C = Some f /\ f_probe f = Some pv /\
               js_gt (r_duration rendered_C) (parseFloat pv) = false.
Proof.
  apply (generateSceneVideo_never_extends (E := ffmpeg_reference) app_ctl scene_C video_C world0 run_C.1).
  - reflexivity.
  - reflexivity.
  - vm_compute. reflexivity.
Defined.

Lemma generateSceneVideo_final_duration_witness :
  if narration_exists scene_C (w_files world0)
  then exists a p, scene_audio scene_C = Some a /\ audio_path a = VStr p /\
                   (getVideoDuration p world0).2 = Ok (r_duration rendered_C)
  else (resolve_media_duration video_C world0).2 = Ok (r_duration rendered_C).
Proof.
  apply (generateSceneVideo_final_duration (E := ffmpeg_reference) app_ctl scene_C video_C world0 run_C.1).
  - reflexivity.
  - vm_compute. reflexivity.
Defined.

Lemma generateSceneVideo_missing_media_witness :
  exists w', generateSceneVideo (E := ffmpeg_reference) app_ctl scene_D world0 = (w', Ok None) /\
             w_files w' = w_files world0 /\ WVerifyFailed (media_path video_D) ∈ w_warnings w'.
Proof.
  apply (generateSceneVideo_missing_media app_ctl scene_D video_D world0).
  - reflexivity.
  - vm_compute. reflexivity.
Defined.

Lemma generateSceneVideo_keeps_source_audio_witness :
  exists q, w_files run_E.1 !! r_path rendered_E = Some (mkFile (KVideo q true) (Some (VNum (JNum q)))).
Proof.
  apply (generateSceneVideo_keeps_source_audio (E := ffmpeg_reference) (EncoderSound0 := ffmpeg_reference_sound)
           app_ctl scene_E video_C world0 run_E.1 rendered_E (clip 10) 10).
  - reflexivity.
  - reflexivity.
  - vm_compute. reflexivity.
  - vm_compute. reflexivity.
  - reflexivity.
  - vm_compute. reflexivity.
Defined.


Lemma generateVideo_urls_witness :
  urls_job <> [] /\ map r_path urls_job `sublist_of` map (fun s => server_origin ++ clip_name s) job.
Proof.
  apply (generateVideo_urls (E := ffmpeg_reference) app_ctl job world0 run_job.1).
  vm_compute. reflexivity.
Defined.

Lemma processScenes_resolves_witness :
  exists w' rs, SceneOrchestrator.processScenes (E := ffmpeg_reference) app_ctl job world0 = (w', Ok rs) /\
    map r_path rs `sublist_of` map (fun s => scene_output_path app_ctl (sceneNumber s)) job.
Proof. exact (processScenes_resolves (E := ffmpeg_reference) (EncoderSound0 := ffmpeg_reference_sound) app_ctl job world0). Defined.

Lemma verifyVideoDuration_tolerance_witness :
  exists w', verifyVideoDuration "/app/temp/video_2.mp4" (VNum (JNum 9)) world0 = (w', Ok (VNum (JNum 10))) /\
    w_files w' = w_files world0 /\
    w_warnings w' = (w_warnings world0 ++ if Qlt_bool (1 # 2) (Qabs (10 - 9)) then [WDurationMismatch "/app/temp/video_2.mp4"] else [])%list.
Proof.
  apply (verifyVideoDuration_tolerance "/app/temp/video_2.mp4" (clip 10) 10 9 world0).
  - vm_compute. reflexivity.
  - reflexivity.
Defined.

Lemma verifyVideoDuration_nan_silent_witness :
  verifyVideoDuration "/app/temp/stream.mp4" (VNum (JNum 3)) world_na = (world_na, Ok (VStr "N/A")).
Proof.
  apply (verifyVideoDuration_nan_silent "/app/temp/stream.mp4" unknown_len).
  - vm_compute. reflexivity.
  - reflexivity.
  - vm_compute. reflexivity.
Defined.

Lemma combineSceneVideos_duration_witness :
  exists f, w_files run_timeline.1 !! "/app/output/final.mp4" = Some f /\
            natural_len f == fold_right Qplus 0 (map (clip_len (w_files world0)) timeline) /\
            w_warnings run_timeline.1 = w_warnings world0.
Proof.
  apply (combineSceneVideos_duration (E := ffmpeg_reference) (EncoderSound0 := ffmpeg_reference_sound)
           app_ctl timeline VUndefined world0 run_timeline.1 "/app/output/final.mp4").
  - exact world0_wf.
  - discriminate.
  - exact timeline_clips.
  - vm_compute. reflexivity.
Defined.

Lemma legacy_video_clip_shortest_witness :
  exists f, w_files legacy_run_C.1 !! "/app/temp/scene_3_final.mp4" = Some f /\ natural_len f = Qmin 10 4.
Proof.
  apply (legacy_video_clip_shortest (E := ffmpeg_reference) (EncoderSound0 := ffmpeg_reference_sound)
           app_ctl scene_C video_C (voice "/app/temp/scene_3.mp3") "/app/temp/scene_3.mp3" world0
           legacy_run_C.1 "/app/temp/scene_3_final.mp4" (clip 10) (narration 4) 10 4 true).
  - reflexivity.
  - reflexivity.
  - reflexivity.
  - reflexivity.
  - vm_compute. reflexivity.
  - reflexivity.
  - vm_compute. reflexivity.
  - reflexivity.
  - apply not_noaudio_name. vm_compute. discriminate.
  - vm_compute. reflexivity.
Defined.

Lemma legacy_image_clip_len_witness :
  exists f, w_files legacy_run_F.1 !! "/app/temp/scene_6_final.mp4" = Some f /\ natural_len f = Qmin 8 (Qmax 0 5).
Proof.
  apply (legacy_image_clip_len (E := ffmpeg_reference) (EncoderSound0 := ffmpeg_reference_sound)
           app_ctl scene_F image_A (voice "/app/temp/scene_2.mp3") "/app/temp/scene_2.mp3" world0
           legacy_run_F.1 "/app/temp/scene_6_final.mp4" picture (narration 8) 8 5).
  - reflexivity.
  - reflexivity.
  - reflexivity.
  - reflexivity.
  - vm_compute. reflexivity.
  - reflexivity.
  - vm_compute. reflexivity.
  - reflexivity.
  - reflexivity.
  - vm_compute. reflexivity.
Defined.

Lemma legacy_processScenes_needs_audio_witness :
  ["/app/temp/scene_3_final.mp4"; "/app/temp/scene_6_final.mp4"] `sublist_of`
    map (fun s => scene_output_path app_ctl (sceneNumber s)) (filter (fun s => is_Some (scene_audio s)) legacy_job).
Proof.
  apply (legacy_processScenes_needs_audio (E := ffmpeg_reference) app_ctl legacy_job world0
           (legacy_processScenes (E := ffmpeg_reference) app_ctl legacy_job world0).1).
  vm_compute. reflexivity.
Defined.

Lemma legacy_generateVideo_silent_job_witness :
  ~ exists w' out, legacy_generateVideo (E := ffmpeg_reference) app_ctl silent_job world0 = (w', Ok out).
Proof.
  intros (w' & out & H). revert H. apply legacy_generateVideo_silent_job. repeat constructor.
Defined.

Lemma legacy_combine_duration_witness :
  exists f, w_files legacy_run_timeline.1 !! "/app/output/video_uuid0.mp4" = Some f /\
            natural_len f == fold_right Qplus 0 (map (clip_len (w_files world0)) timeline).
Proof.
  apply (legacy_combine_duration (E := ffmpeg_reference) (EncoderSound0 := ffmpeg_reference_sound)
           app_ctl timeline (VStr "video_uuid0") world0 legacy_run_timeline.1 "/app/output/video_uuid0.mp4").
  - discriminate.
  - constructor; [split; [reflexivity | exists (clip 10), 10, true; split; [vm_compute|]; reflexivity]|].
    constructor; [split; [reflexivity | exists (clip 3), 3, true; split; [vm_compute|]; reflexivity]|].
    constructor.
  - vm_compute. intros Hin. repeat (apply elem_of_cons in Hin as [Hin|Hin]; [discriminate|]).
    by apply elem_of_nil in Hin.
  - vm_compute. reflexivity.
Defined.

(** A three-word narration, timed as ["0:01"] and read by ffmpeg as 1 s. *)
Definition three_words : string := "Welcome to Rome.".

Lemma analyzeTimings_ffmpeg_witness :
  (Z.of_nat (List.length (word_tokens three_words)) < 9000)%Z /\
  ((Z.of_nat (List.length (word_tokens three_words)) mod 150 = 149)%Z ->
     ff_parse_time (estimatedDuration (analyzeTimings three_words)) = JNaN) /\
  ((Z.of_nat (List.length (word_tokens three_words)) mod 150 <> 149)%Z ->
   exists q, ff_parse_time (estimatedDuration (analyzeTimings three_words)) = JNum q /\
             Qabs (q - inject_Z (Z.of_nat (List.length (word_tokens three_words))) * (2 # 5)) <= 1 # 2).
Proof.
  assert (H : (Z.of_nat (List.length (word_tokens three_words)) < 9000)%Z) by (vm_compute; reflexivity).
  split; [exact H|]. exact (analyzeTimings_ffmpeg three_words H).
Defined.

(** ** Pixabay *)

(** A service that answers every image search with a 1000x800 photo and
    a 2400x1350 one, every video search with one 1920x1080 clip, and every
    download with a picture, each request taking [lat] milliseconds. *)
Definition small_photo : photo := mkPhoto 1000 800 (VStr "https://cdn.pixabay.com/p0.jpg") (VStr "ann") (VStr "https://pixabay.com/p0").
Definition wide_photo : photo := mkPhoto 2400 1350 (VStr "https://cdn.pixabay.com/p1.jpg") (VStr "ann") (VStr "https://pixabay.com/p1").
Definition waves : vhit :=
  mkVHit (Some (mkVFile (VStr "https://cdn.pixabay.com/v1.mp4") 1920 1080)) (VNum (JNum 12)) (VStr "bob")
    (VStr "https://pixabay.com/v1") (VStr "ocean, waves").

Definition demo_env (lat : Z) : pixabay_env :=
  mkPixabayEnv "KEY" "/app" (fun _ => lat) (fun _ => Ok (Some [small_photo; wide_photo]))
    (fun _ => Ok (mkVResp true 200 (Some "application/json; charset=utf-8") (Some [waves])))
    (fun _ => Ok (mkFResp true "OK" picture)).

Definition wscene_of (n : nat) (description mediaType : string) : wscene :=
  mkWScene n "" (mkTiming "0:02" 5) description mediaType [] None.

Definition stock_scenes : list wscene :=
  [wscene_of 1 "ocean waves at sunset" "video"; wscene_of 2 "" "image"; wscene_of 3 "a city skyline" "image"].

Definition stock_state : sworld := mkSW (mkWorld ∅ 0 []) 1700000000000.

Lemma search_url_params_witness :
  no_char "&" (px_apiKey (demo_env 1)) = true /\
  split_chars is_amp (image_url (demo_env 1) "salt & pepper") =
    [baseUrl ++ "/?key=" ++ "KEY"; "q=" ++ encodeURIComponent "salt & pepper";
     "per_page=30"; "orientation=horizontal"; "min_width=1920"; "min_height=1080"]%string /\
  split_chars is_amp (video_url (demo_env 1) "salt & pepper") =
    [baseUrl ++ "/videos/?key=" ++ "KEY"; "q=" ++ encodeURIComponent "salt & pepper";
     "per_page=15"; "orientation=horizontal"]%string.
Proof. split; [reflexivity | apply (search_url_params (demo_env 1) "salt & pepper"); reflexivity]. Defined.

Lemma searchVideo_hits_witness :
  exists f, vh_large waves = Some f /\ (searchVideo (demo_env 1) "ocean waves" stock_state).2 = Ok (video_info waves f).
Proof.
  apply (searchVideo_hits (demo_env 1) "ocean waves" stock_state
           (mkVResp true 200 (Some "application/json; charset=utf-8") (Some [waves])) waves []);
    try reflexivity. discriminate.
Defined.

Lemma searchImage_choice_witness :
  exists pre p post, [small_photo; wide_photo] = (pre ++ p :: post)%list /\
    (searchImage (demo_env 1) "city" stock_state).2 = Ok (photo_info p) /\
    ((suitable_photo p = true /\ Forall (fun p' => suitable_photo p' = false) pre) \/
     (Forall (fun p' => suitable_photo p' = false) [small_photo; wide_photo] /\
      Forall (fun p' => p_imageWidth p' < p_imageWidth p) pre /\ Forall (fun p' => p_imageWidth p' <= p_imageWidth p) post)).
Proof. apply (searchImage_choice (demo_env 1) "city" stock_state small_photo [wide_photo]). reflexivity. Defined.

Lemma processScenes_files_witness :
  exists s' files, pixabay_processScenes (demo_env 1) stock_scenes stock_state = (s', Ok files) /\
    map mf_sceneNumber files `sublist_of` map ws_sceneNumber stock_scenes /\ NoDup (map mf_path files).
Proof.
  eexists _, _. split; [vm_compute; reflexivity|].
  assert (Hl : forall u, (1 <= px_latency (demo_env 1) u)%Z) by (intros; cbn; lia).
  eapply (processScenes_files (demo_env 1) Hl stock_scenes stock_state). vm_compute; reflexivity.
Defined.

(** An image service that never answers. *)
Definition px_silent : pixabay_env :=
  mkPixabayEnv "KEY" "/app" (fun _ => 1%Z) (fun _ => Hang) (px_videos (demo_env 1)) (px_files (demo_env 1)).

Lemma getMediaForScene_stalls_witness :
  (forall url, px_images px_silent url = Hang) /\ ws_mediaType (wscene_of 1 "a city skyline" "image") <> "video" /\ ws_visualDescription (wscene_of 1 "a city skyline" "image") <> "" /\ (getMediaForScene px_silent (wscene_of 1 "a city skyline" "image") stock_state).2 = Hang.
Proof.
  assert (H1 : forall url, px_images px_silent url = Hang) by reflexivity.
  assert (H2 : ws_mediaType (wscene_of 1 "a city skyline" "image") <> "video") by (vm_compute; discriminate).
  assert (H3 : ws_visualDescription (wscene_of 1 "a city skyline" "image") <> "") by (vm_compute; discriminate).
  split_and!; [exact H1|exact H2|exact H3|]. exact (getMediaForScene_stalls _ _ _ H1 H2 H3).
Defined.

(** A description made of one word of more than 100 letters gives
    the single query [""]: the word is cut to nothing, and the main-terms
    query is added without the emptiness check of the others. *)
Example generateSearchQueries_empty_query :
  pixabay_generateSearchQueries (wscene_of 1 (repeat_char 101 "a") "image") = [""].
Proof. vm_compute. reflexivity. Qed.

(** ** Pexels *)

(** A video with a 1920x1080 file of standard quality followed by one of
    HD quality, and a 4K file. *)
Definition sd_file : pfile := mkPFile 1920 1080 (VStr "sd") (VStr "https://videos.pexels.com/sd.mp4").
Definition hd_1080 : pfile := mkPFile 1920 1080 (VStr "hd") (VStr "https://videos.pexels.com/hd.mp4").
Definition uhd_file : pfile := mkPFile 3840 2160 (VStr "uhd") (VStr "https://videos.pexels.com/uhd.mp4").
Definition harbour : pvideo := mkPVideo [sd_file; hd_1080; uhd_file] (VNum (JNum 9)) (VStr "cat") (VStr "https://pexels.com/v/9").

Definition pexels_demo (photos : option (list pphoto)) (videos : option (list pvideo)) : pexels_env :=
  mkPexelsEnv "KEY" "/app" (fun _ => 1%Z) (fun _ => Ok photos) (fun _ => Ok videos) (fun _ => Ok (mkFResp true "OK" picture)).

(** A video with no HD 1920x1080 file: the fallback takes its largest
    file. *)
Definition street : pvideo := mkPVideo [sd_file; uhd_file] (VNum (JNum 7)) (VStr "cat") (VStr "https://pexels.com/v/7").

Lemma pexels_searchVideo_fallback_witness :
  let env := pexels_demo None (Some [street]) in
  pe_videos env (pexels_video_url "street") = Ok (Some [street]) /\
  Forall (fun v => js_find hd_file (pv_video_files v) = None) [street] /\
  let big := List.filter (fun f => Qle_bool 1920 (pf_width f) && Qle_bool 1080 (pf_height f)) (pv_video_files street) in
  big <> [] /\
  exists s' f, pexels_searchVideo env "street" stock_state = (s', Ok (pexels_video_info street f)) /\
    exists pre post, big = (pre ++ f :: post)%list /\
      Forall (fun g => pf_width g * pf_height g < pf_width f * pf_height f) pre /\
      Forall (fun g => pf_width g * pf_height g <= pf_width f * pf_height f) post.
Proof.
  assert (Hv : pe_videos (pexels_demo None (Some [street])) (pexels_video_url "street") = Ok (Some [street])) by reflexivity.
  assert (Hn : Forall (fun v => js_find hd_file (pv_video_files v) = None) [street]) by (repeat constructor).
  assert (Hb : List.filter (fun f => Qle_bool 1920 (pf_width f) && Qle_bool 1080 (pf_height f)) (pv_video_files street) <> [])
    by (vm_compute; discriminate).
  cbv zeta. split_and!; [exact Hv|exact Hn|exact Hb|].
  exact (pexels_searchVideo_fallback _ "street" street [] stock_state Hv Hn Hb).
Defined.

Lemma pexels_getMediaForScene_errors_witness :
  exists s2, pexels_getMediaForScene (pexels_demo None (Some [])) (wscene_of 1 "harbour" "video") stock_state =
    (s2, Throw (ErrMessage ("Failed to get media for scene: Failed to find any media. Primary (video): " ++
                            "Video search failed: No videos found for query: harbour. " ++
                            "Fallback: Image search failed: No images found for query: harbour"))).
Proof.
  eexists. eapply (pexels_getMediaForScene_errors (pexels_demo None (Some [])) (wscene_of 1 "harbour" "video")
                     stock_state _ _
                     (ErrMessage "Video search failed: No videos found for query: harbour")
                     (ErrMessage "Image search failed: No images found for query: harbour")); vm_compute; reflexivity.
Defined.

(** A video counts as suitable for its HD 1920x1080 file, but the
    file taken is its first 1920x1080 file, whatever its quality. *)
Example pexels_searchVideo_sd_file :
  (pexels_searchVideo (pexels_demo None (Some [harbour])) "harbour" stock_state).2 = Ok (pexels_video_info harbour sd_file).
Proof. vm_compute. reflexivity. Qed.

(** ** [generateScriptWithMedia] *)

(** A script of three scenes whose second has an empty visual
    description; the language model gives no keywords. *)
Definition script_text : string :=
  "**Scene 1:** [ocean waves at sunset] MEDIA_TYPE: video Waves roll in. " ++
  "**Scene 2:** [] MEDIA_TYPE: image A quiet street. " ++
  "**Scene 3:** [city skyline] MEDIA_TYPE: image The city wakes.".

Definition llm (systemPrompt : option string) (_ : string) : res string :=
  match systemPrompt with Some _ => Ok script_text | None => Throw (ErrMessage "quota exceeded") end.

Definition pipeline_env : pixabay_env :=
  mkPixabayEnv "KEY" "/app" (fun _ => 1%Z) (fun _ => Ok (Some [small_photo; wide_photo]))
    (fun _ => Ok (mkVResp true 200 (Some "application/json") (Some [waves])))
    (fun u => Ok (mkFResp true "OK" (if String.eqb u "https://cdn.pixabay.com/v1.mp4" then clip 12 else picture))).

Definition pipeline_run :=
  generateScriptWithMedia (E := ffmpeg_reference) llm (fun s => [s]) (fun _ => Ok (narration 4)) pipeline_env "/app"
    "Three scenes" OptsUndefined stock_state.
Definition media_reply_shape (x : res reply) : bool :=
  match x with Ok (mkReply st (RScriptWithMedia _ _ _ _ _)) => Z.eqb st 200 | _ => false end.

Lemma pipeline_run_shape : media_reply_shape pipeline_run.2 = true.
Proof. vm_compute. reflexivity. Qed.

Lemma generateScriptWithMedia_alignment_witness :
  match pipeline_run.2 with
  | Ok (mkReply 200 (RScriptWithMedia r enh mfs afs vsp)) =>
      enh = enhance (result_scenes r) mfs afs /\
      ((forall i e f, enh !! i = Some e -> es_media e = Some f -> mf_sceneNumber f = ws_sceneNumber (es_scene e)) <->
       mf_sceneNumber <$> mfs = take (length mfs) (ws_sceneNumber <$> result_scenes r))
  | _ => False
  end.
Proof.
  assert (Hl : forall u, (1 <= px_latency pipeline_env u)%Z) by (intros; cbn; lia).
  pose proof (generateScriptWithMedia_alignment (E := ffmpeg_reference) llm (fun s => [s]) (fun _ => Ok (narration 4))
                pipeline_env "/app" Hl "Three scenes" OptsUndefined stock_state) as H.
  pose proof pipeline_run_shape as Hs.
  destruct (pipeline_run.2) as [[st [| |r enh mfs afs vsp| |]]| |] eqn:E; try discriminate Hs.
  apply Z.eqb_eq in Hs. subst st.
  exact (H r enh mfs afs vsp E).
Defined.

(** A scene of 300 words (two minutes) with a picture. *)
Definition long_scene : wscene := mkWScene 1 "" (timing_of_count 300) "city skyline" "image" [] None.
Definition long_picture : downloaded :=
  mkDownloaded "/app/temp/image_1700000000000.jpg" "image" (mkMeta (JNum 2400) (JNum 1350) VUndefined VUndefined VUndefined).

Lemma image_scene_media_duration_witness :
  exists q, resolve_media_duration (media_of (scene_media_file long_scene long_picture)) world0 = (world0, Ok (JNum q)) /\
    q == (if (Z.of_nat 300 <? 150)%Z then 5 else inject_Z (Z.of_nat 300 / 150)).
Proof. apply image_scene_media_duration; [lia | reflexivity | reflexivity]. Defined.


(** ** The video editor and the page *)

(** The two clips [generateVideo] publishes for a job of two scenes. *)
Definition demo_clips : list rendered :=
  [mkRendered "http://localhost:3000/scene_1_final.mp4" (JNum 4); mkRendered "http://localhost:3000/scene_2_final.mp4" (JNum 3)].

(** The editor after the mount, after Play, and playing the end of the
    first clip. *)
Definition editor0 : editor := mkEditor (JNum 0) false (JNum 0) (mkEl (Some "http://localhost:3000/scene_1_final.mp4") true 0 JNaN).
Definition editor1 : editor := mkEditor (JNum 0) true (JNum 0) (mkEl (Some "http://localhost:3000/scene_1_final.mp4") false 0 JNaN).
Definition editor2 : editor := mkEditor (JNum 0) true (JNum 0) (mkEl (Some "http://localhost:3000/scene_1_final.mp4") false 4 (JNum 4)).

Lemma editor0_reachable : reachable demo_clips editor0.
Proof. apply reach_mount. reflexivity. Qed.

Lemma editor1_reachable : reachable demo_clips editor1.
Proof. apply (reach_step _ editor0 UPlayPause); [exact editor0_reachable | reflexivity]. Qed.

Lemma editor2_reachable : reachable demo_clips editor2.
Proof.
  apply (reach_step _ (mkEditor (JNum 0) true (JNum 0) (mkEl (Some "http://localhost:3000/scene_1_final.mp4") false 0 (JNum 4)))
           (UAdvance 4)); [|reflexivity].
  apply (reach_step _ editor1 (ULoadedMetadata 4)); [exact editor1_reachable | reflexivity].
Qed.

Lemma editor_step_safe_witness :
  reachable demo_clips editor0 /\
  match step demo_clips editor0 UNext with
  | Ok s' => editor_inv demo_clips s'
  | Throw e => (exists x w, UNext = UTimeline x w /\ (el_duration (video editor0) = JNaN \/ (w == 0)%Q)) /\ e = non_finite_time
  | Hang => False
  end.
Proof. split; [exact editor0_reachable|]. exact (editor_step_safe demo_clips editor0 UNext editor0_reachable). Defined.

Lemma editor_playpause_restarts_witness :
  shows demo_clips 0 editor2 /\
  exists s', step demo_clips editor2 UPlayPause = Ok s' /\
    isPlaying s' = negb (isPlaying editor2) /\ el_paused (video s') = isPlaying editor2 /\
    el_time (video s') = 0%Q /\ el_duration (video s') = JNaN /\ shows demo_clips 0 s'.
Proof.
  assert (Hs : shows demo_clips 0 editor2) by (split_and!; [cbn; lia | reflexivity | eexists; split; reflexivity]).
  split; [exact Hs|]. exact (editor_playpause_restarts demo_clips editor2 0 editor2_reachable Hs).
Defined.

Lemma editor_ended_next_witness :
  exists s', step demo_clips editor2 UEnded = Ok s' /\
    if Nat.ltb 1 (length demo_clips)
    then shows demo_clips 1 s' /\ isPlaying s' = true /\ el_paused (video s') = false /\ el_time (video s') = 0%Q
    else shows demo_clips 0 s' /\ isPlaying s' = false /\ el_paused (video s') = true.
Proof.
  assert (Hs : shows demo_clips 0 editor2) by (split_and!; [cbn; lia | reflexivity | eexists; split; reflexivity]).
  exact (editor_ended_next demo_clips editor2 0 4 editor2_reachable Hs eq_refl eq_refl ltac:(reflexivity)).
Defined.

Lemma editor_next_prev_witness :
  exists s1 s2, step demo_clips editor0 UNext = Ok s1 /\ step demo_clips s1 UPrev = Ok s2 /\ currentClip s2 ≡ currentClip editor0.
Proof. exact (editor_next_prev demo_clips editor0 editor0_reachable ltac:(discriminate)). Defined.

(** A complete form, and the answer of the script controller of the
    pipeline scenario to it. *)
Definition demo_form : form := mkForm "Three scenes" "Cinematic" "Serious" "30 seconds" "3".
Definition demo_app : app := mkApp demo_form false None None.

Definition app_run : sworld * res reply :=
  Eval vm_compute in
    generateScriptWithMedia (E := ffmpeg_reference) llm (fun s => [s]) (fun _ => Ok (narration 4)) pipeline_env "/app"
      (videoData demo_form).1 (videoData demo_form).2 stock_state.

Definition app_reply : reply := match app_run.2 with Ok r => r | _ => mkReply 0 RCleaned end.

Lemma app_run_ok :
  generateScriptWithMedia (E := ffmpeg_reference) llm (fun s => [s]) (fun _ => Ok (narration 4)) pipeline_env "/app"
    (videoData (a_form demo_app)).1 (videoData (a_form demo_app)).2 stock_state = (app_run.1, Ok app_reply).
Proof. vm_compute. reflexivity. Qed.

Lemma app_shows_published_clips_witness :
  inflight (app_step demo_app ASubmit) = Some (videoData (a_form demo_app)) /\ isLoading (app_step demo_app ASubmit) = true /\
  let a2 := app_step (app_step demo_app ASubmit) (AAnswer (Ok app_reply)) in
  isLoading a2 = false /\ inflight a2 = None /\
  match videoResult a2 with
  | None => status app_reply <> 200%Z
  | Some clips => clips <> [] /\ exists e, mount clips = Ok e /\ shows clips 0 e /\ isPlaying e = false
  end.
Proof.
  exact (app_shows_published_clips (E := ffmpeg_reference) llm (fun s => [s]) (fun _ => Ok (narration 4)) pipeline_env "/app"
           demo_app stock_state app_run.1 app_reply eq_refl eq_refl eq_refl app_run_ok).
Defined.

(** ** The script-driven generator *)

Definition demo_script : string := "**Intro**: Hello there" ++ String "010" "**Scene 2:** Bye now".

Definition intro_section : section := mkSection "intro" "Hello there" 1.

Lemma demo_sections : parseScriptSections demo_script = [intro_section; mkSection "scene 2:" "Bye now" 1].
Proof. vm_compute. reflexivity. Qed.

(** A text of [n] words. *)
Definition words (n : nat) : string := js_join " " (repeat "a" n).

Lemma estimateDuration_rounding_witness :
  (word_count (words 155) <= 3000)%nat /\
  estimateDuration (words 155) =
    (estimate_exact (word_count (words 155)) + if existsb (Nat.eqb (word_count (words 155))) estimate_overshoot then 1 else 0)%Z.
Proof. split; [vm_compute; lia|]. apply estimateDuration_rounding. vm_compute. lia. Defined.

Definition headers_match (lines : list string) : bool :=
  forallb (fun line => negb (String.prefix "**" line) || match section_match line with Some _ => true | None => false end) lines.

Lemma headers_match_sound lines :
  headers_match lines = true ->
  forall line, line ∈ lines -> String.prefix "**" line = true -> is_Some (section_match line).
Proof.
  intros H line Hl Hp. unfold headers_match in H. rewrite forallb_forall in H.
  apply list_elem_of_In, H in Hl. rewrite Hp in Hl. cbn in Hl. by destruct (section_match line).
Qed.

Lemma parseScriptSections_values_witness :
  (forall line, line ∈ script_lines demo_script -> String.prefix "**" line = true -> is_Some (section_match line)) /\
  parseScriptSections demo_script = script_sections demo_script.
Proof.
  assert (H : forall line, line ∈ script_lines demo_script -> String.prefix "**" line = true -> is_Some (section_match line))
    by (apply headers_match_sound; vm_compute; reflexivity).
  split; [exact H|]. apply parseScriptSections_values. exact H.
Defined.

Lemma parseScriptSections_wellformed_witness :
  intro_section ∈ parseScriptSections demo_script /\
  trimmed (sec_content intro_section) = true /\ sec_duration intro_section = estimateDuration (sec_content intro_section).
Proof.
  assert (H : intro_section ∈ parseScriptSections demo_script) by (rewrite demo_sections; apply list_elem_of_here).
  split; [exact H|]. exact (parseScriptSections_wellformed demo_script intro_section H).
Defined.

(** A picture for 2 s, a 3 s clip and a 4 s narration. *)
Definition demo_media : list vmedia := [mkVMedia "image" "temp/p.jpg" 2; mkVMedia "video" "temp/v.mp4" 2].

Definition demo_files : gmap string file :=
  {[ "/app/temp/p.jpg" := mkFile KImage None; "/app/temp/v.mp4" := mkFile (KVideo 3 false) None;
     "/app/temp/voice.wav" := mkFile (KAudio 4) None ]}.

Lemma assemble_command_output_witness :
  demo_media <> [] /\ Forall2 (fun m q => segment_len "/app" demo_files m = Some q) demo_media [2; 3] /\
  demo_files !! "/app/temp/voice.wav" = Some (mkFile (KAudio 4) None) /\
  exists c, assemble_command "/app" demo_media "/app/temp/voice.wav" "/app/out.mp4" = Ok c /\
    g_output c = Some (normalizePath "/app/out.mp4") /\
    fg_semantics demo_files c =
      Ok (mkFile (KVideo (Qmin (fold_left Qplus [2; 3] 0) 4) true) (Some (VNum (JNum (Qmin (fold_left Qplus [2; 3] 0) 4))))).
Proof.
  assert (Hs : Forall2 (fun m q => segment_len "/app" demo_files m = Some q) demo_media [2; 3])
    by (repeat constructor; vm_compute; reflexivity).
  assert (Hv : demo_files !! "/app/temp/voice.wav" = Some (mkFile (KAudio 4) None)) by (vm_compute; reflexivity).
  split_and!; [done|exact Hs|exact Hv|]. apply (assemble_command_output "/app" demo_media _ _ demo_files _ _ None); done.
Defined.

Definition px_none : string -> res pexels_data := fun _ => Ok (mkPexelsData (Some []) (Some [])).

Lemma createVideo_section_without_media_witness :
  intro_section ∈ parseScriptSections demo_script /\ no_media_for px_none (sec_type intro_section) /\
  never_ok (createVideo (G := fg_reference) "/app" (fun _ => 1%Z) px_none (fun _ => Throw (ErrMessage "offline"))
              (fun _ => Ok (mkFile (KAudio 4) None)) (fun _ => "r") (fun _ => "") demo_script "final_video.mp4").
Proof.
  assert (H : intro_section ∈ parseScriptSections demo_script) by (rewrite demo_sections; apply list_elem_of_here).
  assert (Hn : no_media_for px_none (sec_type intro_section)) by (split; reflexivity).
  split_and!; [exact H|exact Hn|]. exact (createVideo_section_without_media _ _ _ _ _ _ _ _ _ _ H Hn).
Defined.

(** A header without its closing [**] after the introduction. *)
Definition broken_script : string := "**Intro**: Hello there" ++ String "010" "**Note" ++ String "010" "More text".

Lemma parseScriptSections_duplicate_witness :
  script_lines broken_script = (["**Intro**: Hello there"] ++ "**Note" :: ["More text"])%list /\ (exists h, h ∈ ["**Intro**: Hello there"] /\ String.prefix "**" h = true /\ is_Some (section_match h)) /\ String.prefix "**" "**Note" = true /\ section_match "**Note" = None /\ exists i x, parseScriptSections broken_script !! i = Some x /\ parseScriptSections broken_script !! S i = Some x.
Proof.
  assert (H1 : script_lines broken_script = (["**Intro**: Hello there"] ++ "**Note" :: ["More text"])%list) by (vm_compute; reflexivity).
  assert (H2 : exists h, h ∈ ["**Intro**: Hello there"] /\ String.prefix "**" h = true /\ is_Some (section_match h)).
  { exists "**Intro**: Hello there". split; [apply list_elem_of_here|]. split; [vm_compute; reflexivity|]. vm_compute. eexists. reflexivity. }
  assert (H3 : String.prefix "**" "**Note" = true) by (vm_compute; reflexivity).
  assert (H4 : section_match "**Note" = None) by (vm_compute; reflexivity).
  split_and!; [exact H1|exact H2|exact H3|exact H4|]. exact (parseScriptSections_duplicate _ _ _ _ H1 H2 H3 H4).
Defined.
